(* ===== verification/_CoqProject ===== *)
-Q . S2P
Prelude.v
GoRuntime.v
GoMemory.v
GoCopy.v
GoCopyFacts.v
DeepCopy.v
DeepCopyFacts.v
GoStrings.v
GoUrl.v
GoJson.v
Version.v
GoFlag.v
Base64.v
GoFloat.v
Externals.v
Api.v
Framework.v
Concrete.v
Authz.v
AuthzFacts.v
Secret.v
ConfigMap.v
ConfigMapFacts.v
StatefulSet.v
StatefulSetFacts.v
Role.v
RoleFacts.v
Cluster.v
ClusterFacts.v
Main.v
