(* ===== verification/Prelude.v ===== *)
(** * A verification development for the Trino operator

    The operator is a Kubernetes controller.  For every [TrinoCluster] object
    it computes the ConfigMaps, StatefulSets, Services and the Secret of a
    Trino deployment and hands them to operator-go, which writes them to the
    API server.  The program's own logic is that computation: which objects
    there are, what is in them, and how they refer to one another.

    ** The program and the files

    - [cmd/main.go]: Main.v ([init], [parse_flags], [managerOptions], [main]).
    - [internal/util/version/version.go]: Version.v ([NewAppInfo],
      [AppInfo_String]), printed by [main] and read for the image.
    - [internal/controller/trino_controller.go] reads a cluster, registers its
      resources and runs them: Cluster.v ([TrinoReconciler_Reconcile]).
    - [internal/controller/cluster/cluster.go] registers the two roles, the
      shared secret and the service of the cluster: Cluster.v
      ([ClusterReconciler_RegisterResources], [GetImage],
      [getCoordinatorSvcFqdn], [TrinoReconciler_SetupWithManager]).  Theorems in ClusterFacts.v.
    - [internal/controller/coordinator/role.go] and
      [internal/controller/worker/role.go], the same code over two types,
      register a ConfigMap, a service, a metrics service and a StatefulSet per
      role group: Role.v (class [RoleSpec], [RoleReconciler_RegisterResources],
      [registerResourceWithRoleGroup]), with
      [internal/controller/common/service.go].  Theorems in RoleFacts.v.
    - [internal/controller/common/configmap.go]: ConfigMap.v
      ([ConfigMapBuilder_Build] and the renderers).  Theorems in
      ConfigMapFacts.v.
    - [internal/controller/common/statefulset.go]: StatefulSet.v
      ([StatefulSetBuilder_Build]).  Theorems in StatefulSetFacts.v.
    - [internal/controller/common/secret.go]: Secret.v, with its theorems.
    - [internal/controller/common/authz]: Authz.v (class [Authenticator] for
      the interface, its instances [Oidc], [Static], [Ldap] and
      [TrinoAuthentication], and [NewAuthentication]).  Theorems in
      AuthzFacts.v.
    - [api/v1alpha1]: Api.v, every struct as a record.
    - [api/v1alpha1/zz_generated.deepcopy.go]: DeepCopy.v
      ([T_DeepCopyInto], [T_DeepCopy], [T_DeepCopyObject] for every struct [T]),
      over the store of GoMemory.v.  GoCopy.v has the contract of a deep copy,
      GoCopyFacts.v a rule per statement, DeepCopyFacts.v the theorems.

    A cluster calls its roles, a role the builders of ConfigMap and
    StatefulSet, and these [NewAuthentication]; definitions keep the names of
    the Go functions, with the receiver's name in front where methods of
    several types share one.

    ** How Go is modelled

    GoRuntime.v: a function that reads the outside world or ranges over a map
    is a computation [M W A], from a world to a value, an error or a panic,
    and the next world.  What the code does with [nil] is written out
    ([deref]); an error is a value returned up the chain; state that a method
    changes is passed and returned.  [returns m Q] says that every value [m]
    returns satisfies [Q]; [yields m Q] moreover that it always returns one.
    The order of iteration over a map is chosen by the world: a theorem under
    [RangeLaws] holds for every order.

    The parts of the standard library that the code uses are definitions:
    GoStrings.v ([strings.Join], [path.Join] and [path.Clean],
    [strconv.Itoa]), GoUrl.v ([URL.String] with its escaping), Base64.v,
    GoFloat.v ([float64] as IEEE binary64), GoJson.v ([json.Marshal] of structs
    of strings, with UTF-8), GoFlag.v ([flag.Parse]).

    The deep copies are the one place where it matters which values share
    memory.  There, GoMemory.v has structs, arrays, maps and variables as cells
    of a store, and pointers, slices and maps as references into it: [*out =
    *in] copies references, [new] and [make] allocate.  A [gtype] describes a
    struct, [read] gives what a variable denotes in a store, and a copy is
    correct when it denotes the same in the memory that the call allocated,
    taken alone.  Everywhere else a struct is pure data, which these theorems
    justify for the objects that controller-runtime copies.

    operator-go, controller-runtime and the Kubernetes packages are not in the
    repository.  Externals.v and Framework.v have their types, constants and
    functions as parameters (the classes), and what the operator relies on
    about them as classes whose names end in [Laws]: a properties value is a
    finite map, the builders hold the items that were added, and the like.
    Concrete.v gives one instance of all of them, which the witnesses of the
    theorems evaluate; it is a test double.  Where one of these functions can
    fail ([MakeVectorYaml], [GetObject]), the theorems say what the operator
    makes of its outcome ([ends_as], GoRuntime.v) and not that it succeeds; only
    marshalling properties is taken to succeed ([MarshalLaws]).

    ** What is shown

    - Wiring of a whole cluster (ClusterFacts): a complete specification is
      registered and run in a fixed order; the environment of a main container
      comes from the registered secret and from the secrets that OIDC entries
      name, and the variable that the configurations refer to has the value of
      the registered one; the discovery address in every configuration is the
      service of a registered coordinator group; without authentication only
      operator-go's own functions can keep an object from being built.
    - Roles (RoleFacts): every group is registered once with its own merged
      configuration; its service, container, probes and configuration agree on
      one port; a null group panics.
    - ConfigMap (ConfigMapFacts): the exact set of files and where their text
      comes from; [config.properties] keeps its settings whatever
      authentication adds; the heap is eighty percent of the memory, although
      it is computed in floating point; each catalog has its file; a worker's
      ConfigMap ends as rendering the vector agent's file does.
    - StatefulSet (StatefulSetFacts): for the StatefulSets that [Build]
      returns, without overrides of the user, volumes and mounts correspond and
      have distinct names, and the vector agent's follow; keystores lie on mounted volumes with the right
      password; authentication failures surface.
    - Authentication (AuthzFacts): [NewAuthentication] refines the reference
      function [resolve_all]; merged properties, where a static authenticator
      depends on a method call on a nil pointer; the issuer URL and the scopes
      decode; failures.
    - Secret: encoding; an existing secret is never replaced, and a loop of
      reconciliations of which one succeeds leaves it there for good.
    - Deep copies (DeepCopyFacts): every [DeepCopy] gives an equal value in
      new memory, so that a copy and its original never see each other's
      writes; [DeepCopyObject] of nil is the nil interface.
    - Version: the version line is JSON and parses to its fields.
    - Main: the command line gives its flags any values and refuses the rest;
      the servers' protocols, certificates and addresses follow their flags; the
      endings of the program.

    ** Bounds

    Only the reader of JSON objects, which is a specification, uses fuel: the
    length of the text, which bounds the number of its members.  Everything
    else is structural over lists, and maps are finite.  The theorem on the
    heap holds from 1 MiB to 2^50 bytes, where the rounding of the factor 0.8
    cannot reach the next integer (the constant exceeds 0.8 by 2/5 of 2^-53);
    it assumes that the quantity converts exactly, which holds for integers below 2^53.  Ports and replicas
    are passed on without arithmetic and are unbounded integers.

    ** What is not modelled

    Logging, the text that [flag] writes on errors, the test suite, manifests
    and documents.  What overrides of the user do to a StatefulSet, which
    operator-go applies in [GetObject], is not modelled.  The shell script of the main container is modelled as text
    only. *)

From Stdlib Require Export Ascii.
From stdpp Require Export base gmap strings list fin_maps pretty.
From Stdlib Require Export Lia.

Declare Scope go_scope.
Delimit Scope go_scope with go.

(** Go's [+] on strings is stdpp's [+:+]; here it computes under [simpl]. *)
#[global] Arguments String.append !_ _ /.

#[global] Open Scope go_scope.

Create HintDb go discriminated.
Create Rewrite HintDb go_str.

(** ** Strings *)

(** The byte that Go source writes as an escaped double quote. *)
Definition dquote : string := String (Ascii.ascii_of_nat 34) EmptyString.

Lemma str_app_nil_r (s : string) : s +:+ "" = s.
Proof. induction s as [|c s IH]; [done|]. simpl. by f_equal. Qed.

Lemma str_app_assoc (s1 s2 s3 : string) :
  (s1 +:+ s2) +:+ s3 = s1 +:+ s2 +:+ s3.
Proof. induction s1 as [|c s IH]; [done|]. simpl. by f_equal. Qed.

Lemma str_app_cons (c : ascii) (s1 s2 : string) :
  String c s1 +:+ s2 = String c (s1 +:+ s2).
Proof. done. Qed.

Lemma str_app_inj_l (s s1 s2 : string) : s +:+ s1 = s +:+ s2 → s1 = s2.
Proof. induction s as [|c s IH]; simpl; [done|]. intros [= H]. auto. Qed.

Lemma str_length_app (s1 s2 : string) :
  String.length (s1 +:+ s2) = String.length s1 + String.length s2.
Proof. induction s1 as [|c s IH]; simpl; [done|]. by rewrite IH. Qed.

Lemma str_app_inj_r (s1 s2 s : string) : s1 +:+ s = s2 +:+ s → s1 = s2.
Proof.
  revert s2. induction s1 as [|c s1 IH]; intros [|d s2]; simpl; intros H;
    [done| | |].
  - exfalso. apply (f_equal String.length) in H. simpl in H.
    rewrite str_length_app in H. lia.
  - exfalso. apply (f_equal String.length) in H. simpl in H.
    rewrite str_length_app in H. lia.
  - injection H as -> H. f_equal. auto.
Qed.

#[export] Hint Rewrite str_app_nil_r str_app_assoc : go_str.

(** The bytes of a string, in order. *)
Fixpoint bytes_of (s : string) : list ascii :=
  match s with
  | EmptyString => []
  | String c s => c :: bytes_of s
  end.

Fixpoint of_bytes (l : list ascii) : string :=
  match l with
  | [] => EmptyString
  | c :: l => String c (of_bytes l)
  end.

Lemma of_bytes_of (s : string) : of_bytes (bytes_of s) = s.
Proof. induction s; simpl; by f_equal. Qed.

Lemma bytes_of_bytes (l : list ascii) : bytes_of (of_bytes l) = l.
Proof. induction l; simpl; by f_equal. Qed.

Lemma bytes_of_app (s1 s2 : string) :
  bytes_of (s1 +:+ s2) = bytes_of s1 ++ bytes_of s2.
Proof. induction s1; simpl; by f_equal. Qed.

Lemma of_bytes_app (l1 l2 : list ascii) :
  of_bytes (l1 ++ l2) = of_bytes l1 +:+ of_bytes l2.
Proof. induction l1; simpl; by f_equal. Qed.

#[global] Instance bytes_of_inj : Inj (=) (=) bytes_of.
Proof. intros s1 s2 H. rewrite <-(of_bytes_of s1), H. apply of_bytes_of. Qed.

(** ** Lists *)

Lemma NoDup_fmap_app {A B} (f : A → B) (l1 l2 : list A) :
  NoDup (f <$> l1) → NoDup (f <$> l2) →
  (∀ x y, x ∈ l1 → y ∈ l2 → f x ≠ f y) →
  NoDup (f <$> l1 ++ l2).
Proof.
  intros H1 H2 Hne. rewrite fmap_app. apply NoDup_app.
  split_and!; [done| |done]. intros b Hb1 Hb2.
  apply list_elem_of_fmap in Hb1 as (x & -> & Hx).
  apply list_elem_of_fmap in Hb2 as (y & Heq & Hy). by eapply Hne.
Qed.

(** A fold whose steps commute does not depend on the order of the list. *)
Lemma foldl_permutation {A B} (f : B → A → B) (b : B) (l1 l2 : list A) :
  (∀ b x y, f (f b x) y = f (f b y) x) →
  l1 ≡ₚ l2 → foldl f b l1 = foldl f b l2.
Proof.
  intros Hcomm Hp. revert b.
  induction Hp as [|x l1 l2 _ IH|x y l|l1 l2 l3 _ IH1 _ IH2]; intros b; simpl;
    [done|auto|by rewrite Hcomm|by rewrite IH1].
Qed.
