(* ===== verification/GoRuntime.v ===== *)
(** * The Go run time as the operator uses it

    Go functions that read the outside world or range over a map are
    computations [M W A]: functions of a world [W] to an [outcome] and the
    next world.  An [outcome] is a value, an error returned up the call chain
    with [if err != nil { return err }], or a panic.  The iteration order of
    [range] over a map is chosen by the world (class [RangeEnv]). *)

From S2P Require Import Prelude.

(** ** Errors, panics and outcomes *)

(** An [error] value: built by [fmt.Errorf] in this repository, or returned
    by other code, which only its identity tells apart. *)
Inductive go_error : Type :=
  | Errorf (msg : string)
  | ExternalError (tag : string).

Inductive panic_reason : Type :=
  | NilDereference
  | PanicMessage (msg : string).

Inductive outcome (A : Type) : Type :=
  | Val (a : A)
  | Err (e : go_error)
  | Panic (p : panic_reason).
Arguments Val {A} _.
Arguments Err {A} _.
Arguments Panic {A} _.

#[global] Instance go_error_eq_dec : EqDecision go_error.
Proof. solve_decision. Defined.
#[global] Instance panic_reason_eq_dec : EqDecision panic_reason.
Proof. solve_decision. Defined.

#[global] Instance outcome_ret : MRet outcome := λ A a, Val a.
#[global] Instance outcome_bind : MBind outcome := λ A B f m,
  match m with
  | Val a => f a
  | Err e => Err e
  | Panic p => Panic p
  end.
#[global] Instance outcome_fmap : FMap outcome := λ A B f m,
  match m with
  | Val a => Val (f a)
  | Err e => Err e
  | Panic p => Panic p
  end.

(** Reading a field through a pointer. *)
Definition deref {A} (p : option A) : outcome A :=
  match p with
  | Some a => Val a
  | None => Panic NilDereference
  end.

(** Go's [for _, x := range xs] over a slice, with an accumulator, when the
    body can fail. *)
Fixpoint fold_outcome {A B} (f : B → A → outcome B) (b : B) (l : list A)
    : outcome B :=
  match l with
  | [] => Val b
  | x :: l => b' ← f b x; fold_outcome f b' l
  end.

(** [append(acc, f(x)...)] for each [x]: the loops of [TrinoAuthentication]. *)
Definition append_each {A B} (f : A → outcome (list B)) (l : list A)
    : outcome (list B) :=
  fold_outcome (λ acc x, ys ← f x; mret (acc ++ ys)) [] l.

(** ** Computations *)

Definition M (W A : Type) : Type := W → outcome A * W.

#[global] Instance M_ret W : MRet (M W) := λ A a w, (Val a, w).
#[global] Instance M_bind W : MBind (M W) := λ A B f m w,
  match m w with
  | (Val a, w') => f a w'
  | (Err e, w') => (Err e, w')
  | (Panic p, w') => (Panic p, w')
  end.
#[global] Instance M_fmap W : FMap (M W) := λ A B f m w,
  match m w with
  | (Val a, w') => (Val (f a), w')
  | (Err e, w') => (Err e, w')
  | (Panic p, w') => (Panic p, w')
  end.

(** A step that does not touch the world. *)
Definition lift {W A} (o : outcome A) : M W A := λ w, (o, w).

Definition throw {W A} (e : go_error) : M W A := lift (Err e).
Definition panic {W A} (p : panic_reason) : M W A := lift (Panic p).

(** A loop whose body is a computation. *)
Fixpoint foldM {W A B} (f : B → A → M W B) (b : B) (l : list A) : M W B :=
  match l with
  | [] => mret b
  | x :: l => b' ← f b x; foldM f b' l
  end.

(** ** Ranging over maps *)

(** A Go map; [None] is the nil map, which ranges like the empty one. *)
Definition gomap (A : Type) : Type := option (gmap string A).
Definition contents {A} (m : gomap A) : gmap string A := default ∅ m.

Class RangeEnv (W : Type) :=
  range_order : ∀ A : Type, gmap string A → W → list (string * A) * W.
Arguments range_order {W _ A} _ _.

(** The Go specification: every entry is visited once, in an unspecified
    order that can differ from one loop to the next. *)
Class RangeLaws (W : Type) `{!RangeEnv W} :=
  range_visits : ∀ A (m : gmap string A) (w : W),
    (range_order m w).1 ≡ₚ map_to_list m.

Definition range {W A} `{!RangeEnv W} (m : gmap string A)
    : M W (list (string * A)) :=
  λ w, let '(l, w') := range_order m w in (Val l, w').

(** ** Reasoning about outcomes *)

Section outcome_facts.
Context {A B C : Type}.
Implicit Types (o : outcome A) (f : A → outcome B) (g : B → outcome C).

Lemma outcome_bind_Val o f b :
  o ≫= f = Val b ↔ ∃ a, o = Val a ∧ f a = Val b.
Proof. destruct o; naive_solver. Qed.

Lemma outcome_bind_assoc o f g :
  (o ≫= f) ≫= g = o ≫= (λ a, f a ≫= g).
Proof. by destruct o. Qed.

Lemma outcome_fmap_Val (h : A → B) o b :
  h <$> o = Val b ↔ ∃ a, o = Val a ∧ b = h a.
Proof. destruct o; naive_solver. Qed.
End outcome_facts.

Lemma outcome_bind_ret_r {A} (o : outcome A) : o ≫= Val = o.
Proof. by destruct o. Qed.

Lemma deref_Val {A} (p : option A) (a : A) : deref p = Val a ↔ p = Some a.
Proof. destruct p; naive_solver. Qed.

Lemma fold_outcome_app {A B} (f : B → A → outcome B) b l1 l2 :
  fold_outcome f b (l1 ++ l2) = b' ← fold_outcome f b l1; fold_outcome f b' l2.
Proof.
  revert b. induction l1 as [|x l1 IH]; intros b; [done|]. simpl.
  destruct (f b x); simpl; [apply IH|done|done].
Qed.

(** A loop that only appends is a concatenation, when no call panics. *)
Lemma append_each_Val {A B} (f : A → outcome (list B)) (g : A → list B) l :
  (∀ x, x ∈ l → f x = Val (g x)) → append_each f l = Val (mjoin (g <$> l)).
Proof.
  intros Hf. unfold append_each.
  enough (∀ acc, fold_outcome (λ acc x, ys ← f x; mret (acc ++ ys)) acc l
                 = Val (acc ++ mjoin (g <$> l))) as H by apply H.
  induction l as [|x l IH]; intros acc; simpl; [by rewrite app_nil_r|].
  rewrite (Hf x) by set_solver. simpl.
  rewrite IH by set_solver. by rewrite (assoc_L (++)).
Qed.

Lemma append_each_Val_inv {A B} (f : A → outcome (list B)) l ys :
  append_each f l = Val ys → ∃ yss, Forall2 (λ x y, f x = Val y) l yss ∧ ys = mjoin yss.
Proof.
  unfold append_each.
  enough (∀ acc ys, fold_outcome (λ acc x, ys ← f x; mret (acc ++ ys)) acc l = Val ys →
     ∃ yss, Forall2 (λ x y, f x = Val y) l yss ∧ ys = acc ++ mjoin yss) as H.
  { intros (yss & ? & ?)%H. eauto. }
  induction l as [|x l IH]; intros acc zs; simpl.
  - intros [= <-]. exists []. simpl. by rewrite app_nil_r.
  - destruct (f x) as [y| |] eqn:Hx; simpl; try discriminate.
    intros (yss & Hall & ->)%IH. exists (y :: yss). simpl.
    split; [by constructor|]. by rewrite (assoc_L (++)).
Qed.

(** ** Reasoning about computations *)

(** Two computations are equivalent when they agree in every world. *)
#[global] Instance M_equiv W A : Equiv (M W A) := λ m1 m2, ∀ w, m1 w = m2 w.

#[global] Instance M_equivalence W A : Equivalence (≡@{M W A}).
Proof.
  split; [by intros m w|by intros m1 m2 H w|].
  intros m1 m2 m3 H1 H2 w. by rewrite (H1 w).
Qed.

#[global] Instance M_bind_proper W A B :
  Proper (pointwise_relation A (≡) ==> (≡) ==> (≡)) (@mbind (M W) _ A B).
Proof.
  intros f1 f2 Hf m1 m2 Hm w. unfold mbind, M_bind. rewrite (Hm w).
  destruct (m2 w) as [[a| |] w']; [apply Hf|done|done].
Qed.

Lemma M_bind_assoc {W A B C} (m : M W A) (f : A → M W B) (g : B → M W C) :
  (m ≫= f) ≫= g ≡ m ≫= (λ a, f a ≫= g).
Proof. intros w. unfold mbind, M_bind. by destruct (m w) as [[] ?]. Qed.

Lemma M_ret_bind {W A B} (a : A) (f : A → M W B) : mret a ≫= f ≡ f a.
Proof. by intros w. Qed.

Lemma M_bind_Val {W A B} (m : M W A) (f : A → M W B) w b w' :
  (m ≫= f) w = (Val b, w') ↔
  ∃ a w1, m w = (Val a, w1) ∧ f a w1 = (Val b, w').
Proof.
  unfold mbind, M_bind. destruct (m w) as [[a| |] w1]; naive_solver.
Qed.

Lemma M_bind_step {W A B} (m : M W A) (f : A → M W B) w a w1 :
  m w = (Val a, w1) → (m ≫= f) w = f a w1.
Proof. unfold mbind, M_bind. by intros ->. Qed.

Lemma M_bind_err {W A B} (m : M W A) (f : A → M W B) w e w1 :
  m w = (Err e, w1) → (m ≫= f) w = (Err e, w1).
Proof. unfold mbind, M_bind. by intros ->. Qed.

Lemma M_bind_panic {W A B} (m : M W A) (f : A → M W B) w p w1 :
  m w = (Panic p, w1) → (m ≫= f) w = (Panic p, w1).
Proof. unfold mbind, M_bind. by intros ->. Qed.

Lemma foldM_app {W A B} (f : B → A → M W B) b l1 l2 w :
  foldM f b (l1 ++ l2) w = (foldM f b l1 ≫= λ b', foldM f b' l2) w.
Proof.
  revert b w. induction l1 as [|x l1 IH]; intros b w; [done|].
  cbn [app foldM]. rewrite M_bind_assoc. unfold mbind, M_bind.
  destruct (f b x w) as [[b'| |] w']; [apply IH|done|done].
Qed.

(** [returns m Q]: every value that [m] returns satisfies [Q]. *)
Definition returns {W A} (m : M W A) (Q : A → Prop) : Prop :=
  ∀ w a w', m w = (Val a, w') → Q a.

(** [yields m Q]: [m] always returns a value, and the value satisfies [Q]. *)
Definition yields {W A} (m : M W A) (Q : A → Prop) : Prop :=
  ∀ w, ∃ a w', m w = (Val a, w') ∧ Q a.

(** [ends_as m w o]: in the world [w], [m] ends as [o] did: with a value if [o]
    is one, and otherwise with the same error or panic in the same world. *)
Definition ends_as {W A B} (m : M W A) (w : W) (o : outcome B * W) : Prop :=
  match o with
  | (Val _, _) => ∃ a w', m w = (Val a, w')
  | (Err e, w') => m w = (Err e, w')
  | (Panic p, w') => m w = (Panic p, w')
  end.

Section triples.
Context {W : Type}.

Lemma ends_as_step {A B C} (m : M W A) (f : A → M W B) w a w1 (o : outcome C * W) :
  m w = (Val a, w1) → ends_as (f a) w1 o → ends_as (m ≫= f) w o.
Proof.
  intros Hm. destruct o as [[c|e|p] w']; simpl; by rewrite (M_bind_step _ _ _ _ _ Hm).
Qed.

Lemma ends_as_bind {A B C} (m : M W A) (f : A → M W B) w (o : outcome C * W) (Q : A → Prop) :
  returns m Q → (∀ a, Q a → yields (f a) (λ _, True)) →
  ends_as m w o → ends_as (m ≫= f) w o.
Proof.
  intros HQ Hf. destruct o as [[c|e|p] w']; simpl.
  - intros (a & w1 & Hm). rewrite (M_bind_step _ _ _ _ _ Hm).
    destruct (Hf a (HQ _ _ _ Hm) w1) as (b & w2 & Hb & _). eauto.
  - apply M_bind_err.
  - apply M_bind_panic.
Qed.

Lemma returns_ret {A} (a : A) (Q : A → Prop) : Q a → returns (W:=W) (mret a) Q.
Proof. intros HQ w a' w' [= <- <-]. done. Qed.

Lemma returns_bind {A B} (m : M W A) (f : A → M W B) (P : A → Prop) Q :
  returns m P → (∀ a, P a → returns (f a) Q) → returns (m ≫= f) Q.
Proof.
  intros Hm Hf w b w' (a & w1 & H1 & H2)%M_bind_Val.
  eapply Hf; [by eapply Hm|done].
Qed.

Lemma returns_mono {A} (m : M W A) (P Q : A → Prop) :
  returns m P → (∀ a, P a → Q a) → returns m Q.
Proof. unfold returns. eauto. Qed.

Lemma returns_and {A} (m : M W A) (P Q : A → Prop) :
  returns m P → returns m Q → returns m (λ a, P a ∧ Q a).
Proof. intros HP HQ w a w' Hrun. split; [by eapply HP|by eapply HQ]. Qed.

Lemma returns_lift {A} (o : outcome A) (Q : A → Prop) :
  (∀ a, o = Val a → Q a) → returns (W:=W) (lift o) Q.
Proof. intros HQ w a w' [= ??]. eauto. Qed.

Lemma returns_foldM {A B} (f : B → A → M W B) (I : B → list A → Prop) b l :
  I b l →
  (∀ b x l', I b (x :: l') → returns (f b x) (λ b', I b' l')) →
  returns (foldM f b l) (λ b', I b' []).
Proof.
  intros Hb Hstep. revert b Hb. induction l as [|x l IH]; intros b Hb; simpl.
  - by apply returns_ret.
  - eapply returns_bind; [by apply Hstep|]. auto.
Qed.

Lemma yields_returns {A} (m : M W A) (Q : A → Prop) : yields m Q → returns m Q.
Proof. intros Hm w a w' H. destruct (Hm w) as (?&?&?&?). congruence. Qed.

Lemma yields_ret {A} (a : A) (Q : A → Prop) : Q a → yields (W:=W) (mret a) Q.
Proof. intros HQ w. by exists a, w. Qed.

Lemma yields_bind {A B} (m : M W A) (f : A → M W B) (P : A → Prop) Q :
  yields m P → (∀ a, P a → yields (f a) Q) → yields (m ≫= f) Q.
Proof.
  intros Hm Hf w. destruct (Hm w) as (a & w1 & H1 & HP).
  destruct (Hf a HP w1) as (b & w2 & H2 & HQ).
  exists b, w2. rewrite (M_bind_step _ _ _ _ _ H1). done.
Qed.

Lemma yields_mono {A} (m : M W A) (P Q : A → Prop) :
  yields m P → (∀ a, P a → Q a) → yields m Q.
Proof. intros Hm HPQ w. destruct (Hm w) as (a & w' & ? & ?). eauto. Qed.

Lemma yields_foldM {A B} (f : B → A → M W B) (I : B → list A → Prop) b l :
  I b l →
  (∀ b x l', I b (x :: l') → yields (f b x) (λ b', I b' l')) →
  yields (foldM f b l) (λ b', I b' []).
Proof.
  intros Hb Hstep. revert b Hb. induction l as [|x l IH]; intros b Hb; simpl.
  - by apply yields_ret.
  - eapply yields_bind; [by apply Hstep|]. auto.
Qed.

Lemma yields_lift {A} (o : outcome A) (a : A) (Q : A → Prop) :
  o = Val a → Q a → yields (W:=W) (lift o) Q.
Proof. intros -> HQ w. by exists a, w. Qed.
End triples.

Section range_facts.
Context `{RangeLaws W}.

Lemma range_yields {A} (m : gmap string A) :
  yields (range m) (λ l, l ≡ₚ map_to_list m).
Proof.
  intros w. unfold range. pose proof (range_visits A m w) as Hp.
  destruct (range_order m w) as [l w']. by exists l, w'.
Qed.

Lemma range_returns {A} (m : gmap string A) :
  returns (range m) (λ l, l ≡ₚ map_to_list m).
Proof. apply yields_returns, range_yields. Qed.
End range_facts.

#[export] Hint Resolve returns_ret returns_lift yields_ret range_yields range_returns : go.

(** Split a successful computation in the context into its steps. *)
Ltac inv_step H :=
  lazymatch type of H with
  | (_ ≫= _) _ = (Val _, _) =>
      let a := fresh "a" in let w := fresh "w" in let Ha := fresh "Ha" in
      apply M_bind_Val in H as (a & w & Ha & H)
  | _ ≫= _ = Val _ =>
      let a := fresh "a" in let Ha := fresh "Ha" in
      apply outcome_bind_Val in H as (a & Ha & H)
  end.

Ltac inv_steps H := repeat inv_step H; simplify_eq/=.
