(* ===== verification/GoMemory.v ===== *)
(** * Go memory: structs, pointers, slices and maps in a store

    The rest of the development reads Go values as pure data.  The generated
    deep copies are about what that reading forgets, namely which values share
    memory, so they run on a store: a finite map from locations to cells,
    where a cell holds a whole struct, array, map or local variable.  An
    address is a location and a path into its cell ([&in.Spec] and [&a[i]]
    are addresses); a pointer, a slice and a map value refer to other cells. *)

From S2P Require Import Prelude GoRuntime.

(** ** Values, addresses and the store *)

Notation loc := positive.

Inductive step : Type :=
  | Fld (field : string)
  | Idx (index : nat).

Notation path := (list step).
Notation addr := (loc * path)%type.

#[global] Instance step_eq_dec : EqDecision step.
Proof. solve_decision. Defined.

(** A value without references. *)
Inductive scalar : Type :=
  | SString (s : string)
  | SInt (z : Z)
  | SBool (b : bool).

#[global] Instance scalar_eq_dec : EqDecision scalar.
Proof. solve_decision. Defined.

(** What a variable holds.  [VNil] is the nil pointer, slice or map; a slice
    is a location of an array with an offset and a length (the capacity is
    never read here); a [VMap] is what a map refers to. *)
Inductive gval : Type :=
  | VScalar (s : scalar)
  | VNil
  | VPtr (a : addr)
  | VSlice (array : loc) (offset len : nat)
  | VMapRef (table : loc)
  | VStruct (fields : gmap string gval)
  | VArr (elements : list gval)
  | VMap (entries : gmap string gval).

Notation heap := (gmap loc gval).

Fixpoint get (v : gval) (p : path) : option gval :=
  match p with
  | [] => Some v
  | Fld f :: p =>
      match v with VStruct m => u ← m !! f; get u p | _ => None end
  | Idx i :: p =>
      match v with VArr l => u ← l !! i; get u p | _ => None end
  end.

Fixpoint put (v : gval) (p : path) (x : gval) : option gval :=
  match p with
  | [] => Some x
  | Fld f :: p =>
      match v with
      | VStruct m => u ← m !! f; u' ← put u p x; Some (VStruct (<[f:=u']> m))
      | _ => None
      end
  | Idx i :: p =>
      match v with
      | VArr l => u ← l !! i; u' ← put u p x; Some (VArr (<[i:=u']> l))
      | _ => None
      end
  end.

Definition peek (h : heap) (a : addr) : option gval := c ← h !! a.1; get c a.2.

(** The address [a.f], and the address of an element. *)
Definition sub (a : addr) (s : step) : addr := (a.1, a.2 ++ [s]).
Notation "a .[ f ]" := (sub a (Fld f)) (at level 1, left associativity, format "a .[ f ]") : go_scope.

(** ** Computations on the store *)

Notation Mem W := (M (heap * W)).

#[global] Instance Mem_range W `{!RangeEnv W} : RangeEnv (heap * W) :=
  λ A m '(h, w), let '(l, w') := range_order m w in (l, (h, w')).

#[global] Instance Mem_range_laws W `{!RangeEnv W, !RangeLaws W} : RangeLaws (heap * W).
Proof.
  intros A m [h w]. unfold range_order, Mem_range.
  pose proof (range_visits A m w). by destruct (range_order m w).
Qed.

(** Go's types exclude an access to a field, an element or a map that is not
    there; it is a failure of its own, so that its absence can be stated. *)
Definition ill_typed : panic_reason := PanicMessage "ill-typed access".

Section operations.
Context {W : Type}.

Definition load (a : addr) : Mem W gval := λ '(h, w),
  match peek h a with
  | Some v => (Val v, (h, w))
  | None => (Panic ill_typed, (h, w))
  end.

Definition store (a : addr) (v : gval) : Mem W unit := λ '(h, w),
  match c ← h !! a.1; put c a.2 v with
  | Some c' => (Val tt, (<[a.1:=c']> h, w))
  | None => (Panic ill_typed, (h, w))
  end.

(** [new(T)] and [make]: a fresh cell with the given content. *)
Definition alloc (v : gval) : Mem W loc := λ '(h, w),
  let l := fresh (dom h) in (Val l, (<[l:=v]> h, w)).

(** The address that a pointer value holds. *)
Definition pointee (p : gval) : Mem W addr :=
  match p with
  | VPtr a => mret a
  | VNil => panic NilDereference
  | _ => panic ill_typed
  end.

(** [*p] for a variable [p] that holds a pointer: the address it points to. *)
Definition deref_at (p : addr) : Mem W addr := v ← load p; pointee v.

Definition is_nil (v : gval) : bool := match v with VNil => true | _ => false end.

(** [len(s)] and [&s[i]] for the slice in the variable at [p]. *)
Definition slice_len (p : addr) : Mem W nat :=
  v ← load p;
  match v with
  | VNil => mret 0
  | VSlice _ _ n => mret n
  | _ => panic ill_typed
  end.

Definition slice_elem (p : addr) (i : nat) : Mem W addr :=
  v ← load p;
  match v with
  | VSlice l off n =>
      if decide (i < n) then mret (l, [Idx (off + i)])
      else panic (PanicMessage "index out of range")
  | _ => panic ill_typed
  end.

(** The entries of the map in the variable at [p]; reading the nil map gives
    none. *)
Definition map_entries (p : addr) : Mem W (gmap string gval) :=
  v ← load p;
  match v with
  | VNil => mret ∅
  | VMapRef t =>
      c ← load (t, []);
      match c with VMap m => mret m | _ => panic ill_typed end
  | _ => panic ill_typed
  end.

(** [( *p)[k] = v]; assigning to an entry of a nil map panics. *)
Definition map_store (p : addr) (k : string) (v : gval) : Mem W unit :=
  r ← load p;
  match r with
  | VNil => panic (PanicMessage "assignment to entry in nil map")
  | VMapRef t =>
      c ← load (t, []);
      match c with
      | VMap m => store (t, []) (VMap (<[k:=v]> m))
      | _ => panic ill_typed
      end
  | _ => panic ill_typed
  end.
End operations.

(** ** The statements of generated copies

    A function or block with an [in] and an [out] variable.  Each definition
    below is one of the shapes of [zz_generated.deepcopy.go]; the blocks start
    after [in, out := &in.F, &out.F]. *)

Definition CopyFn (W : Type) : Type := addr → addr → Mem W unit.

Section statements.
Context {W : Type} `{!RangeEnv W}.

(** [*out = *in], and [out.F = in.F] on the fields' addresses. *)
Definition assign : CopyFn W := λ in_ out, v ← load in_; store out v.

(** [if in.F != nil { ... }] *)
Definition unless_nil (body : CopyFn W) : CopyFn W := λ in_ out,
  v ← load in_; if is_nil v then mret tt else body in_ out.

(** [*out = new(T)], then [( *in).DeepCopyInto( *out)] or [**out = **in]. *)
Definition new_pointer (zero : gval) (f : CopyFn W) : CopyFn W := λ in_ out,
  n ← alloc zero;
  store out (VPtr (n, []));;
  from ← deref_at in_;
  to ← deref_at out;
  f from to.

(** [*out = make([]T, len( *in))], then
    [for i := range *in { ( *in)[i].DeepCopyInto(&( *out)[i]) }]. *)
Definition make_slice (zero : gval) (f : CopyFn W) : CopyFn W := λ in_ out,
  n ← slice_len in_;
  l ← alloc (VArr (replicate n zero));
  store out (VSlice l 0 n);;
  foldM (λ _ i,
    from ← slice_elem in_ i;
    to ← slice_elem out i;
    f from to) tt (seq 0 n).

(** The builtin [copy(dst, src)]: as many elements as both slices have. *)
Definition copy_elements : CopyFn W := λ src dst,
  n ← slice_len src;
  m ← slice_len dst;
  foldM (λ _ i,
    from ← slice_elem src i;
    to ← slice_elem dst i;
    assign from to) tt (seq 0 (n `min` m)).

(** [*out = make([]string, len( *in))], then [copy( *out, *in)]. *)
Definition make_copy (zero : gval) : CopyFn W := λ in_ out,
  n ← slice_len in_;
  l ← alloc (VArr (replicate n zero));
  store out (VSlice l 0 n);;
  copy_elements in_ out.

(** [*out = make(map[string]T, len( *in))], then
    [for key, val := range *in { ... }]. *)
Definition make_map (body : addr → addr → string → gval → Mem W unit) : CopyFn W :=
  λ in_ out,
  t ← alloc (VMap ∅);
  store out (VMapRef t);;
  m ← map_entries in_;
  kvs ← range m;
  foldM (λ _ kv, body in_ out kv.1 kv.2) tt kvs.

(** [( *out)[key] = val] *)
Definition set_entry (in_ out : addr) (key : string) (val : gval) : Mem W unit :=
  map_store out key val.

(** The body for entries that can be nil: [var outVal; if val == nil
    { ( *out)[key] = nil } else { inVal := ( *in)[key]; in, out := &inVal,
    &outVal; ... }; ( *out)[key] = outVal]. *)
Definition set_nilable (f : CopyFn W) (in_ out : addr) (key : string) (val : gval)
    : Mem W unit :=
  outVal ← alloc VNil;
  (if is_nil val then map_store out key VNil
   else
     m ← map_entries in_;
     inVal ← alloc (default VNil (m !! key));
     f (inVal, []) (outVal, []));;
  v ← load (outVal, []);
  map_store out key v.

(** [( *out)[key] = *val.DeepCopy()]: [val] is a variable of the loop. *)
Definition set_copied (deepcopy : gval → Mem W gval)
    (in_ out : addr) (key : string) (val : gval) : Mem W unit :=
  x ← alloc val;
  p ← deepcopy (VPtr (x, []));
  a ← pointee p;
  v ← load a;
  map_store out key v.

(** The body shared by every [DeepCopy]. *)
Definition deep_copy (zero : gval) (into : CopyFn W) (in_ : gval) : Mem W gval :=
  if is_nil in_ then mret VNil
  else
    n ← alloc zero;
    a ← pointee in_;
    into a (n, []);;
    mret (VPtr (n, [])).
End statements.
