(* ===== verification/GoCopy.v ===== *)
(** * The contract of a deep copy, and the rules to prove it

    A Go type is described by a [gtype]; [read] gives the value of that type
    which a variable denotes in a store, a [tree] without locations.  A copy
    is correct when it denotes the same tree in the memory that it allocated,
    alone: it shares nothing with the original.  The rules of this file prove
    that contract statement by statement. *)

From S2P Require Import Prelude GoRuntime GoMemory.

(** ** Types and what values of them denote *)

(** [External] is a type of another package; [FlatExternal] is one whose values
    hold no reference, so that an assignment copies them. *)
Inductive kind : Type := String_ | Int_ | Bool_.

Inductive gtype : Type :=
  | Scalar (k : kind)
  | Pointer (t : gtype)
  | SliceOf (t : gtype)
  | MapOf (t : gtype)
  | Struct (fields : list (string * gtype))
  | External (name : string)
  | FlatExternal (name : string).

Inductive tree : Type :=
  | TScalar (s : scalar)
  | TNil
  | TPtr (x : tree)
  | TSlice (elements : list tree)
  | TMap (entries : gmap string tree)
  | TStruct (fields : gmap string tree)
  | TOpaque (x : tree).

(** What the code relies on about the types of operator-go and of the
    Kubernetes packages: they have values in memory. *)
Class ExtMemory := {
  ext_zero : string → gval;
  ext_read : string → heap → gval → option tree;
  ext_flat_read : string → gval → option tree;
}.

Definition kind_of (s : scalar) : kind :=
  match s with SString _ => String_ | SInt _ => Int_ | SBool _ => Bool_ end.

#[global] Instance kind_eq_dec : EqDecision kind.
Proof. solve_decision. Defined.

(** Every entry of a map, when all of them can be read. *)
Definition map_read (r : gval → option tree) (m : gmap string gval)
    : option (gmap string tree) :=
  if decide (map_Forall (λ _ v, is_Some (r v)) m) then Some (omap r m) else None.

Section read.
Context `{!ExtMemory}.

Fixpoint read (t : gtype) (h : heap) (v : gval) {struct t} : option tree :=
  match t with
  | Scalar k =>
      match v with
      | VScalar s => if decide (kind_of s = k) then Some (TScalar s) else None
      | _ => None
      end
  | Pointer t =>
      match v with
      | VNil => Some TNil
      | VPtr a => u ← peek h a; x ← read t h u; Some (TPtr x)
      | _ => None
      end
  | SliceOf t =>
      match v with
      | VNil => Some TNil
      | VSlice l off n =>
          xs ← mapM (λ i, u ← peek h (l, [Idx (off + i)]); read t h u) (seq 0 n);
          Some (TSlice xs)
      | _ => None
      end
  | MapOf t =>
      match v with
      | VNil => Some TNil
      | VMapRef l =>
          match h !! l with
          | Some (VMap m) => r ← map_read (read t h) m; Some (TMap r)
          | _ => None
          end
      | _ => None
      end
  | Struct fs =>
      match v with
      | VStruct m =>
          r ← (fix read_fields fs : option (gmap string tree) :=
                 match fs with
                 | [] => Some ∅
                 | (f, t) :: fs =>
                     u ← m !! f; x ← read t h u; r ← read_fields fs; Some (<[f:=x]> r)
                 end) fs;
          Some (TStruct r)
      | _ => None
      end
  | External name => x ← ext_read name h v; Some (TOpaque x)
  | FlatExternal name => x ← ext_flat_read name v; Some (TOpaque x)
  end.

Fixpoint read_fields (fs : list (string * gtype)) (h : heap) (m : gmap string gval)
    : option (gmap string tree) :=
  match fs with
  | [] => Some ∅
  | (f, t) :: fs =>
      u ← m !! f; x ← read t h u; r ← read_fields fs h m; Some (<[f:=x]> r)
  end.

(** The zero value of a type: what [new], [make] and [var] put in memory. *)
Fixpoint zero (t : gtype) : gval :=
  match t with
  | Scalar String_ => VScalar (SString "")
  | Scalar Int_ => VScalar (SInt 0)
  | Scalar Bool_ => VScalar (SBool false)
  | Pointer _ | SliceOf _ | MapOf _ => VNil
  | Struct fs => VStruct (list_to_map ((λ ft, (ft.1, zero ft.2)) <$> fs))
  | External name | FlatExternal name => ext_zero name
  end.
End read.

(** A type whose values hold no reference. *)
Fixpoint flat (t : gtype) : bool :=
  match t with
  | Scalar _ | FlatExternal _ => true
  | Struct fs => forallb (λ ft, flat ft.2) fs
  | _ => false
  end.

(** ** The contract

    [copies_if P t f]: [f in out] writes to [out] (the place [p] of the block
    [o]) a value that denotes, in the memory [hn] that [f] allocated, what
    [in] denotes in [h]; nothing else changes.  [P] relates the value at [in]
    to the old value at [out]. *)

Section contract.
Context `{!ExtMemory} {W : Type}.

Definition copies_if (P : gval → gval → Prop) (t : gtype) (f : CopyFn W) : Prop :=
  ∀ (h : heap) w o p c ain v u x,
    h !! o = None → peek h ain = Some v → read t h v = Some x →
    get c p = Some u → P v u →
    ∃ hn c' v' w',
      f ain (o, p) (<[o:=c]> h, w) = (Val tt, (<[o:=c']> (hn ∪ h), w')) ∧
      put c p v' = Some c' ∧ hn ##ₘ <[o:=c]> h ∧ read t hn v' = Some x.

(** A function [DeepCopyInto]: whatever [out] holds. *)
Definition copies : gtype → CopyFn W → Prop := copies_if (λ _ _, True).

(** The block of a field: [out] holds the shallow copy already. *)
Definition fills : gtype → CopyFn W → Prop := copies_if (λ v u, u = v).

(** The body of such a block, for an [in] that is not nil. *)
Definition makes : gtype → CopyFn W → Prop := copies_if (λ v _, v ≠ VNil).

(** A function [DeepCopy]: the pointer it returns denotes, in new memory, what
    the given one denotes; nil gives nil. *)
Definition clones (t : gtype) (f : gval → Mem W gval) : Prop :=
  ∀ (h : heap) w q x,
    read (Pointer t) h q = Some x →
    ∃ hn q' w',
      f q (h, w) = (Val q', (hn ∪ h, w')) ∧ hn ##ₘ h ∧ read (Pointer t) hn q' = Some x.

(** The body of a loop over a map: it enters a copy of the value [v]. *)
Definition enters (t : gtype) (body : addr → addr → string → gval → Mem W unit) : Prop :=
  ∀ (h : heap) w tb mo ain aout ti m k v x,
    h !! tb = None → peek h aout = Some (VMapRef tb) →
    peek h ain = Some (VMapRef ti) → h !! ti = Some (VMap m) → m !! k = Some v →
    read t h v = Some x →
    ∃ hn v' w',
      body ain aout k v (<[tb:=VMap mo]> h, w)
      = (Val tt, (<[tb:=VMap (<[k:=v']> mo)]> (hn ∪ h), w')) ∧
      hn ##ₘ <[tb:=VMap mo]> h ∧ read t hn v' = Some x.
End contract.

(** What the operator relies on about the copies of other packages. *)
Class ExtMemoryLaws `{!ExtMemory} :=
  ext_read_mono name (h h' : heap) v x :
    ext_read name h v = Some x → h ⊆ h' → ext_read name h' v = Some x.

(** ** Paths *)

Lemma get_app v p q : get v (p ++ q) = u ← get v p; get u q.
Proof.
  revert v. induction p as [|[f|i] p IH]; intros v; simpl; [done| |];
    destruct v; simpl; try done.
  - destruct (fields !! f); simpl; [apply IH|done].
  - destruct (elements !! i); simpl; [apply IH|done].
Qed.

Lemma put_is_Some c p u v : get c p = Some u → ∃ c', put c p v = Some c'.
Proof.
  revert c. induction p as [|[f|i] p IH]; intros c; simpl; [eauto| |];
    destruct c; simpl; try done.
  - destruct (fields !! f); simpl; [|done]. intros [c' ->]%IH. simpl. eauto.
  - destruct (elements !! i); simpl; [|done]. intros [c' ->]%IH. simpl. eauto.
Qed.

Lemma get_put c p v c' : put c p v = Some c' → get c' p = Some v.
Proof.
  revert c c'. induction p as [|[f|i] p IH]; intros c c'; simpl; [congruence| |];
    destruct c; simpl; try done.
  - destruct (fields !! f); simpl; [|done]. destruct (put g p v) eqn:Hp; simpl; [|done].
    intros [= <-]. simpl. rewrite lookup_insert_eq. simpl. eauto.
  - destruct (elements !! i) eqn:Hi; simpl; [|done].
    destruct (put g p v) eqn:Hp; simpl; [|done].
    intros [= <-]. simpl. rewrite list_lookup_insert_eq by (by eapply lookup_lt_Some). simpl. eauto.
Qed.

Lemma put_put c p v c1 u : put c p v = Some c1 → put c1 p u = put c p u.
Proof.
  revert c c1. induction p as [|[f|i] p IH]; intros c c1; simpl; [done| |];
    destruct c; simpl; try done.
  - destruct (fields !! f); simpl; [|done]. destruct (put g p v) eqn:Hp; simpl; [|done].
    intros [= <-]. simpl. rewrite lookup_insert_eq. simpl. rewrite (IH _ _ Hp).
    destruct (put g p u); simpl; [|done]. by rewrite insert_insert_eq.
  - destruct (elements !! i) eqn:Hi; simpl; [|done].
    destruct (put g p v) eqn:Hp; simpl; [|done].
    intros [= <-]. simpl. rewrite list_lookup_insert_eq by (by eapply lookup_lt_Some).
    simpl. rewrite (IH _ _ Hp). destruct (put g p u); simpl; [|done].
    by rewrite list_insert_insert_eq.
Qed.

Lemma put_app c p q u v :
  get c p = Some u → put c (p ++ q) v = u' ← put u q v; put c p u'.
Proof.
  revert c. induction p as [|[f|i] p IH]; intros c; simpl.
  - intros [= ->]. by destruct (put u q v).
  - destruct c; simpl; try done. destruct (fields !! f); simpl; [|done].
    intros Hg. rewrite (IH _ Hg). by destruct (put u q v).
  - destruct c; simpl; try done. destruct (elements !! i); simpl; [|done].
    intros Hg. rewrite (IH _ Hg). by destruct (put u q v).
Qed.

(** ** Reading *)

Section read_facts.
Context `{!ExtMemory}.

Lemma read_Struct fs h v :
  read (Struct fs) h v =
  match v with
  | VStruct m => r ← read_fields fs h m; Some (TStruct r)
  | _ => None
  end.
Proof.
  destruct v; simpl; try done. f_equal.
  induction fs as [|[f t] fs IH]; simpl; [done|]. by rewrite IH.
Qed.

Lemma gtype_ind' (P : gtype → Prop) :
  (∀ k, P (Scalar k)) → (∀ t, P t → P (Pointer t)) → (∀ t, P t → P (SliceOf t)) →
  (∀ t, P t → P (MapOf t)) →
  (∀ fs, Forall (λ ft, P ft.2) fs → P (Struct fs)) →
  (∀ n, P (External n)) → (∀ n, P (FlatExternal n)) → ∀ t, P t.
Proof.
  intros H1 H2 H3 H4 H5 H6 H7. fix IH 1. intros [k|t|t|t|fs|n|n].
  1: apply H1. 1: apply H2, IH. 1: apply H3, IH. 1: apply H4, IH. 2: apply H6. 2: apply H7.
  apply H5. induction fs as [|[f t] fs IHfs]; constructor; [apply IH|done].
Qed.

Lemma map_read_Some r (m : gmap string gval) X :
  map_read r m = Some X ↔
  ∀ k, match m !! k with
       | Some v => ∃ x, r v = Some x ∧ X !! k = Some x
       | None => X !! k = None
       end.
Proof.
  unfold map_read. case_decide as Hall.
  - split.
    + intros [= <-] k. rewrite lookup_omap. destruct (m !! k) as [v|] eqn:Hk; [|done].
      destruct (Hall _ _ Hk) as [x Hx]. exists x. simpl. by rewrite Hx.
    + intros HX. f_equal. apply map_eq. intros k. rewrite lookup_omap.
      specialize (HX k). destruct (m !! k); simpl; [|done].
      destruct HX as (x & -> & ->). done.
  - split; [done|]. intros HX. destruct Hall. intros k v Hk. specialize (HX k).
    rewrite Hk in HX. destruct HX as (x & -> & _). eauto.
Qed.

Lemma peek_mono (h h' : heap) a v : peek h a = Some v → h ⊆ h' → peek h' a = Some v.
Proof.
  unfold peek. destruct (h !! a.1) as [c|] eqn:Hc; simpl; [|done].
  intros Hv Hsub. by rewrite (lookup_weaken _ _ _ _ Hc Hsub).
Qed.

Lemma map_read_mono (r r' : gval → option tree) m X :
  (∀ v x, r v = Some x → r' v = Some x) → map_read r m = Some X → map_read r' m = Some X.
Proof.
  intros Hr. rewrite !map_read_Some. intros HX k. specialize (HX k).
  destruct (m !! k); [|done]. destruct HX as (x & ? & ?). eauto.
Qed.

Lemma mapM_mono {A B} (f g : A → option B) l ys :
  (∀ x y, f x = Some y → g x = Some y) → mapM f l = Some ys → mapM g l = Some ys.
Proof.
  rewrite !mapM_Some. intros Hfg Hall. eapply Forall2_impl; [exact Hall|]. eauto.
Qed.

Lemma read_fields_mono fs (h h' : heap) m r :
  Forall (λ ft, ∀ v x, read ft.2 h v = Some x → read ft.2 h' v = Some x) fs →
  read_fields fs h m = Some r → read_fields fs h' m = Some r.
Proof.
  intros Hall. revert r. induction Hall as [|[f t] fs Ht _ IH]; intros r; simpl; [done|].
  destruct (m !! f) as [u|]; simpl; [|done].
  destruct (read t h u) as [x|] eqn:Hx; simpl; [|done].
  rewrite (Ht _ _ Hx : read t h' u = Some x). simpl.
  destruct (read_fields fs h m) as [r'|]; simpl; [|done]. by rewrite (IH _ eq_refl).
Qed.

Lemma read_mono `{!ExtMemoryLaws} t (h h' : heap) v x :
  read t h v = Some x → h ⊆ h' → read t h' v = Some x.
Proof.
  intros Hx Hsub. revert v x Hx.
  induction t as [k|t IH|t IH|t IH|fs IH|n|n] using gtype_ind'; intros v x.
  - done.
  - destruct v; simpl; try done. destruct (peek h a) as [u|] eqn:Hu; simpl; [|done].
    rewrite (peek_mono _ _ _ _ Hu Hsub). simpl.
    destruct (read t h u) as [y|] eqn:Hy; simpl; [|done]. by rewrite (IH _ _ Hy).
  - destruct v as [| | |l off n| | | |]; simpl; try done.
    destruct (mapM _ (seq 0 n)) as [xs|] eqn:Hxs; simpl; [|done].
    erewrite mapM_mono; [|clear Hxs|exact Hxs]; [done|]. simpl. intros i y.
    destruct (peek h _) as [u|] eqn:Hu; simpl; [|done].
    rewrite (peek_mono _ _ _ _ Hu Hsub). simpl. apply IH.
  - destruct v; simpl; try done. destruct (h !! table) as [c|] eqn:Hc; [|done].
    rewrite (lookup_weaken _ _ _ _ Hc Hsub). destruct c; try done.
    destruct (map_read (read t h) entries) as [r|] eqn:Hr; simpl; [|done].
    erewrite map_read_mono; [|exact IH|exact Hr]. done.
  - rewrite !read_Struct. destruct v; try done.
    destruct (read_fields fs h fields) as [r|] eqn:Hr; simpl; [|done].
    by erewrite read_fields_mono.
  - simpl. destruct (ext_read n h v) as [y|] eqn:Hy; simpl; [|done].
    by rewrite (ext_read_mono _ _ _ _ _ Hy Hsub).
  - done.
Qed.

Lemma read_flat t (h h' : heap) v x : flat t → read t h v = Some x → read t h' v = Some x.
Proof.
  revert v x. induction t as [k|t IH|t IH|t IH|fs IH|n|n] using gtype_ind'; try done.
  intros v x Hflat. rewrite !read_Struct. destruct v; try done.
  destruct (read_fields fs h fields) as [r|] eqn:Hr; simpl; [|done].
  erewrite read_fields_mono; [done| |done]. apply Forall_forall.
  intros ft Hft v x'. rewrite Forall_forall in IH. apply IH; [done|].
  simpl in Hflat. rewrite forallb_True, Forall_forall in Hflat. by apply Hflat.
Qed.

(** The entries of a struct that [read_fields] looks at. *)
Lemma read_fields_agree fs (h : heap) m m' :
  (∀ f, f ∈ fs.*1 → m' !! f = m !! f) → read_fields fs h m' = read_fields fs h m.
Proof.
  induction fs as [|[f t] fs IH]; intros Hag; simpl; [done|].
  rewrite (Hag f) by set_solver. rewrite IH by set_solver. done.
Qed.

Lemma read_fields_cons f t fs h m r :
  read_fields ((f, t) :: fs) h m = Some r ↔
  ∃ u x r', m !! f = Some u ∧ read t h u = Some x ∧
            read_fields fs h m = Some r' ∧ r = <[f:=x]> r'.
Proof.
  simpl. destruct (m !! f) as [u|]; simpl; [|naive_solver].
  destruct (read t h u) as [x|] eqn:Hx; simpl; [|naive_solver].
  destruct (read_fields fs h m); simpl; naive_solver.
Qed.
End read_facts.
