(* ===== verification/GoCopyFacts.v ===== *)
(** * The rules of deep copies

    One rule per statement shape of GoMemory.v: from the contracts of the
    copies it calls follows the contract of the statement. *)

From S2P Require Import Prelude GoRuntime GoMemory GoCopy.

(** ** Single operations *)

Section run.
Context {W : Type}.
Implicit Types (h : heap) (w : W).

Lemma put_get c p u : get c p = Some u → put c p u = Some c.
Proof.
  revert c. induction p as [|[f|i] p IH]; intros c; simpl; [done| |];
    destruct c; simpl; try done.
  - destruct (fields !! f) eqn:Hf; simpl; [|done]. intros Hg.
    rewrite (IH _ Hg). simpl. by rewrite insert_id.
  - destruct (elements !! i) eqn:Hi; simpl; [|done]. intros Hg.
    rewrite (IH _ Hg). simpl. by rewrite list_insert_id.
Qed.

Lemma load_run h w a v : peek h a = Some v → load a (h, w) = (Val v, (h, w)).
Proof. unfold load. by intros ->. Qed.

Lemma store_block h w o p c c' v :
  put c p v = Some c' → store (o, p) v (<[o:=c]> h, w) = (Val tt, (<[o:=c']> h, w)).
Proof.
  unfold store. simpl. rewrite lookup_insert_eq. simpl. intros ->.
  by rewrite insert_insert_eq.
Qed.

Lemma bind_run {A B} (m : Mem W A) (k : A → Mem W B) s a s' :
  m s = (Val a, s') → (m ≫= k) s = k a s'.
Proof. apply M_bind_step. Qed.

Lemma ret_run {A B} (a : A) (k : A → Mem W B) s : (mret a ≫= k) s = k a s.
Proof. done. Qed.

Lemma peek_block h o p c u : get c p = Some u → peek (<[o:=c]> h) (o, p) = Some u.
Proof. unfold peek. simpl. by rewrite lookup_insert_eq. Qed.

Lemma peek_under h o c a u : h !! o = None → peek h a = Some u → peek (<[o:=c]> h) a = Some u.
Proof. intros Ho Hu. eapply peek_mono; [done|]. by apply insert_subseteq. Qed.

Lemma peek_field h a m f : peek h a = Some (VStruct m) → peek h a.[f] = m !! f.
Proof.
  unfold peek, sub. simpl. destruct (h !! a.1); simpl; [|done]. intros Hg.
  rewrite get_app, Hg. simpl. by destruct (m !! f).
Qed.

Lemma get_field c p m f : get c p = Some (VStruct m) → get c (p ++ [Fld f]) = m !! f.
Proof. intros Hg. rewrite get_app, Hg. simpl. by destruct (m !! f). Qed.

Lemma put_field c p m f u v :
  get c p = Some (VStruct m) → m !! f = Some u →
  put c (p ++ [Fld f]) v = put c p (VStruct (<[f:=v]> m)).
Proof. intros Hg Hf. rewrite (put_app _ _ _ _ _ Hg). simpl. by rewrite Hf. Qed.

Lemma fresh_None h : h !! fresh (dom h) = None.
Proof. apply not_elem_of_dom, is_fresh. Qed.

(** Two blocks over a common rest. *)
Lemma blocks_swap h (o n : loc) c c1 z :
  o ≠ n → <[o:=c1]> (<[n:=z]> (<[o:=c]> h)) = <[n:=z]> (<[o:=c1]> h).
Proof. intros. rewrite insert_insert_ne by done. by rewrite insert_insert_eq. Qed.

(** Folding the block of a new cell into the new memory. *)
Lemma block_into_new h hn (o n : loc) c1 z :
  o ≠ n → hn !! o = None →
  <[n:=z]> (hn ∪ <[o:=c1]> h) = <[o:=c1]> (<[n:=z]> hn ∪ h).
Proof.
  intros Hne Ho. rewrite <-insert_union_r by done.
  rewrite insert_insert_ne by done. by rewrite insert_union_l.
Qed.
End run.

Arguments bind_run {W A B m k s a s'} _.

(** One step of a computation whose result is known. *)
Tactic Notation "run" uconstr(H) := rewrite (bind_run H); cbv beta.

(** ** Structs *)

Section structs.
Context `{!ExtMemory, !ExtMemoryLaws} {W : Type} `{!RangeEnv W}.
Implicit Types (h hn : heap) (w : W).

Lemma copies_under P t (g : CopyFn W) h hn w o p c a v x u :
  copies_if P t g → h !! o = None → hn !! o = None → hn ##ₘ h →
  peek h a = Some v → read t h v = Some x → get c p = Some u → P v u →
  ∃ hn' c' v' w',
    g a (o, p) (<[o:=c]> (hn ∪ h), w) = (Val tt, (<[o:=c']> (hn' ∪ h), w')) ∧
    hn ⊆ hn' ∧ hn' ##ₘ h ∧ hn' !! o = None ∧
    put c p v' = Some c' ∧ read t hn' v' = Some x.
Proof.
  intros Hg Ho Hno Hdisj Ha Hx Hu HP.
  assert (h ⊆ hn ∪ h) as Hsub by by apply map_union_subseteq_r.
  destruct (Hg (hn ∪ h) w o p c a v u x) as (hk & c' & v' & w' & Hrun & Hput & Hk & Hread);
    [by apply lookup_union_None|by eapply peek_mono|by eapply read_mono|done|done|].
  apply map_disjoint_insert_r in Hk as [Hko Hk].
  apply map_disjoint_union_r in Hk as [Hkn Hkh].
  exists (hk ∪ hn), c', v', w'. rewrite <-(assoc_L (∪)).
  split_and!; [done|by apply map_union_subseteq_r| | |done|].
  - by apply map_disjoint_union_l.
  - by apply lookup_union_None.
  - eapply read_mono; [done|]. apply map_union_subseteq_l.
Qed.

(** The steps of a struct copy cover its fields, in order; a field without
    references needs none. *)
Inductive steps_for : list (string * gtype) → list (string * CopyFn W) → Prop :=
  | steps_nil : steps_for [] []
  | steps_flat f t fs l : flat t → steps_for fs l → steps_for ((f, t) :: fs) l
  | steps_step f t g fs l :
      fills t g → steps_for fs l → steps_for ((f, t) :: fs) ((f, g) :: l).

Definition run_steps (l : list (string * CopyFn W)) : CopyFn W := λ in_ out,
  foldr (λ fg k, fg.2 in_.[fg.1] out.[fg.1];; k) (mret tt) l.

Lemma fields_run fs l : steps_for fs l → NoDup fs.*1 →
  ∀ h hn w ain o p c m mo r,
  h !! o = None → hn !! o = None → hn ##ₘ h →
  peek h ain = Some (VStruct m) → read_fields fs h m = Some r →
  get c p = Some (VStruct mo) → (∀ f, f ∈ fs.*1 → mo !! f = m !! f) →
  ∃ hn' c' mo' w',
    run_steps l ain (o, p) (<[o:=c]> (hn ∪ h), w) = (Val tt, (<[o:=c']> (hn' ∪ h), w')) ∧
    hn ⊆ hn' ∧ hn' ##ₘ h ∧ hn' !! o = None ∧
    put c p (VStruct mo') = Some c' ∧ read_fields fs hn' mo' = Some r ∧
    (∀ f, f ∉ fs.*1 → mo' !! f = mo !! f).
Proof.
  induction 1 as [|f t fs l Hflat _ IH|f t g fs l Hg _ IH]; simpl;
    intros Hnd h hn w ain o p c m mo r Ho Hno Hdisj Hin Hr Hout Hag.
  - exists hn, c, mo, w. split_and!; try done. by apply put_get.
  - apply NoDup_cons in Hnd as [Hf Hnd].
    apply read_fields_cons in Hr as (u & x & r' & Hu & Hx & Hr & ->).
    destruct (IH Hnd h hn w ain o p c m mo r') as (hn' & c' & mo' & w' & Hrun & H1 & H2 & H3 & H4 & H5 & H6);
      [done..|set_solver|].
    exists hn', c', mo', w'. split_and!; try done; [|set_solver].
    apply read_fields_cons. exists u, x, r'. split_and!; [|by eapply read_flat|done|done].
    rewrite H6 by done. rewrite Hag by set_solver. done.
  - apply NoDup_cons in Hnd as [Hf Hnd].
    apply read_fields_cons in Hr as (u & x & r' & Hu & Hx & Hr & ->).
    assert (mo !! f = Some u) as Hmo by (rewrite Hag by set_solver; done).
    destruct (copies_under (λ v u, u = v) t g h hn w o (p ++ [Fld f]) c ain.[f] u x u)
      as (h1 & c1 & v1 & w1 & Hrun1 & Hs1 & Hd1 & Ho1 & Hp1 & Hx1);
      [done..|by rewrite (peek_field _ _ _ _ Hin)|done|by rewrite (get_field _ _ _ _ Hout)|done|].
    rewrite (put_field _ _ _ _ _ _ Hout Hmo) in Hp1.
    destruct (IH Hnd h h1 w1 ain o p c1 m (<[f:=v1]> mo) r')
      as (h2 & c2 & mo2 & w2 & Hrun2 & Hs2 & Hd2 & Ho2 & Hp2 & Hr2 & Hrest);
      [done..|by eapply get_put| |].
    { intros f' Hf'. rewrite lookup_insert_ne by set_solver. apply Hag. set_solver. }
    exists h2, c2, mo2, w2. split_and!; try done.
    + run Hrun1. exact Hrun2.
    + by etrans.
    + by rewrite <-(put_put _ _ _ _ _ Hp1).
    + apply read_fields_cons. exists v1, x, r'.
      rewrite Hrest, lookup_insert_eq by done. split_and!; try done.
      by eapply read_mono.
    + intros f' Hf'. rewrite Hrest by set_solver. rewrite lookup_insert_ne by set_solver. done.
Qed.

(** A struct: [*out = *in], then the steps of its fields. *)
Lemma struct_copies fs l : steps_for fs l → NoDup fs.*1 →
  copies (Struct fs) (λ in_ out, assign in_ out;; run_steps l in_ out).
Proof.
  intros Hsteps Hnd h w o p c ain v u x Ho Hin Hx Hu _.
  rewrite read_Struct in Hx. destruct v as [| | | | |m| |]; try done.
  destruct (read_fields fs h m) as [r|] eqn:Hr; [|done]. injection Hx as <-.
  destruct (put_is_Some _ _ _ (VStruct m) Hu) as [c1 Hc1].
  destruct (fields_run fs l Hsteps Hnd h ∅ w ain o p c1 m m r)
    as (hn & c2 & mo & w' & Hrun & _ & Hd & Hno & Hp & Hr' & _);
    [done..|apply map_disjoint_empty_l|done|done|by eapply get_put|done|].
  rewrite (left_id_L ∅ (∪)) in Hrun.
  exists hn, c2, (VStruct mo), w'. split_and!.
  - assert (assign ain (o, p) (<[o:=c]> h, w) = (Val tt, (<[o:=c1]> h, w))) as Hassign.
    { unfold assign. run (load_run _ _ _ _ (peek_under _ _ _ _ _ Ho Hin)).
      by apply store_block. }
    run Hassign. exact Hrun.
  - by rewrite <-(put_put _ _ _ _ _ Hc1).
  - by apply map_disjoint_insert_r.
  - by rewrite read_Struct, Hr'.
Qed.

(** Types without references. *)
Lemma assign_copies t : flat t → copies (W:=W) t assign.
Proof.
  intros Hflat h w o p c ain v u x Ho Hin Hx Hu _.
  destruct (put_is_Some _ _ _ v Hu) as [c1 Hc1].
  exists ∅, c1, v, w. rewrite (left_id_L ∅ (∪)). split_and!; [|done| |].
  - unfold assign. run (load_run _ _ _ _ (peek_under _ _ _ _ _ Ho Hin)).
    by apply store_block.
  - apply map_disjoint_empty_l.
  - by eapply read_flat.
Qed.

Lemma copies_fills t (f : CopyFn W) : copies t f → fills t f.
Proof. intros Hf h w o p c ain v u x ???? _. by eapply Hf. Qed.

Lemma assign_fills t : flat t → fills (W:=W) t assign.
Proof. intros. by apply copies_fills, assign_copies. Qed.

(** [if in.F != nil { ... }] *)
Definition nilable (t : gtype) : Prop := ∀ h, read t h VNil = Some TNil.

Lemma unless_nil_fills t (f : CopyFn W) : nilable t → makes t f → fills t (unless_nil f).
Proof.
  intros Hnil Hf h w o p c ain v u x Ho Hin Hx Hu ->.
  unfold unless_nil. destruct (is_nil v) eqn:Hv.
  - destruct v; try done. rewrite Hnil in Hx. simplify_eq.
    exists ∅, c, VNil, w. rewrite (left_id_L ∅ (∪)). split_and!.
    + by run (load_run _ _ _ _ (peek_under _ _ _ _ _ Ho Hin)).
    + by apply put_get.
    + apply map_disjoint_empty_l.
    + apply Hnil.
  - destruct (Hf h w o p c ain v v x) as (hn & c' & v' & w' & Hrun & ?);
      [done..|by intros ->|].
    exists hn, c', v', w'. split; [|done].
    run (load_run _ _ _ _ (peek_under _ _ _ _ _ Ho Hin)). by rewrite Hv.
Qed.
End structs.

(** ** Pointers, slices and maps *)

Section blocks.
Context `{!ExtMemory, !ExtMemoryLaws} {W : Type} `{!RangeEnv W}.
Implicit Types (h hn : heap) (w : W).

(** A new cell and the reference to it in [out]. *)
Lemma alloc_store h w o p c u (zero : gval) (ref : loc → gval) :
  h !! o = None → get c p = Some u →
  ∃ n c1, o ≠ n ∧ h !! n = None ∧ put c p (ref n) = Some c1 ∧ ∀ A (k : loc → Mem W A),
    (l ← alloc zero; store (o, p) (ref l);; k l) (<[o:=c]> h, w)
    = k n (<[n:=zero]> (<[o:=c1]> h), w).
Proof.
  intros Ho Hu. pose proof (fresh_None (<[o:=c]> h)) as Hn.
  set (n := fresh (dom (<[o:=c]> h))) in *.
  apply lookup_insert_None in Hn as [Hn Hne].
  destruct (put_is_Some _ _ _ (ref n) Hu) as [c1 Hc1].
  exists n, c1. split_and!; try done. intros A k.
  assert (alloc zero (<[o:=c]> h, w) = (Val n, (<[n:=zero]> (<[o:=c]> h), w))) as Ha by done.
  run Ha.
  rewrite insert_insert_ne by done.
  run (store_block _ _ _ _ _ _ _ Hc1).
  by rewrite insert_insert_ne by done.
Qed.

Lemma deref_run h w a b : peek h a = Some (VPtr b) → deref_at a (h, w) = (Val b, (h, w)).
Proof. intros Ha. unfold deref_at. by run (load_run _ _ _ _ Ha). Qed.

(** The new cell joins the new memory. *)
Lemma new_disjoint h hn (o n : loc) c c1 z :
  o ≠ n → h !! o = None → h !! n = None → hn ##ₘ <[n:=z]> (<[o:=c1]> h) →
  ∀ z', <[n:=z']> hn ##ₘ <[o:=c]> h ∧ hn !! o = None ∧ hn !! n = None.
Proof.
  intros Hne Ho Hn Hd z'.
  apply map_disjoint_insert_r in Hd as [Hnn Hd].
  apply map_disjoint_insert_r in Hd as [Hno Hd].
  split_and!; [|done..]. apply map_disjoint_insert_l. split.
  - by rewrite lookup_insert_ne.
  - by apply map_disjoint_insert_r.
Qed.

Lemma pointer_makes t zero (f : CopyFn W) :
  copies t f → makes (Pointer t) (new_pointer zero f).
Proof.
  intros Hf h w o p c ain v u x Ho Hin Hx Hu Hv.
  simpl in Hx. destruct v as [| |b| | | | |]; try done.
  destruct (peek h b) as [y|] eqn:Hb; [|done]. simpl in Hx.
  destruct (read t h y) as [x0|] eqn:Hy; simplify_eq/=.
  destruct (alloc_store h w o p c u zero (λ n, VPtr (n, [])) Ho Hu)
    as (n & c1 & Hne & Hn & Hc1 & Hrun).
  assert (h ⊆ <[o:=c1]> h) as Hsub by by apply insert_subseteq.
  assert ((<[o:=c1]> h) !! n = None) as Hn1 by by rewrite lookup_insert_ne.
  destruct (Hf (<[o:=c1]> h) w n [] zero b y zero x0) as (hn & c' & v' & w' & Hf' & Hput & Hd & Hr);
    [done|by eapply peek_mono|by eapply read_mono|done|done|].
  simplify_eq/=. destruct (new_disjoint h hn o n c c1 zero Hne Ho Hn Hd c') as (Hd' & Hno & Hnn).
  exists (<[n:=c']> hn), c1, (VPtr (n, [])), w'. split_and!; [|done|done|].
  - unfold new_pointer. rewrite Hrun.
    run (deref_run _ _ ain b (peek_under _ _ _ _ _ Hn1 (peek_mono _ _ _ _ Hin Hsub))).
    run (deref_run _ _ (o, p) (n, [])
      (peek_under _ _ _ _ _ Hn1 (peek_block _ _ _ _ _ (get_put _ _ _ _ Hc1)))).
    rewrite Hf'. by rewrite block_into_new.
  - unfold peek. simpl. rewrite lookup_insert_eq. simpl.
    erewrite read_mono; [done|done|by apply insert_subseteq].
Qed.

(** *** Slices *)

(** The elements of a slice of [n] values. *)
Lemma read_SliceOf t h li off n x :
  read (SliceOf t) h (VSlice li off n) = Some x →
  ∃ xs, x = TSlice xs ∧ length xs = n ∧
    ∀ i, i < n → ∃ u y, peek h (li, [Idx (off + i)]) = Some u ∧
                        read t h u = Some y ∧ xs !! i = Some y.
Proof.
  simpl. destruct (mapM _ (seq 0 n)) as [xs|] eqn:Hxs; simpl; [|done]. intros [= <-].
  apply mapM_Some in Hxs. exists xs.
  assert (length xs = n) as Hlen by (by rewrite <-(Forall2_length _ _ _ Hxs), length_seq).
  split_and!; [done|done|]. intros i Hi.
  destruct (lookup_lt_is_Some_2 xs i) as [y Hy]; [lia|].
  destruct (Forall2_lookup_r _ _ _ _ _ Hxs Hy) as (j & Hj & Hread).
  apply lookup_seq in Hj as [-> _]. simpl in Hread.
  destruct (peek h _) as [u|]; simpl in Hread; [|done]. eauto.
Qed.

(** A whole array is read through a slice of it. *)
Lemma read_array t h l es xs :
  h !! l = Some (VArr es) → length xs = length es →
  (∀ i y, xs !! i = Some y → ∃ v, es !! i = Some v ∧ read t h v = Some y) →
  read (SliceOf t) h (VSlice l 0 (length es)) = Some (TSlice xs).
Proof.
  intros Hl Hlen Hall. simpl.
  enough (mapM (λ i, u ← peek h (l, [Idx i]); read t h u) (seq 0 (length es)) = Some xs) as ->
    by done.
  apply mapM_Some, Forall2_same_length_lookup. split; [by rewrite length_seq|].
  intros i j y [-> _]%lookup_seq Hy. simpl.
  destruct (Hall _ _ Hy) as (v & Hv & Hr). unfold peek. simpl. rewrite Hl. simpl.
  by rewrite Hv.
Qed.

Lemma slice_elem_run h w p l off n i :
  peek h p = Some (VSlice l off n) → i < n →
  slice_elem p i (h, w) = (Val (l, [Idx (off + i)]), (h, w)).
Proof.
  intros Hp Hi. unfold slice_elem. run (load_run _ _ _ _ Hp).
  by rewrite decide_True.
Qed.

Lemma slice_len_run h w p l off n :
  peek h p = Some (VSlice l off n) → slice_len p (h, w) = (Val n, (h, w)).
Proof. intros Hp. unfold slice_len. by run (load_run _ _ _ _ Hp). Qed.
(** The loop over the elements [k], [k + 1], ... of both slices; [es] is the
    new array. *)
Lemma elements_run t (f : CopyFn W) h ain aout li off l n (xs : list tree) :
  copies t f → h !! l = None →
  peek h ain = Some (VSlice li off n) → peek h aout = Some (VSlice l 0 n) →
  (∀ i, i < n → ∃ u y, peek h (li, [Idx (off + i)]) = Some u ∧
                       read t h u = Some y ∧ xs !! i = Some y) →
  ∀ j k hn w es, k + j = n → length es = n → hn !! l = None → hn ##ₘ h →
  ∃ hn' es' w',
    foldM (λ _ i, from ← slice_elem ain i; to ← slice_elem aout i; f from to) tt (seq k j)
      (<[l:=VArr es]> (hn ∪ h), w) = (Val tt, (<[l:=VArr es']> (hn' ∪ h), w')) ∧
    hn ⊆ hn' ∧ hn' ##ₘ h ∧ hn' !! l = None ∧ length es' = n ∧
    (∀ i, i < k → es' !! i = es !! i) ∧
    (∀ i, k ≤ i < n → ∃ v y, es' !! i = Some v ∧ read t hn' v = Some y ∧ xs !! i = Some y).
Proof.
  intros Hf Hl Hin Hout Hall j.
  induction j as [|j IH]; intros k hn w es Hk Hes Hln Hd; cbn [seq foldM].
  - exists hn, es, w. split_and!; try done. intros. lia.
  - assert (k < n) as Hkn by lia.
    destruct (Hall k Hkn) as (u & y & Hu & Hy & Hxs).
    destruct (lookup_lt_is_Some_2 es k) as [e He]; [lia|].
    assert (h ⊆ <[l:=VArr es]> (hn ∪ h)) as Hsub.
    { etrans; [by apply map_union_subseteq_r|]. apply insert_subseteq.
      by apply lookup_union_None. }
    destruct (copies_under _ t f h hn w l [Idx k] (VArr es) (li, [Idx (off + k)]) u y e Hf)
      as (h1 & c1 & v1 & w1 & Hrun & Hs1 & Hd1 & Hl1 & Hp1 & Hr1); [done..|by simpl; rewrite He|done|].
    simpl in Hp1. rewrite He in Hp1. simplify_eq/=.
    destruct (IH (S k) h1 w1 (<[k:=v1]> es)) as (h2 & es2 & w2 & Hrun2 & Hs2 & Hd2 & Hl2 & Hlen2 & Hlt & Hge);
      [lia|by rewrite length_insert|done..|].
    exists h2, es2, w2. split_and!; try done.
    + assert ((from ← slice_elem ain k; to ← slice_elem aout k; f from to)
        (<[l:=VArr es]> (hn ∪ h), w) = (Val tt, (<[l:=VArr (<[k:=v1]> es)]> (h1 ∪ h), w1))) as Hk1.
      { run (slice_elem_run _ _ _ _ _ _ _ (peek_mono _ _ _ _ Hin Hsub) Hkn).
        run (slice_elem_run _ _ _ _ _ _ _ (peek_mono _ _ _ _ Hout Hsub) Hkn).
        exact Hrun. }
      run Hk1. by rewrite Hrun2.
    + by etrans.
    + intros i Hi. rewrite Hlt by lia. rewrite list_lookup_insert_ne by lia. done.
    + intros i Hi. destruct (decide (i = k)) as [->|]; [|apply Hge; lia].
      exists v1, y. rewrite Hlt by lia. rewrite list_lookup_insert_eq by lia.
      split_and!; try done. by eapply read_mono.
Qed.

(** The two shapes of a slice copy: both fill a new array of [n] elements. *)
Lemma array_makes t zero (f : CopyFn W) (g : nat → CopyFn W) :
  copies t f →
  (∀ in_ out l0 off0 l n h w, peek h in_ = Some (VSlice l0 off0 n) →
     peek h out = Some (VSlice l 0 n) →
     g n in_ out (h, w) = foldM (λ _ i, from ← slice_elem in_ i; to ← slice_elem out i;
                                      f from to) tt (seq 0 n) (h, w)) →
  makes (SliceOf t) (λ in_ out,
    n ← slice_len in_; l ← alloc (VArr (replicate n zero));
    store out (VSlice l 0 n);; g n in_ out).
Proof.
  intros Hf Hg h w o p c ain v u x Ho Hin Hx Hu Hv.
  destruct v as [| | |li off n| | | |]; try done.
  destruct (read_SliceOf _ _ _ _ _ _ Hx) as (xs & -> & Hlen & Hall).
  destruct (alloc_store h w o p c u (VArr (replicate n zero)) (λ l, VSlice l 0 n) Ho Hu)
    as (l & c1 & Hne & Hl & Hc1 & Hrun).
  set (h1 := <[o:=c1]> h) in *.
  assert (h ⊆ h1) as Hsub by by apply insert_subseteq.
  assert (h1 !! l = None) as Hl1 by by apply lookup_insert_None.
  assert (peek h1 (o, p) = Some (VSlice l 0 n)) as Hout
    by by apply peek_block, (get_put _ _ _ _ Hc1).
  assert (peek h1 ain = Some (VSlice li off n)) as Hin1 by by eapply peek_mono.
  destruct (elements_run t f h1 ain (o, p) li off l n xs Hf Hl1 Hin1 Hout) with
    (j := n) (k := 0) (hn := ∅ : heap) (w := w) (es := replicate n zero)
    as (hn & es & w' & Hloop & _ & Hd & Hln & Hles & _ & Hes);
    [|done|by rewrite length_replicate|done|apply map_disjoint_empty_l|].
  { intros i Hi. destruct (Hall i Hi) as (u' & y & ? & ? & ?). exists u', y.
    split_and!; [by eapply peek_mono|by eapply read_mono|done]. }
  rewrite (left_id_L ∅ (∪)) in Hloop.
  assert (hn ##ₘ <[l:=VArr es]> h1) as Hd' by by apply map_disjoint_insert_r.
  destruct (new_disjoint h hn o l c c1 _ Hne Ho Hl Hd' (VArr es)) as (Hd2 & Hno & _).
  exists (<[l:=VArr es]> hn), c1, (VSlice l 0 n), w'. split_and!; [|done|done|].
  - run (slice_len_run _ _ _ _ _ _ (peek_under _ _ _ _ _ Ho Hin)). rewrite Hrun.
    rewrite (Hg _ _ _ _ _ _ _ _ (peek_under _ _ _ _ _ Hl1 Hin1) (peek_under _ _ _ _ _ Hl1 Hout)).
    etrans; [exact Hloop|]. unfold h1. by rewrite block_into_new.
  - rewrite <-Hles. apply read_array; [by rewrite lookup_insert_eq|lia|].
    intros i y Hy. destruct (Hes i) as (v & y' & Hv' & Hr & Hy'); [split; [lia|]|].
    { apply lookup_lt_Some in Hy. lia. }
    exists v. simplify_eq. split; [done|]. eapply read_mono; [done|]. by apply insert_subseteq.
Qed.

Lemma slice_makes t zero (f : CopyFn W) :
  copies t f → makes (SliceOf t) (make_slice zero f).
Proof.
  intros Hf. apply (array_makes t zero f (λ n in_ out,
    foldM (λ _ i, from ← slice_elem in_ i; to ← slice_elem out i; f from to) tt (seq 0 n)));
    [done|]. by intros.
Qed.

Lemma copy_makes t zero : flat t → makes (W:=W) (SliceOf t) (make_copy zero).
Proof.
  intros Hflat. apply (array_makes t zero assign (λ _, copy_elements)); [by apply assign_copies|].
  intros in_ out l0 off0 l n h w Hin Hout. unfold copy_elements.
  run (slice_len_run _ _ _ _ _ _ Hin). run (slice_len_run _ _ _ _ _ _ Hout).
  by rewrite Nat.min_id.
Qed.
End blocks.

(** *** Maps *)

Section maps.
Context `{!ExtMemory, !ExtMemoryLaws} {W : Type} `{!RangeEnv W, !RangeLaws W}.
Implicit Types (h hn : heap) (w : W).

Lemma map_entries_run h w a ti m :
  peek h a = Some (VMapRef ti) → h !! ti = Some (VMap m) →
  map_entries a (h, w) = (Val m, (h, w)).
Proof.
  intros Ha Hti. unfold map_entries. run (load_run _ _ _ _ Ha).
  assert (peek h (ti, []) = Some (VMap m)) as Hm by (unfold peek; simpl; by rewrite Hti).
  by run (load_run _ _ _ _ Hm).
Qed.

Lemma map_store_run h w a tb mo k v :
  h !! tb = None → peek h a = Some (VMapRef tb) →
  map_store a k v (<[tb:=VMap mo]> h, w) = (Val tt, (<[tb:=VMap (<[k:=v]> mo)]> h, w)).
Proof.
  intros Htb Ha. unfold map_store. run (load_run _ _ _ _ (peek_under _ _ _ _ _ Htb Ha)).
  run (load_run _ _ _ _ (peek_block h tb [] (VMap mo) _ eq_refl)).
  by apply store_block.
Qed.

Lemma range_run {A} (m : gmap string A) h w :
  ∃ l w', range m (h, w) = (Val l, (h, w')) ∧ l ≡ₚ map_to_list m.
Proof.
  pose proof (range_visits A m w) as Hp. unfold range, range_order, Mem_range.
  destruct (range_order m w) as [l w']. by exists l, w'.
Qed.

(** The loop over the entries of the map [m]; [mo] is the new map. *)
Lemma entries_run t (body : addr → addr → string → gval → Mem W unit)
    h ain aout tb ti m X :
  enters t body → h !! tb = None → peek h aout = Some (VMapRef tb) →
  peek h ain = Some (VMapRef ti) → h !! ti = Some (VMap m) →
  map_read (read t h) m = Some X →
  ∀ kvs hn w mo, NoDup kvs.*1 → (∀ k v, (k, v) ∈ kvs → m !! k = Some v) →
  hn ##ₘ h → hn !! tb = None →
  ∃ hn' mo' w',
    foldM (λ _ kv, body ain aout kv.1 kv.2) tt kvs (<[tb:=VMap mo]> (hn ∪ h), w)
    = (Val tt, (<[tb:=VMap mo']> (hn' ∪ h), w')) ∧
    hn ⊆ hn' ∧ hn' ##ₘ h ∧ hn' !! tb = None ∧
    (∀ k, k ∉ kvs.*1 → mo' !! k = mo !! k) ∧
    (∀ k v, (k, v) ∈ kvs → ∃ v' x, mo' !! k = Some v' ∧ read t hn' v' = Some x ∧ X !! k = Some x).
Proof.
  intros Hbody Htb Hout Hin Hti HX kvs. rewrite map_read_Some in HX.
  induction kvs as [|[k v] kvs IH]; intros hn w mo Hnd Hm Hd Hno; cbn [foldM].
  - exists hn, mo, w. split_and!; try done. by intros k v ?%elem_of_nil.
  - apply NoDup_cons in Hnd as [Hk Hnd].
    assert (m !! k = Some v) as Hkv by (apply Hm; set_solver).
    pose proof (HX k) as HXk. rewrite Hkv in HXk. destruct HXk as (x & Hx & HXk).
    assert (h ⊆ hn ∪ h) as Hsub by by apply map_union_subseteq_r.
    destruct (Hbody (hn ∪ h) w tb mo ain aout ti m k v x) as (hk & v' & w1 & Hrun & Hdk & Hr);
      [by apply lookup_union_None|by eapply peek_mono..|by eapply lookup_weaken|done
      |by eapply read_mono|].
    apply map_disjoint_insert_r in Hdk as [Hkno Hdk].
    apply map_disjoint_union_r in Hdk as [Hkn Hkh].
    destruct (IH (hk ∪ hn) w1 (<[k:=v']> mo)) as (hn' & mo' & w2 & Hrun2 & Hs & Hd' & Hno' & Hout' & Hall);
      [done|set_solver|by apply map_disjoint_union_l|by apply lookup_union_None|].
    exists hn', mo', w2. split_and!; try done.
    + run Hrun. rewrite (assoc_L (∪)). exact Hrun2.
    + etrans; [by apply map_union_subseteq_r|done].
    + intros k' Hk'. rewrite Hout' by set_solver. rewrite lookup_insert_ne by set_solver. done.
    + intros k' u [[= -> ->]|Hu]%elem_of_cons; [|by eapply Hall].
      exists v', x. rewrite Hout', lookup_insert_eq by done. split_and!; try done.
      eapply read_mono; [done|]. etrans; [apply map_union_subseteq_l|done].
Qed.

Lemma read_MapOf t h v x :
  read (MapOf t) h v = Some x → v ≠ VNil →
  ∃ ti m X, v = VMapRef ti ∧ h !! ti = Some (VMap m) ∧
            map_read (read t h) m = Some X ∧ x = TMap X.
Proof.
  simpl. intros Hx Hv. destruct v; try done.
  destruct (h !! table) as [c|] eqn:Hc; [|done]. destruct c; try done.
  destruct (map_read (read t h) entries) as [X|] eqn:HX; simplify_eq/=. eauto 10.
Qed.

Lemma map_makes t body : enters t body → makes (MapOf t) (make_map body).
Proof.
  intros Hbody h w o p c ain v u x Ho Hin Hx Hu Hv.
  destruct (read_MapOf _ _ _ _ Hx Hv) as (ti & m & X & -> & Hti & HX & ->).
  destruct (alloc_store h w o p c u (VMap ∅) VMapRef Ho Hu) as (tb & c1 & Hne & Htb & Hc1 & Hrun).
  set (h1 := <[o:=c1]> h) in *.
  assert (h ⊆ h1) as Hsub by by apply insert_subseteq.
  assert (h1 !! tb = None) as Htb1 by by apply lookup_insert_None.
  assert (peek h1 (o, p) = Some (VMapRef tb)) as Hout by by apply peek_block, (get_put _ _ _ _ Hc1).
  assert (peek h1 ain = Some (VMapRef ti)) as Hin1 by by eapply peek_mono.
  assert (h1 !! ti = Some (VMap m)) as Hti1 by by eapply lookup_weaken.
  assert (map_read (read t h1) m = Some X) as HX1.
  { eapply map_read_mono; [|done]. intros. by eapply read_mono. }
  destruct (range_run m (<[tb:=VMap ∅]> h1) w) as (kvs & w1 & Hrange & Hperm).
  destruct (entries_run t body h1 ain (o, p) tb ti m X Hbody Htb1 Hout Hin1 Hti1 HX1)
    with (kvs := kvs) (hn := ∅ : heap) (w := w1) (mo := ∅ : gmap string gval)
    as (hn & mo & w' & Hloop & _ & Hd & Hno & Hrest & Hall).
  { rewrite Hperm. apply NoDup_fst_map_to_list. }
  { intros k v. rewrite Hperm. by rewrite elem_of_map_to_list. }
  { apply map_disjoint_empty_l. } { done. }
  rewrite (left_id_L ∅ (∪)) in Hloop.
  assert (hn ##ₘ <[tb:=VMap mo]> h1) as Hd' by by apply map_disjoint_insert_r.
  destruct (new_disjoint h hn o tb c c1 _ Hne Ho Htb Hd' (VMap mo)) as (Hd2 & Hon & _).
  exists (<[tb:=VMap mo]> hn), c1, (VMapRef tb), w'. split_and!; [|done|done|].
  - unfold make_map. rewrite Hrun.
    run (map_entries_run _ _ _ _ _ (peek_under _ _ _ _ _ Htb1 Hin1)
      (lookup_weaken _ _ _ _ Hti1 (insert_subseteq _ _ _ Htb1))).
    run Hrange. etrans; [exact Hloop|]. unfold h1. by rewrite block_into_new.
  - simpl. rewrite lookup_insert_eq.
    enough (map_read (read t (<[tb:=VMap mo]> hn)) mo = Some X) as -> by done.
    apply map_read_Some. intros k. rewrite map_read_Some in HX. specialize (HX k).
    destruct (m !! k) as [v|] eqn:Hk.
    + destruct (Hall k v) as (v' & x & -> & Hr & Hxk).
      { by rewrite Hperm, elem_of_map_to_list. }
      exists x. split; [|done]. eapply read_mono; [done|]. by apply insert_subseteq.
    + rewrite Hrest; [by rewrite lookup_empty|]. intros Hin'.
      apply list_elem_of_fmap in Hin' as ([k' v] & -> & Hkv).
      rewrite Hperm, elem_of_map_to_list in Hkv. simpl in Hk. congruence.
Qed.
(** [( *out)[key] = val] for values without references. *)
Lemma set_entry_enters t : flat t → enters (W:=W) t set_entry.
Proof.
  intros Hflat h w tb mo ain aout ti m k v x Htb Hout Hin Hti Hk Hx.
  exists ∅, v, w. rewrite (left_id_L ∅ (∪)).
  split_and!; [by apply map_store_run|apply map_disjoint_empty_l|by eapply read_flat].
Qed.

(** Two variables over the new map and the rest of the store. *)
Lemma alloc_run h w v :
  ∃ n, h !! n = None ∧ alloc v (h, w) = (Val n, (<[n:=v]> h, w)).
Proof. exists (fresh (dom h)). split; [apply fresh_None|done]. Qed.

(** The new map stays on top of what a body allocates. *)
Lemma table_on_top h hn (tb : loc) mo :
  hn !! tb = None → hn ∪ <[tb:=VMap mo]> h = <[tb:=VMap mo]> (hn ∪ h).
Proof. intros. by rewrite insert_union_r. Qed.

Lemma set_nilable_enters t (f : CopyFn W) :
  nilable t → makes t f → enters t (set_nilable f).
Proof.
  intros Hnil Hf h w tb mo ain aout ti m k v x Htb Hout Hin Hti Hk Hx.
  set (hb := <[tb:=VMap mo]> h).
  destruct (alloc_run hb w VNil) as (n & Hn & Hal).
  pose proof Hn as Hn'. apply lookup_insert_None in Hn' as [Hnh Hnt].
  destruct (is_nil v) eqn:Hv.
  - destruct v; try done. rewrite Hnil in Hx. injection Hx as <-.
    exists {[n:=VNil]}, VNil, w. rewrite <-insert_union_singleton_l.
    split_and!; [|by apply map_disjoint_singleton_l|apply Hnil].
    unfold set_nilable. run Hal. cbn [is_nil]. unfold hb. rewrite insert_insert_ne by done.
    assert (peek (<[n:=VNil]> h) aout = Some (VMapRef tb)) as Ho by by apply peek_under.
    assert ((<[n:=VNil]> h) !! tb = None) as Ht by by apply lookup_insert_None.
    run (map_store_run _ _ _ _ _ _ _ Ht Ho).
    run (load_run _ _ _ _ (peek_under _ _ _ _ _ Ht (peek_block h n [] VNil VNil eq_refl))).
    rewrite map_store_run by done. by rewrite insert_insert_eq.
  - destruct (alloc_run (<[n:=VNil]> hb) w v) as (n2 & Hn2 & Hal2).
    apply lookup_insert_None in Hn2 as [Hn2b Hne].
    assert (hb ⊆ <[n:=VNil]> hb) as Hs1 by by apply insert_subseteq.
    assert (h ⊆ hb) as Hs0 by by apply insert_subseteq.
    destruct (Hf (<[n2:=v]> hb) w n [] VNil (n2, []) v VNil x)
      as (hn & c' & v' & w' & Hrun & Hput & Hd & Hr);
      [by apply lookup_insert_None|by apply peek_block| |done|by intros ->|].
    { eapply read_mono; [done|]. etrans; [done|]. by apply insert_subseteq. }
    injection Hput as ->.
    apply map_disjoint_insert_r in Hd as [Hdn Hd]. apply map_disjoint_insert_r in Hd as [Hdn2 Hd].
    apply map_disjoint_insert_r in Hd as [Hdt Hd]. apply lookup_insert_None in Hn2b as [Hn2h Hn2t].
    set (hk := <[n:=c']> (<[n2:=v]> hn)).
    assert (<[n:=c']> (hn ∪ <[n2:=v]> hb) = <[tb:=VMap mo]> (hk ∪ h)) as Heq.
    { unfold hb, hk. rewrite (insert_insert_ne _ n2 tb) by done. rewrite table_on_top by done.
      rewrite (insert_insert_ne _ n tb) by done. f_equal.
      rewrite <-insert_union_r by done. by rewrite !insert_union_l. }
    assert (hk !! tb = None) as Hkt by (unfold hk; rewrite !lookup_insert_ne by done; done).
    assert ((hk ∪ h) !! tb = None) as Ht by by apply lookup_union_None.
    assert (hk ##ₘ h) as Hkh.
    { apply map_disjoint_insert_l. split; [done|]. apply map_disjoint_insert_l. done. }
    exists hk, c', w'. split_and!.
    + unfold set_nilable. run Hal. rewrite Hv.
      assert ((m0 ← map_entries ain; inVal ← alloc (default VNil (m0 !! k)); f (inVal, []) (n, []))
        (<[n:=VNil]> hb, w) = (Val tt, (<[tb:=VMap mo]> (hk ∪ h), w'))) as Hblock.
      { run (map_entries_run _ _ _ _ _ (peek_mono _ _ _ _ (peek_mono _ _ _ _ Hin Hs0) Hs1)
          (lookup_weaken _ _ _ _ (lookup_weaken _ _ _ _ Hti Hs0) Hs1)).
        rewrite Hk. run Hal2. rewrite insert_insert_ne by done. by rewrite Hrun, Heq. }
      run Hblock.
      assert (peek (<[tb:=VMap mo]> (hk ∪ h)) (n, []) = Some c') as Hpk.
      { rewrite <-Heq. by apply peek_block. }
      run (load_run _ _ _ _ Hpk). apply map_store_run; [done|].
      eapply peek_mono; [done|]. by apply map_union_subseteq_r.
    + by apply map_disjoint_insert_r.
    + eapply read_mono; [done|]. unfold hk. etrans; [by apply (insert_subseteq hn n2 v)|].
      apply insert_subseteq. by rewrite lookup_insert_ne.
Qed.

(** [( *out)[key] = *val.DeepCopy()] *)
Lemma set_copied_enters t (dc : gval → Mem W gval) :
  clones t dc → enters t (set_copied dc).
Proof.
  intros Hdc h w tb mo ain aout ti m k v x Htb Hout Hin Hti Hk Hx.
  set (hb := <[tb:=VMap mo]> h).
  destruct (alloc_run hb w v) as (n & Hn & Hal).
  pose proof Hn as Hn'. apply lookup_insert_None in Hn' as [Hnh Hnt].
  assert (h ⊆ hb) as Hs0 by by apply insert_subseteq.
  assert (hb ⊆ <[n:=v]> hb) as Hs1 by by apply insert_subseteq.
  destruct (Hdc (<[n:=v]> hb) w (VPtr (n, [])) (TPtr x)) as (hn & q & w' & Hrun & Hd & Hr).
  { simpl. rewrite (peek_block hb n [] v v eq_refl). simpl.
    by rewrite (read_mono _ _ _ _ _ Hx (transitivity Hs0 Hs1)). }
  simpl in Hr. destruct q as [| |a| | | | |]; try done.
  destruct (peek hn a) as [v'|] eqn:Ha; [|done]. simpl in Hr.
  destruct (read t hn v') as [x'|] eqn:Hv'; [|done]. injection Hr as ->.
  apply map_disjoint_insert_r in Hd as [Hdn Hd]. apply map_disjoint_insert_r in Hd as [Hdt Hd].
  set (hk := <[n:=v]> hn).
  assert (hn ∪ <[n:=v]> hb = <[tb:=VMap mo]> (hk ∪ h)) as Heq.
  { unfold hb, hk. rewrite (insert_insert_ne _ n tb) by done. rewrite table_on_top by done.
    rewrite <-insert_union_r by done. by rewrite insert_union_l. }
  assert (hk !! tb = None) as Hkt by (unfold hk; by rewrite lookup_insert_ne).
  assert (hn ⊆ hk) as Hs by by apply insert_subseteq.
  assert (hk ##ₘ h) as Hkh by (apply map_disjoint_insert_l; done).
  exists hk, v', w'. split_and!.
  - unfold set_copied. run Hal. run Hrun. cbn [pointee].
    assert (peek (hn ∪ <[n:=v]> hb) a = Some v') as Hpk
      by (eapply peek_mono; [done|apply map_union_subseteq_l]).
    rewrite ret_run; cbv beta.
    run (load_run _ _ _ _ Hpk). rewrite Heq.
    apply map_store_run; [by apply lookup_union_None|].
    eapply peek_mono; [done|]. by apply map_union_subseteq_r.
  - by apply map_disjoint_insert_r.
  - by eapply read_mono.
Qed.

(** [DeepCopy] from [DeepCopyInto]. *)
Lemma deep_copy_clones t zero (f : CopyFn W) : copies t f → clones t (deep_copy zero f).
Proof.
  intros Hf h w q x Hq. unfold deep_copy. destruct q as [| |a| | | | |]; try done; cbn [is_nil].
  - simpl in Hq. simplify_eq. exists ∅, VNil, w. rewrite (left_id_L ∅ (∪)).
    split_and!; [done|apply map_disjoint_empty_l|done].
  - simpl in Hq. destruct (peek h a) as [v|] eqn:Ha; [|done]. simpl in Hq.
    destruct (read t h v) as [y|] eqn:Hy; [|done]. injection Hq as <-.
    destruct (alloc_run h w zero) as (n & Hn & Hal).
    destruct (Hf h w n [] zero a v zero y) as (hn & c' & v' & w' & Hrun & Hput & Hd & Hr); [done..|].
    injection Hput as ->. apply map_disjoint_insert_r in Hd as [Hdn Hd].
    exists (<[n:=c']> hn), (VPtr (n, [])), w'. split_and!.
    + run Hal. cbn [pointee]. rewrite ret_run; cbv beta.
      run Hrun. by rewrite insert_union_l.
    + by apply map_disjoint_insert_l.
    + cbn [read]. rewrite (peek_block hn n [] c' c' eq_refl). simpl.
      by rewrite (read_mono _ _ _ _ _ Hr (insert_subseteq _ _ _ Hdn)).
Qed.
End maps.

#[export] Hint Constructors steps_for : go.
#[export] Hint Resolve copies_fills assign_fills assign_copies unless_nil_fills : go.
