(* ===== verification/DeepCopy.v ===== *)
(** * The generated deep copies ([api/v1alpha1/zz_generated.deepcopy.go])

    For every struct of the API the description of its fields in memory
    ([T_type], from [trino_types.go] and [trinocatalog_types.go]) and the
    generated [DeepCopyInto] and [DeepCopy], statement by statement, over the
    store of GoMemory.v.  In [T_DeepCopyInto], [in_.["F"]] is [&in.F]. *)

From S2P Require Import Prelude GoRuntime GoMemory GoCopy.

(** The copies of the types of operator-go and of the Kubernetes packages. *)
Class ExtCopy (W : Type) := {
  ext_DeepCopyInto : string → CopyFn W;
  ext_DeepCopy : string → gval → Mem W gval;
}.

(** What the generated code relies on: those functions are deep copies too. *)
Class ExtCopyLaws (W : Type) `{!ExtMemory, !ExtCopy W} := {
  ext_DeepCopyInto_copies name : copies (W:=W) (External name) (ext_DeepCopyInto name);
  ext_DeepCopy_clones name : clones (W:=W) (External name) (ext_DeepCopy name);
}.

(** ** Types *)

Definition OidcSpec_type : gtype := Struct [
  ("ClientCredentialsSecret", Scalar String_);
  ("ExtraScopes", SliceOf (Scalar String_))].

Definition AuthenticationSpec_type : gtype := Struct [
  ("AuthenticationClass", Scalar String_);
  ("Oidc", Pointer OidcSpec_type)].

Definition CatalogLabelSelectorSpec_type : gtype := Struct [
  ("MatchLabels", MapOf (Scalar String_));
  ("MatchExpressions", SliceOf (External "metav1.LabelSelectorRequirement"))].

Definition TlsSpec_type : gtype := Struct [
  ("ServerSecretClass", Scalar String_);
  ("InternalSecretClass", Scalar String_)].

Definition ClusterConfigSpec_type : gtype := Struct [
  ("Authentication", SliceOf AuthenticationSpec_type);
  ("CatalogLabelSelector", Pointer CatalogLabelSelectorSpec_type);
  ("CatalogProperties", MapOf (MapOf (Scalar String_)));
  ("ListenerClass", Scalar String_);
  ("Tls", Pointer TlsSpec_type);
  ("VectorAggregatorConfigMapName", Scalar String_)].

Definition ConfigSpec_type : gtype := Struct [
  ("RoleGroupConfigSpec", Pointer (External "commonsv1alpha1.RoleGroupConfigSpec"));
  ("QueryMaxMemory", Scalar String_);
  ("QueryMaxMemoryPerNode", Scalar String_)].

Definition BaseRoleSpec_type : gtype := Struct [
  ("Replicas", Pointer (Scalar Int_));
  ("OverridesSpec", Pointer (External "commonsv1alpha1.OverridesSpec"));
  ("RoleConfig", Pointer (External "commonsv1alpha1.RoleConfigSpec"));
  ("Config", Pointer ConfigSpec_type)].

Definition RoleGroupSpec_type : gtype := Struct [
  ("Replicas", Pointer (Scalar Int_));
  ("Config", Pointer ConfigSpec_type);
  ("OverridesSpec", Pointer (External "commonsv1alpha1.OverridesSpec"))].

Definition CoordinatorsSpec_type : gtype := Struct [
  ("RoleGroups", MapOf (Pointer RoleGroupSpec_type));
  ("BaseRoleSpec", BaseRoleSpec_type)].

Definition WorkersSpec_type : gtype := Struct [
  ("RoleGroups", MapOf (Pointer RoleGroupSpec_type));
  ("BaseRoleSpec", BaseRoleSpec_type)].

Definition ImageSpec_type : gtype := Struct [
  ("Custom", Scalar String_);
  ("Repo", Scalar String_);
  ("KubedoopVersion", Scalar String_);
  ("ProductVersion", Scalar String_);
  ("PullPolicy", Scalar String_);
  ("PullSecretName", Scalar String_)].

Definition TrinoClusterSpec_type : gtype := Struct [
  ("ClusterConfig", Pointer ClusterConfigSpec_type);
  ("ClusterOperation", Pointer (FlatExternal "commonsv1alpha1.ClusterOperationSpec"));
  ("Image", Pointer ImageSpec_type);
  ("Coordinators", Pointer CoordinatorsSpec_type);
  ("Workers", Pointer WorkersSpec_type)].

Definition TrinoCluster_type : gtype := Struct [
  ("TypeMeta", FlatExternal "metav1.TypeMeta");
  ("ObjectMeta", External "metav1.ObjectMeta");
  ("Spec", TrinoClusterSpec_type);
  ("Status", External "status.Status")].

Definition TrinoClusterList_type : gtype := Struct [
  ("TypeMeta", FlatExternal "metav1.TypeMeta");
  ("ListMeta", External "metav1.ListMeta");
  ("Items", SliceOf TrinoCluster_type)].

Definition LoggingSpec_type : gtype := Struct [
  ("Containers", MapOf (External "commonsv1alpha1.LoggingConfigSpec"));
  ("EnableVectorAgent", Scalar Bool_)].

Definition ConfigOverridesSpec_type : gtype := Struct [
  ("Node", MapOf (Scalar String_));
  ("Jvm", Scalar String_);
  ("Config", MapOf (Scalar String_));
  ("Log", MapOf (Scalar String_));
  ("ExchangeManager", MapOf (Scalar String_))].

Definition JvmPropertiesRoleConfigSpec_type : gtype := Struct [
  ("MaxHeapSize", Scalar String_);
  ("GcMethodType", Scalar String_);
  ("G1HeapRegionSize", Scalar String_)].

Definition ValueFromConfigurationSpec_type : gtype := Struct [
  ("Type", Scalar String_);
  ("Name", Scalar String_);
  ("Key", Scalar String_)].

Definition PropertiesSpec_type : gtype := Struct [
  ("Value", Scalar String_);
  ("ValueFromConfiguration", Pointer ValueFromConfigurationSpec_type)].

Definition GenericConnectorSpec_type : gtype := Struct [
  ("Name", Scalar String_);
  ("Properties", Pointer PropertiesSpec_type)].

Definition MetastoreConnectionSpec_type : gtype := Struct [
  ("ConfigMap", Scalar String_)].

Definition HdfsConnectionSpec_type : gtype := Struct [
  ("ConfigMap", Scalar String_)].

Definition HiveConnectorSpec_type : gtype := Struct [
  ("Metastore", Pointer MetastoreConnectionSpec_type);
  ("S3", Pointer (External "s3v1alpha1.S3BucketSpec"));
  ("Hdfs", Pointer HdfsConnectionSpec_type)].

Definition IcebergConnectorSpec_type : gtype := Struct [
  ("Metastore", Pointer MetastoreConnectionSpec_type);
  ("S3", Pointer (External "s3v1alpha1.S3BucketSpec"));
  ("Hdfs", Pointer HdfsConnectionSpec_type)].

Definition TpcdsConnectorSpec_type : gtype := Struct [].

Definition TpchConnectorSpec_type : gtype := Struct [].

Definition ConnectorSpec_type : gtype := Struct [
  ("Generic", Pointer GenericConnectorSpec_type);
  ("Hive", Pointer HiveConnectorSpec_type);
  ("IceBerg", Pointer IcebergConnectorSpec_type);
  ("Tpcds", Pointer TpcdsConnectorSpec_type);
  ("Tpch", Pointer TpchConnectorSpec_type)].

Definition TrinoCatalogSpec_type : gtype := Struct [
  ("Connector", ConnectorSpec_type);
  ("ConfigOverrides", MapOf (Scalar String_))].

Definition TrinoCatalogStatus_type : gtype := Struct [].

Definition TrinoCatalog_type : gtype := Struct [
  ("TypeMeta", FlatExternal "metav1.TypeMeta");
  ("ObjectMeta", External "metav1.ObjectMeta");
  ("Spec", TrinoCatalogSpec_type);
  ("Status", TrinoCatalogStatus_type)].

Definition TrinoCatalogList_type : gtype := Struct [
  ("TypeMeta", FlatExternal "metav1.TypeMeta");
  ("ListMeta", External "metav1.ListMeta");
  ("Items", SliceOf TrinoCatalog_type)].

(** ** [DeepCopyInto] *)

Section deepcopy.
Context `{!ExtMemory} {W : Type} `{!RangeEnv W, !ExtCopy W}.

Definition OidcSpec_DeepCopyInto : CopyFn W := λ in_ out,
  assign in_ out;;
  unless_nil (make_copy (zero (Scalar String_))) in_.["ExtraScopes"] out.["ExtraScopes"];;
  mret tt.

Definition AuthenticationSpec_DeepCopyInto : CopyFn W := λ in_ out,
  assign in_ out;;
  unless_nil (new_pointer (zero OidcSpec_type) OidcSpec_DeepCopyInto)
    in_.["Oidc"] out.["Oidc"];;
  mret tt.

Definition CatalogLabelSelectorSpec_DeepCopyInto : CopyFn W := λ in_ out,
  assign in_ out;;
  unless_nil (make_map set_entry) in_.["MatchLabels"] out.["MatchLabels"];;
  unless_nil (make_slice (ext_zero "metav1.LabelSelectorRequirement")
    (ext_DeepCopyInto "metav1.LabelSelectorRequirement"))
    in_.["MatchExpressions"] out.["MatchExpressions"];;
  mret tt.

Definition TlsSpec_DeepCopyInto : CopyFn W := assign.

Definition ClusterConfigSpec_DeepCopyInto : CopyFn W := λ in_ out,
  assign in_ out;;
  unless_nil (make_slice (zero AuthenticationSpec_type) AuthenticationSpec_DeepCopyInto)
    in_.["Authentication"] out.["Authentication"];;
  unless_nil (new_pointer (zero CatalogLabelSelectorSpec_type) CatalogLabelSelectorSpec_DeepCopyInto)
    in_.["CatalogLabelSelector"] out.["CatalogLabelSelector"];;
  unless_nil (make_map (set_nilable (make_map set_entry)))
    in_.["CatalogProperties"] out.["CatalogProperties"];;
  unless_nil (new_pointer (zero TlsSpec_type) assign) in_.["Tls"] out.["Tls"];;
  mret tt.

Definition ConfigSpec_DeepCopyInto : CopyFn W := λ in_ out,
  assign in_ out;;
  unless_nil (new_pointer (ext_zero "commonsv1alpha1.RoleGroupConfigSpec")
    (ext_DeepCopyInto "commonsv1alpha1.RoleGroupConfigSpec"))
    in_.["RoleGroupConfigSpec"] out.["RoleGroupConfigSpec"];;
  mret tt.

Definition BaseRoleSpec_DeepCopyInto : CopyFn W := λ in_ out,
  assign in_ out;;
  unless_nil (new_pointer (zero (Scalar Int_)) assign) in_.["Replicas"] out.["Replicas"];;
  unless_nil (new_pointer (ext_zero "commonsv1alpha1.OverridesSpec")
    (ext_DeepCopyInto "commonsv1alpha1.OverridesSpec"))
    in_.["OverridesSpec"] out.["OverridesSpec"];;
  unless_nil (new_pointer (ext_zero "commonsv1alpha1.RoleConfigSpec")
    (ext_DeepCopyInto "commonsv1alpha1.RoleConfigSpec")) in_.["RoleConfig"] out.["RoleConfig"];;
  unless_nil (new_pointer (zero ConfigSpec_type) ConfigSpec_DeepCopyInto)
    in_.["Config"] out.["Config"];;
  mret tt.

Definition RoleGroupSpec_DeepCopyInto : CopyFn W := λ in_ out,
  assign in_ out;;
  unless_nil (new_pointer (zero (Scalar Int_)) assign) in_.["Replicas"] out.["Replicas"];;
  unless_nil (new_pointer (zero ConfigSpec_type) ConfigSpec_DeepCopyInto)
    in_.["Config"] out.["Config"];;
  unless_nil (new_pointer (ext_zero "commonsv1alpha1.OverridesSpec")
    (ext_DeepCopyInto "commonsv1alpha1.OverridesSpec"))
    in_.["OverridesSpec"] out.["OverridesSpec"];;
  mret tt.

Definition CoordinatorsSpec_DeepCopyInto : CopyFn W := λ in_ out,
  assign in_ out;;
  unless_nil (make_map (set_nilable
    (new_pointer (zero RoleGroupSpec_type) RoleGroupSpec_DeepCopyInto)))
    in_.["RoleGroups"] out.["RoleGroups"];;
  BaseRoleSpec_DeepCopyInto in_.["BaseRoleSpec"] out.["BaseRoleSpec"];;
  mret tt.

Definition WorkersSpec_DeepCopyInto : CopyFn W := λ in_ out,
  assign in_ out;;
  unless_nil (make_map (set_nilable
    (new_pointer (zero RoleGroupSpec_type) RoleGroupSpec_DeepCopyInto)))
    in_.["RoleGroups"] out.["RoleGroups"];;
  BaseRoleSpec_DeepCopyInto in_.["BaseRoleSpec"] out.["BaseRoleSpec"];;
  mret tt.

Definition ImageSpec_DeepCopyInto : CopyFn W := assign.

Definition TrinoClusterSpec_DeepCopyInto : CopyFn W := λ in_ out,
  assign in_ out;;
  unless_nil (new_pointer (zero ClusterConfigSpec_type) ClusterConfigSpec_DeepCopyInto)
    in_.["ClusterConfig"] out.["ClusterConfig"];;
  unless_nil (new_pointer (ext_zero "commonsv1alpha1.ClusterOperationSpec") assign)
    in_.["ClusterOperation"] out.["ClusterOperation"];;
  unless_nil (new_pointer (zero ImageSpec_type) assign) in_.["Image"] out.["Image"];;
  unless_nil (new_pointer (zero CoordinatorsSpec_type) CoordinatorsSpec_DeepCopyInto)
    in_.["Coordinators"] out.["Coordinators"];;
  unless_nil (new_pointer (zero WorkersSpec_type) WorkersSpec_DeepCopyInto)
    in_.["Workers"] out.["Workers"];;
  mret tt.

Definition TrinoCluster_DeepCopyInto : CopyFn W := λ in_ out,
  assign in_ out;;
  assign in_.["TypeMeta"] out.["TypeMeta"];;
  ext_DeepCopyInto "metav1.ObjectMeta" in_.["ObjectMeta"] out.["ObjectMeta"];;
  TrinoClusterSpec_DeepCopyInto in_.["Spec"] out.["Spec"];;
  ext_DeepCopyInto "status.Status" in_.["Status"] out.["Status"];;
  mret tt.

Definition TrinoClusterList_DeepCopyInto : CopyFn W := λ in_ out,
  assign in_ out;;
  assign in_.["TypeMeta"] out.["TypeMeta"];;
  ext_DeepCopyInto "metav1.ListMeta" in_.["ListMeta"] out.["ListMeta"];;
  unless_nil (make_slice (zero TrinoCluster_type) TrinoCluster_DeepCopyInto)
    in_.["Items"] out.["Items"];;
  mret tt.

Definition LoggingSpec_DeepCopyInto : CopyFn W := λ in_ out,
  assign in_ out;;
  unless_nil (make_map (set_copied (ext_DeepCopy "commonsv1alpha1.LoggingConfigSpec")))
    in_.["Containers"] out.["Containers"];;
  mret tt.

Definition ConfigOverridesSpec_DeepCopyInto : CopyFn W := λ in_ out,
  assign in_ out;;
  unless_nil (make_map set_entry) in_.["Node"] out.["Node"];;
  unless_nil (make_map set_entry) in_.["Config"] out.["Config"];;
  unless_nil (make_map set_entry) in_.["Log"] out.["Log"];;
  unless_nil (make_map set_entry) in_.["ExchangeManager"] out.["ExchangeManager"];;
  mret tt.

Definition JvmPropertiesRoleConfigSpec_DeepCopyInto : CopyFn W := assign.

Definition ValueFromConfigurationSpec_DeepCopyInto : CopyFn W := assign.

Definition PropertiesSpec_DeepCopyInto : CopyFn W := λ in_ out,
  assign in_ out;;
  unless_nil (new_pointer (zero ValueFromConfigurationSpec_type) assign)
    in_.["ValueFromConfiguration"] out.["ValueFromConfiguration"];;
  mret tt.

Definition GenericConnectorSpec_DeepCopyInto : CopyFn W := λ in_ out,
  assign in_ out;;
  unless_nil (new_pointer (zero PropertiesSpec_type) PropertiesSpec_DeepCopyInto)
    in_.["Properties"] out.["Properties"];;
  mret tt.

Definition MetastoreConnectionSpec_DeepCopyInto : CopyFn W := assign.

Definition HdfsConnectionSpec_DeepCopyInto : CopyFn W := assign.

Definition HiveConnectorSpec_DeepCopyInto : CopyFn W := λ in_ out,
  assign in_ out;;
  unless_nil (new_pointer (zero MetastoreConnectionSpec_type) assign)
    in_.["Metastore"] out.["Metastore"];;
  unless_nil (new_pointer (ext_zero "s3v1alpha1.S3BucketSpec")
    (ext_DeepCopyInto "s3v1alpha1.S3BucketSpec")) in_.["S3"] out.["S3"];;
  unless_nil (new_pointer (zero HdfsConnectionSpec_type) assign) in_.["Hdfs"] out.["Hdfs"];;
  mret tt.

Definition IcebergConnectorSpec_DeepCopyInto : CopyFn W := λ in_ out,
  assign in_ out;;
  unless_nil (new_pointer (zero MetastoreConnectionSpec_type) assign)
    in_.["Metastore"] out.["Metastore"];;
  unless_nil (new_pointer (ext_zero "s3v1alpha1.S3BucketSpec")
    (ext_DeepCopyInto "s3v1alpha1.S3BucketSpec")) in_.["S3"] out.["S3"];;
  unless_nil (new_pointer (zero HdfsConnectionSpec_type) assign) in_.["Hdfs"] out.["Hdfs"];;
  mret tt.

Definition TpcdsConnectorSpec_DeepCopyInto : CopyFn W := assign.

Definition TpchConnectorSpec_DeepCopyInto : CopyFn W := assign.

Definition ConnectorSpec_DeepCopyInto : CopyFn W := λ in_ out,
  assign in_ out;;
  unless_nil (new_pointer (zero GenericConnectorSpec_type) GenericConnectorSpec_DeepCopyInto)
    in_.["Generic"] out.["Generic"];;
  unless_nil (new_pointer (zero HiveConnectorSpec_type) HiveConnectorSpec_DeepCopyInto)
    in_.["Hive"] out.["Hive"];;
  unless_nil (new_pointer (zero IcebergConnectorSpec_type) IcebergConnectorSpec_DeepCopyInto)
    in_.["IceBerg"] out.["IceBerg"];;
  unless_nil (new_pointer (zero TpcdsConnectorSpec_type) assign) in_.["Tpcds"] out.["Tpcds"];;
  unless_nil (new_pointer (zero TpchConnectorSpec_type) assign) in_.["Tpch"] out.["Tpch"];;
  mret tt.

Definition TrinoCatalogSpec_DeepCopyInto : CopyFn W := λ in_ out,
  assign in_ out;;
  ConnectorSpec_DeepCopyInto in_.["Connector"] out.["Connector"];;
  unless_nil (make_map set_entry) in_.["ConfigOverrides"] out.["ConfigOverrides"];;
  mret tt.

Definition TrinoCatalogStatus_DeepCopyInto : CopyFn W := assign.

Definition TrinoCatalog_DeepCopyInto : CopyFn W := λ in_ out,
  assign in_ out;;
  assign in_.["TypeMeta"] out.["TypeMeta"];;
  ext_DeepCopyInto "metav1.ObjectMeta" in_.["ObjectMeta"] out.["ObjectMeta"];;
  TrinoCatalogSpec_DeepCopyInto in_.["Spec"] out.["Spec"];;
  assign in_.["Status"] out.["Status"];;
  mret tt.

Definition TrinoCatalogList_DeepCopyInto : CopyFn W := λ in_ out,
  assign in_ out;;
  assign in_.["TypeMeta"] out.["TypeMeta"];;
  ext_DeepCopyInto "metav1.ListMeta" in_.["ListMeta"] out.["ListMeta"];;
  unless_nil (make_slice (zero TrinoCatalog_type) TrinoCatalog_DeepCopyInto)
    in_.["Items"] out.["Items"];;
  mret tt.

(** ** [DeepCopy] *)

Definition OidcSpec_DeepCopy : gval → Mem W gval :=
  deep_copy (zero OidcSpec_type) OidcSpec_DeepCopyInto.
Definition AuthenticationSpec_DeepCopy : gval → Mem W gval :=
  deep_copy (zero AuthenticationSpec_type) AuthenticationSpec_DeepCopyInto.
Definition CatalogLabelSelectorSpec_DeepCopy : gval → Mem W gval :=
  deep_copy (zero CatalogLabelSelectorSpec_type) CatalogLabelSelectorSpec_DeepCopyInto.
Definition TlsSpec_DeepCopy : gval → Mem W gval :=
  deep_copy (zero TlsSpec_type) TlsSpec_DeepCopyInto.
Definition ClusterConfigSpec_DeepCopy : gval → Mem W gval :=
  deep_copy (zero ClusterConfigSpec_type) ClusterConfigSpec_DeepCopyInto.
Definition ConfigSpec_DeepCopy : gval → Mem W gval :=
  deep_copy (zero ConfigSpec_type) ConfigSpec_DeepCopyInto.
Definition BaseRoleSpec_DeepCopy : gval → Mem W gval :=
  deep_copy (zero BaseRoleSpec_type) BaseRoleSpec_DeepCopyInto.
Definition RoleGroupSpec_DeepCopy : gval → Mem W gval :=
  deep_copy (zero RoleGroupSpec_type) RoleGroupSpec_DeepCopyInto.
Definition CoordinatorsSpec_DeepCopy : gval → Mem W gval :=
  deep_copy (zero CoordinatorsSpec_type) CoordinatorsSpec_DeepCopyInto.
Definition WorkersSpec_DeepCopy : gval → Mem W gval :=
  deep_copy (zero WorkersSpec_type) WorkersSpec_DeepCopyInto.
Definition ImageSpec_DeepCopy : gval → Mem W gval :=
  deep_copy (zero ImageSpec_type) ImageSpec_DeepCopyInto.
Definition TrinoClusterSpec_DeepCopy : gval → Mem W gval :=
  deep_copy (zero TrinoClusterSpec_type) TrinoClusterSpec_DeepCopyInto.
Definition TrinoCluster_DeepCopy : gval → Mem W gval :=
  deep_copy (zero TrinoCluster_type) TrinoCluster_DeepCopyInto.
Definition TrinoClusterList_DeepCopy : gval → Mem W gval :=
  deep_copy (zero TrinoClusterList_type) TrinoClusterList_DeepCopyInto.
Definition LoggingSpec_DeepCopy : gval → Mem W gval :=
  deep_copy (zero LoggingSpec_type) LoggingSpec_DeepCopyInto.
Definition ConfigOverridesSpec_DeepCopy : gval → Mem W gval :=
  deep_copy (zero ConfigOverridesSpec_type) ConfigOverridesSpec_DeepCopyInto.
Definition JvmPropertiesRoleConfigSpec_DeepCopy : gval → Mem W gval :=
  deep_copy (zero JvmPropertiesRoleConfigSpec_type) JvmPropertiesRoleConfigSpec_DeepCopyInto.
Definition ValueFromConfigurationSpec_DeepCopy : gval → Mem W gval :=
  deep_copy (zero ValueFromConfigurationSpec_type) ValueFromConfigurationSpec_DeepCopyInto.
Definition PropertiesSpec_DeepCopy : gval → Mem W gval :=
  deep_copy (zero PropertiesSpec_type) PropertiesSpec_DeepCopyInto.
Definition GenericConnectorSpec_DeepCopy : gval → Mem W gval :=
  deep_copy (zero GenericConnectorSpec_type) GenericConnectorSpec_DeepCopyInto.
Definition MetastoreConnectionSpec_DeepCopy : gval → Mem W gval :=
  deep_copy (zero MetastoreConnectionSpec_type) MetastoreConnectionSpec_DeepCopyInto.
Definition HdfsConnectionSpec_DeepCopy : gval → Mem W gval :=
  deep_copy (zero HdfsConnectionSpec_type) HdfsConnectionSpec_DeepCopyInto.
Definition HiveConnectorSpec_DeepCopy : gval → Mem W gval :=
  deep_copy (zero HiveConnectorSpec_type) HiveConnectorSpec_DeepCopyInto.
Definition IcebergConnectorSpec_DeepCopy : gval → Mem W gval :=
  deep_copy (zero IcebergConnectorSpec_type) IcebergConnectorSpec_DeepCopyInto.
Definition TpcdsConnectorSpec_DeepCopy : gval → Mem W gval :=
  deep_copy (zero TpcdsConnectorSpec_type) TpcdsConnectorSpec_DeepCopyInto.
Definition TpchConnectorSpec_DeepCopy : gval → Mem W gval :=
  deep_copy (zero TpchConnectorSpec_type) TpchConnectorSpec_DeepCopyInto.
Definition ConnectorSpec_DeepCopy : gval → Mem W gval :=
  deep_copy (zero ConnectorSpec_type) ConnectorSpec_DeepCopyInto.
Definition TrinoCatalogSpec_DeepCopy : gval → Mem W gval :=
  deep_copy (zero TrinoCatalogSpec_type) TrinoCatalogSpec_DeepCopyInto.
Definition TrinoCatalogStatus_DeepCopy : gval → Mem W gval :=
  deep_copy (zero TrinoCatalogStatus_type) TrinoCatalogStatus_DeepCopyInto.
Definition TrinoCatalog_DeepCopy : gval → Mem W gval :=
  deep_copy (zero TrinoCatalog_type) TrinoCatalog_DeepCopyInto.
Definition TrinoCatalogList_DeepCopy : gval → Mem W gval :=
  deep_copy (zero TrinoCatalogList_type) TrinoCatalogList_DeepCopyInto.

(** ** [DeepCopyObject]

    A [runtime.Object] is an interface value: nil, or a type with a pointer.
    [if c := in.DeepCopy(); c != nil { return c }; return nil]. *)

Definition runtime_Object : Type := option (string * gval).

Definition deep_copy_object (name : string) (copy : gval → Mem W gval) (in_ : gval)
    : Mem W runtime_Object :=
  c ← copy in_; mret (if is_nil c then None else Some (name, c)).

Definition TrinoCatalog_DeepCopyObject : gval → Mem W runtime_Object :=
  deep_copy_object "TrinoCatalog" TrinoCatalog_DeepCopy.
Definition TrinoCatalogList_DeepCopyObject : gval → Mem W runtime_Object :=
  deep_copy_object "TrinoCatalogList" TrinoCatalogList_DeepCopy.
Definition TrinoCluster_DeepCopyObject : gval → Mem W runtime_Object :=
  deep_copy_object "TrinoCluster" TrinoCluster_DeepCopy.
Definition TrinoClusterList_DeepCopyObject : gval → Mem W runtime_Object :=
  deep_copy_object "TrinoClusterList" TrinoClusterList_DeepCopy.

(** The objects that the two [init] functions register with the scheme. *)
Definition registered_cluster_types : list (string * gtype * (gval → Mem W runtime_Object)) := [
  ("TrinoCluster", TrinoCluster_type, TrinoCluster_DeepCopyObject);
  ("TrinoClusterList", TrinoClusterList_type, TrinoClusterList_DeepCopyObject)].

Definition registered_catalog_types : list (string * gtype * (gval → Mem W runtime_Object)) := [
  ("TrinoCatalog", TrinoCatalog_type, TrinoCatalog_DeepCopyObject);
  ("TrinoCatalogList", TrinoCatalogList_type, TrinoCatalogList_DeepCopyObject)].

(** Every struct with its two functions. *)
Definition deepcopies : list (gtype * CopyFn W * (gval → Mem W gval)) := [
  (OidcSpec_type, OidcSpec_DeepCopyInto, OidcSpec_DeepCopy);
  (AuthenticationSpec_type, AuthenticationSpec_DeepCopyInto, AuthenticationSpec_DeepCopy);
  (CatalogLabelSelectorSpec_type, CatalogLabelSelectorSpec_DeepCopyInto, CatalogLabelSelectorSpec_DeepCopy);
  (TlsSpec_type, TlsSpec_DeepCopyInto, TlsSpec_DeepCopy);
  (ClusterConfigSpec_type, ClusterConfigSpec_DeepCopyInto, ClusterConfigSpec_DeepCopy);
  (ConfigSpec_type, ConfigSpec_DeepCopyInto, ConfigSpec_DeepCopy);
  (BaseRoleSpec_type, BaseRoleSpec_DeepCopyInto, BaseRoleSpec_DeepCopy);
  (RoleGroupSpec_type, RoleGroupSpec_DeepCopyInto, RoleGroupSpec_DeepCopy);
  (CoordinatorsSpec_type, CoordinatorsSpec_DeepCopyInto, CoordinatorsSpec_DeepCopy);
  (WorkersSpec_type, WorkersSpec_DeepCopyInto, WorkersSpec_DeepCopy);
  (ImageSpec_type, ImageSpec_DeepCopyInto, ImageSpec_DeepCopy);
  (TrinoClusterSpec_type, TrinoClusterSpec_DeepCopyInto, TrinoClusterSpec_DeepCopy);
  (TrinoCluster_type, TrinoCluster_DeepCopyInto, TrinoCluster_DeepCopy);
  (TrinoClusterList_type, TrinoClusterList_DeepCopyInto, TrinoClusterList_DeepCopy);
  (LoggingSpec_type, LoggingSpec_DeepCopyInto, LoggingSpec_DeepCopy);
  (ConfigOverridesSpec_type, ConfigOverridesSpec_DeepCopyInto, ConfigOverridesSpec_DeepCopy);
  (JvmPropertiesRoleConfigSpec_type, JvmPropertiesRoleConfigSpec_DeepCopyInto, JvmPropertiesRoleConfigSpec_DeepCopy);
  (ValueFromConfigurationSpec_type, ValueFromConfigurationSpec_DeepCopyInto, ValueFromConfigurationSpec_DeepCopy);
  (PropertiesSpec_type, PropertiesSpec_DeepCopyInto, PropertiesSpec_DeepCopy);
  (GenericConnectorSpec_type, GenericConnectorSpec_DeepCopyInto, GenericConnectorSpec_DeepCopy);
  (MetastoreConnectionSpec_type, MetastoreConnectionSpec_DeepCopyInto, MetastoreConnectionSpec_DeepCopy);
  (HdfsConnectionSpec_type, HdfsConnectionSpec_DeepCopyInto, HdfsConnectionSpec_DeepCopy);
  (HiveConnectorSpec_type, HiveConnectorSpec_DeepCopyInto, HiveConnectorSpec_DeepCopy);
  (IcebergConnectorSpec_type, IcebergConnectorSpec_DeepCopyInto, IcebergConnectorSpec_DeepCopy);
  (TpcdsConnectorSpec_type, TpcdsConnectorSpec_DeepCopyInto, TpcdsConnectorSpec_DeepCopy);
  (TpchConnectorSpec_type, TpchConnectorSpec_DeepCopyInto, TpchConnectorSpec_DeepCopy);
  (ConnectorSpec_type, ConnectorSpec_DeepCopyInto, ConnectorSpec_DeepCopy);
  (TrinoCatalogSpec_type, TrinoCatalogSpec_DeepCopyInto, TrinoCatalogSpec_DeepCopy);
  (TrinoCatalogStatus_type, TrinoCatalogStatus_DeepCopyInto, TrinoCatalogStatus_DeepCopy);
  (TrinoCatalog_type, TrinoCatalog_DeepCopyInto, TrinoCatalog_DeepCopy);
  (TrinoCatalogList_type, TrinoCatalogList_DeepCopyInto, TrinoCatalogList_DeepCopy)].
End deepcopy.
