(* ===== verification/DeepCopyFacts.v ===== *)
(** * Theorems on the generated deep copies

    Every [DeepCopyInto] and [DeepCopy] of the API types is a deep copy in the
    sense of GoCopy.v. *)

From S2P Require Import Prelude GoRuntime GoMemory GoCopy GoCopyFacts DeepCopy.

(** ** Structs, field by field *)

Section rest.
Context `{!ExtMemory, !ExtMemoryLaws} {W : Type} `{!RangeEnv W}.

(** [k] copies the fields [fs], in order. *)
Definition rest (fs : list (string * gtype)) (k : CopyFn W) : Prop :=
  ∃ l, steps_for fs l ∧ ∀ in_ out, k in_ out = run_steps l in_ out.

Lemma rest_nil : rest [] (λ _ _, mret tt).
Proof. exists []. split; [constructor|done]. Qed.

Lemma rest_flat f t fs k : flat t → rest fs k → rest ((f, t) :: fs) k.
Proof. intros Ht (l & Hl & Hk). exists l. split; [by constructor|done]. Qed.

Lemma rest_step f t g fs k :
  fills t g → rest fs k → rest ((f, t) :: fs) (λ in_ out, g in_.[f] out.[f];; k in_ out).
Proof.
  intros Hg (l & Hl & Hk). exists ((f, g) :: l). split; [by constructor|].
  intros in_ out. simpl. by rewrite Hk.
Qed.

Lemma rest_copies fs k :
  bool_decide (NoDup fs.*1) → rest fs k →
  copies (Struct fs) (λ in_ out, assign in_ out;; k in_ out).
Proof.
  intros Hnd%bool_decide_unpack (l & Hl & Hk) h w o p c ain v u x ?????.
  rewrite Hk. by eapply (struct_copies fs l).
Qed.
End rest.

(** The copies of structs that are proved, for the structs that contain them. *)
Create HintDb copies discriminated.
#[export] Hint Constants Opaque : copies.

(** The rule of a statement. *)
Ltac copy_rule :=
  lazymatch goal with
  | |- rest [] _ => apply rest_nil
  | |- rest ((?f, _) :: _) (λ in_ out, _ (sub in_ (Fld ?f)) (sub out (Fld ?f)) ≫= _) =>
      apply rest_step
  | |- rest (_ :: _) _ => apply rest_flat; [exact I|]
  | |- fills _ (unless_nil _) => apply unless_nil_fills; [intros ?; reflexivity|]
  | |- fills _ _ => apply copies_fills
  | |- makes _ (new_pointer _ _) => apply pointer_makes
  | |- makes _ (make_slice _ _) => apply slice_makes
  | |- makes _ (make_copy _) => apply copy_makes; exact I
  | |- makes _ (make_map _) => apply map_makes
  | |- enters _ set_entry => apply set_entry_enters; exact I
  | |- enters _ (set_nilable _) => apply set_nilable_enters; [intros ?; reflexivity|]
  | |- enters _ (set_copied _) => apply set_copied_enters
  | |- clones _ (ext_DeepCopy _) => apply ext_DeepCopy_clones
  | |- copies _ (ext_DeepCopyInto _) => apply ext_DeepCopyInto_copies
  | |- copies _ assign => apply assign_copies; exact I
  | |- copies _ _ => solve [trivial with copies]
  end.

(** The proof for a struct: unfold its type and its function, and follow the
    statements. *)
Tactic Notation "copy_struct" reference(T) reference(f) :=
  unfold T, f;
  lazymatch goal with
  | |- copies _ assign => apply assign_copies; exact I
  | |- _ => apply rest_copies; [by vm_compute|]; repeat copy_rule
  end.

Section copies.
Context `{!ExtMemory, !ExtMemoryLaws} {W : Type} `{!RangeEnv W, !RangeLaws W}.
Context `{!ExtCopy W, !ExtCopyLaws W}.

Lemma OidcSpec_copies : copies (W:=W) OidcSpec_type OidcSpec_DeepCopyInto.
Proof. copy_struct OidcSpec_type OidcSpec_DeepCopyInto. Qed.
#[local] Hint Resolve OidcSpec_copies : copies.

Lemma AuthenticationSpec_copies : copies (W:=W) AuthenticationSpec_type AuthenticationSpec_DeepCopyInto.
Proof. copy_struct AuthenticationSpec_type AuthenticationSpec_DeepCopyInto. Qed.
#[local] Hint Resolve AuthenticationSpec_copies : copies.

Lemma CatalogLabelSelectorSpec_copies : copies (W:=W) CatalogLabelSelectorSpec_type CatalogLabelSelectorSpec_DeepCopyInto.
Proof. copy_struct CatalogLabelSelectorSpec_type CatalogLabelSelectorSpec_DeepCopyInto. Qed.
#[local] Hint Resolve CatalogLabelSelectorSpec_copies : copies.

Lemma TlsSpec_copies : copies (W:=W) TlsSpec_type TlsSpec_DeepCopyInto.
Proof. copy_struct TlsSpec_type TlsSpec_DeepCopyInto. Qed.
#[local] Hint Resolve TlsSpec_copies : copies.

Lemma ClusterConfigSpec_copies : copies (W:=W) ClusterConfigSpec_type ClusterConfigSpec_DeepCopyInto.
Proof. copy_struct ClusterConfigSpec_type ClusterConfigSpec_DeepCopyInto. Qed.
#[local] Hint Resolve ClusterConfigSpec_copies : copies.

Lemma ConfigSpec_copies : copies (W:=W) ConfigSpec_type ConfigSpec_DeepCopyInto.
Proof. copy_struct ConfigSpec_type ConfigSpec_DeepCopyInto. Qed.
#[local] Hint Resolve ConfigSpec_copies : copies.

Lemma BaseRoleSpec_copies : copies (W:=W) BaseRoleSpec_type BaseRoleSpec_DeepCopyInto.
Proof. copy_struct BaseRoleSpec_type BaseRoleSpec_DeepCopyInto. Qed.
#[local] Hint Resolve BaseRoleSpec_copies : copies.

Lemma RoleGroupSpec_copies : copies (W:=W) RoleGroupSpec_type RoleGroupSpec_DeepCopyInto.
Proof. copy_struct RoleGroupSpec_type RoleGroupSpec_DeepCopyInto. Qed.
#[local] Hint Resolve RoleGroupSpec_copies : copies.

Lemma CoordinatorsSpec_copies : copies (W:=W) CoordinatorsSpec_type CoordinatorsSpec_DeepCopyInto.
Proof. copy_struct CoordinatorsSpec_type CoordinatorsSpec_DeepCopyInto. Qed.
#[local] Hint Resolve CoordinatorsSpec_copies : copies.

Lemma WorkersSpec_copies : copies (W:=W) WorkersSpec_type WorkersSpec_DeepCopyInto.
Proof. copy_struct WorkersSpec_type WorkersSpec_DeepCopyInto. Qed.
#[local] Hint Resolve WorkersSpec_copies : copies.

Lemma ImageSpec_copies : copies (W:=W) ImageSpec_type ImageSpec_DeepCopyInto.
Proof. copy_struct ImageSpec_type ImageSpec_DeepCopyInto. Qed.
#[local] Hint Resolve ImageSpec_copies : copies.

Lemma TrinoClusterSpec_copies : copies (W:=W) TrinoClusterSpec_type TrinoClusterSpec_DeepCopyInto.
Proof. copy_struct TrinoClusterSpec_type TrinoClusterSpec_DeepCopyInto. Qed.
#[local] Hint Resolve TrinoClusterSpec_copies : copies.

Lemma TrinoCluster_copies : copies (W:=W) TrinoCluster_type TrinoCluster_DeepCopyInto.
Proof. copy_struct TrinoCluster_type TrinoCluster_DeepCopyInto. Qed.
#[local] Hint Resolve TrinoCluster_copies : copies.

Lemma TrinoClusterList_copies : copies (W:=W) TrinoClusterList_type TrinoClusterList_DeepCopyInto.
Proof. copy_struct TrinoClusterList_type TrinoClusterList_DeepCopyInto. Qed.
#[local] Hint Resolve TrinoClusterList_copies : copies.

Lemma LoggingSpec_copies : copies (W:=W) LoggingSpec_type LoggingSpec_DeepCopyInto.
Proof. copy_struct LoggingSpec_type LoggingSpec_DeepCopyInto. Qed.
#[local] Hint Resolve LoggingSpec_copies : copies.

Lemma ConfigOverridesSpec_copies : copies (W:=W) ConfigOverridesSpec_type ConfigOverridesSpec_DeepCopyInto.
Proof. copy_struct ConfigOverridesSpec_type ConfigOverridesSpec_DeepCopyInto. Qed.
#[local] Hint Resolve ConfigOverridesSpec_copies : copies.

Lemma JvmPropertiesRoleConfigSpec_copies : copies (W:=W) JvmPropertiesRoleConfigSpec_type JvmPropertiesRoleConfigSpec_DeepCopyInto.
Proof. copy_struct JvmPropertiesRoleConfigSpec_type JvmPropertiesRoleConfigSpec_DeepCopyInto. Qed.
#[local] Hint Resolve JvmPropertiesRoleConfigSpec_copies : copies.

Lemma ValueFromConfigurationSpec_copies : copies (W:=W) ValueFromConfigurationSpec_type ValueFromConfigurationSpec_DeepCopyInto.
Proof. copy_struct ValueFromConfigurationSpec_type ValueFromConfigurationSpec_DeepCopyInto. Qed.
#[local] Hint Resolve ValueFromConfigurationSpec_copies : copies.

Lemma PropertiesSpec_copies : copies (W:=W) PropertiesSpec_type PropertiesSpec_DeepCopyInto.
Proof. copy_struct PropertiesSpec_type PropertiesSpec_DeepCopyInto. Qed.
#[local] Hint Resolve PropertiesSpec_copies : copies.

Lemma GenericConnectorSpec_copies : copies (W:=W) GenericConnectorSpec_type GenericConnectorSpec_DeepCopyInto.
Proof. copy_struct GenericConnectorSpec_type GenericConnectorSpec_DeepCopyInto. Qed.
#[local] Hint Resolve GenericConnectorSpec_copies : copies.

Lemma MetastoreConnectionSpec_copies : copies (W:=W) MetastoreConnectionSpec_type MetastoreConnectionSpec_DeepCopyInto.
Proof. copy_struct MetastoreConnectionSpec_type MetastoreConnectionSpec_DeepCopyInto. Qed.
#[local] Hint Resolve MetastoreConnectionSpec_copies : copies.

Lemma HdfsConnectionSpec_copies : copies (W:=W) HdfsConnectionSpec_type HdfsConnectionSpec_DeepCopyInto.
Proof. copy_struct HdfsConnectionSpec_type HdfsConnectionSpec_DeepCopyInto. Qed.
#[local] Hint Resolve HdfsConnectionSpec_copies : copies.

Lemma HiveConnectorSpec_copies : copies (W:=W) HiveConnectorSpec_type HiveConnectorSpec_DeepCopyInto.
Proof. copy_struct HiveConnectorSpec_type HiveConnectorSpec_DeepCopyInto. Qed.
#[local] Hint Resolve HiveConnectorSpec_copies : copies.

Lemma IcebergConnectorSpec_copies : copies (W:=W) IcebergConnectorSpec_type IcebergConnectorSpec_DeepCopyInto.
Proof. copy_struct IcebergConnectorSpec_type IcebergConnectorSpec_DeepCopyInto. Qed.
#[local] Hint Resolve IcebergConnectorSpec_copies : copies.

Lemma TpcdsConnectorSpec_copies : copies (W:=W) TpcdsConnectorSpec_type TpcdsConnectorSpec_DeepCopyInto.
Proof. copy_struct TpcdsConnectorSpec_type TpcdsConnectorSpec_DeepCopyInto. Qed.
#[local] Hint Resolve TpcdsConnectorSpec_copies : copies.

Lemma TpchConnectorSpec_copies : copies (W:=W) TpchConnectorSpec_type TpchConnectorSpec_DeepCopyInto.
Proof. copy_struct TpchConnectorSpec_type TpchConnectorSpec_DeepCopyInto. Qed.
#[local] Hint Resolve TpchConnectorSpec_copies : copies.

Lemma ConnectorSpec_copies : copies (W:=W) ConnectorSpec_type ConnectorSpec_DeepCopyInto.
Proof. copy_struct ConnectorSpec_type ConnectorSpec_DeepCopyInto. Qed.
#[local] Hint Resolve ConnectorSpec_copies : copies.

Lemma TrinoCatalogSpec_copies : copies (W:=W) TrinoCatalogSpec_type TrinoCatalogSpec_DeepCopyInto.
Proof. copy_struct TrinoCatalogSpec_type TrinoCatalogSpec_DeepCopyInto. Qed.
#[local] Hint Resolve TrinoCatalogSpec_copies : copies.

Lemma TrinoCatalogStatus_copies : copies (W:=W) TrinoCatalogStatus_type TrinoCatalogStatus_DeepCopyInto.
Proof. copy_struct TrinoCatalogStatus_type TrinoCatalogStatus_DeepCopyInto. Qed.
#[local] Hint Resolve TrinoCatalogStatus_copies : copies.

Lemma TrinoCatalog_copies : copies (W:=W) TrinoCatalog_type TrinoCatalog_DeepCopyInto.
Proof. copy_struct TrinoCatalog_type TrinoCatalog_DeepCopyInto. Qed.
#[local] Hint Resolve TrinoCatalog_copies : copies.

Lemma TrinoCatalogList_copies : copies (W:=W) TrinoCatalogList_type TrinoCatalogList_DeepCopyInto.
Proof. copy_struct TrinoCatalogList_type TrinoCatalogList_DeepCopyInto. Qed.
#[local] Hint Resolve TrinoCatalogList_copies : copies.

(** ** Every type *)

Lemma deepcopies_correct : Forall (λ '(t, into, dc), copies t into ∧ clones t dc) deepcopies.
Proof.
  unfold deepcopies.
  repeat (apply Forall_cons; split; [split; [|apply deep_copy_clones]; solve [trivial with copies]|]).
  apply Forall_nil. exact I.
Qed.

Lemma deepcopies_clones t into dc : (t, into, dc) ∈ deepcopies → clones t dc.
Proof.
  intros Hin. pose proof deepcopies_correct as Hall. rewrite Forall_forall in Hall.
  by apply (Hall _ Hin).
Qed.

(** What a pointer denotes depends only on the memory it was read in. *)
Lemma read_agree t (h h2 : heap) q x :
  read t h q = Some x → (∀ l, is_Some (h !! l) → h2 !! l = h !! l) → read t h2 q = Some x.
Proof.
  intros Hx Hag. eapply read_mono; [exact Hx|]. apply map_subseteq_spec.
  intros l c Hc. rewrite Hag; eauto.
Qed.

(** C6: for every struct of the API, [DeepCopy] of a pointer returns a pointer that
    denotes the same value, nil for nil.  It does not change the store that
    there was, and the value lies entirely in the memory [hn] that the call
    allocated. *)
Theorem deep_copies_equal (t : gtype) (into : CopyFn W) (dc : gval → Mem W gval)
    (h : heap) w q x :
  (t, into, dc) ∈ deepcopies → read (Pointer t) h q = Some x →
  ∃ hn q' w',
    dc q (h, w) = (Val q', (hn ∪ h, w')) ∧ hn ##ₘ h ∧ read (Pointer t) hn q' = Some x.
Proof. intros Hin. apply (deepcopies_clones _ _ _ Hin). Qed.

(** [DeepCopyInto] writes a deep copy of its receiver into the struct at [out],
    wherever that lies and whatever it held; the rest of the block of [out]
    and of the store stays as it was. *)
Lemma deep_copies_into (t : gtype) (into : CopyFn W) (dc : gval → Mem W gval)
    (h : heap) w o p c ain v u x :
  (t, into, dc) ∈ deepcopies →
  h !! o = None → peek h ain = Some v → read t h v = Some x → get c p = Some u →
  ∃ hn c' v' w',
    into ain (o, p) (<[o:=c]> h, w) = (Val tt, (<[o:=c']> (hn ∪ h), w')) ∧
    put c p v' = Some c' ∧ hn ##ₘ <[o:=c]> h ∧ read t hn v' = Some x.
Proof.
  intros Hin. pose proof deepcopies_correct as Hall. rewrite Forall_forall in Hall.
  destruct (Hall _ Hin) as [Hinto _]. intros ????. by eapply Hinto.
Qed.

(** C5: a copy and its original share nothing: a store [h2] that differs from the
    result in cells of the original only still gives the copy its value, and
    one that differs in cells of the copy only gives the original its value. *)
Theorem deep_copies_isolated (t : gtype) (into : CopyFn W) (dc : gval → Mem W gval)
    (h : heap) w q x :
  (t, into, dc) ∈ deepcopies → read (Pointer t) h q = Some x →
  ∃ q' h' w', dc q (h, w) = (Val q', (h', w')) ∧
    (∀ h2 : heap, (∀ l, h !! l = None → h2 !! l = h' !! l) →
       read (Pointer t) h2 q' = Some x) ∧
    (∀ h2 : heap, (∀ l, is_Some (h !! l) → h2 !! l = h' !! l) →
       read (Pointer t) h2 q = Some x).
Proof.
  intros Hin Hx. destruct (deepcopies_clones _ _ _ Hin h w q x Hx) as (hn & q' & w' & Hrun & Hd & Hx').
  exists q', (hn ∪ h), w'. split_and!; [done| |]; intros h2 Hag.
  - eapply read_agree; [exact Hx'|]. intros l [c Hc].
    rewrite Hag by (by eapply map_disjoint_Some_l).
    by rewrite (lookup_union_Some_l _ _ _ _ Hc).
  - eapply read_agree; [exact Hx|]. intros l [c Hc]. rewrite Hag by eauto.
    by rewrite (lookup_union_Some_r _ _ _ _ Hd Hc).
Qed.

Lemma object_clones name t (dc : gval → Mem W gval) : clones t dc → ∀ h w q x,
  read (Pointer t) h q = Some x →
  ∃ o hn w',
    deep_copy_object name dc q (h, w) = (Val o, (hn ∪ h, w')) ∧ hn ##ₘ h ∧
    (q = VNil → o = None) ∧
    (q ≠ VNil → ∃ q', o = Some (name, q') ∧ q' ≠ VNil ∧ read (Pointer t) hn q' = Some x).
Proof.
  intros Hdc h w q x Hx. destruct (Hdc h w q x Hx) as (hn & q' & w' & Hrun & Hd & Hx').
  eexists _, hn, w'. split_and!; [by unfold deep_copy_object; run Hrun|done| |].
  - intros ->. simpl in Hx. simplify_eq. simpl in Hx'. destruct q'; simplify_eq/=; try done.
    destruct (peek hn a); simplify_eq/=. by destruct (read t hn g).
  - intros Hq. assert (q' ≠ VNil) as Hq'.
    { intros ->. simpl in Hx'. simplify_eq. simpl in Hx. destruct q; simplify_eq/=; try done.
      destruct (peek h a); simplify_eq/=. by destruct (read t h g). }
    exists q'. split_and!; try done. by destruct q'.
Qed.

(** C27: the [runtime.Object] of each registered type: the nil pointer gives the
    nil interface, not an interface that holds a nil pointer; any other
    pointer gives an object of its own type that holds a deep copy. *)
Theorem objects_deep_copy name (t : gtype) (obj : gval → Mem W runtime_Object)
    (h : heap) w q x :
  (name, t, obj) ∈ registered_cluster_types ++ registered_catalog_types →
  read (Pointer t) h q = Some x →
  ∃ o hn w',
    obj q (h, w) = (Val o, (hn ∪ h, w')) ∧ hn ##ₘ h ∧
    (q = VNil → o = None) ∧
    (q ≠ VNil → ∃ q', o = Some (name, q') ∧ q' ≠ VNil ∧ read (Pointer t) hn q' = Some x).
Proof.
  intros Hin. assert (∃ dc : gval → Mem W gval, obj = deep_copy_object name dc ∧ clones t dc) as (dc & -> & Hdc).
  { unfold registered_cluster_types, registered_catalog_types in Hin.
    repeat (apply elem_of_cons in Hin as [Hin|Hin]; [injection Hin as -> -> ->; eexists;
      split; [reflexivity|apply deep_copy_clones; solve [trivial with copies]]|]).
    by apply elem_of_nil in Hin. }
  by apply object_clones.
Qed.
End copies.

(** ** Witnesses

    The types of other packages are maps of strings here. *)

Module DeepCopyWitnesses.

#[local] Instance no_memory : ExtMemory :=
  {| ext_zero := λ _, VNil; ext_read := λ _ _ _, None; ext_flat_read := λ _ _, None |}.

#[local] Instance no_memory_laws : ExtMemoryLaws (H := no_memory).
Proof. by intros name h h' v x. Qed.

#[local] Instance ext_memory : ExtMemory :=
  {| ext_zero := λ _, VNil;
     ext_read := λ _, read (H := no_memory) (MapOf (Scalar String_));
     ext_flat_read := λ _ v, read (H := no_memory) (Scalar String_) ∅ v |}.

#[local] Instance ext_memory_laws : ExtMemoryLaws.
Proof. intros name h h' v x. apply (read_mono (H := no_memory)). Qed.

(** Maps are visited in the order of their trees. *)
#[local] Instance unit_range : RangeEnv unit := λ A m w, (map_to_list m, w).
#[local] Instance unit_range_laws : RangeLaws unit.
Proof. by intros A m []. Qed.

#[local] Instance ext_copy : ExtCopy unit :=
  {| ext_DeepCopyInto := λ _ in_ out, assign in_ out;; unless_nil (make_map set_entry) in_ out;; mret tt;
     ext_DeepCopy := λ _, deep_copy VNil
       (λ in_ out, assign in_ out;; unless_nil (make_map set_entry) in_ out;; mret tt) |}.

Lemma assign_then_copies t (f : CopyFn unit) :
  nilable (H := no_memory) t → makes (H := no_memory) t f →
  copies (H := no_memory) t (λ in_ out, assign in_ out;; unless_nil f in_ out;; mret tt).
Proof.
  intros Hnil Hf h w o p c ain v u x Ho Hin Hx Hu _.
  destruct (put_is_Some _ _ _ v Hu) as [c1 Hc1].
  destruct (unless_nil_fills t f Hnil Hf h w o p c1 ain v v x)
    as (hn & c' & v' & w' & Hrun & Hput & Hd & Hr); [done..|by eapply get_put|done|].
  exists hn, c', v', w'. split_and!; [|by rewrite <-(put_put _ _ _ _ _ Hc1)| |done].
  - assert (assign ain (o, p) (<[o:=c]> h, w) = (Val tt, (<[o:=c1]> h, w))) as Ha.
    { unfold assign. run (load_run _ _ _ _ (peek_under _ _ _ _ _ Ho Hin)). by apply store_block. }
    run Ha. by run Hrun.
  - apply map_disjoint_insert_r in Hd as [??]. by apply map_disjoint_insert_r.
Qed.

Lemma read_ext name h v :
  read (External name) h v
  = (y ← read (H := no_memory) (MapOf (Scalar String_)) h v; Some (TOpaque y)).
Proof. done. Qed.

#[local] Instance ext_copy_laws : ExtCopyLaws unit.
Proof.
  assert (copies (H := no_memory) (W := unit) (MapOf (Scalar String_))
    (λ in_ out, assign in_ out;; unless_nil (make_map set_entry) in_ out;; mret tt)) as Hmap.
  { apply assign_then_copies; [by intros ?|]. apply (map_makes (H := no_memory)).
    by apply (set_entry_enters (H := no_memory)). }
  assert (∀ name, copies (W := unit) (External name)
    (λ in_ out, assign in_ out;; unless_nil (make_map set_entry) in_ out;; mret tt)) as Hext.
  { intros name h w o p c ain v u x Ho Hin Hx Hu _. rewrite read_ext in Hx.
    destruct (read (H := no_memory) (MapOf (Scalar String_)) h v) as [y|] eqn:Hy; [|done].
    injection Hx as <-.
    destruct (Hmap h w o p c ain v u y) as (hn & c' & v' & w' & ? & ? & ? & Hr); [done..|].
    exists hn, c', v', w'. split_and!; try done. rewrite read_ext. by rewrite Hr. }
  split; intros name; [apply Hext|]. by apply deep_copy_clones.
Qed.

Definition str (s : string) : gval := VScalar (SString s).
Definition obj (fs : list (string * gval)) : gval := VStruct (list_to_map fs).

(** A cluster with an OIDC class in a slice that does not start its array,
    catalogs and role groups of which some are nil, and TLS. *)
Definition sample : heap := list_to_map [
  (1%positive, obj [("TypeMeta", str "TrinoCluster"); ("ObjectMeta", VMapRef 2);
    ("Spec", obj [("ClusterConfig", VPtr (3%positive, [])); ("ClusterOperation", VNil);
      ("Image", VPtr (4%positive, [])); ("Coordinators", VPtr (5%positive, []));
      ("Workers", VNil)]);
    ("Status", VNil)]);
  (2%positive, VMap {["app" := str "trino"]});
  (3%positive, obj [("Authentication", VSlice 6 1 1); ("CatalogLabelSelector", VNil);
    ("CatalogProperties", VMapRef 7); ("ListenerClass", str "cluster-internal");
    ("Tls", VPtr (8%positive, [])); ("VectorAggregatorConfigMapName", str "")]);
  (4%positive, obj [("Custom", str ""); ("Repo", str "quay.io"); ("KubedoopVersion", str "0");
    ("ProductVersion", str "451"); ("PullPolicy", str ""); ("PullSecretName", str "")]);
  (5%positive, obj [("RoleGroups", VMapRef 9);
    ("BaseRoleSpec", obj [("Replicas", VNil); ("OverridesSpec", VNil); ("RoleConfig", VNil);
      ("Config", VNil)])]);
  (6%positive, VArr [VNil; obj [("AuthenticationClass", str "sso"); ("Oidc", VPtr (10%positive, []))]]);
  (7%positive, VMap {["tpch" := VMapRef 11; "none" := VNil]});
  (8%positive, obj [("ServerSecretClass", str "tls"); ("InternalSecretClass", str "tls")]);
  (9%positive, VMap {["default" := VPtr (12%positive, []); "null" := VNil]});
  (10%positive, obj [("ClientCredentialsSecret", str "oidc"); ("ExtraScopes", VSlice 13 0 2)]);
  (11%positive, VMap {["connector.name" := str "tpch"]});
  (12%positive, obj [("Replicas", VPtr (14%positive, [])); ("Config", VNil); ("OverridesSpec", VNil)]);
  (13%positive, VArr [str "email"; str "groups"]);
  (14%positive, VScalar (SInt 2))].

Definition cluster : gval := VPtr (1%positive, []).

Lemma cluster_read : ∃ x, read (Pointer TrinoCluster_type) sample cluster = Some x.
Proof.
  assert (is_Some (read (Pointer TrinoCluster_type) sample cluster)) as [x Hx].
  { apply (bool_decide_unpack _). by vm_compute. }
  by exists x.
Defined.

Lemma TrinoCluster_listed :
  (TrinoCluster_type, TrinoCluster_DeepCopyInto, TrinoCluster_DeepCopy)
  ∈ deepcopies (W := unit).
Proof. by apply (list_elem_of_lookup_2 _ 12). Defined.

Lemma deep_copies_equal_witness : ∃ x hn q' w',
  read (Pointer TrinoCluster_type) sample cluster = Some x ∧
  TrinoCluster_DeepCopy cluster (sample, tt) = (Val q', (hn ∪ sample, w')) ∧
  hn ##ₘ sample ∧ read (Pointer TrinoCluster_type) hn q' = Some x.
Proof.
  destruct cluster_read as [x Hx].
  destruct (deep_copies_equal _ _ _ sample tt cluster x TrinoCluster_listed Hx)
    as (hn & q' & w' & H). exists x, hn, q', w'. split; [exact Hx|exact H].
Defined.

Lemma deep_copies_isolated_witness : ∃ x q' h' w',
  TrinoCluster_DeepCopy cluster (sample, tt) = (Val q', (h', w')) ∧
  (∀ h2 : heap, (∀ l, sample !! l = None → h2 !! l = h' !! l) →
     read (Pointer TrinoCluster_type) h2 q' = Some x) ∧
  (∀ h2 : heap, (∀ l, is_Some (sample !! l) → h2 !! l = h' !! l) →
     read (Pointer TrinoCluster_type) h2 cluster = Some x).
Proof.
  destruct cluster_read as [x Hx].
  destruct (deep_copies_isolated _ _ _ sample tt cluster x TrinoCluster_listed Hx)
    as (q' & h' & w' & H). exists x, q', h', w'. exact H.
Defined.

(** The struct at 3 is copied into a field of a block of its own. *)
Lemma deep_copies_into_witness : ∃ x hn c' v' w',
  ClusterConfigSpec_DeepCopyInto (3%positive, []) (20%positive, [Fld "Config"])
    (<[20%positive := obj [("Config", VNil)]]> sample, tt)
  = (Val tt, (<[20%positive:=c']> (hn ∪ sample), w')) ∧
  put (obj [("Config", VNil)]) [Fld "Config"] v' = Some c' ∧
  hn ##ₘ <[20%positive := obj [("Config", VNil)]]> sample ∧
  read ClusterConfigSpec_type hn v' = Some x.
Proof.
  assert (is_Some (v ← peek sample (3%positive, []); read ClusterConfigSpec_type sample v)) as [x Hx].
  { apply (bool_decide_unpack _). by vm_compute. }
  destruct (peek sample (3%positive, [])) as [v|] eqn:Hv; [|done].
  destruct (deep_copies_into ClusterConfigSpec_type ClusterConfigSpec_DeepCopyInto
    ClusterConfigSpec_DeepCopy sample tt 20%positive [Fld "Config"] (obj [("Config", VNil)])
    (3%positive, []) v VNil x)
    as (hn & c' & v' & w' & H);
    [by apply (list_elem_of_lookup_2 _ 4)|reflexivity|exact Hv|exact Hx|reflexivity|].
  exists x, hn, c', v', w'. exact H.
Defined.

Lemma objects_deep_copy_witness : ∃ x hn q' w',
  TrinoCluster_DeepCopyObject cluster (sample, tt) = (Val (Some ("TrinoCluster", q')), (hn ∪ sample, w')) ∧
  read (Pointer TrinoCluster_type) hn q' = Some x ∧
  (TrinoCluster_DeepCopyObject VNil (sample, tt)).1 = Val None.
Proof.
  destruct cluster_read as [x Hx].
  destruct (objects_deep_copy "TrinoCluster" TrinoCluster_type TrinoCluster_DeepCopyObject
    sample tt cluster x) as (o & hn & w' & Hrun & _ & _ & Hsome);
    [by apply (list_elem_of_lookup_2 _ 0)|exact Hx|].
  destruct Hsome as (q' & -> & _ & Hr); [discriminate|]. exists x, hn, q', w'.
  split; [exact Hrun|]. split; [exact Hr|reflexivity].
Defined.

(** [DeepCopyInto] of a variable onto itself: the nested struct is replaced by
    its zero value before it is read. *)
Example self_copy_loses :
  (let '(_, (h, _)) := AuthenticationSpec_DeepCopyInto (6%positive, [Idx 1]) (6%positive, [Idx 1])
                         (sample, tt) in
   v ← peek h (6%positive, [Idx 1]); read AuthenticationSpec_type h v)
  = Some (TStruct {["AuthenticationClass" := TScalar (SString "sso");
                    "Oidc" := TPtr (TStruct {["ClientCredentialsSecret" := TScalar (SString "");
                                              "ExtraScopes" := TNil]})]}).
Proof. by vm_compute. Qed.
End DeepCopyWitnesses.
