(* ===== verification/GoStrings.v ===== *)
(** * Go's [strings], [strconv] and [path] as the operator uses them

    [strings_Join], [ReplaceByte] ([strings.ReplaceAll] with a one-byte
    pattern and replacement, the only use in the repository), [Itoa], and
    [path_Clean]/[path_Join].  A cleaned path is the rendering of its list of
    components, which is how the facts about mount paths are proved. *)

From S2P Require Import Prelude.

Definition slash : ascii := "/"%char.

(** ** strings *)

(** [strings.Join(elems, sep)] *)
Fixpoint strings_Join (elems : list string) (sep : string) : string :=
  match elems with
  | [] => ""
  | [e] => e
  | e :: es => e +:+ sep +:+ strings_Join es sep
  end.

(** [strings.ReplaceAll(s, old, new)] for one-byte [old] and [new]. *)
Fixpoint ReplaceByte (s : string) (old new : ascii) : string :=
  match s with
  | EmptyString => EmptyString
  | String c s => String (if decide (c = old) then new else c) (ReplaceByte s old new)
  end.

(** [strconv.Itoa] *)
Definition Itoa (n : Z) : string := pretty n.

(** The pieces of [s] between the separators, empty pieces included. *)
Fixpoint split_on (sep : ascii) (s : string) : list string :=
  match s with
  | EmptyString => [EmptyString]
  | String c s =>
      if decide (c = sep) then EmptyString :: split_on sep s
      else match split_on sep s with
           | p :: ps => String c p :: ps
           | [] => [String c EmptyString]
           end
  end.

Definition byte_free (c : ascii) (s : string) : Prop := c ∉ bytes_of s.
#[global] Instance byte_free_dec c s : Decision (byte_free c s).
Proof. unfold byte_free. apply _. Defined.

(** ** path *)

Definition rooted (p : string) : bool :=
  match p with
  | String c _ => bool_decide (c = slash)
  | EmptyString => false
  end.

(** One iteration of the loop of [path.Clean]: [out] holds the components
    written so far, last one first.  A [..] removes the last component; at
    the root it is dropped, and a relative path keeps its leading ones. *)
Definition clean_step (is_rooted : bool) (out : list string) (c : string)
    : list string :=
  if decide (c = "" ∨ c = ".") then out
  else if decide (c = "..") then
    match out with
    | [] => if is_rooted then [] else [".."]
    | d :: out' => if decide (d = "..") then ".." :: out else out'
    end
  else c :: out.

Definition clean_components (p : string) : list string :=
  reverse (foldl (clean_step (rooted p)) [] (split_on slash p)).

Definition render (is_rooted : bool) (cs : list string) : string :=
  let body := strings_Join cs "/" in
  if is_rooted then "/" +:+ body
  else if decide (body = "") then "." else body.

Definition path_Clean (p : string) : string :=
  render (rooted p) (clean_components p).

(** The buffer that [path.Join] builds before it cleans it. *)
Definition join_step (buf e : string) : string :=
  if decide (buf = "") then e else buf +:+ "/" +:+ e.

Definition path_Join (elems : list string) : string :=
  if decide (Forall (λ e, e = "") elems) then ""
  else path_Clean (foldl join_step "" elems).

Example path_Clean_ex : path_Clean "/a/./b//../c/" = "/a/c".
Proof. reflexivity. Qed.
Example path_Clean_rel : path_Clean "../a/../../b" = "../../b".
Proof. reflexivity. Qed.
Example path_Join_ex : path_Join ["/kubedoop/tls/"; "server"] = "/kubedoop/tls/server".
Proof. reflexivity. Qed.

(** ** Facts about splitting and joining *)

Lemma byte_free_cons c a s : byte_free c (String a s) ↔ c ≠ a ∧ byte_free c s.
Proof. unfold byte_free. simpl. set_solver. Qed.

Lemma byte_free_app c s1 s2 : byte_free c (s1 +:+ s2) ↔ byte_free c s1 ∧ byte_free c s2.
Proof. unfold byte_free. rewrite bytes_of_app. set_solver. Qed.

Lemma split_on_nonempty sep s : split_on sep s ≠ [].
Proof. destruct s; simpl; [done|]. case_decide; [done|]. by case_match. Qed.

Lemma split_on_free sep s : byte_free sep s → split_on sep s = [s].
Proof.
  induction s as [|c s IH]; [done|]. rewrite byte_free_cons. intros [Hc Hs].
  simpl. rewrite decide_False by done. by rewrite IH.
Qed.

Lemma split_on_app sep s1 s2 :
  split_on sep (s1 +:+ String sep s2) = split_on sep s1 ++ split_on sep s2.
Proof.
  induction s1 as [|c s1 IH]; simpl; [by rewrite decide_True|].
  case_decide; [by rewrite IH|]. rewrite IH.
  destruct (split_on sep s1) eqn:E; [by destruct (split_on_nonempty sep s1)|done].
Qed.

Lemma split_on_pieces_free sep s : Forall (byte_free sep) (split_on sep s).
Proof.
  induction s as [|c s IH]; simpl.
  { repeat constructor. unfold byte_free. set_solver. }
  case_decide as Hc.
  { constructor; [|done]. unfold byte_free. set_solver. }
  destruct (split_on sep s) as [|p ps] eqn:Hs; [by destruct (split_on_nonempty sep s)|].
  apply Forall_cons in IH as [Hp Hps]. constructor; [|done].
  rewrite byte_free_cons. done.
Qed.

Lemma split_on_Join c l :
  l ≠ [] → Forall (byte_free c) l → split_on c (strings_Join l (String c "")) = l.
Proof.
  induction l as [|e l IH]; [done|]. intros _ [He Hl]%Forall_cons.
  destruct l as [|e' l]; [by apply split_on_free|].
  change (strings_Join (e :: e' :: l) (String c ""))
    with (e +:+ String c (strings_Join (e' :: l) (String c ""))).
  rewrite split_on_app, split_on_free by done. rewrite IH by done. done.
Qed.

(** ** Facts about paths *)

(** A component that [path.Clean] keeps as it is. *)
Definition simple (c : string) : Prop :=
  c ≠ "" ∧ c ≠ "." ∧ c ≠ ".." ∧ byte_free slash c.
#[global] Instance simple_dec c : Decision (simple c).
Proof. unfold simple. apply _. Defined.

(** Components of a cleaned path: never empty or [.], free of slashes. *)
Definition kept (c : string) : Prop := c ≠ "" ∧ c ≠ "." ∧ byte_free slash c.

Lemma simple_kept c : simple c → kept c.
Proof. unfold simple, kept. naive_solver. Qed.
#[export] Hint Resolve simple_kept : go.

Lemma clean_step_simple r out c : simple c → clean_step r out c = c :: out.
Proof.
  intros (?&?&?&?). unfold clean_step.
  rewrite decide_False by naive_solver. by rewrite decide_False by done.
Qed.

Lemma clean_step_kept r out c :
  byte_free slash c → Forall kept out → Forall kept (clean_step r out c).
Proof.
  intros Hc Hout. unfold clean_step. case_decide as H1; [done|].
  assert (kept "..") by (unfold kept, byte_free; simpl; set_solver).
  case_decide.
  - destruct out as [|d out]; [destruct r; by auto using Forall_nil_2, Forall_cons_2|].
    case_decide; [by constructor|]. by apply Forall_cons in Hout as [??].
  - constructor; [|done]. unfold kept. naive_solver.
Qed.

Lemma foldl_clean_kept r out cs :
  Forall (byte_free slash) cs → Forall kept out → Forall kept (foldl (clean_step r) out cs).
Proof.
  revert out. induction cs as [|c cs IH]; intros out Hcs Hout; simpl; [done|].
  apply Forall_cons in Hcs as [??]. apply IH; [done|]. by apply clean_step_kept.
Qed.

Lemma clean_components_kept p : Forall kept (clean_components p).
Proof.
  apply Forall_reverse. apply foldl_clean_kept; [apply split_on_pieces_free|done].
Qed.

Lemma kept_free cs : Forall kept cs → Forall (byte_free slash) cs.
Proof. intros H. apply (Forall_impl _ _ _ H). by intros c (?&?&?). Qed.

(** The rendering of kept components determines them. *)
Lemma render_inj r cs1 cs2 :
  Forall kept cs1 → Forall kept cs2 → render r cs1 = render r cs2 → cs1 = cs2.
Proof.
  intros H1 H2. assert (Hbody : ∀ cs, Forall kept cs → strings_Join cs "/" = "" → cs = []).
  { intros [|c [|c' cs]] Hcs; [done| |]; simpl.
    - intros ->. by apply Forall_cons in Hcs as [[??] _].
    - destruct c; [by apply Forall_cons in Hcs as [[??] _]|done]. }
  assert (Hdot : ∀ cs, Forall kept cs → strings_Join cs "/" = "." → False).
  { intros [|c [|c' cs]] Hcs; [done| |]; simpl.
    - intros ->. by apply Forall_cons in Hcs as [(?&?&?) _].
    - apply Forall_cons in Hcs as [(?&?&?) _]. destruct c as [|a c]; [done|].
      intros [= -> Hc]. destruct c; done. }
  assert (Heq : strings_Join cs1 "/" = strings_Join cs2 "/" → cs1 = cs2).
  { destruct (decide (cs1 = [])) as [->|Hn1].
    { simpl. intros. symmetry. by apply Hbody. }
    destruct (decide (cs2 = [])) as [->|Hn2]; [by apply Hbody|].
    intros Heq. rewrite <-(split_on_Join slash cs1) by eauto using kept_free.
    change (String slash "") with "/". rewrite Heq.
    by rewrite (split_on_Join slash) by eauto using kept_free. }
  unfold render. destruct r; [intros [= ?]; auto|].
  repeat case_decide; intros Hr; auto.
  - rewrite (Hbody cs1), (Hbody cs2); auto.
  - by destruct (Hdot cs2).
  - by destruct (Hdot cs1).
Qed.

Lemma rooted_app p s : p ≠ "" → rooted (p +:+ s) = rooted p.
Proof. by destruct p. Qed.

(** Joining a directory and a simple component appends the component. *)
Lemma path_Join_simple d c :
  d ≠ "" → simple c →
  path_Join [d; c] = render (rooted d) (clean_components d ++ [c]).
Proof.
  intros Hd Hc. unfold path_Join.
  rewrite decide_False by (rewrite Forall_cons; naive_solver).
  simpl. unfold join_step. simpl. rewrite decide_False by done.
  unfold path_Clean, clean_components. change ("/" +:+ c) with (String slash c).
  rewrite rooted_app by done. f_equal.
  destruct Hc as (?&?&?&Hfree). rewrite split_on_app, (split_on_free _ c), foldl_app by done.
  simpl. rewrite clean_step_simple by done. by rewrite reverse_cons.
Qed.

Lemma path_Join_inj d c1 c2 :
  d ≠ "" → simple c1 → simple c2 → path_Join [d; c1] = path_Join [d; c2] → c1 = c2.
Proof.
  intros Hd Hc1 Hc2. rewrite !path_Join_simple by done. intros H.
  assert (∀ c, simple c → Forall kept (clean_components d ++ [c])) as Hk.
  { intros c Hc. apply Forall_app. split; [apply clean_components_kept|].
    constructor; [by apply simple_kept|done]. }
  apply render_inj in H; [by simplify_list_eq| |]; auto.
Qed.

(** ** Replacing a byte *)

Lemma ReplaceByte_free s old new :
  old ≠ new → byte_free old (ReplaceByte s old new).
Proof.
  intros Hne. induction s as [|c s IH]; simpl; [unfold byte_free; set_solver|].
  rewrite byte_free_cons. split; [|done]. case_decide; congruence.
Qed.

Lemma ReplaceByte_length s old new :
  String.length (ReplaceByte s old new) = String.length s.
Proof. induction s; simpl; congruence. Qed.

(** [strconv.Itoa] separates numbers. *)
#[global] Instance Itoa_inj : Inj (=) (=) Itoa.
Proof. unfold Itoa. apply _. Qed.

(** ** Names *)

Definition is_lower_alnum (c : ascii) : bool :=
  let n := N_of_ascii c in
  ((97 <=? n) && (n <=? 122) || (48 <=? n) && (n <=? 57))%N.

(** The Kubernetes rule for DNS-1123 labels, which names of volumes obey: at
    most 63 characters, lower case letters, digits and [-], with a letter or
    a digit at both ends. *)
Definition dns1123_label (s : string) : bool :=
  let l := bytes_of s in
  (length l <=? 63)
  && forallb (λ c, is_lower_alnum c || bool_decide (c = "-"%char)) l
  && (if head l is Some c then is_lower_alnum c else false)
  && (if last l is Some c then is_lower_alnum c else false).
