(* ===== verification/GoUrl.v ===== *)
(** * Go's [net/url] as the operator uses it

    The OIDC issuer is the [String()] of a [url.URL] with a scheme, a host
    and a path.  [escape] is the percent encoding of that package for the two
    modes this uses; [unescape] is the reference decoder its facts are stated
    with. *)

From S2P Require Import Prelude.

Inductive encoding : Type := encodePath | encodeHost.

Definition byte_in (c : ascii) (s : string) : bool := bool_decide (c ∈ bytes_of s).

Definition is_alnum (c : ascii) : bool :=
  let n := N_of_ascii c in
  ((97 <=? n) && (n <=? 122) || (65 <=? n) && (n <=? 90) || (48 <=? n) && (n <=? 57))%N.

(** [net/url.shouldEscape] *)
Definition shouldEscape (c : ascii) (mode : encoding) : bool :=
  if is_alnum c then false
  else if byte_in c "-_.~" then false
  else match mode with
  | encodeHost => negb (byte_in c ("!$&'()*+,;=:[]<>" +:+ dquote))
  | encodePath => negb (byte_in c "$&+,/:;=@")
  end.

Definition upperhex (n : N) : ascii :=
  if (n <? 10)%N then ascii_of_N (48 + n) else ascii_of_N (55 + n).

(** [net/url.escape] *)
Fixpoint escape (s : string) (mode : encoding) : string :=
  match s with
  | EmptyString => EmptyString
  | String c s =>
      if shouldEscape c mode
      then String "%" (String (upperhex (N_of_ascii c / 16))
             (String (upperhex (N_of_ascii c mod 16)) (escape s mode)))
      else String c (escape s mode)
  end.

Record URL := mkURL { URL_Scheme : string; URL_Host : string; URL_Path : string }.

(** [URL.EscapedPath] for a URL without a raw path. *)
Definition EscapedPath (u : URL) : string :=
  if decide (URL_Path u = "*") then "*" else escape (URL_Path u) encodePath.

Definition starts_with_slash (s : string) : bool :=
  match s with
  | String c _ => bool_decide (c = "/"%char)
  | EmptyString => false
  end.

(** [URL.String] for a URL with a scheme and without opaque part, user,
    query or fragment. *)
Definition URL_String (u : URL) : string :=
  let authority :=
    if bool_decide (URL_Host u = "" ∧ URL_Path u = "") then ""
    else "//" +:+ escape (URL_Host u) encodeHost in
  let path := EscapedPath u in
  let sep :=
    if bool_decide (path ≠ "") && negb (starts_with_slash path)
       && bool_decide (URL_Host u ≠ "") then "/" else "" in
  URL_Scheme u +:+ ":" +:+ authority +:+ sep +:+ path.

Example URL_String_ex :
  URL_String (mkURL "http" "idp:8080" "/realms/a b") = "http://idp:8080/realms/a%20b".
Proof. reflexivity. Qed.

(** ** The reference decoder *)

Definition hexval (c : ascii) : option N :=
  let n := N_of_ascii c in
  if ((48 <=? n) && (n <=? 57))%N then Some (n - 48)%N
  else if ((65 <=? n) && (n <=? 70))%N then Some (n - 55)%N
  else None.

Fixpoint unescape (s : string) : option string :=
  match s with
  | EmptyString => Some EmptyString
  | String c s =>
      if decide (c = "%"%char) then
        match s with
        | String h (String l s') =>
            match hexval h, hexval l, unescape s' with
            | Some h, Some l, Some r => Some (String (ascii_of_N (16 * h + l)) r)
            | _, _, _ => None
            end
        | _ => None
        end
      else option_map (String c) (unescape s)
  end.

Lemma escape_percent mode : shouldEscape "%" mode = true.
Proof. by destruct mode. Qed.

Lemma hexval_upperhex n : (n < 16)%N → hexval (upperhex n) = Some n.
Proof.
  intros Hn. assert (n ∈ (N.of_nat <$> seq 0 16)) as Hin.
  { apply list_elem_of_fmap. exists (N.to_nat n). rewrite N2Nat.id.
    split; [done|]. apply elem_of_seq. lia. }
  revert Hin. clear Hn. simpl. rewrite !elem_of_cons, elem_of_nil.
  intros Hin. by repeat (destruct Hin as [->|Hin]).
Qed.

(** Percent encoding loses nothing. *)
Lemma unescape_escape s mode : unescape (escape s mode) = Some s.
Proof.
  induction s as [|c s IH]; [done|]. cbn [escape].
  destruct (shouldEscape c mode) eqn:Hc.
  - cbn [unescape]. rewrite decide_True by done.
    rewrite !hexval_upperhex.
    + rewrite IH. do 2 f_equal.
      rewrite <-(N.div_mod' (N_of_ascii c) 16). apply ascii_N_embedding.
    + apply N.mod_lt. done.
    + apply N.Div0.div_lt_upper_bound. pose proof (N_ascii_bounded c). lia.
  - cbn [unescape]. rewrite decide_False.
    + by rewrite IH.
    + intros ->. by rewrite escape_percent in Hc.
Qed.

(** A string of bytes that need no escaping is its own encoding. *)
Lemma escape_id s mode :
  Forall (λ c, shouldEscape c mode = false) (bytes_of s) → escape s mode = s.
Proof.
  induction s as [|c s IH]; [done|]. simpl. intros [Hc Hs]%Forall_cons.
  rewrite Hc. f_equal. auto.
Qed.
