(* ===== verification/GoJson.v ===== *)
(** * [encoding/json] for structs of strings

    How [json.Marshal] writes a struct whose fields are strings (with the
    escaping of HTML characters, which is on by default), and a reader of the
    JSON grammar (RFC 8259) for objects of strings, against which the writer
    is specified. *)

From S2P Require Import Prelude.

(** ** UTF-8 *)

Definition code (c : ascii) : nat := nat_of_ascii c.
Definition within (lo hi : nat) (c : ascii) : bool := (lo <=? code c) && (code c <=? hi).
Definition continues : ascii → bool := within 128 191.

(** The byte sequences that [utf8.DecodeRuneInString] accepts, by length. *)
Definition seq2 (b0 b1 : ascii) : bool := within 194 223 b0 && continues b1.
Definition seq3 (b0 b1 b2 : ascii) : bool :=
  (within 224 224 b0 && within 160 191 b1
   || (within 225 236 b0 || within 238 239 b0) && continues b1
   || within 237 237 b0 && within 128 159 b1) && continues b2.
Definition seq4 (b0 b1 b2 b3 : ascii) : bool :=
  (within 240 240 b0 && within 144 191 b1
   || within 241 243 b0 && continues b1
   || within 244 244 b0 && within 128 143 b1) && continues b2 && continues b3.

(** A string as Go ranges over it: runes, and single bytes that begin none. *)
Inductive chunk : Type :=
  | Rune (bytes : list ascii)
  | Bad (byte : ascii).

Fixpoint chunks (l : list ascii) : list chunk :=
  match l with
  | [] => []
  | b0 :: r0 =>
      if code b0 <? 128 then Rune [b0] :: chunks r0
      else
        match r0 with
        | b1 :: r1 =>
            if seq2 b0 b1 then Rune [b0; b1] :: chunks r1
            else
              match r1 with
              | b2 :: r2 =>
                  if seq3 b0 b1 b2 then Rune [b0; b1; b2] :: chunks r2
                  else
                    match r2 with
                    | b3 :: r3 =>
                        if seq4 b0 b1 b2 b3 then Rune [b0; b1; b2; b3] :: chunks r3
                        else Bad b0 :: chunks r0
                    | [] => Bad b0 :: chunks r0
                    end
              | [] => Bad b0 :: chunks r0
              end
        | [] => [Bad b0]
        end
  end.

Definition is_rune (c : chunk) : bool := match c with Rune _ => true | Bad _ => false end.
Definition valid_utf8 (s : string) : bool := forallb is_rune (chunks (bytes_of s)).

(** What [json.Marshal] keeps of a string: a byte that begins no rune becomes
    the replacement character. *)
Definition keep (c : chunk) : list ascii :=
  match c with
  | Rune l => l
  | Bad _ => ["239"%char; "191"%char; "189"%char]
  end.
Definition sanitize (s : string) : string := of_bytes (chunks (bytes_of s) ≫= keep).

(** ** Writing *)

Definition hex_digit (n : nat) : ascii :=
  default "0"%char (bytes_of "0123456789abcdef" !! n).

Definition quote : ascii := "034"%char.
Definition backslash : ascii := "092"%char.

(** [htmlSafeSet] *)
Definition html_safe (c : ascii) : bool :=
  within 32 127 c &&
  negb (bool_decide (c ∈ [quote; "&"%char; "<"%char; ">"%char; backslash])).

Definition escape_ascii (c : ascii) : list ascii :=
  if html_safe c then [c]
  else if bool_decide (c ∈ [backslash; quote]) then [backslash; c]
  else match code c with
       | 8 => [backslash; "b"%char]
       | 12 => [backslash; "f"%char]
       | 10 => [backslash; "n"%char]
       | 13 => [backslash; "r"%char]
       | 9 => [backslash; "t"%char]
       | n => [backslash; "u"%char; "0"%char; "0"%char; hex_digit (n / 16); hex_digit (n mod 16)]
       end.

Definition line_separator : list ascii := ["226"%char; "128"%char; "168"%char].
Definition paragraph_separator : list ascii := ["226"%char; "128"%char; "169"%char].

Definition escape_chunk (c : chunk) : list ascii :=
  match c with
  | Rune [b] => escape_ascii b
  | Rune l =>
      if bool_decide (l = line_separator) then backslash :: bytes_of "u2028"
      else if bool_decide (l = paragraph_separator) then backslash :: bytes_of "u2029"
      else l
  | Bad _ => backslash :: bytes_of "ufffd"
  end.

(** [appendString] *)
Definition marshal_string (s : string) : list ascii :=
  quote :: (chunks (bytes_of s) ≫= escape_chunk) ++ [quote].

Definition marshal_field (f : string * string) : list ascii :=
  marshal_string f.1 ++ ":"%char :: marshal_string f.2.

Fixpoint marshal_fields (fs : list (string * string)) : list ascii :=
  match fs with
  | [] => []
  | [f] => marshal_field f
  | f :: fs => marshal_field f ++ ","%char :: marshal_fields fs
  end.

(** The fields of a struct in order, each with its key. *)
Definition marshal_struct (fs : list (string * string)) : string :=
  of_bytes ("{"%char :: marshal_fields fs ++ ["}"%char]).

(** ** Reading *)

Definition hex_value (c : ascii) : option N :=
  if within 48 57 c then Some (N.of_nat (code c - 48))
  else if within 97 102 c then Some (N.of_nat (code c - 87))
  else if within 65 70 c then Some (N.of_nat (code c - 55))
  else None.

(** UTF-8 for the code points that one [\u] escape can give, surrogates aside. *)
Definition encode_rune (n : N) : list ascii :=
  (if n <? 128 then [ascii_of_N n]
   else if n <? 2048 then [ascii_of_N (192 + n / 64); ascii_of_N (128 + n mod 64)]
   else [ascii_of_N (224 + n / 4096); ascii_of_N (128 + n / 64 mod 64);
         ascii_of_N (128 + n mod 64)])%N.

Definition simple_escape (c : ascii) : option ascii :=
  match c with
  | "b"%char => Some "008"%char
  | "f"%char => Some "012"%char
  | "n"%char => Some "010"%char
  | "r"%char => Some "013"%char
  | "t"%char => Some "009"%char
  | "/"%char => Some "/"%char
  | _ => if bool_decide (c ∈ [quote; backslash]) then Some c else None
  end.

Definition unicode_escape (h1 h2 h3 h4 : ascii) : option (list ascii) :=
  n1 ← hex_value h1; n2 ← hex_value h2; n3 ← hex_value h3; n4 ← hex_value h4;
  let n := (4096 * n1 + 256 * n2 + 16 * n3 + n4)%N in
  if ((55296 <=? n) && (n <? 57344))%N then None else Some (encode_rune n).

(** The characters of a string after its opening quote, and what follows the
    closing one. *)
Fixpoint parse_chars (l : list ascii) : option (list ascii * list ascii) :=
  match l with
  | [] => None
  | c :: r =>
      if bool_decide (c = quote) then Some ([], r)
      else if bool_decide (c = backslash) then
        match r with
        | "u"%char :: h1 :: h2 :: h3 :: h4 :: r =>
            bs ← unicode_escape h1 h2 h3 h4; '(s, r) ← parse_chars r; Some (bs ++ s, r)
        | e :: r => b ← simple_escape e; '(s, r) ← parse_chars r; Some (b :: s, r)
        | [] => None
        end
      else if code c <? 32 then None
      else '(s, r) ← parse_chars r; Some (c :: s, r)
  end.

Definition parse_string (l : list ascii) : option (string * list ascii) :=
  match l with
  | c :: r => if bool_decide (c = quote)
              then '(s, r) ← parse_chars r; Some (of_bytes s, r) else None
  | [] => None
  end.

(** The members of an object, and its closing brace; [n] bounds their number. *)
Fixpoint parse_members (n : nat) (l : list ascii) : option (list (string * string)) :=
  match n with
  | 0 => None
  | S n =>
      '(k, r) ← parse_string l;
      match r with
      | ":"%char :: r =>
          '(v, r) ← parse_string r;
          match r with
          | ","%char :: r => ms ← parse_members n r; Some ((k, v) :: ms)
          | ["}"%char] => Some [(k, v)]
          | _ => None
          end
      | _ => None
      end
  end.

(** An object whose values are strings; every member has several characters,
    so the length of the text bounds their number. *)
Definition parse_object (s : string) : option (list (string * string)) :=
  match bytes_of s with
  | "{"%char :: ["}"%char] => Some []
  | "{"%char :: r => parse_members (length r) r
  | _ => None
  end.

(** ** The reader accepts what the writer writes *)

Lemma within_ge lo hi b : within lo hi b → 128 ≤ lo → 128 ≤ code b.
Proof. unfold within. intros [H _]%andb_True. apply Is_true_true, Nat.leb_le in H. lia. Qed.

Lemma continues_ge b : continues b → 128 ≤ code b.
Proof. intros H. by eapply within_ge. Qed.

Lemma seq2_ge b0 b1 : seq2 b0 b1 → 128 ≤ code b1.
Proof. intros [_ H]%andb_True. by apply continues_ge. Qed.

Lemma seq3_ge b0 b1 b2 : seq3 b0 b1 b2 → 128 ≤ code b1 ∧ 128 ≤ code b2.
Proof.
  unfold seq3. rewrite andb_True, !orb_True, !andb_True. intros [H1 H2].
  split; [|by apply continues_ge].
  destruct H1 as [[[_ H]|[_ H]]|[_ H]]; (eapply within_ge; [exact H|lia]).
Qed.

Lemma seq4_ge b0 b1 b2 b3 :
  seq4 b0 b1 b2 b3 → 128 ≤ code b1 ∧ 128 ≤ code b2 ∧ 128 ≤ code b3.
Proof.
  unfold seq4. rewrite !andb_True, !orb_True, !andb_True. intros [[H1 H2] H3].
  split; [|split; by apply continues_ge].
  destruct H1 as [[[_ H]|[_ H]]|[_ H]]; (eapply within_ge; [exact H|lia]).
Qed.

(** A string is its runes and bad bytes in order; a rune is one ASCII byte or
    several others. *)
Lemma chunks_ind (P : list ascii → list chunk → Prop) :
  P [] [] →
  (∀ b0 r, code b0 < 128 → P r (chunks r) → P (b0 :: r) (Rune [b0] :: chunks r)) →
  (∀ l r, 2 ≤ length l → Forall (λ b, 128 ≤ code b) l →
     P r (chunks r) → P (l ++ r) (Rune l :: chunks r)) →
  (∀ b0 r, P r (chunks r) → P (b0 :: r) (Bad b0 :: chunks r)) →
  ∀ l, P l (chunks l).
Proof.
  intros Hnil Hascii Hrune Hbad l.
  remember (length l) as n eqn:Hn. revert l Hn.
  induction (lt_wf n) as [n _ IH]; intros [|b0 r0] ->; [done|]. cbn [length] in IH.
  assert (∀ l, length l < S (length r0) → P l (chunks l)) as IHl by (intros; by eapply IH).
  cbn [chunks]. destruct (Nat.ltb_spec (code b0) 128) as [|H0]; [apply Hascii; auto|].
  destruct r0 as [|b1 r1]; [apply (Hbad b0 []); auto|]. cbn [length] in IHl.
  destruct (seq2 b0 b1) eqn:H2.
  { apply (Hrune [b0; b1]); [simpl; lia| |apply IHl; lia].
    apply Is_true_true, seq2_ge in H2. by repeat constructor. }
  destruct r1 as [|b2 r2]; [apply Hbad, IHl; simpl; lia|]. cbn [length] in IHl.
  destruct (seq3 b0 b1 b2) eqn:H3.
  { apply (Hrune [b0; b1; b2]); [simpl; lia| |apply IHl; lia].
    apply Is_true_true, seq3_ge in H3 as [??]. by repeat constructor. }
  destruct r2 as [|b3 r3]; [apply Hbad, IHl; simpl; lia|]. cbn [length] in IHl.
  destruct (seq4 b0 b1 b2 b3) eqn:H4; [|apply Hbad, IHl; simpl; lia].
  apply (Hrune [b0; b1; b2; b3]); [simpl; lia| |apply IHl; lia].
  apply Is_true_true, seq4_ge in H4 as (?&?&?). by repeat constructor.
Qed.

(** What [parse_chars] reads first, and the rest. *)
Definition reading_first (s : list ascii) (o : option (list ascii * list ascii)) :=
  '(s', r) ← o; Some (s ++ s', r).

Lemma parse_escaped_ascii b r :
  code b < 128 → parse_chars (escape_ascii b ++ r) = reading_first [b] (parse_chars r).
Proof.
  destruct b as [[] [] [] [] [] [] [] []]; intros Hb;
    first [reflexivity | exfalso; vm_compute in Hb; lia].
Qed.

Lemma parse_high_byte b r :
  128 ≤ code b → parse_chars (b :: r) = reading_first [b] (parse_chars r).
Proof.
  intros Hb. cbn [parse_chars].
  rewrite bool_decide_eq_false_2 by (intros ->; vm_compute in Hb; lia).
  rewrite bool_decide_eq_false_2 by (intros ->; vm_compute in Hb; lia).
  destruct (Nat.ltb_spec (code b) 32); [lia|]. done.
Qed.

Lemma reading_first_app l1 l2 o :
  reading_first (l1 ++ l2) o = reading_first l1 (reading_first l2 o).
Proof. destruct o as [[s r]|]; simpl; [|done]. by rewrite (assoc_L (++)). Qed.

Lemma parse_high_bytes l r :
  Forall (λ b, 128 ≤ code b) l → parse_chars (l ++ r) = reading_first l (parse_chars r).
Proof.
  induction 1 as [|b l Hb _ IH]; cbn [app].
  - by destruct (parse_chars r) as [[]|].
  - rewrite parse_high_byte by done. rewrite IH. by rewrite <-reading_first_app.
Qed.

Lemma parse_escaped_rune l r :
  2 ≤ length l → Forall (λ b, 128 ≤ code b) l →
  parse_chars (escape_chunk (Rune l) ++ r) = reading_first l (parse_chars r).
Proof.
  intros Hlen Hl. destruct l as [|b0 [|b1 l]]; [simpl in Hlen; lia..|].
  unfold escape_chunk. case_bool_decide as H1; [by rewrite H1|].
  case_bool_decide as H2; [by rewrite H2|]. by apply parse_high_bytes.
Qed.

Lemma bind_cons {A B} (f : A → list B) x l : (x :: l) ≫= f = f x ++ (l ≫= f).
Proof. done. Qed.

Lemma parse_chunks l r :
  parse_chars ((chunks l ≫= escape_chunk) ++ r)
  = reading_first (chunks l ≫= keep) (parse_chars r).
Proof.
  pattern l, (chunks l). apply chunks_ind; clear l.
  - simpl. by destruct (parse_chars r) as [[]|].
  - intros b0 l Hb IH. rewrite !bind_cons, <-(assoc_L (++)).
    change (escape_chunk (Rune [b0])) with (escape_ascii b0).
    rewrite parse_escaped_ascii by done.
    rewrite IH. by rewrite <-reading_first_app.
  - intros l0 l Hlen Hl0 IH. rewrite !bind_cons, <-(assoc_L (++)).
    rewrite parse_escaped_rune by done.
    rewrite IH. by rewrite <-reading_first_app.
  - intros b0 l IH. rewrite !bind_cons, <-(assoc_L (++)).
    change (escape_chunk (Bad b0)) with (backslash :: bytes_of "ufffd").
    rewrite reading_first_app, <-IH. reflexivity.
Qed.

Lemma parse_marshal_string s r :
  parse_string (marshal_string s ++ r) = Some (sanitize s, r).
Proof.
  unfold marshal_string, parse_string. cbn [app]. rewrite <-(assoc_L (++)).
  rewrite bool_decide_eq_true_2 by done. rewrite parse_chunks.
  change (parse_chars ([quote] ++ r)) with (Some ([] : list ascii, r)).
  unfold reading_first. cbn [mbind option_bind]. by rewrite app_nil_r.
Qed.

(** Reading back an object that [json.Marshal] wrote. *)
Lemma parse_marshal_fields fs n :
  fs ≠ [] → length fs ≤ n →
  parse_members n (marshal_fields fs ++ ["}"%char])
  = Some ((λ f, (sanitize f.1, sanitize f.2)) <$> fs).
Proof.
  revert n. induction fs as [|f fs IH]; intros [|n] Hne Hn; [done..|simpl in Hn; lia|].
  destruct fs as [|g fs]; cbn [parse_members].
  - cbn [marshal_fields fmap list_fmap]. unfold marshal_field. rewrite <-!(assoc_L (++)).
    rewrite parse_marshal_string. cbn [mbind option_bind app].
    by rewrite parse_marshal_string.
  - change (marshal_fields (f :: g :: fs))
      with (marshal_field f ++ ","%char :: marshal_fields (g :: fs)).
    unfold marshal_field at 1. rewrite <-!(assoc_L (++)).
    rewrite parse_marshal_string. cbn [mbind option_bind app].
    rewrite parse_marshal_string. cbn [mbind option_bind app].
    rewrite IH; [done|done|simpl in *; lia].
Qed.

Lemma marshal_fields_length fs : length fs ≤ length (marshal_fields fs).
Proof.
  induction fs as [|f [|g fs] IH]; [done| |].
  - simpl. unfold marshal_field, marshal_string. simpl. lia.
  - change (marshal_fields (f :: g :: fs))
      with (marshal_field f ++ ","%char :: marshal_fields (g :: fs)).
    rewrite length_app. simpl in *. lia.
Qed.

Lemma parse_marshal_struct fs :
  parse_object (marshal_struct fs) = Some ((λ f, (sanitize f.1, sanitize f.2)) <$> fs).
Proof.
  unfold parse_object, marshal_struct. rewrite bytes_of_bytes.
  destruct fs as [|f fs]; [done|].
  rewrite <-(parse_marshal_fields (f :: fs) (length (marshal_fields (f :: fs) ++ ["}"%char])));
    [|done|rewrite length_app; pose proof (marshal_fields_length (f :: fs)); lia].
  assert (∃ l, marshal_fields (f :: fs) = quote :: l) as [l ->].
  { destruct fs; eexists; reflexivity. }
  done.
Qed.

(** Well-formed strings are kept as they are. *)
Lemma sanitize_valid s : valid_utf8 s → sanitize s = s.
Proof.
  unfold valid_utf8, sanitize. intros Hs.
  enough (chunks (bytes_of s) ≫= keep = bytes_of s) as -> by apply of_bytes_of.
  revert Hs. generalize (bytes_of s). intros l.
  pattern l, (chunks l). apply chunks_ind; clear l.
  - done.
  - intros b0 r _ IH Hv. rewrite bind_cons. simpl. by rewrite IH.
  - intros l r _ _ IH Hv. rewrite bind_cons. simpl. by rewrite IH.
  - by intros b0 r _ [].
Qed.

(** The text is one line of printable bytes: no control character, and no
    character that would end or open markup. *)
Definition printable (c : ascii) : Prop := 32 ≤ code c ∧ c ∉ ["&"%char; "<"%char; ">"%char].

Lemma escape_ascii_printable b : code b < 128 → Forall printable (escape_ascii b).
Proof.
  intros Hb. apply (bool_decide_unpack _).
  destruct b as [[] [] [] [] [] [] [] []]; first [reflexivity|exfalso; vm_compute in Hb; lia].
Qed.

Lemma high_printable l : Forall (λ b, 128 ≤ code b) l → Forall printable l.
Proof.
  intros Hl. eapply Forall_impl; [exact Hl|]. cbv beta. intros b Hb. split; [lia|]. intros Hin.
  assert (code b < 128); [|lia]. set_unfold in Hin.
  destruct Hin as [->|[->|[->|[]]]]; vm_compute; lia.
Qed.

Lemma escape_printable l : Forall printable (chunks l ≫= escape_chunk).
Proof.
  pattern l, (chunks l). apply chunks_ind; clear l; [constructor|..].
  - intros. rewrite bind_cons. apply Forall_app. split; [by apply escape_ascii_printable|done].
  - intros l r Hlen Hl IH. rewrite bind_cons. apply Forall_app. split; [|done].
    destruct l as [|b0 [|b1 l]]; [simpl in Hlen; lia..|]. unfold escape_chunk.
    repeat case_bool_decide; [by apply (bool_decide_unpack _); vm_compute..|].
    by apply high_printable.
  - intros b0 r IH. rewrite bind_cons. apply Forall_app. split; [|done].
    by apply (bool_decide_unpack _); vm_compute.
Qed.

Lemma marshal_string_printable s : Forall printable (marshal_string s).
Proof.
  unfold marshal_string. apply Forall_cons. split; [by apply (bool_decide_unpack _); vm_compute|].
  apply Forall_app. split; [apply escape_printable|].
  by apply (bool_decide_unpack _); vm_compute.
Qed.

Lemma marshal_fields_printable fs : Forall printable (marshal_fields fs).
Proof.
  assert (∀ f, Forall printable (marshal_field f)) as Hf.
  { intros f. unfold marshal_field. apply Forall_app. split; [apply marshal_string_printable|].
    apply Forall_cons. split; [by apply (bool_decide_unpack _); vm_compute|].
    apply marshal_string_printable. }
  induction fs as [|f [|g fs] IH]; [constructor|apply Hf|].
  change (marshal_fields (f :: g :: fs))
    with (marshal_field f ++ ","%char :: marshal_fields (g :: fs)).
  apply Forall_app. split; [apply Hf|]. apply Forall_cons.
  split; [by apply (bool_decide_unpack _); vm_compute|done].
Qed.
