(* ===== verification/Version.v ===== *)
(** * Version information ([internal/util/version/version.go])

    What [--version] prints: the build variables, which the linker can set,
    and what the Go runtime says about itself, as one line of JSON. *)

From S2P Require Import Prelude GoRuntime GoJson.

(** The package variables; [-ldflags -X] sets them at build time. *)
Class BuildVars := { BuildVersion : string; BuildTime : string; GitCommit : string }.

(** Their values in the source, which a build without the flags keeps. *)
Definition source_BuildVars : BuildVars :=
  {| BuildVersion := "N/A"; BuildTime := "N/A"; GitCommit := "N/A" |}.

(** Package [runtime]. *)
Class RuntimeInfo := {
  runtime_Version : string;
  runtime_Compiler : string;
  GOOS : string;
  GOARCH : string;
}.

Record AppInfo := mkAppInfo {
  AppInfo_Name : string;
  AppInfo_AppVersion : string;
  AppInfo_BuildTime : string;
  AppInfo_GitCommit : string;
  AppInfo_GoVersion : string;
  AppInfo_Compiler : string;
  AppInfo_Platform : string;
}.

Definition NewAppInfo `{!BuildVars, !RuntimeInfo} (name : string) : AppInfo := {|
  AppInfo_Name := name;
  AppInfo_AppVersion := BuildVersion;
  AppInfo_GitCommit := GitCommit;
  AppInfo_BuildTime := BuildTime;
  AppInfo_GoVersion := runtime_Version;
  AppInfo_Compiler := runtime_Compiler;
  AppInfo_Platform := GOOS +:+ "/" +:+ GOARCH;
|}.

(** The fields with the keys of their JSON tags, in the order of the struct. *)
Definition AppInfo_fields (a : AppInfo) : list (string * string) :=
  [("AppName", AppInfo_Name a); ("AppVersion", AppInfo_AppVersion a);
   ("BuildTime", AppInfo_BuildTime a); ("GitCommit", AppInfo_GitCommit a);
   ("GoVersion", AppInfo_GoVersion a); ("Compiler", AppInfo_Compiler a);
   ("Platform", AppInfo_Platform a)].

(** [json.Marshal]; it fails on no struct of strings. *)
Definition AppInfo_Marshal (a : AppInfo) : outcome string :=
  Val (marshal_struct (AppInfo_fields a)).

Definition AppInfo_String (a : AppInfo) : string :=
  match AppInfo_Marshal a with
  | Val data => data
  | _ => "Error marshaling AppInfo"
  end.

(** The fields of a version line. *)
Definition info_line `{!BuildVars, !RuntimeInfo} (name : string) : list (string * string) :=
  [("AppName", name); ("AppVersion", BuildVersion); ("BuildTime", BuildTime);
   ("GitCommit", GitCommit); ("GoVersion", runtime_Version); ("Compiler", runtime_Compiler);
   ("Platform", GOOS +:+ "/" +:+ GOARCH)].

(** C28: the version line is one line of printable characters without markup,
    and a JSON object: reading it back gives the name of the program, the three
    build variables and the three facts about the runtime, in this order, each
    as it is when it is UTF-8, and with its stray bytes replaced otherwise. *)
Theorem version_line_parses `{!BuildVars, !RuntimeInfo} (name : string) :
  let line := AppInfo_String (NewAppInfo name) in
  parse_object line = Some ((λ f, (f.1, sanitize f.2)) <$> info_line name) ∧
  (Forall (λ f, valid_utf8 f.2) (info_line name) → parse_object line = Some (info_line name)) ∧
  Forall printable (bytes_of line).
Proof.
  assert (parse_object (AppInfo_String (NewAppInfo name))
    = Some ((λ f, (f.1, sanitize f.2)) <$> info_line name)) as Hparse.
  { unfold AppInfo_String, AppInfo_Marshal. by rewrite parse_marshal_struct. }
  intros line. split_and!; [done| |].
  - intros Hvalid. unfold line. rewrite Hparse. f_equal.
    rewrite <-(list_fmap_id (info_line name)) at 2. apply list_fmap_ext.
    intros i [k v] Hi. simpl. f_equal. apply sanitize_valid.
    rewrite Forall_lookup in Hvalid. exact (Hvalid _ _ Hi).
  - unfold line, AppInfo_String, AppInfo_Marshal, marshal_struct. rewrite bytes_of_bytes.
    apply Forall_cons. split; [by apply (bool_decide_unpack _); vm_compute|].
    apply Forall_app. split; [apply marshal_fields_printable|].
    by apply (bool_decide_unpack _); vm_compute.
Qed.

(** ** Witness *)

Module VersionWitnesses.
#[local] Existing Instance source_BuildVars.
#[local] Instance linux : RuntimeInfo :=
  {| runtime_Version := "go1.25.8"; runtime_Compiler := "gc"; GOOS := "linux"; GOARCH := "amd64" |}.

Lemma version_line_parses_witness :
  Forall (λ f, valid_utf8 f.2) (info_line "trino-operator") ∧
  parse_object (AppInfo_String (NewAppInfo "trino-operator")) = Some (info_line "trino-operator").
Proof.
  assert (Forall (λ f, valid_utf8 f.2) (info_line "trino-operator")) as Hv
    by (apply (bool_decide_unpack _); by vm_compute).
  split; [exact Hv|]. apply (version_line_parses "trino-operator"). exact Hv.
Defined.
End VersionWitnesses.
