(* ===== verification/GoFlag.v ===== *)
(** * Package [flag]

    [flag.Parse] of Go's standard library, for a set of flags that update a
    state of type [S], and [strconv.ParseBool].  The command line is parsed
    with [ExitOnError]: asking for help ends the process with status 0, any
    mistake with status 2. *)

From S2P Require Import Prelude.

Record Flag (S : Type) := mkFlag {
  Flag_Name : string;
  (** Whether the value implements [IsBoolFlag], so that it may be left out. *)
  Flag_IsBool : bool;
  (** [Value.Set]; [None] is an error. *)
  Flag_Set : string → S → option S;
}.
Arguments mkFlag {S} _ _ _.
Arguments Flag_Name {S} _.
Arguments Flag_IsBool {S} _.
Arguments Flag_Set {S} _ _ _.

Definition ParseBool (s : string) : option bool :=
  if decide (s ∈ ["1"; "t"; "T"; "true"; "TRUE"; "True"]) then Some true
  else if decide (s ∈ ["0"; "f"; "F"; "false"; "FALSE"; "False"]) then Some false
  else None.

Definition StringVar {S} (name : string) (set : string → S → S) : Flag S :=
  mkFlag name false (λ v s, Some (set v s)).
Definition BoolVar {S} (name : string) (set : bool → S → S) : Flag S :=
  mkFlag name true (λ v s, b ← ParseBool v; Some (set b s)).

Inductive parse_result (S : Type) :=
  | Parsed (s : S) (args : list string)
  | Help
  | Failed (msg : string).
Arguments Parsed {S} _ _.
Arguments Help {S}.
Arguments Failed {S} _.

Section parse.
Context {S : Type}.
Implicit Types (flags : list (Flag S)) (s : S).

Definition find_flag flags (name : string) : option (Flag S) :=
  snd <$> list_find (λ f, Flag_Name f = name) flags.

(** The name before the first [=], and what follows it. *)
Fixpoint split_value (l : list ascii) : list ascii * option (list ascii) :=
  match l with
  | [] => ([], None)
  | c :: l =>
      if bool_decide (c = "="%char) then ([], Some l)
      else let '(n, v) := split_value l in (c :: n, v)
  end.

(** What an argument is: [None] ends the flags. *)
Inductive argument := Terminator | NoFlag | FlagArgument (name : list ascii).
Definition classify (arg : string) : argument :=
  match bytes_of arg with
  | "-"%char :: ["-"%char] => Terminator
  | "-"%char :: "-"%char :: name => FlagArgument name
  | ["-"%char] => NoFlag
  | "-"%char :: name => FlagArgument name
  | _ => NoFlag
  end.

Definition bad_syntax (name : list ascii) : bool :=
  match name with
  | [] | "-"%char :: _ | "="%char :: _ => true
  | _ => false
  end.

Definition is_help (name : string) : bool := bool_decide (name ∈ ["help"; "h"]).

(** [FlagSet.Parse] *)
Fixpoint parse flags s (args : list string) : parse_result S :=
  match args with
  | [] => Parsed s []
  | arg :: rest =>
      match classify arg with
      | Terminator => Parsed s rest
      | NoFlag => Parsed s args
      | FlagArgument name =>
          if bad_syntax name then Failed ("bad flag syntax: " +:+ arg)
          else
            let '(name, value) := split_value name in
            let name := of_bytes name in
            match find_flag flags name with
            | None =>
                if is_help name then Help
                else Failed ("flag provided but not defined: -" +:+ name)
            | Some f =>
                if Flag_IsBool f then
                  let v := match value with Some v => of_bytes v | None => "true" end in
                  match Flag_Set f v s with
                  | Some s => parse flags s rest
                  | None => Failed ("invalid boolean value for -" +:+ name)
                  end
                else
                  match value, rest with
                  | Some v, _ =>
                      match Flag_Set f (of_bytes v) s with
                      | Some s => parse flags s rest
                      | None => Failed ("invalid value for flag -" +:+ name)
                      end
                  | None, v :: rest =>
                      match Flag_Set f v s with
                      | Some s => parse flags s rest
                      | None => Failed ("invalid value for flag -" +:+ name)
                      end
                  | None, [] => Failed ("flag needs an argument: -" +:+ name)
                  end
            end
      end
  end.

(** An argument of the form [--name=value]. *)
Definition set_argument (name value : string) : string := "--" +:+ name +:+ "=" +:+ value.

(** A name that flags can have: not empty, no [=], and no leading minus. *)
Definition flag_name (name : string) : bool :=
  negb (bad_syntax (bytes_of name)) && bool_decide ("="%char ∉ bytes_of name).

Lemma split_value_app l v : "="%char ∉ l → split_value (l ++ "="%char :: v) = (l, Some v).
Proof.
  induction l as [|c l IH]; intros Hl; simpl; [done|].
  rewrite bool_decide_eq_false_2 by set_solver. by rewrite IH by set_solver.
Qed.

(** One argument of that form sets its flag. *)
Lemma parse_set flags s name value rest f s' :
  flag_name name → find_flag flags name = Some f → Flag_Set f value s = Some s' →
  parse flags s (set_argument name value :: rest) = parse flags s' rest.
Proof.
  intros [Hsyn Hname%bool_decide_unpack]%andb_True Hf Hset.
  apply negb_True in Hsyn. cbn [parse].
  assert (classify (set_argument name value)
          = FlagArgument (bytes_of name ++ "="%char :: bytes_of value)) as ->.
  { unfold classify, set_argument. rewrite !bytes_of_app. simpl.
    by destruct (bytes_of name). }
  assert (bad_syntax (bytes_of name ++ "="%char :: bytes_of value) = false) as ->.
  { destruct (bytes_of name) as [|c l] eqn:Hc; [done|]. simpl in *.
    by destruct c as [[] [] [] [] [] [] [] []]; simpl in *; try done. }
  rewrite split_value_app by done. rewrite !of_bytes_of, Hf.
  rewrite Hset. by destruct (Flag_IsBool f).
Qed.
End parse.
