(* ===== verification/Base64.v ===== *)
(** * Go's [encoding/base64.StdEncoding]

    [EncodeToString] on bytes, each an [ascii]; three bytes become four
    characters, and a rest of one or two bytes is padded with [=].
    [DecodeString] is the reference decoder the round trip is stated with. *)

From S2P Require Import Prelude.

(** A six-bit digit, most significant bit first. *)
Inductive sextet : Type := Sextet (a b c d e f : bool).

Definition alphabet : string :=
  "ABCDEFGHIJKLMNOPQRSTUVWXYZabcdefghijklmnopqrstuvwxyz0123456789+/".

Definition bit_value (b : bool) : nat := if b then 1 else 0.
Definition sextet_value (s : sextet) : nat :=
  let '(Sextet a b c d e f) := s in
  32 * bit_value a + 16 * bit_value b + 8 * bit_value c
  + 4 * bit_value d + 2 * bit_value e + bit_value f.

Definition digit (s : sextet) : ascii :=
  default "="%char (bytes_of alphabet !! sextet_value s).

(** [StdEncoding.EncodeToString]; the constructor [Ascii] lists the bits of a
    byte from the least significant one. *)
Fixpoint EncodeToString (data : list ascii) : string :=
  match data with
  | Ascii a0 a1 a2 a3 a4 a5 a6 a7 :: Ascii b0 b1 b2 b3 b4 b5 b6 b7
      :: Ascii c0 c1 c2 c3 c4 c5 c6 c7 :: rest =>
      String (digit (Sextet a7 a6 a5 a4 a3 a2))
        (String (digit (Sextet a1 a0 b7 b6 b5 b4))
          (String (digit (Sextet b3 b2 b1 b0 c7 c6))
            (String (digit (Sextet c5 c4 c3 c2 c1 c0)) (EncodeToString rest))))
  | [Ascii a0 a1 a2 a3 a4 a5 a6 a7; Ascii b0 b1 b2 b3 b4 b5 b6 b7] =>
      String (digit (Sextet a7 a6 a5 a4 a3 a2))
        (String (digit (Sextet a1 a0 b7 b6 b5 b4))
          (String (digit (Sextet b3 b2 b1 b0 false false)) "="))
  | [Ascii a0 a1 a2 a3 a4 a5 a6 a7] =>
      String (digit (Sextet a7 a6 a5 a4 a3 a2))
        (String (digit (Sextet a1 a0 false false false false)) "==")
  | [] => ""
  end.

Example Encode_ex : EncodeToString (bytes_of "Trino") = "VHJpbm8=".
Proof. reflexivity. Qed.

(** ** The reference decoder *)

Definition bools : list bool := [false; true].
Definition sextets : list sextet :=
  a ← bools; b ← bools; c ← bools; d ← bools; e ← bools; f ← bools;
  [Sextet a b c d e f].

Definition undigit (c : ascii) : option sextet :=
  snd <$> list_find (λ s, digit s = c) sextets.

Fixpoint DecodeString (s : string) : option (list ascii) :=
  match s with
  | EmptyString => Some []
  | String w (String x (String y (String z rest))) =>
      match undigit w, undigit x with
      | Some (Sextet a7 a6 a5 a4 a3 a2), Some (Sextet a1 a0 b7 b6 b5 b4) =>
          let a := Ascii a0 a1 a2 a3 a4 a5 a6 a7 in
          match undigit y, undigit z with
          | Some (Sextet b3 b2 b1 b0 c7 c6), Some (Sextet c5 c4 c3 c2 c1 c0) =>
              option_map (λ r, a :: Ascii b0 b1 b2 b3 b4 b5 b6 b7
                                 :: Ascii c0 c1 c2 c3 c4 c5 c6 c7 :: r)
                (DecodeString rest)
          | Some (Sextet b3 b2 b1 b0 _ _), None => Some [a; Ascii b0 b1 b2 b3 b4 b5 b6 b7]
          | None, _ => Some [a]
          end
      | _, _ => None
      end
  | _ => None
  end.

Lemma undigit_digit s : undigit (digit s) = Some s.
Proof. by destruct s as [[] [] [] [] [] []]. Qed.

Lemma undigit_pad : undigit "=" = None.
Proof. by vm_compute. Qed.

(** Induction over whole groups of three bytes. *)
Lemma triple_ind {A} (P : list A → Prop) :
  P [] → (∀ a, P [a]) → (∀ a b, P [a; b]) →
  (∀ a b c l, P l → P (a :: b :: c :: l)) → ∀ l, P l.
Proof.
  intros H0 H1 H2 H3. fix IH 1. intros [|a [|b [|c l]]]; [done|apply H1|apply H2|]. apply H3, IH.
Qed.

Lemma Decode_Encode data : DecodeString (EncodeToString data) = Some data.
Proof.
  induction data as [|[]|[] []|[] [] [] l IH] using triple_ind;
    [done|..]; cbn [EncodeToString DecodeString].
  - by rewrite !undigit_digit, undigit_pad.
  - by rewrite !undigit_digit, undigit_pad.
  - by rewrite !undigit_digit, IH.
Qed.

Lemma Encode_length data :
  String.length (EncodeToString data) = 4 * ((length data + 2) / 3).
Proof.
  induction data as [|[]|[] []|[] [] [] l IH] using triple_ind; [done..|].
  cbn [EncodeToString String.length length]. rewrite IH.
  replace (S (S (S (length l))) + 2) with ((length l + 2) + 1 * 3) by lia.
  rewrite Nat.div_add by done. lia.
Qed.
