(* ===== verification/GoFloat.v ===== *)
(** * Go's [float64] arithmetic as the heap computation uses it

    [float64] is IEEE 754 binary64, here the specification floats of the
    Standard Library at precision 53.  The lemmas bound what rounding does:
    dividing by a power of two is exact, and a rounded product is one of the
    two integers next to the exact quotient of mantissas. *)

From Stdlib Require Import ZArith SpecFloat.
From S2P Require Import Prelude.

Local Open Scope Z_scope.

Definition float64 : Type := spec_float.

Definition f64_div : float64 → float64 → float64 := SFdiv 53 1024.
Definition f64_mul : float64 → float64 → float64 := SFmul 53 1024.

(** [float64(n)] *)
Definition f64_of_Z (n : Z) : float64 := binary_normalize 53 1024 n 0 false.

(** [int(f)]: truncation towards zero.  For a value outside the range of
    [int] the result is implementation-defined; this is the one of amd64. *)
Definition f64_to_int (f : float64) : Z :=
  let min_int := - 2 ^ 63 in
  match f with
  | S754_zero _ => 0
  | S754_finite s m e =>
      let a := Z.shiftl (Zpos m) e in
      let n := if s then - a else a in
      if (min_int <=? n) && (n <? 2 ^ 63) then n else min_int
  | _ => min_int
  end.

(** The float64 nearest to 0.8: [7205759403792794 * 2^-53]. *)
Definition f64_0_8 : float64 := S754_finite false 7205759403792794 (-53).

Ltac leb_case :=
  match goal with |- context [?a <=? ?b] => destruct (Z.leb_spec a b) end.

(** ** Digits *)

Lemma Zdigits2_log2 m : 0 < m → Zdigits2 m = Z.log2 m + 1.
Proof.
  assert (∀ p, digits2_pos p = Pos.size p) as Hd.
  { induction p as [p IH|p IH|]; simpl; by rewrite ?IH. }
  destruct m as [|[p|p|]|]; simpl; [lia| | |lia|lia]; rewrite Hd; lia.
Qed.

Lemma Zdigits2_unique m d : 0 < d → 2 ^ (d - 1) ≤ m < 2 ^ d → Zdigits2 m = d.
Proof.
  intros Hd Hm. assert (0 < 2 ^ (d - 1)) by (apply Z.pow_pos_nonneg; lia).
  rewrite Zdigits2_log2 by lia. rewrite (Z.log2_unique m (d - 1)); [lia|lia|].
  by replace (Z.succ (d - 1)) with d by lia.
Qed.

Lemma Zdigits2_bounds m : 0 < m → 2 ^ (Zdigits2 m - 1) ≤ m < 2 ^ Zdigits2 m.
Proof.
  intros Hm. rewrite Zdigits2_log2 by done. pose proof (Z.log2_spec m Hm).
  replace (Z.log2 m + 1 - 1) with (Z.log2 m) by lia.
  by replace (Z.log2 m + 1) with (Z.succ (Z.log2 m)) by lia.
Qed.

(** ** Shifting out digits *)

Lemma iter_pos_Pos_iter {A} (f : A → A) p x : SpecFloat.iter_pos f p x = Pos.iter f x p.
Proof.
  revert x. induction p as [p IH|p IH|]; intros x; simpl; rewrite ?IH; [|done..].
  by rewrite <-!Pos.iter_swap.
Qed.

Lemma shr_1_m r : 0 ≤ shr_m r → shr_m (shr_1 r) = shr_m r / 2.
Proof.
  destruct r as [[|[p|p|]|p] b s]; simpl; intros; try done; try lia.
  - apply Z.div_unique with 1; lia.
  - apply Z.div_unique with 0; lia.
Qed.

Lemma iter_shr_m p r : 0 ≤ shr_m r → shr_m (SpecFloat.iter_pos shr_1 p r) = shr_m r / 2 ^ Zpos p.
Proof.
  rewrite iter_pos_Pos_iter. revert r.
  induction p as [|p IH] using Pos.peano_ind; intros r Hr.
  - by apply shr_1_m.
  - rewrite Pos.iter_succ_r, IH; rewrite shr_1_m by done; [|by apply Z.div_pos].
    rewrite Z.div_div by lia. f_equal. rewrite Pos2Z.inj_succ, Z.pow_succ_r by lia.
    lia.
Qed.

Lemma shr_record_of_loc_m m l : shr_m (shr_record_of_loc m l) = m.
Proof. by destruct l as [|[]]. Qed.

Lemma round_nearest_even_near m l :
  m ≤ round_nearest_even m l ≤ m + 1.
Proof. destruct l as [|[]]; simpl; [lia| |lia|lia]. case_match; lia. Qed.

(** A mantissa that fits is not shifted. *)
Lemma shr_fexp_fits m e l :
  0 < m → Zdigits2 m ≤ 53 → -1074 ≤ e →
  shr_fexp 53 1024 m e l = (shr_record_of_loc m l, e).
Proof.
  intros Hm Hd He. unfold shr_fexp, shr, fexp, emin.
  destruct (Z.max _ _ - e) eqn:E; [done| |done]. lia.
Qed.

(** A longer one is cut to its first 53 digits. *)
Lemma shr_fexp_cut m e l :
  0 < m → 53 < Zdigits2 m → -1074 ≤ Zdigits2 m + e - 53 →
  ∃ rec, shr_fexp 53 1024 m e l = (rec, e + (Zdigits2 m - 53)) ∧
    shr_m rec = m / 2 ^ (Zdigits2 m - 53).
Proof.
  intros Hm Hd He. unfold shr_fexp.
  replace (fexp 53 1024 (Zdigits2 m + e) - e) with (Zdigits2 m - 53)
    by (unfold fexp, emin; lia).
  destruct (Zdigits2 m - 53) as [|p|] eqn:Hp; [lia| |lia].
  eexists. split; [done|].
  rewrite iter_shr_m; rewrite shr_record_of_loc_m; [done|lia].
Qed.

(** ** Rounding *)

Lemma binary_round_aux_fits m e :
  Zdigits2 (Zpos m) ≤ 53 → -1074 ≤ e ≤ 971 →
  binary_round_aux 53 1024 false (Zpos m) e loc_Exact = S754_finite false m e.
Proof.
  intros Hd He. unfold binary_round_aux.
  rewrite shr_fexp_fits by lia. simpl.
  rewrite shr_fexp_fits by lia. simpl.
  leb_case; [done|lia].
Qed.

(** Rounding a long mantissa keeps 53 digits of it, up to one unit. *)
Lemma binary_round_aux_long m e lx :
  0 < m → 53 < Zdigits2 m → -1074 ≤ Zdigits2 m + e - 53 → Zdigits2 m + e ≤ 1023 →
  ∃ r, m / 2 ^ (Zdigits2 m - 53) ≤ r ≤ m / 2 ^ (Zdigits2 m - 53) + 1 ∧
    (binary_round_aux 53 1024 false m e lx
       = S754_finite false (Z.to_pos r) (e + (Zdigits2 m - 53)) ∨
     r = 2 ^ 53 ∧
     binary_round_aux 53 1024 false m e lx
       = S754_finite false (Z.to_pos (2 ^ 52)) (e + (Zdigits2 m - 53) + 1)).
Proof.
  intros Hm Hd Hlo Hhi. set (d := Zdigits2 m) in *.
  pose proof (Zdigits2_bounds m Hm) as Hb. fold d in Hb.
  assert (Hq : 2 ^ 52 ≤ m / 2 ^ (d - 53) < 2 ^ 53).
  { split.
    - apply Z.div_le_lower_bound; [lia|]. rewrite <-Z.pow_add_r by lia.
      replace (d - 53 + 52) with (d - 1) by lia. lia.
    - apply Z.div_lt_upper_bound; [lia|]. rewrite <-Z.pow_add_r by lia.
      replace (d - 53 + 53) with d by lia. lia. }
  unfold binary_round_aux.
  destruct (shr_fexp_cut m e lx) as (rec & -> & Hrec); [lia..|].
  fold d in Hrec |- *. cbv beta iota zeta.
  pose proof (round_nearest_even_near (shr_m rec) (loc_of_shr_record rec)) as Hr.
  rewrite Hrec in Hr at 1 4. revert Hr.
  generalize (round_nearest_even (shr_m rec) (loc_of_shr_record rec)) as r.
  intros r Hr. exists r. split; [done|]. destruct (decide (r = 2 ^ 53)) as [->|Hne].
  - right. split; [done|]. unfold shr_fexp.
    replace (Zdigits2 (2 ^ 53)) with 54 by done.
    replace (fexp 53 1024 (54 + (e + (d - 53))) - (e + (d - 53))) with 1
      by (unfold fexp, emin; lia).
    cbn. leb_case; [done|lia].
  - left. rewrite shr_fexp_fits; [|lia| |lia].
    + cbn. destruct r as [|r'|]; [lia| |lia]. leb_case; [done|lia].
    + rewrite (Zdigits2_unique r 53); lia.
Qed.

(** ** Conversions and exact operations *)

Lemma Pos_iter_xO p k : Zpos (Pos.iter xO p k) = Zpos p * 2 ^ Zpos k.
Proof.
  induction k as [|k IH] using Pos.peano_ind; [simpl; lia|].
  rewrite Pos.iter_succ, Pos2Z.inj_succ, Z.pow_succ_r by lia.
  rewrite Pos2Z.inj_xO, IH. lia.
Qed.

Lemma Zdigits2_pow2 a n : 0 < a → 0 ≤ n → Zdigits2 (a * 2 ^ n) = Zdigits2 a + n.
Proof.
  intros Ha Hn. pose proof (Zdigits2_bounds a Ha) as Hb.
  assert (0 < Zdigits2 a) by (rewrite Zdigits2_log2 by done; pose proof (Z.log2_nonneg a); lia).
  apply Zdigits2_unique; [lia|].
  replace (Zdigits2 a + n - 1) with (Zdigits2 a - 1 + n) by lia.
  rewrite !Z.pow_add_r by lia. assert (0 < 2 ^ n) by (apply Z.pow_pos_nonneg; lia). nia.
Qed.

(** An integer of at most 53 digits converts exactly. *)
Lemma f64_of_Z_exact v :
  0 < v < 2 ^ 53 →
  f64_of_Z v = S754_finite false (Z.to_pos (v * 2 ^ (53 - Zdigits2 v))) (Zdigits2 v - 53).
Proof.
  intros Hv. assert (Hd : 0 < Zdigits2 v ≤ 53).
  { rewrite Zdigits2_log2 by lia. pose proof (Z.log2_nonneg v).
    assert (Z.log2 v < 53) by (apply Z.log2_lt_pow2; lia). lia. }
  destruct v as [|p|]; [lia| |lia]. unfold f64_of_Z, binary_normalize, binary_round, shl_align.
  change (Zpos (digits2_pos p)) with (Zdigits2 (Zpos p)). set (d := Zdigits2 (Zpos p)) in *.
  replace (fexp 53 1024 (d + 0) - 0) with (d - 53) by (unfold fexp, emin; lia).
  assert (Hm : ∀ q, Zpos q = Zpos p * 2 ^ (53 - d) →
     binary_round_aux 53 1024 false (Zpos q) (d - 53) loc_Exact
     = S754_finite false (Z.to_pos (Zpos p * 2 ^ (53 - d))) (d - 53)).
  { intros q Hq. rewrite <-Hq, Pos2Z.id. apply binary_round_aux_fits; [|lia].
    rewrite Hq, Zdigits2_pow2 by lia. unfold d in *. lia. }
  destruct (d - 53) as [|k|k] eqn:Hk; [| lia |].
  - apply (Hm p). replace (53 - d) with 0 by lia. lia.
  - replace (fexp 53 1024 (d + 0)) with (Zneg k) by (unfold fexp, emin; lia).
    apply (Hm (Pos.iter xO p k)). rewrite (Pos_iter_xO p k). by replace (53 - d) with (Zpos k) by lia.
Qed.

Lemma binary_round_aux_even m e :
  Zdigits2 (Zpos m) = 53 → -1074 ≤ e + 1 ≤ 971 →
  binary_round_aux 53 1024 false (Zpos (xO m)) e loc_Exact = S754_finite false m (e + 1).
Proof.
  intros Hd He. unfold binary_round_aux.
  assert (shr_fexp 53 1024 (Zpos (xO m)) e loc_Exact
          = (Build_shr_record (Zpos m) false false, e + 1)) as ->.
  { unfold shr_fexp. replace (Zdigits2 (Zpos (xO m))) with 54 by (simpl in *; lia).
    by replace (fexp 53 1024 (54 + e) - e) with 1 by (unfold fexp, emin; lia). }
  cbn [shr_m loc_of_shr_record round_nearest_even].
  rewrite shr_fexp_fits by lia. cbn. leb_case; [done|lia].
Qed.

(** Dividing a normal number by a power of two only changes the exponent. *)
Lemma f64_div_pow2 m e k :
  Zdigits2 (Zpos m) = 53 → -1073 ≤ e - k ≤ 971 →
  f64_div (S754_finite false m e) (S754_finite false (2 ^ 52) (k - 52))
  = S754_finite false m (e - k).
Proof.
  intros Hd He. unfold f64_div, SFdiv, SFdiv_core_binary. rewrite Hd.
  replace (Zdigits2 (Zpos (2 ^ 52))) with 53 by done.
  replace (Z.min (fexp 53 1024 (53 + e - (53 + (k - 52)))) (e - (k - 52))) with (e - k - 1)
    by (unfold fexp, emin; lia).
  replace (e - (k - 52) - (e - k - 1)) with 53 by lia.
  rewrite Z.shiftl_mul_pow2 by lia.
  assert (Z.div_eucl (Zpos m * 2 ^ 53) (Zpos (2 ^ 52)) = (Zpos (xO m), 0)) as ->.
  { pose proof (Z.div_eucl_eq (Zpos m * 2 ^ 53) (Zpos (2 ^ 52)) ltac:(done)) as Heq.
    pose proof (Z.mod_pos_bound (Zpos m * 2 ^ 53) (Zpos (2 ^ 52)) ltac:(done)) as Hr.
    unfold Z.modulo in Hr. destruct (Z.div_eucl _ _) as [q r].
    change (Zpos (2 ^ 52)) with (2 ^ 52) in *. f_equal; lia. }
  cbv beta iota zeta. change (new_location (Zpos (2 ^ 52)) 0) with loc_Exact.
  cbn [xorb]. rewrite binary_round_aux_even by (done || lia). f_equal. lia.
Qed.

(** ** Eighty percent of an integer number of units

    [int(float64(v) / 2^k * 0.8)] is exactly [floor (4 v / (5 * 2^k))] up to
    2^50: the constant is above 0.8 by less than the distance from [4 v / 5 2^k]
    to the next integer. *)

Lemma f64_to_int_shr r E n :
  E ≤ 0 → 0 < r → n = r / 2 ^ (- E) → n < 2 ^ 63 →
  f64_to_int (S754_finite false (Z.to_pos r) E) = n.
Proof.
  intros HE Hr Hn Hb. unfold f64_to_int. rewrite Z2Pos.id by done.
  assert (0 ≤ n) by (rewrite Hn; apply Z.div_pos; [lia|apply Z.pow_pos_nonneg; lia]).
  assert (Z.shiftl r E = n) as ->.
  { replace E with (- - E) by lia. rewrite Z.shiftl_opp_r, Z.shiftr_div_pow2 by lia. done. }
  cbv zeta iota. replace ((- 2 ^ 63 <=? n) && (n <? 2 ^ 63)) with true; [done|lia].
Qed.

(** The integer part of the rounding argument: [m] is [v] with 53 digits, [r]
    the rounded mantissa of the product, [j] the number of digits dropped. *)
Lemma eighty_percent_core v f k j r :
  0 < v → 3 ≤ f → 0 ≤ k → 0 ≤ j ≤ 53 → v * 2 ^ f < 2 ^ 53 →
  let M := v * 2 ^ f * 7205759403792794 in
  M / 2 ^ j ≤ r ≤ M / 2 ^ j + 1 → j ≤ 53 + f + k →
  r / 2 ^ (53 + f + k - j) = 4 * v / (5 * 2 ^ k).
Proof.
  intros Hv Hf Hk Hj Hm M Hr HP.
  set (N := 4 * v / (5 * 2 ^ k)). set (P := 53 + f + k - j) in *.
  assert (H2k : 0 < 2 ^ k) by (apply Z.pow_pos_nonneg; lia).
  assert (H2j : 0 < 2 ^ j ≤ 2 ^ 53)
    by (split; [apply Z.pow_pos_nonneg; lia|apply Z.pow_le_mono_r; lia]).
  assert (H2f : 2 ^ 3 ≤ 2 ^ f) by (apply Z.pow_le_mono_r; lia).
  assert (H2P : 0 < 2 ^ P) by (apply Z.pow_pos_nonneg; lia).
  assert (HPj : 2 ^ P * 2 ^ j = 2 ^ 53 * 2 ^ f * 2 ^ k).
  { rewrite <-!Z.pow_add_r by lia. f_equal. lia. }
  assert (HN : 5 * 2 ^ k * N ≤ 4 * v < 5 * 2 ^ k * (N + 1)).
  { pose proof (Z.mul_div_le (4 * v) (5 * 2 ^ k) ltac:(lia)) as H1.
    pose proof (Z.mul_succ_div_gt (4 * v) (5 * 2 ^ k) ltac:(lia)) as H2.
    fold N in H1, H2. lia. }
  assert (HM : 5 * M = v * 2 ^ f * (4 * 2 ^ 53 + 2)) by (unfold M; lia).
  assert (Hlo : N * 2 ^ P ≤ M / 2 ^ j).
  { apply Z.div_le_lower_bound; [lia|].
    assert (5 * (N * (2 ^ P * 2 ^ j)) ≤ 5 * M); [|lia].
    rewrite HPj, HM. assert (5 * 2 ^ k * N * (2 ^ 53 * 2 ^ f) ≤ 4 * v * (2 ^ 53 * 2 ^ f));
      [|nia]. apply Z.mul_le_mono_nonneg_r; lia. }
  assert (Hhi : M / 2 ^ j + 1 < (N + 1) * 2 ^ P).
  { assert (M / 2 ^ j * 2 ^ j ≤ M) by (rewrite Z.mul_comm; apply Z.mul_div_le; lia).
    assert (5 * (M + 2 ^ j) < 5 * ((N + 1) * (2 ^ P * 2 ^ j))).
    { rewrite HPj. assert (4 * v * (2 ^ 53 * 2 ^ f)
        ≤ (5 * 2 ^ k * (N + 1) - 1) * (2 ^ 53 * 2 ^ f)); [|lia].
      apply Z.mul_le_mono_nonneg_r; lia. }
    nia. }
  symmetry. apply Z.div_unique with (r - N * 2 ^ P); lia.
Qed.

Lemma eighty_percent v k :
  0 < v < 2 ^ 50 → k = 10 ∨ k = 20 ∨ k = 30 →
  f64_to_int (f64_mul (f64_div (f64_of_Z v) (f64_of_Z (2 ^ k))) f64_0_8)
  = 4 * v / (5 * 2 ^ k).
Proof.
  intros Hv Hk.
  assert (Hd : 1 ≤ Zdigits2 v ≤ 50).
  { rewrite Zdigits2_log2 by lia. pose proof (Z.log2_nonneg v).
    assert (Z.log2 v < 50) by (apply Z.log2_lt_pow2; lia). lia. }
  assert (f64_of_Z (2 ^ k) = S754_finite false (2 ^ 52) (k - 52)) as ->
    by (by destruct Hk as [->|[->| ->]]; vm_compute).
  rewrite f64_of_Z_exact by lia.
  assert (Hm : Zdigits2 (v * 2 ^ (53 - Zdigits2 v)) = 53) by (rewrite Zdigits2_pow2; lia).
  assert (Hm0 : 0 < v * 2 ^ (53 - Zdigits2 v))
    by (apply Z.mul_pos_pos; [|apply Z.pow_pos_nonneg]; lia).
  pose proof (Zdigits2_bounds _ Hm0) as Hmb. rewrite Hm in Hmb.
  rewrite f64_div_pow2 by (rewrite ?Z2Pos.id; lia).
  set (m := v * 2 ^ (53 - Zdigits2 v)) in *. set (e := Zdigits2 v - 53) in *.
  unfold f64_mul, SFmul, f64_0_8. cbn [xorb].
  rewrite Pos2Z.inj_mul, Z2Pos.id by done.
  set (M := m * 7205759403792794).
  pose proof (Zdigits2_bounds M ltac:(lia)) as HMb.
  assert (HMd : 105 ≤ Zdigits2 M ≤ 106).
  { rewrite Zdigits2_log2 in * by lia.
    assert (104 ≤ Z.log2 M) by (apply Z.log2_le_pow2; lia).
    assert (Z.log2 M < 106) by (apply Z.log2_lt_pow2; lia). lia. }
  destruct (binary_round_aux_long M (e - k + -53) loc_Exact) as (r & Hr & Hres); [lia..|].
  pose proof (eighty_percent_core v (53 - Zdigits2 v) k (Zdigits2 M - 53) r) as Hcore.
  specialize (Hcore ltac:(lia) ltac:(lia) ltac:(lia) ltac:(lia) ltac:(lia) Hr ltac:(lia)).
  assert (Hr0 : 0 < r).
  { assert (0 < M / 2 ^ (Zdigits2 M - 53)); [|lia]. apply Z.div_str_pos.
    split; [apply Z.pow_pos_nonneg; lia|].
    etrans; [|apply HMb]. apply Z.pow_le_mono_r; lia. }
  assert (Hn : 4 * v / (5 * 2 ^ k) < 2 ^ 63).
  { apply Z.div_lt_upper_bound; destruct Hk as [->|[->| ->]]; lia. }
  destruct Hres as [->|[-> ->]].
  - apply f64_to_int_shr; [lia|done| |done].
    rewrite <-Hcore. do 2 f_equal. unfold e. lia.
  - apply f64_to_int_shr; [lia|lia| |done]. rewrite <-Hcore.
    set (E := e - k + -53 + (Zdigits2 M - 53)).
    replace (53 + (53 - Zdigits2 v) + k - (Zdigits2 M - 53)) with (- (E + 1) + 1) by (unfold E, e; lia).
    rewrite Z.pow_add_r by (unfold E, e; lia).
    change (2 ^ 53) with (2 ^ 52 * 2 ^ 1). by rewrite Z.div_mul_cancel_r by (try apply Z.pow_nonzero; unfold E, e; lia).
Qed.

Example eighty_percent_2G :
  f64_to_int (f64_mul (f64_div (f64_of_Z 2000000000) (f64_of_Z (2 ^ 20))) f64_0_8) = 1525.
Proof. by vm_compute. Qed.
