(* ===== verification/Externals.v ===== *)
(** * Code and data from outside the repository

    The operator is written against operator-go, the Kubernetes API packages
    and controller-runtime, none of which is in [src/].  Their types that the
    operator only passes on are abstract ([ExtTypes]); the structs it fills or
    reads are records of the fields it uses; their constants and functions are
    members of the classes below, and what the operator relies on about them
    are the classes whose name ends in [Laws]. *)

From S2P Require Import Prelude GoRuntime GoFloat.

(** ** Abstract types *)

Class ExtTypes := {
  (** [resource.Quantity] *)
  Quantity : Type;
  (** [properties.Properties] *)
  Properties : Type;
  (** [util.Image] *)
  Image : Type;
  (** [commonsv1alpha1.OverridesSpec], [RoleConfigSpec],
      [ClusterOperationSpec], [LoggingConfigSpec] *)
  OverridesSpec : Type;
  RoleConfigSpec : Type;
  ClusterOperationSpec : Type;
  LoggingConfigSpec : Type;
  (** The fields of [commonsv1alpha1.RoleGroupConfigSpec] other than
      [Resources], of [ResourcesSpec] other than [Memory] and [Storage]. *)
  RoleGroupConfigRest : Type;
  ResourcesRest : Type;
  (** [s3v1alpha1.S3BucketSpec], [metav1.LabelSelectorRequirement],
      [status.Status], [metav1.ListMeta] *)
  S3BucketSpec : Type;
  LabelSelectorRequirement : Type;
  Status : Type;
  ListMeta : Type;
}.

(** ** Kubernetes structs *)

Module K8s.
Section k8s.
Context `{!ExtTypes}.

(** An environment variable read from a key of a secret: the only source
    of values the operator uses. *)
Record EnvVar := mkEnvVar {
  EnvVar_Name : string;
  EnvVar_SecretName : string;
  EnvVar_Key : string;
}.

Record PersistentVolumeClaimSpec := mkPVCSpec {
  AccessModes : list string;
  StorageClassName : option string;
  VolumeMode : option string;
  (** [Resources.Requests]; the only key is [storage]. *)
  StorageRequest : Quantity;
}.

Record PersistentVolumeClaimTemplate := mkPVCTemplate {
  PVC_Name : string;
  PVC_Annotations : gmap string string;
  PVC_Spec : PersistentVolumeClaimSpec;
}.

(** [VolumeSource]: of its pointers exactly one is set. *)
Inductive VolumeSource :=
  | ConfigMapSource (name : string)
  | EmptyDirSource (sizeLimit : Quantity)
  | EphemeralSource (template : PersistentVolumeClaimTemplate)
  | SecretSource (secretName : string).

Record Volume := mkVolume {
  Volume_Name : string;
  Volume_Source : VolumeSource;
}.

Record VolumeMount := mkVolumeMount {
  Mount_Name : string;
  MountPath : string;
}.

Record ContainerPort := mkContainerPort {
  Port_Name : string;
  Port_Number : Z;
  Port_Protocol : string;
}.

(** An [HTTPGet] probe. *)
Record Probe := mkProbe {
  Probe_Path : string;
  Probe_Port : string;
  Probe_Scheme : string;
  InitialDelaySeconds : Z;
  TimeoutSeconds : Z;
  PeriodSeconds : Z;
  FailureThreshold : Z;
  SuccessThreshold : Z;
}.
End k8s.
Arguments Volume {_}.
Arguments VolumeSource {_}.
Arguments PersistentVolumeClaimSpec {_}.
Arguments PersistentVolumeClaimTemplate {_}.
End K8s.
Export K8s.

(** [ctrlclient.ObjectKey] *)
Record ObjectKey := mkObjectKey { Key_Namespace : string; Key_Name : string }.

(** ** operator-go API structs *)

Section commons.
Context `{!ExtTypes}.

Record MemoryResource := mkMemoryResource { Memory_Limit : Quantity }.
Record StorageResource := mkStorageResource { Capacity : Quantity }.

Record ResourcesSpec := mkResourcesSpec {
  Memory : option MemoryResource;
  Storage : option StorageResource;
  Resources_rest : ResourcesRest;
}.

Record RoleGroupConfigSpec := mkRoleGroupConfigSpec {
  Resources : option ResourcesSpec;
  RoleGroupConfig_rest : RoleGroupConfigRest;
}.
End commons.

(** [authv1alpha1]: a pointer that a Go value could hold in its place is the
    [Some] case, so that following a nil one is a panic. *)
Record OIDCProvider := mkOIDCProvider {
  OIDC_Hostname : string;
  OIDC_Port : Z;
  OIDC_RootPath : string;
  OIDC_PrincipalClaim : string;
}.

Record SecretScope := mkSecretScope {
  Scope_Pod : bool;
  Scope_Node : bool;
  Scope_Services : option (list string);
}.

Record Credentials := mkCredentials {
  Credentials_SecretClass : string;
  Credentials_Scope : option SecretScope;
}.

Record LDAPFieldNames := mkLDAPFieldNames { Uid : string }.

Record LDAPProvider := mkLDAPProvider {
  LDAP_Hostname : string;
  LDAP_Port : Z;
  LDAP_SearchBase : string;
  LDAP_FieldNames : option LDAPFieldNames;
  LDAP_BindCredentials : option Credentials;
  (** Only whether the pointer is nil is used. *)
  LDAP_TLS : option unit;
}.

Record StaticProvider := mkStaticProvider {
  (** [UserCredentialsSecret.Name] *)
  UserCredentialsSecret : option string;
}.

Record AuthenticationProvider := mkAuthenticationProvider {
  Provider_OIDC : option OIDCProvider;
  Provider_Static : option StaticProvider;
  Provider_LDAP : option LDAPProvider;
}.

(** [obj.Spec.AuthenticationProvider] of an [AuthenticationClass]; the object
    starts as the zero value and is filled by [client.Get]. *)
Record AuthenticationClass := mkAuthenticationClass {
  Class_Provider : option AuthenticationProvider;
}.
Definition zero_AuthenticationClass : AuthenticationClass := mkAuthenticationClass None.

(** [metav1.TypeMeta]; [reconciler.ClusterInfo], [RoleInfo], [RoleGroupInfo] *)
Record TypeMeta := mkTypeMeta { TypeMeta_Kind : string; TypeMeta_APIVersion : string }.
Record GroupVersionKind := mkGVK { GVK_Group : string; GVK_Version : string; GVK_Kind : string }.
Record ClusterInfo := mkClusterInfo { Info_GVK : GroupVersionKind; Info_ClusterName : string }.
Record RoleInfo := mkRoleInfo { Info_Cluster : ClusterInfo; Info_RoleName : string }.
Record RoleGroupInfo := mkRoleGroupInfo { Info_Role : RoleInfo; Info_RoleGroupName : string }.

(** ** Constants *)

Class Constants := {
  (** [constants] of operator-go *)
  KubedoopRoot : string;
  KubedoopTlsDir : string;
  KubedoopConfigDir : string;
  KubedoopConfigDirMount : string;
  KubedoopDataDir : string;
  KubedoopLogDir : string;
  KubedoopJmxDir : string;
  AnnotationSecretsClass : string;
  AnnotationSecretsScope : string;
  AnnotationSecretsFormat : string;
  AnnotationSecretsPKCS12Password : string;
  PodScope : string;
  NodeScope : string;
  ServiceScope : string;
  CommonDelimiter : string;
  TLSP12 : string;
  SecretStorageClassPtr : option string;
  ClusterInternal : string;
  (** [builder.VectorConfigFileName] *)
  VectorConfigFileName : string;
}.

(** The directories below which the operator mounts volumes are absolute, and
    so not empty; the vector agent's file is none of Trino's; the annotations
    of a secret volume are different keys. *)
Class ConstantsLaws `{!Constants} := {
  KubedoopRoot_nonempty : KubedoopRoot ≠ "";
  KubedoopTlsDir_nonempty : KubedoopTlsDir ≠ "";
  VectorConfigFileName_fresh :
    VectorConfigFileName ∉ ["config.properties"; "node.properties"; "secret.properties";
                            "jvm.config"; "log.properties"];
  VectorConfigFileName_no_catalog s : VectorConfigFileName ≠ "catalog-" +:+ s;
  Annotations_NoDup :
    NoDup [AnnotationSecretsClass; AnnotationSecretsScope; AnnotationSecretsFormat;
           AnnotationSecretsPKCS12Password];
}.

(** ** Quantities *)

Class QuantityApi `{!ExtTypes} := {
  (** [resource.MustParse] panics on a string that is not a quantity. *)
  MustParse : string → outcome Quantity;
  (** [Value], rounded up to an [int64] *)
  Quantity_Value : Quantity → Z;
  Quantity_ToDec : Quantity → Quantity;
  AsApproximateFloat64 : Quantity → float64;
  Quantity_String : Quantity → string;
  Quantity_IsZero : Quantity → bool;
}.

(** The literals of the source are quantities. *)
Class QuantityLaws `{QuantityApi} := {
  MustParse_2G : ∃ q, MustParse "2G" = Val q;
  MustParse_1Gi : ∃ q, MustParse "1Gi" = Val q;
  MustParse_1Mi : ∃ q, MustParse "1Mi" = Val q;
}.

(** ** Properties *)

(** The methods of [properties.Properties] on a non-nil receiver, and what
    [Keys] and [Get] do when the receiver is nil. *)
Class PropertiesApi `{!ExtTypes} := {
  NewProperties : Properties;
  Properties_Add : Properties → string → string → Properties;
  Properties_Get : Properties → string → option string;
  Properties_Keys : Properties → list string;
  Properties_Marshal : Properties → outcome string;
  Properties_nil_Keys : outcome (list string);
  Properties_nil_Get : string → outcome (option string);
}.

(** A properties value is a finite map whose [Keys] lists every key once;
    [Add] sets the value of its key. *)
Class PropertiesLaws `{PropertiesApi} := {
  Get_New k : Properties_Get NewProperties k = None;
  Get_Add p k v k' :
    Properties_Get (Properties_Add p k v) k' =
      if decide (k = k') then Some v else Properties_Get p k';
  Keys_NoDup p : NoDup (Properties_Keys p);
  Keys_Get p k : k ∈ Properties_Keys p ↔ is_Some (Properties_Get p k);
}.

(** ** Names, labels and annotations *)

Class InfoApi := {
  ClusterInfo_GetClusterName : ClusterInfo → string;
  ClusterInfo_GetLabels : ClusterInfo → gmap string string;
  ClusterInfo_GetAnnotations : ClusterInfo → gmap string string;
  RoleInfo_GetFullName : RoleInfo → string;
  RoleInfo_GetLabels : RoleInfo → gmap string string;
  RoleInfo_GetAnnotations : RoleInfo → gmap string string;
  RoleGroupInfo_GetFullName : RoleGroupInfo → string;
  RoleGroupInfo_GetLabels : RoleGroupInfo → gmap string string;
  RoleGroupInfo_GetAnnotations : RoleGroupInfo → gmap string string;
  RoleGroupInfo_GetClusterName : RoleGroupInfo → string;
  RoleGroupInfo_GetRoleName : RoleGroupInfo → string;
  RoleGroupInfo_GetGroupName : RoleGroupInfo → string;
}.

(** The getters return the fields. *)
Class InfoLaws `{!InfoApi} := {
  GetClusterName_cluster i : ClusterInfo_GetClusterName i = Info_ClusterName i;
  GetClusterName_group i :
    RoleGroupInfo_GetClusterName i = Info_ClusterName (Info_Cluster (Info_Role i));
  GetRoleName_group i : RoleGroupInfo_GetRoleName i = Info_RoleName (Info_Role i);
  GetGroupName_group i : RoleGroupInfo_GetGroupName i = Info_RoleGroupName i;
}.

(** The full name of a role group is the one of its role followed by its own. *)
Class FullNameLaws `{!InfoApi} := {
  GetFullName_group i :
    RoleGroupInfo_GetFullName i = RoleInfo_GetFullName (Info_Role i) +:+ "-" +:+ Info_RoleGroupName i;
}.

(** ** Other functions *)

Class UtilApi := {
  (** [util.IndentTab4Spaces] *)
  IndentTab4Spaces : string → string;
}.

(** A nil [Properties] has no keys, if asking for them does not panic. *)
Class PropertiesNilLaws `{PropertiesApi} :=
  nil_Keys_empty ks : Properties_nil_Keys = Val ks → ks = [].

(** Marshalling never fails. *)
Class MarshalLaws `{PropertiesApi} :=
  Marshal_total p : ∃ s, Properties_Marshal p = Val s.
