(* ===== verification/Api.v ===== *)
(** * The API types of [api/v1alpha1]

    Every struct of [trino_types.go] and [trinocatalog_types.go] as a record.
    A pointer is an [option]; a slice or map that the code compares with nil
    is one too ([gomap]).  JSON tags and kubebuilder markers are not data of
    the program. *)

From S2P Require Import Prelude GoRuntime Externals.

(** ** Constants *)

Definition DefaultRepository : string := "quay.io/zncdatadev".
Definition DefaultProductVersion : string := "451".
Definition DefaultProductName : string := "trino".

Definition TrinoCoordinatorRoleName : string := "coordinator".
Definition TrinoWorkerRoleName : string := "worker".
Definition HttpPortName : string := "http".
Definition HttpPort : Z := 8080.
Definition HttpsPortName : string := "https".
Definition HttpsPort : Z := 8443.
Definition MetricsPortName : string := "metrics".
Definition MetricsPort : Z := 8081.

Definition DefaultTlsSecretClass : string := "tls".
Definition DefaultListenerClass `{!Constants} : string := ClusterInternal.
Definition DefaultQueryMaxMemory : string := "50GB".

(** [groupversion_info.go] *)
Definition GroupVersion : string * string := ("trino.kubedoop.dev", "v1alpha1").

(** ** Cluster types *)

Record OidcSpec := mkOidcSpec {
  ClientCredentialsSecret : string;
  ExtraScopes : list string;
}.

Record AuthenticationSpec := mkAuthenticationSpec {
  AuthSpec_Class : string;
  AuthSpec_Oidc : option OidcSpec;
}.

Record TlsSpec := mkTlsSpec {
  ServerSecretClass : string;
  InternalSecretClass : string;
}.

Record LoggingSpec `{!ExtTypes} := mkLoggingSpec {
  Containers : gomap LoggingConfigSpec;
  EnableVectorAgent : bool;
}.

Record ConfigOverridesSpec := mkConfigOverridesSpec {
  Override_Node : gomap string;
  Override_Jvm : string;
  Override_Config : gomap string;
  Override_Log : gomap string;
  Override_ExchangeManager : gomap string;
}.

Record ImageSpec := mkImageSpec {
  Image_Custom : string;
  Image_Repo : string;
  Image_KubedoopVersion : string;
  Image_ProductVersion : string;
  Image_PullPolicy : string;
  Image_PullSecretName : string;
}.

Record JvmPropertiesRoleConfigSpec := mkJvmPropertiesRoleConfigSpec {
  MaxHeapSize : string;
  GcMethodType : string;
  G1HeapRegionSize : string;
}.

Section api.
Context `{!ExtTypes}.

Record CatalogLabelSelectorSpec := mkCatalogLabelSelectorSpec {
  MatchLabels : gomap string;
  MatchExpressions : option (list LabelSelectorRequirement);
}.

Record ClusterConfigSpec := mkClusterConfigSpec {
  Authentication : option (list AuthenticationSpec);
  CatalogLabelSelector : option CatalogLabelSelectorSpec;
  CatalogProperties : gomap (gomap string);
  ListenerClass : string;
  Tls : option TlsSpec;
  VectorAggregatorConfigMapName : string;
}.

(** The embedded [*commonsv1alpha1.RoleGroupConfigSpec] is a pointer. *)
Record ConfigSpec := mkConfigSpec {
  Config_RoleGroupConfig : option RoleGroupConfigSpec;
  QueryMaxMemory : string;
  QueryMaxMemoryPerNode : string;
}.

Record BaseRoleSpec := mkBaseRoleSpec {
  BaseRole_Replicas : option Z;
  BaseRole_Overrides : option OverridesSpec;
  BaseRole_RoleConfig : option RoleConfigSpec;
  BaseRole_Config : option ConfigSpec;
}.

Record RoleGroupSpec := mkRoleGroupSpec {
  RoleGroup_Replicas : option Z;
  RoleGroup_Config : option ConfigSpec;
  RoleGroup_Overrides : option OverridesSpec;
}.

Record CoordinatorsSpec := mkCoordinatorsSpec {
  Coordinators_RoleGroups : gomap (option RoleGroupSpec);
  Coordinators_Base : BaseRoleSpec;
}.

Record WorkersSpec := mkWorkersSpec {
  Workers_RoleGroups : gomap (option RoleGroupSpec);
  Workers_Base : BaseRoleSpec;
}.

Record TrinoClusterSpec := mkTrinoClusterSpec {
  Spec_ClusterConfig : option ClusterConfigSpec;
  Spec_ClusterOperation : option ClusterOperationSpec;
  Spec_Image : option ImageSpec;
  Spec_Coordinators : option CoordinatorsSpec;
  Spec_Workers : option WorkersSpec;
}.

(** Of [metav1.TypeMeta] and [ObjectMeta] the group, version and kind, and
    the name and namespace. *)
Record TrinoCluster := mkTrinoCluster {
  Cluster_GVK : GroupVersionKind;
  Cluster_Name : string;
  Cluster_Namespace : string;
  Cluster_Spec : TrinoClusterSpec;
  Cluster_Status : Status;
}.

Record TrinoClusterList := mkTrinoClusterList {
  ClusterList_TypeMeta : TypeMeta;
  ClusterList_ListMeta : ListMeta;
  Cluster_Items : list TrinoCluster;
}.
End api.

(** [client.Client]: the API client and the owner of what it creates. *)
Record Client `{!ExtTypes} := mkClient { OwnerReference : TrinoCluster }.

(** ** Catalog types *)

Record ValueFromConfigurationSpec := mkValueFromConfigurationSpec {
  ValueFrom_Type : string;
  ValueFrom_Name : string;
  ValueFrom_Key : string;
}.

Record PropertiesSpec := mkPropertiesSpec {
  Properties_Value : string;
  ValueFromConfiguration : option ValueFromConfigurationSpec;
}.

Record MetastoreConnectionSpec := mkMetastoreConnectionSpec { Metastore_ConfigMap : string }.
Record HdfsConnectionSpec := mkHdfsConnectionSpec { Hdfs_ConfigMap : string }.

Record GenericConnectorSpec := mkGenericConnectorSpec {
  Generic_Name : string;
  Generic_Properties : option PropertiesSpec;
}.

Inductive TpcdsConnectorSpec := mkTpcdsConnectorSpec.
Inductive TpchConnectorSpec := mkTpchConnectorSpec.

Section catalog.
Context `{!ExtTypes}.

Record HiveConnectorSpec := mkHiveConnectorSpec {
  Hive_Metastore : option MetastoreConnectionSpec;
  Hive_S3 : option S3BucketSpec;
  Hive_Hdfs : option HdfsConnectionSpec;
}.

Record IcebergConnectorSpec := mkIcebergConnectorSpec {
  Iceberg_Metastore : option MetastoreConnectionSpec;
  Iceberg_S3 : option S3BucketSpec;
  Iceberg_Hdfs : option HdfsConnectionSpec;
}.

Record ConnectorSpec := mkConnectorSpec {
  Connector_Generic : option GenericConnectorSpec;
  Connector_Hive : option HiveConnectorSpec;
  Connector_IceBerg : option IcebergConnectorSpec;
  Connector_Tpcds : option TpcdsConnectorSpec;
  Connector_Tpch : option TpchConnectorSpec;
}.

Record TrinoCatalogSpec := mkTrinoCatalogSpec {
  Catalog_Connector : ConnectorSpec;
  Catalog_ConfigOverrides : gomap string;
}.

Inductive TrinoCatalogStatus := mkTrinoCatalogStatus.

(** Of [metav1.ObjectMeta] the name and the namespace. *)
Record TrinoCatalog := mkTrinoCatalog {
  Catalog_TypeMeta : TypeMeta;
  Catalog_Name : string;
  Catalog_Namespace : string;
  Catalog_Spec : TrinoCatalogSpec;
  Catalog_Status : TrinoCatalogStatus;
}.

Record TrinoCatalogList := mkTrinoCatalogList {
  CatalogList_TypeMeta : TypeMeta;
  CatalogList_ListMeta : ListMeta;
  Catalog_Items : list TrinoCatalog;
}.
End catalog.
