(* ===== verification/Framework.v ===== *)
(** * The framework the operator plugs into

    The builders and reconcilers of operator-go, the API client and the
    sources of non-determinism.  A builder is modelled by the calls made on
    it: the operator only fills builders, and their [GetObject] is a
    parameter.  [World] collects everything whose answer depends on the
    outside: API reads, random bytes, map iteration order. *)

From S2P Require Import Prelude GoRuntime Externals Api.

(** ** Outside world *)

Class ClientApi `{!ExtTypes} := {
  GetOwnerNamespace : Client → string;
  (** [ctrlclient.IgnoreNotFound] on a non-nil error: nil for a NotFound
      error, the error for every other one.  On nil it is nil. *)
  IgnoreNotFound : go_error → option go_error;
}.

Class World (W : Type) `{!ExtTypes} := {
  world_range :: RangeEnv W;
  (** [client.Get] into an object: the error it returned and the object
      afterwards. *)
  get_AuthenticationClass :
    ObjectKey → AuthenticationClass → W → (option go_error * AuthenticationClass) * W;
  (** Only the error of reading the secret is used. *)
  get_Secret : ObjectKey → W → option go_error * W;
  get_TrinoCluster : ObjectKey → W → (option go_error * TrinoCluster) * W;
  (** [crypto/rand.Read] into a buffer of the given length *)
  rand_Read : nat → W → (option go_error * list ascii) * W;
  (** [productlogging.MakeVectorYaml ctx client namespace cluster role
      roleGroup configMapName] *)
  MakeVectorYaml : string → string → string → string → string → W → outcome string * W;
}.

(** A read as a computation that always returns. *)
Definition reading {W A} (f : W → A * W) : M W A := λ w, let '(a, w') := f w in (Val a, w').

Lemma reading_run {W A} (f : W → A * W) w a w' : f w = (a, w') → reading f w = (Val a, w').
Proof. unfold reading. by intros ->. Qed.

(** ** Options *)

Record Options := mkOptions {
  Opt_ClusterName : string;
  Opt_RoleName : string;
  Opt_RoleGroupName : string;
  Opt_Labels : gmap string string;
  Opt_Annotations : gmap string string;
}.
Definition zero_Options : Options := mkOptions "" "" "" ∅ ∅.

(** [builder.Option]: a function that sets fields of the options. *)
Definition Option_fn : Type := Options → Options.
Definition apply_options (os : list Option_fn) : Options := foldl (λ o f, f o) zero_Options os.

(** [util.MergeObject(left, right)] *)
Class MergeApi := MergeObject : ∀ T : Type, option T → option T → outcome (option T).
Arguments MergeObject {_ T} _ _.

Section builders.
Context `{!ExtTypes}.

(** *** ConfigMap and Secret builders: the [AddItem] calls made so far *)

Record BaseConfigMapBuilder := mkBaseConfigMap {
  CMB_Client : Client;
  CMB_Name : string;
  CMB_Options : list Option_fn;
  CMB_Items : list (string * string);
}.
Definition NewBaseConfigMapBuilder (c : Client) (name : string) (os : list Option_fn) :=
  mkBaseConfigMap c name os [].
Definition CMB_AddItem (b : BaseConfigMapBuilder) (k v : string) : BaseConfigMapBuilder :=
  mkBaseConfigMap (CMB_Client b) (CMB_Name b) (CMB_Options b) (CMB_Items b ++ [(k, v)]).

Record BaseSecretBuilder := mkBaseSecret {
  SB_Client : Client;
  SB_Name : string;
  SB_Options : list Option_fn;
  SB_Items : list (string * string);
}.
Definition SB_AddItem (b : BaseSecretBuilder) (k v : string) : BaseSecretBuilder :=
  mkBaseSecret (SB_Client b) (SB_Name b) (SB_Options b) (SB_Items b ++ [(k, v)]).

(** *** Containers: the calls made on [builder.NewContainer(name, image)] *)

Inductive container_call :=
  | SetCommand (cmd : list string)
  | SetArgs (args : list string)
  | AddVolumeMounts (mounts : list VolumeMount)
  | AddEnvFromSecret (name : string)
  | AddEnvVars (vars : list EnvVar)
  | AddPorts (ports : list ContainerPort)
  | SetLivenessProbe (p : Probe)
  | SetReadinessProbe (p : Probe).

Inductive Container :=
  | BuiltContainer (name : string) (image : Image) (calls : list container_call)
  | VectorContainer (configVolume logVolume : string) (image : Image).

(** What a container was given. *)
Definition calls_of (c : Container) : list container_call :=
  match c with BuiltContainer _ _ calls => calls | VectorContainer _ _ _ => [] end.

Definition container_mounts (c : Container) : list VolumeMount :=
  mjoin ((λ call, if call is AddVolumeMounts l then l else []) <$> calls_of c).
Definition container_ports (c : Container) : list ContainerPort :=
  mjoin ((λ call, if call is AddPorts l then l else []) <$> calls_of c).
Definition container_probes (c : Container) : list Probe :=
  mjoin ((λ call, match call with
                  | SetLivenessProbe p | SetReadinessProbe p => [p]
                  | _ => []
                  end) <$> calls_of c).
(** The secrets all of whose keys become environment variables, and the
    variables that are set one by one. *)
Definition container_env_from (c : Container) : list string :=
  mjoin ((λ call, if call is AddEnvFromSecret n then [n] else []) <$> calls_of c).
Definition container_env_vars (c : Container) : list EnvVar :=
  mjoin ((λ call, if call is AddEnvVars l then l else []) <$> calls_of c).

(** The environment of the container's process when the secret [n] holds
    [contents n]: Kubernetes sets the variables of [env] after, and so over,
    those of [envFrom].  (When a key is missing the container does not start; such
    a variable is left out here.) *)
Definition container_environment (contents : string → gmap string string) (c : Container)
    : gmap string string :=
  foldl (λ env v, match contents (EnvVar_SecretName v) !! EnvVar_Key v with
                  | Some x => <[EnvVar_Name v := x]> env
                  | None => env
                  end)
    (foldl (λ env n, contents n ∪ env) ∅ (container_env_from c))
    (container_env_vars c).

(** *** StatefulSet builders *)

Record BaseStatefulSetBuilder := mkBaseStatefulSet {
  STB_Client : Client;
  STB_Name : string;
  STB_Replicas : option Z;
  STB_Image : Image;
  STB_Overrides : option OverridesSpec;
  STB_RoleGroupConfig : option RoleGroupConfigSpec;
  STB_Options : list Option_fn;
  (** The calls [AddVolumeClaimTemplates], [AddVolumes], [AddContainer] *)
  STB_Claims : list PersistentVolumeClaimTemplate;
  STB_Volumes : list Volume;
  STB_Containers : list Container;
}.
Definition NewBaseStatefulSetBuilder c name replicas image overrides rgc os :=
  mkBaseStatefulSet c name replicas image overrides rgc os [] [] [].

Definition AddVolumeClaimTemplates (b : BaseStatefulSetBuilder) l :=
  mkBaseStatefulSet (STB_Client b) (STB_Name b) (STB_Replicas b) (STB_Image b)
    (STB_Overrides b) (STB_RoleGroupConfig b) (STB_Options b)
    (STB_Claims b ++ l) (STB_Volumes b) (STB_Containers b).
Definition AddVolumes (b : BaseStatefulSetBuilder) l :=
  mkBaseStatefulSet (STB_Client b) (STB_Name b) (STB_Replicas b) (STB_Image b)
    (STB_Overrides b) (STB_RoleGroupConfig b) (STB_Options b)
    (STB_Claims b) (STB_Volumes b ++ l) (STB_Containers b).
Definition AddContainer (b : BaseStatefulSetBuilder) c :=
  mkBaseStatefulSet (STB_Client b) (STB_Name b) (STB_Replicas b) (STB_Image b)
    (STB_Overrides b) (STB_RoleGroupConfig b) (STB_Options b)
    (STB_Claims b) (STB_Volumes b) (STB_Containers b ++ [c]).

(** *** Services *)

Record ServiceBuilderOptions := mkServiceOptions {
  SBO_Headless : bool;
  SBO_ListenerClass : string;
  SBO_ClusterName : string;
  SBO_RoleName : string;
  SBO_RoleGroupName : string;
  SBO_Labels : gmap string string;
  SBO_MatchingLabels : gmap string string;
  SBO_Annotations : gmap string string;
}.

(** [builder.NewServiceBuilder(client, name, ports, options...)]: the options
    run on whatever the builder starts from. *)
Record BaseServiceBuilder := mkBaseService {
  SVB_Client : Client;
  SVB_Name : string;
  SVB_Ports : list ContainerPort;
  SVB_Options : list (ServiceBuilderOptions → ServiceBuilderOptions);
}.
End builders.

(** ** What the builders produce *)

(** [GetObject] of a ConfigMap builder, and the [data] of its result. *)
Class ConfigMapApi `{!ExtTypes} := {
  ConfigMapObject : Type;
  ConfigMap_GetObject : BaseConfigMapBuilder → ConfigMapObject;
  ConfigMap_Data : ConfigMapObject → gmap string string;
}.

(** Writing [items] one after the other into an empty map. *)
Definition items_map (items : list (string * string)) : gmap string string :=
  foldl (λ m kv, <[kv.1 := kv.2]> m) ∅ items.

Class ConfigMapLaws `{ConfigMapApi} :=
  ConfigMap_Data_items b : ConfigMap_Data (ConfigMap_GetObject b) = items_map (CMB_Items b).

Class SecretApi `{!ExtTypes} := {
  SecretObject : Type;
  Secret_GetObject : BaseSecretBuilder → SecretObject;
  Secret_Data : SecretObject → gmap string string;
  Secret_GetName : BaseSecretBuilder → string;
}.

Class SecretLaws `{SecretApi} := {
  Secret_Data_items b : Secret_Data (Secret_GetObject b) = items_map (SB_Items b);
  Secret_GetName_name b : Secret_GetName b = SB_Name b;
}.

(** A StatefulSet object: the part of its pod template that [Build] extends,
    and the rest. *)
Class StatefulSetApi `{!ExtTypes} := {
  StatefulSetRest : Type;
  (** The claim templates of the object *)
  StatefulSet_Claims : StatefulSetRest → list PersistentVolumeClaimTemplate;
  STB_GetName : BaseStatefulSetBuilder → string;
  STB_GetImage : BaseStatefulSetBuilder → Image;
  StatefulSet_GetObject :
    BaseStatefulSetBuilder → outcome (list Volume * list Container * StatefulSetRest);
  (** The volumes of [builder.NewVector(config, log, image)] *)
  Vector_GetVolumes : string → string → Image → list Volume;
}.

Class StatefulSetLaws `{StatefulSetApi} := {
  STB_GetName_name b : STB_GetName b = STB_Name b;
  STB_GetImage_image b : STB_GetImage b = STB_Image b;
  (** Without overrides of the user, an object has the volumes and the claims
      that were added to its builder, and its containers, in the order in
      which they were added, mount what they were given. *)
  GetObject_pod b volumes containers rest :
    STB_Overrides b = None →
    StatefulSet_GetObject b = Val (volumes, containers, rest) →
    volumes = STB_Volumes b ∧ container_mounts <$> containers = container_mounts <$> STB_Containers b ∧
    StatefulSet_Claims rest = STB_Claims b;
}.

(** ** Reconcilers *)

(** [ctrl.Result] and its zero value; [IsStopped] of a cluster with the given
    operation. *)
Class ReconcilerApi `{!ExtTypes} := {
  Result : Type;
  zero_Result : Result;
  IsStopped : option ClusterOperationSpec → bool;
}.

(** [util.NewImage(productName, buildVersion, productVersion, option)]; the
    fields of [util.ImageOptions] that the option sets. *)
Record ImageOptions := mkImageOptions {
  ImageOptions_Custom : string;
  ImageOptions_Repo : string;
  ImageOptions_PullPolicy : string;
}.
Class ImageApi `{!ExtTypes} := {
  NewImage : string → string → string → (ImageOptions → ImageOptions) → Image;
}.

(** A variable that is not set on its own has the value that its secret gives
    it. *)
Lemma container_environment_from `{!ExtTypes} contents c variable :
  variable ∉ EnvVar_Name <$> container_env_vars c →
  container_environment contents c !! variable =
    foldl (λ env n, contents n ∪ env) ∅ (container_env_from c) !! variable.
Proof.
  unfold container_environment. generalize (foldl (λ env n, contents n ∪ env) ∅ (container_env_from c)).
  induction (container_env_vars c) as [|v vars IH]; intros env; simpl; [done|].
  rewrite not_elem_of_cons. intros [Hne Hvars]. rewrite (IH _ Hvars).
  destruct (contents _ !! _); [by rewrite lookup_insert_ne|done].
Qed.

(** ** Items *)

Lemma items_map_app l1 l2 :
  items_map (l1 ++ l2) = foldl (λ m kv, <[kv.1 := kv.2]> m) (items_map l1) l2.
Proof. apply foldl_app. Qed.

Lemma foldl_insert_lookup (l : list (string * string)) (m : gmap string string) k :
  k ∉ l.*1 → foldl (λ m kv, <[kv.1 := kv.2]> m) m l !! k = m !! k.
Proof.
  revert m. induction l as [|[k' v] l IH]; intros m; simpl; [done|].
  rewrite not_elem_of_cons. intros [??]. rewrite IH by done. by rewrite lookup_insert_ne.
Qed.

Lemma foldl_insert_Some (l : list (string * string)) (m : gmap string string) k v :
  NoDup l.*1 → (k, v) ∈ l → foldl (λ m kv, <[kv.1 := kv.2]> m) m l !! k = Some v.
Proof.
  revert m. induction l as [|[k' v'] l IH]; intros m; simpl; [by rewrite elem_of_nil|].
  intros [Hk' Hl]%NoDup_cons [[= -> ->]|Hin]%elem_of_cons; [|by apply IH].
  rewrite foldl_insert_lookup by done. by rewrite lookup_insert_eq.
Qed.

(** With distinct keys the items are exactly the entries of the map. *)
Lemma items_map_lookup items k v :
  NoDup items.*1 → items_map items !! k = Some v ↔ (k, v) ∈ items.
Proof.
  intros Hnd. split.
  - unfold items_map. destruct (decide (k ∈ items.*1)) as [Hk|Hk].
    + apply list_elem_of_fmap in Hk as ([k' v'] & -> & Hin). simpl.
      rewrite (foldl_insert_Some _ _ k' v') by done. by intros [= ->].
    + rewrite foldl_insert_lookup by done. by rewrite lookup_empty.
  - by apply foldl_insert_Some.
Qed.

(** Distinct keys can be written in any order. *)
Lemma items_map_permutation l1 l2 :
  NoDup l1.*1 → l1 ≡ₚ l2 → items_map l1 = items_map l2.
Proof.
  intros Hnd Hp. apply map_eq. intros k. apply option_eq. intros v.
  rewrite !items_map_lookup; [by rewrite Hp|by rewrite <-Hp|done].
Qed.

(** Writing the entries of a map, in any order, puts it over what was there. *)
Lemma foldl_insert_union (cat m : gmap string string) l :
  l ≡ₚ map_to_list cat → foldl (λ m kv, <[kv.1 := kv.2]> m) m l = cat ∪ m.
Proof.
  intros Hl. apply map_eq. intros k.
  assert (Hnd : NoDup l.*1) by (rewrite Hl; apply NoDup_fst_map_to_list).
  destruct (cat !! k) as [v|] eqn:Hk.
  - rewrite (lookup_union_Some_l _ _ _ v) by done. apply foldl_insert_Some; [done|].
    rewrite Hl. by apply elem_of_map_to_list.
  - rewrite lookup_union_r by done. apply foldl_insert_lookup.
    intros ([k' v] & -> & Hin)%list_elem_of_fmap. rewrite Hl in Hin.
    apply elem_of_map_to_list in Hin. simpl in Hk. congruence.
Qed.

(** Copying a map entry by entry gives the map, in any order. *)
Lemma items_map_copy (m : gmap string string) l : l ≡ₚ map_to_list m → items_map l = m.
Proof.
  intros Hl. unfold items_map. rewrite (foldl_insert_union m ∅ l Hl). apply (right_id_L ∅ (∪)).
Qed.
