(* ===== verification/Concrete.v ===== *)
(** * Concrete instances of the parameters

    One small instance of every class of the development, with its laws.  The
    witnesses evaluate the definitions with it, which shows that the
    hypotheses of the theorems can hold together.  It is a test double, not a
    description of operator-go. *)

From Stdlib Require Import ZArith SpecFloat.
From S2P Require Import Prelude GoRuntime GoStrings GoFloat Version Externals Api Framework.

Module Concrete.
(** Quantities are numbers of bytes; properties are finite maps. *)
#[export] Instance ext_types : ExtTypes := {|
  Quantity := Z; Properties := gmap string string; Image := string;
  OverridesSpec := string; RoleConfigSpec := unit; ClusterOperationSpec := bool;
  LoggingConfigSpec := unit; RoleGroupConfigRest := unit; ResourcesRest := unit;
  S3BucketSpec := unit; LabelSelectorRequirement := unit; Status := unit; ListMeta := unit;
|}.

#[export] Instance constants : Constants := {|
  KubedoopRoot := "/kubedoop/";
  KubedoopTlsDir := "/kubedoop/tls/";
  KubedoopConfigDir := "/kubedoop/config/";
  KubedoopConfigDirMount := "/kubedoop/mount/config/";
  KubedoopDataDir := "/kubedoop/data/";
  KubedoopLogDir := "/kubedoop/log/";
  KubedoopJmxDir := "/kubedoop/jmx/";
  AnnotationSecretsClass := "secrets.kubedoop.dev/class";
  AnnotationSecretsScope := "secrets.kubedoop.dev/scope";
  AnnotationSecretsFormat := "secrets.kubedoop.dev/format";
  AnnotationSecretsPKCS12Password := "secrets.kubedoop.dev/tlsPKCS12Password";
  PodScope := "pod"; NodeScope := "node"; ServiceScope := "service";
  CommonDelimiter := ","; TLSP12 := "tls-p12";
  SecretStorageClassPtr := Some "secrets.kubedoop.dev";
  ClusterInternal := "cluster-internal";
  VectorConfigFileName := "vector.yaml";
|}.

#[export] Instance constants_laws : ConstantsLaws.
Proof.
  split; [done|done| |done|]; apply (bool_decide_unpack _); by vm_compute.
Qed.

#[export] Instance quantity_api : QuantityApi := {|
  MustParse s :=
    if decide (s = "2G") then Val 2000000000%Z
    else if decide (s = "1Gi") then Val 1073741824%Z
    else if decide (s = "1Mi") then Val 1048576%Z
    else Panic (PanicMessage "cannot parse quantity");
  Quantity_Value q := q;
  Quantity_ToDec q := q;
  AsApproximateFloat64 q := f64_of_Z q;
  Quantity_String q := pretty q;
  Quantity_IsZero q := bool_decide (q = 0%Z);
|}.

#[export] Instance quantity_laws : QuantityLaws.
Proof. split; by eexists. Qed.

#[export] Instance properties_api : PropertiesApi := {|
  NewProperties := (∅ : gmap string string);
  Properties_Add p k v := <[k := v]> p;
  Properties_Get p k := p !! k;
  Properties_Keys p := (map_to_list p).*1;
  Properties_Marshal p :=
    Val (strings_Join ((λ kv, kv.1 +:+ "=" +:+ kv.2) <$> map_to_list p) "
");
  Properties_nil_Keys := Panic NilDereference;
  Properties_nil_Get _ := Panic NilDereference;
|}.

#[export] Instance properties_laws : PropertiesLaws.
Proof.
  split; simpl.
  - intros k. apply lookup_empty.
  - intros p k v k'. apply lookup_insert.
  - intros p. apply NoDup_fst_map_to_list.
  - intros p k. rewrite list_elem_of_fmap. split.
    + intros ([k' v] & -> & Hin%elem_of_map_to_list). by exists v.
    + intros [v Hv]. exists (k, v). by rewrite elem_of_map_to_list.
Qed.

#[export] Instance properties_nil_laws : PropertiesNilLaws.
Proof. by intros ks [=]. Qed.
#[export] Instance marshal_laws : MarshalLaws.
Proof. intros p. by eexists. Qed.

Definition base_labels (c : ClusterInfo) : gmap string string :=
  {["app.kubernetes.io/instance" := Info_ClusterName c]}.

#[export] Instance info_api : InfoApi := {|
  ClusterInfo_GetClusterName := Info_ClusterName;
  ClusterInfo_GetLabels := base_labels;
  ClusterInfo_GetAnnotations _ := ∅;
  RoleInfo_GetFullName i := Info_ClusterName (Info_Cluster i) +:+ "-" +:+ Info_RoleName i;
  RoleInfo_GetLabels i := base_labels (Info_Cluster i);
  RoleInfo_GetAnnotations _ := ∅;
  RoleGroupInfo_GetFullName i :=
    Info_ClusterName (Info_Cluster (Info_Role i)) +:+ "-" +:+ Info_RoleName (Info_Role i)
      +:+ "-" +:+ Info_RoleGroupName i;
  RoleGroupInfo_GetLabels i := base_labels (Info_Cluster (Info_Role i));
  RoleGroupInfo_GetAnnotations _ := ∅;
  RoleGroupInfo_GetClusterName i := Info_ClusterName (Info_Cluster (Info_Role i));
  RoleGroupInfo_GetRoleName i := Info_RoleName (Info_Role i);
  RoleGroupInfo_GetGroupName := Info_RoleGroupName;
|}.

#[export] Instance info_laws : InfoLaws.
Proof. by split. Qed.

#[export] Instance full_name_laws : FullNameLaws.
Proof. split. intros i. simpl. by rewrite !str_app_assoc. Qed.

#[export] Instance image_api : ImageApi := {|
  NewImage product build version option :=
    let o := option (mkImageOptions "" "" "") in
    if decide (ImageOptions_Custom o = "")
    then ImageOptions_Repo o +:+ "/" +:+ product +:+ ":" +:+ version +:+ "-kubedoop" +:+ build
    else ImageOptions_Custom o;
|}.

#[export] Instance build_vars : BuildVars :=
  {| BuildVersion := "0.0.0-dev"; BuildTime := "N/A"; GitCommit := "N/A" |}.

#[export] Instance util_api : UtilApi := {| IndentTab4Spaces s := s |}.

Definition not_found : go_error := ExternalError "NotFound".
Definition forbidden : go_error := ExternalError "Forbidden".

#[export] Instance client_api : ClientApi := {|
  GetOwnerNamespace c := Cluster_Namespace (OwnerReference c);
  IgnoreNotFound e := if decide (e = not_found) then None else Some e;
|}.

Definition empty_spec : TrinoClusterSpec := mkTrinoClusterSpec None None None None None.
Definition cluster_named (name : string) (spec : TrinoClusterSpec) : TrinoCluster :=
  mkTrinoCluster (mkGVK "trino.kubedoop.dev" "v1alpha1" "TrinoCluster") name "default" spec tt.
Definition zero_cluster : TrinoCluster :=
  mkTrinoCluster (mkGVK "" "" "") "" "" empty_spec tt.

(** A world: whether maps range backwards, the objects of the API server,
    and the random bytes. *)
Record world := mkWorld {
  backwards : bool;
  classes : gmap string AuthenticationClass;
  secrets : gmap string unit;
  clusters : gmap string TrinoCluster;
  entropy : option ascii;
}.

#[export] Instance world_world : World world := {|
  world_range A m w :=
    (if backwards w then reverse (map_to_list m) else map_to_list m, w);
  get_AuthenticationClass key obj w :=
    (match classes w !! Key_Name key with
     | Some c => (None, c)
     | None => (Some not_found, obj)
     end, w);
  get_Secret key w :=
    (match secrets w !! Key_Name key with Some _ => None | None => Some not_found end, w);
  get_TrinoCluster key w :=
    (match clusters w !! Key_Name key with
     | Some c => (None, c)
     | None => (Some not_found, zero_cluster)
     end, w);
  rand_Read n w :=
    (match entropy w with
     | Some c => (None, replicate n c)
     | None => (Some (ExternalError "no entropy"), [])
     end, w);
  MakeVectorYaml ns cluster role group cm w :=
    (Val ("role: " +:+ role), w);
|}.

#[export] Instance world_range_laws : RangeLaws world.
Proof. intros A m w. simpl. destruct (backwards w); [by rewrite reverse_Permutation|done]. Qed.

#[export] Instance configmap_api : ConfigMapApi := {|
  ConfigMapObject := gmap string string;
  ConfigMap_GetObject b := items_map (CMB_Items b);
  ConfigMap_Data o := o;
|}.
#[export] Instance configmap_laws : ConfigMapLaws.
Proof. done. Qed.

#[export] Instance secret_api : SecretApi := {|
  SecretObject := gmap string string;
  Secret_GetObject b := items_map (SB_Items b);
  Secret_Data o := o;
  Secret_GetName := SB_Name;
|}.
#[export] Instance secret_laws : SecretLaws.
Proof. done. Qed.

#[export] Instance statefulset_api : StatefulSetApi := {|
  StatefulSetRest := list PersistentVolumeClaimTemplate;
  StatefulSet_Claims claims := claims;
  STB_GetName := STB_Name;
  STB_GetImage := STB_Image;
  StatefulSet_GetObject b := Val (STB_Volumes b, STB_Containers b, STB_Claims b);
  Vector_GetVolumes config log image := [mkVolume "vector-data" (EmptyDirSource 1073741824%Z)];
|}.
#[export] Instance statefulset_laws : StatefulSetLaws.
Proof. split; [done..|]. by intros b volumes containers rest _ [= <- <- <-]. Qed.

#[export] Instance reconciler_api : ReconcilerApi := {|
  Result := unit; zero_Result := tt; IsStopped o := default false o;
|}.

#[export] Instance merge_api : MergeApi := λ T left right,
  Val (match right with Some r => Some r | None => left end).

(** The value of a run that succeeds; only success has to be computed. *)
Definition value_of {A} (o : outcome A) (d : A) : A := if o is Val a then a else d.
Definition succeeds {A} (o : outcome A) : bool := if o is Val _ then true else false.

Lemma run_value {W A} (m : M W A) (w : W) (d : A) :
  succeeds (m w).1 = true → m w = (Val (value_of (m w).1 d), (m w).2).
Proof. by destruct (m w) as [[]]. Qed.

(** An empty world, and a client for a cluster of a given name. *)
Definition empty_world : world := mkWorld false ∅ ∅ ∅ (Some "T"%char).

Definition client : Client := mkClient _ (cluster_named "trino" empty_spec).

Definition oidc_provider : OIDCProvider := mkOIDCProvider "keycloak" 8080 "/realms/kubedoop" "sub".
Definition static_provider : StaticProvider := mkStaticProvider (Some "users").
Definition ldap_provider : LDAPProvider :=
  mkLDAPProvider "ldap.default" 1389 "ou=users" (Some (mkLDAPFieldNames "uid"))
    (Some (mkCredentials "ldap-bind" (Some (mkSecretScope true false (Some ["ldap"]))))) None.
Definition oidc_class : AuthenticationClass :=
  mkAuthenticationClass (Some (mkAuthenticationProvider (Some oidc_provider) None None)).
Definition static_class : AuthenticationClass :=
  mkAuthenticationClass (Some (mkAuthenticationProvider None (Some static_provider) None)).
Definition ldap_class : AuthenticationClass :=
  mkAuthenticationClass (Some (mkAuthenticationProvider None None (Some ldap_provider))).

Definition auth_world : world :=
  mkWorld false {["oidc" := oidc_class; "oidc2" := oidc_class; "ldap" := ldap_class;
    "static" := static_class]} ∅ ∅ (Some "T"%char).

Definition oidc_config : OidcSpec := mkOidcSpec "oidc-secret" ["groups"].
Definition oidc_spec : AuthenticationSpec := mkAuthenticationSpec "oidc" (Some oidc_config).
Definition ldap_spec : AuthenticationSpec := mkAuthenticationSpec "ldap" None.
Definition static_spec : AuthenticationSpec := mkAuthenticationSpec "static" None.

(** The configuration of a cluster with authentication, TLS and catalogs. *)
Definition catalog_properties : gmap string (gomap string) :=
  {["tpch" := Some {["connector.name" := "tpch"]}; "bare" := None]}.
Definition cluster_config : ClusterConfigSpec :=
  mkClusterConfigSpec (Some [oidc_spec; ldap_spec]) None (Some catalog_properties)
    "cluster-internal" (Some (mkTlsSpec "tls" "tls")) "".

Definition limits (memory : Z) : ConfigSpec :=
  mkConfigSpec (Some (mkRoleGroupConfigSpec
    (Some (mkResourcesSpec (Some (mkMemoryResource memory)) None tt)) tt)) "5GB" "1GB".

Definition group (role : string) : RoleGroupInfo :=
  mkRoleGroupInfo (mkRoleInfo (mkClusterInfo (mkGVK "" "" "") "my-trino") role) "default".

(** The answers of [auth_world] to reading a class. *)
Definition answer (name : string) : option go_error * AuthenticationClass :=
  match classes auth_world !! name with
  | Some c => (None, c)
  | None => (Some not_found, zero_AuthenticationClass)
  end.

(** A world that never changes, with the answers of [auth_world]. *)
Inductive frozen := Frozen.
#[export] Instance frozen_world : World frozen | 10 := {|
  world_range A m w := (map_to_list m, w);
  get_AuthenticationClass key obj w := (answer (Key_Name key), w);
  get_Secret key w := (None, w);
  get_TrinoCluster key w := ((None, zero_cluster), w);
  rand_Read n w := (None, [], w);
  MakeVectorYaml ns cluster role group cm w := (Val "", w);
|}.
#[export] Instance frozen_laws : RangeLaws frozen | 10.
Proof. by intros A m w. Qed.

(** A role group, and the defaults of its role. *)
Definition role_group : RoleGroupSpec := mkRoleGroupSpec (Some 2%Z) (Some (limits (2 ^ 31))) None.
Definition base_role : BaseRoleSpec := mkBaseRoleSpec (Some 1%Z) None None (Some (limits (2 ^ 32))).
End Concrete.
