(* ===== verification/Authz.v ===== *)
(** * Authentication ([internal/controller/common/authz])

    The [Authenticator] interface is the class [Authenticator]; [Oidc],
    [Static], [Ldap] and [TrinoAuthentication] are its instances.
    [NewAuthentication] reads the [AuthenticationClass] of every entry of the
    cluster's list and builds one authenticator per type. *)

From S2P Require Import Prelude GoRuntime GoStrings GoUrl Externals Api Framework.

(** ** The interface *)

Class Authenticator `{!ExtTypes} (T : Type) := {
  GetEnvVars : T → outcome (list EnvVar);
  GetVolumes : T → outcome (list Volume);
  GetVolumeMounts : T → outcome (list VolumeMount);
  (** A pointer, possibly nil *)
  GetConfigProperties : T → outcome (option Properties);
  GetCommands : T → outcome (list string);
}.

Definition AuthenticationTypeOIDC : string := "oidc".
Definition AuthenticationTypeLDAP : string := "ldap".
Definition AuthenticationTypeStatic : string := "static".
Definition AuthenticationTypeTls : string := "tls".

(** ** OIDC *)

Record Oidc := mkOidc {
  Oidc_AuthenticationClassName : string;
  Oidc_Config : option OidcSpec;
  Oidc_Provider : option OIDCProvider;
}.

Section oidc.
Context `{!ExtTypes, !PropertiesApi}.

Definition oidc_issuer (provider : OIDCProvider) : URL :=
  let issuer := mkURL "http" (OIDC_Hostname provider) (OIDC_RootPath provider) in
  if bool_decide (URL_Scheme issuer = "http") && negb (OIDC_Port provider =? 80)%Z
     || bool_decide (URL_Scheme issuer = "https") && negb (OIDC_Port provider =? 443)%Z
  then mkURL (URL_Scheme issuer)
         (URL_Host issuer +:+ ":" +:+ Itoa (OIDC_Port provider)) (URL_Path issuer)
  else issuer.

Definition oidc_scopes (config : OidcSpec) : list string :=
  ["openid"; "email"; "profile"] ++ ExtraScopes config.

Definition Oidc_GetConfigProperties (o : Oidc) : outcome (option Properties) :=
  config ← deref (Oidc_Config o);
  provider ← deref (Oidc_Provider o);
  let p := NewProperties in
  let p := Properties_Add p "http-server.authentication.type" "OAUTH2" in
  let p := Properties_Add p "http-server.authentication.oauth2.scopes"
             (strings_Join (oidc_scopes config) " ") in
  let p := Properties_Add p "http-server.authentication.oauth2.client-id"
             "${ENV:OIDC_CLIENT_ID}" in
  let p := Properties_Add p "http-server.authentication.oauth2.client-secret"
             "${ENV:OIDC_CLIENT_SECRET}" in
  let p := Properties_Add p "http-server.authentication.oauth2.issuer"
             (URL_String (oidc_issuer provider)) in
  let p := Properties_Add p "http-server.authentication.oauth2.principal-field"
             (OIDC_PrincipalClaim provider) in
  mret (Some p).

Definition Oidc_GetEnvVars (o : Oidc) : outcome (list EnvVar) :=
  config ← deref (Oidc_Config o);
  mret [mkEnvVar "OIDC_CLIENT_ID" (ClientCredentialsSecret config) "CLIENT_ID";
        mkEnvVar "OIDC_CLIENT_SECRET" (ClientCredentialsSecret config) "CLIENT_SECRET"].

#[export] Instance Oidc_Authenticator : Authenticator Oidc := {|
  GetEnvVars := Oidc_GetEnvVars;
  GetVolumes _ := mret [];
  GetVolumeMounts _ := mret [];
  GetConfigProperties := Oidc_GetConfigProperties;
  GetCommands _ := mret [];
|}.
End oidc.

(** ** Static *)

Record Static := mkStatic {
  Static_AuthenticationClassName : string;
  Static_Provider : option StaticProvider;
}.

Section static.
Context `{!ExtTypes, !Constants}.

Definition Static_getCredentialsMountPath (s : Static) : string :=
  path_Join [KubedoopRoot; "auth-secrets"].

Definition Static_getVolumeName (s : Static) : string :=
  "auth-secrets-" +:+ Static_AuthenticationClassName s.

Definition Static_GetVolumeMounts (s : Static) : list VolumeMount :=
  [mkVolumeMount (Static_getVolumeName s) (Static_getCredentialsMountPath s)].

Definition Static_GetVolumes (s : Static) : outcome (list Volume) :=
  provider ← deref (Static_Provider s);
  name ← deref (UserCredentialsSecret provider);
  mret [mkVolume (Static_getVolumeName s) (SecretSource name)].

#[export] Instance Static_Authenticator : Authenticator Static := {|
  GetEnvVars _ := mret [];
  GetVolumes := Static_GetVolumes;
  GetVolumeMounts s := mret (Static_GetVolumeMounts s);
  GetConfigProperties _ := mret None;
  GetCommands _ := mret [];
|}.
End static.

(** ** LDAP *)

Record Ldap := mkLdap {
  Ldap_AuthenticationClassName : string;
  Ldap_Provider : option LDAPProvider;
}.

Section ldap.
Context `{!ExtTypes, !Constants, !PropertiesApi, !QuantityApi, !UtilApi}.

Definition getBindCredentials (l : Ldap) : outcome Credentials :=
  provider ← deref (Ldap_Provider l);
  deref (LDAP_BindCredentials provider).

Definition Ldap_getBindCredentialsMountPath (l : Ldap) : outcome string :=
  credentials ← getBindCredentials l;
  mret (path_Join [KubedoopTlsDir; Credentials_SecretClass credentials]).

Definition Ldap_getBindCredentialsVolumeName (l : Ldap) : string :=
  "ldap-bind-credentials".

Definition Ldap_GetCommands (l : Ldap) : outcome (list string) :=
  let userEnvName := "LDAP_USER" in
  let passwordEnvName := "LDAP_PASSWORD" in
  mountPath ← Ldap_getBindCredentialsMountPath l;
  let userFile := path_Join [mountPath; "user"] in
  let passwordFile := path_Join [mountPath; "password"] in
  let s := "
set +x

export " +:+ userEnvName +:+ "=$(cat " +:+ userFile +:+ ")
export " +:+ passwordEnvName +:+ "=$(cat " +:+ passwordFile +:+ ")
set -x
" in
  mret [IndentTab4Spaces s].

Definition Ldap_getEndpoint (l : Ldap) : outcome string :=
  provider ← deref (Ldap_Provider l);
  let schema := if LDAP_TLS provider is Some _ then "ldaps" else "ldap" in
  let host := LDAP_Hostname provider in
  let host := if (LDAP_Port provider =? 0)%Z then host
              else host +:+ ":" +:+ Itoa (LDAP_Port provider) in
  mret (schema +:+ "://" +:+ host).

Definition Ldap_GetConfigProperties (l : Ldap) : outcome (option Properties) :=
  endpoint ← Ldap_getEndpoint l;
  provider ← deref (Ldap_Provider l);
  fieldNames ← deref (LDAP_FieldNames provider);
  let p := NewProperties in
  let p := Properties_Add p "http-server.authentication.type" "PASSWORD" in
  let p := Properties_Add p "http-server.authentication.ldap.server" endpoint in
  let p := Properties_Add p "password-authenticator.name" "ldap" in
  let p := Properties_Add p "ldap.user-base-dn" (LDAP_SearchBase provider) in
  let p := Properties_Add p "ldap.group-auth-pattern"
             ("(&(" +:+ Uid fieldNames +:+ "={user}))") in
  let p := Properties_Add p "ldap.bind-dn" "${ENV:LDAP_USER}" in
  let p := Properties_Add p "ldap.bind-password" "${ENV:LDAP_PASSWORD}" in
  mret (Some p).

Definition Ldap_GetVolumeMounts (l : Ldap) : outcome (list VolumeMount) :=
  mountPath ← Ldap_getBindCredentialsMountPath l;
  mret [mkVolumeMount (Ldap_getBindCredentialsVolumeName l) mountPath].

Definition ldap_scopes (scope : option SecretScope) : list string :=
  match scope with
  | None => []
  | Some scope =>
      (if Scope_Pod scope then [PodScope] else [])
      ++ (if Scope_Node scope then [NodeScope] else [])
      ++ ((λ s, ServiceScope +:+ "=" +:+ s) <$> default [] (Scope_Services scope))
  end.

Definition Ldap_GetVolumes (l : Ldap) : outcome (list Volume) :=
  credentials ← getBindCredentials l;
  let secretClass := Credentials_SecretClass credentials in
  let scopes := ldap_scopes (Credentials_Scope credentials) in
  storage ← MustParse "1Mi";
  mret [mkVolume (Ldap_getBindCredentialsVolumeName l)
    (EphemeralSource (mkPVCTemplate ""
      (<[AnnotationSecretsClass := secretClass]>
        {[AnnotationSecretsScope := strings_Join scopes CommonDelimiter]})
      (mkPVCSpec ["ReadWriteOnce"] SecretStorageClassPtr None storage)))].

#[export] Instance Ldap_Authenticator : Authenticator Ldap := {|
  GetEnvVars _ := mret [];
  GetVolumes := Ldap_GetVolumes;
  GetVolumeMounts := Ldap_GetVolumeMounts;
  GetConfigProperties := Ldap_GetConfigProperties;
  GetCommands := Ldap_GetCommands;
|}.
End ldap.

(** ** Values of the interface *)

(** The dynamic types that [AuthenticatorFectory] creates. *)
Inductive AnyAuthenticator : Type :=
  | AnOidc (o : Oidc)
  | AStatic (s : Static)
  | AnLdap (l : Ldap).

Definition type_of (a : AnyAuthenticator) : string :=
  match a with
  | AnOidc _ => AuthenticationTypeOIDC
  | AStatic _ => AuthenticationTypeStatic
  | AnLdap _ => AuthenticationTypeLDAP
  end.

Section trino_authentication.
Context `{!ExtTypes, !Constants, !PropertiesApi, !QuantityApi, !UtilApi}.

#[export] Instance Any_Authenticator : Authenticator AnyAuthenticator := {|
  GetEnvVars a :=
    match a with AnOidc a => GetEnvVars a | AStatic a => GetEnvVars a | AnLdap a => GetEnvVars a end;
  GetVolumes a :=
    match a with AnOidc a => GetVolumes a | AStatic a => GetVolumes a | AnLdap a => GetVolumes a end;
  GetVolumeMounts a :=
    match a with
    | AnOidc a => GetVolumeMounts a | AStatic a => GetVolumeMounts a | AnLdap a => GetVolumeMounts a
    end;
  GetConfigProperties a :=
    match a with
    | AnOidc a => GetConfigProperties a
    | AStatic a => GetConfigProperties a
    | AnLdap a => GetConfigProperties a
    end;
  GetCommands a :=
    match a with AnOidc a => GetCommands a | AStatic a => GetCommands a | AnLdap a => GetCommands a end;
|}.

(** The concrete authenticator, with its type; [None] is the nil interface. *)
Definition AuthenticatorFectory (config : option OidcSpec)
    (provider : option AuthenticationProvider)
    : outcome (string * option AnyAuthenticator) :=
  provider ← deref provider;
  match Provider_OIDC provider, Provider_Static provider, Provider_LDAP provider with
  | Some oidc, _, _ =>
      mret (AuthenticationTypeOIDC, Some (AnOidc (mkOidc "" config (Some oidc))))
  | None, Some static, _ =>
      mret (AuthenticationTypeStatic, Some (AStatic (mkStatic "" (Some static))))
  | None, None, Some ldap =>
      mret (AuthenticationTypeLDAP, Some (AnLdap (mkLdap "" (Some ldap))))
  | None, None, None => mret ("", None)
  end.

Record TrinoAuthentication := mkTrinoAuthentication {
  Authenticators : list AnyAuthenticator;
}.

(** [p.Keys()] and [p.Get(key)] through a possibly nil pointer; a missing
    key reads as the empty string. *)
Definition Keys_of (p : option Properties) : outcome (list string) :=
  match p with
  | Some p => mret (Properties_Keys p)
  | None => Properties_nil_Keys
  end.
Definition Get_of (p : option Properties) (key : string) : outcome string :=
  match p with
  | Some p => mret (default "" (Properties_Get p key))
  | None => default "" <$> Properties_nil_Get key
  end.

(** The loop that copies the properties of an authenticator into [p]; the
    properties are computed again for every key. *)
Definition copy_properties `{!Authenticator T} (p : Properties) (a : T)
    : outcome Properties :=
  ps ← GetConfigProperties a;
  keys ← Keys_of ps;
  fold_outcome (λ p key,
    ps ← GetConfigProperties a;
    value ← Get_of ps key;
    mret (Properties_Add p key value)) p keys.

Definition TrinoAuthentication_GetConfigProperties (t : TrinoAuthentication)
    : outcome (option Properties) :=
  p ← fold_outcome copy_properties NewProperties (Authenticators t);
  mret (Some p).

Definition TrinoAuthentication_GetEnvVars (t : TrinoAuthentication) : outcome (list EnvVar) :=
  append_each GetEnvVars (Authenticators t).
Definition TrinoAuthentication_GetVolumes (t : TrinoAuthentication) : outcome (list Volume) :=
  append_each GetVolumes (Authenticators t).
Definition TrinoAuthentication_GetVolumeMounts (t : TrinoAuthentication)
    : outcome (list VolumeMount) :=
  append_each GetVolumeMounts (Authenticators t).
Definition TrinoAuthentication_GetCommands (t : TrinoAuthentication) : outcome (list string) :=
  append_each GetCommands (Authenticators t).

#[export] Instance TrinoAuthentication_Authenticator : Authenticator TrinoAuthentication := {|
  GetEnvVars := TrinoAuthentication_GetEnvVars;
  GetVolumes := TrinoAuthentication_GetVolumes;
  GetVolumeMounts := TrinoAuthentication_GetVolumeMounts;
  GetConfigProperties := TrinoAuthentication_GetConfigProperties;
  GetCommands := TrinoAuthentication_GetCommands;
|}.

(** ** Building the authenticators *)

Context `{!ClientApi} `{!World W}.

Definition duplicate_error (authType name : string) : go_error :=
  Errorf ("cannot support multiple authenticators of the same type; found multiple "
    +:+ authType +:+ " authenticators in AuthenticationClass " +:+ name).

(** The body of the loop of [NewAuthentication] after the read. *)
Definition register_authenticator (authenticators : gmap string AnyAuthenticator)
    (spec : AuthenticationSpec) (obj : AuthenticationClass)
    : M W (gmap string AnyAuthenticator) :=
  '(authType, authenticator) ← lift
     (AuthenticatorFectory (AuthSpec_Oidc spec) (Class_Provider obj));
  match authenticator with
  | None => mret authenticators
  | Some a =>
      match authenticators !! authType with
      | Some _ => throw (duplicate_error authType (AuthSpec_Class spec))
      | None => mret (<[authType := a]> authenticators)
      end
  end.

(** The body of the loop of [NewAuthentication]. *)
Definition add_authenticator (client : Client)
    (authenticators : gmap string AnyAuthenticator) (spec : AuthenticationSpec)
    : M W (gmap string AnyAuthenticator) :=
  let name := AuthSpec_Class spec in
  '(err, obj) ← reading (get_AuthenticationClass
     (mkObjectKey (GetOwnerNamespace client) name) zero_AuthenticationClass);
  match err with
  | Some e =>
      if IgnoreNotFound e is Some _ then throw e
      else register_authenticator authenticators spec obj
  | None => register_authenticator authenticators spec obj
  end.

Definition NewAuthentication (client : Client) (authentication : list AuthenticationSpec)
    : M W TrinoAuthentication :=
  authenticators ← foldM (add_authenticator client) ∅ authentication;
  l ← range authenticators;
  mret (mkTrinoAuthentication l.*2).
End trino_authentication.
