(* ===== verification/AuthzFacts.v ===== *)
(** * What the authentication component guarantees

    Which authenticators [NewAuthentication] builds and how it fails; what
    each authenticator contributes to the pods; how their properties merge. *)

From S2P Require Import Prelude GoRuntime GoStrings GoUrl Externals Api Framework Concrete Authz.

(** ** Building authenticators *)

Section building.
Context `{!ExtTypes, !Constants, !PropertiesApi, !QuantityApi, !UtilApi, !ClientApi} `{!World W}.
Implicit Types (client : Client) (spec : AuthenticationSpec) (a : AnyAuthenticator).

Lemma AuthenticatorFectory_type config provider t a :
  AuthenticatorFectory config provider = Val (t, Some a) → t = type_of a.
Proof.
  unfold AuthenticatorFectory. intros Hf. inv_step Hf. repeat case_match; try discriminate; by injection Hf; intros; subst.
Qed.

(** Every authenticator is stored under its type. *)
Definition keyed (m : gmap string AnyAuthenticator) : Prop :=
  map_Forall (λ t a, t = type_of a) m.

Lemma register_authenticator_keyed m spec obj :
  keyed m → returns (W:=W) (register_authenticator m spec obj) keyed.
Proof.
  intros Hm. unfold register_authenticator.
  eapply returns_bind with (λ ta, ∀ a, ta.2 = Some a → ta.1 = type_of a).
  - apply returns_lift. intros [t o] Hf a Ho. simpl in *. subst.
    by eapply AuthenticatorFectory_type.
  - intros [t [a|]] Ht; [|by apply returns_ret]. simpl in Ht.
    destruct (m !! t) eqn:Hlook; [by intros w x w' [=]|].
    apply returns_ret. by apply map_Forall_insert_2; [apply Ht|].
Qed.

Lemma add_authenticator_keyed client m spec :
  keyed m → returns (W:=W) (add_authenticator client m spec) keyed.
Proof.
  intros Hm. unfold add_authenticator.
  eapply returns_bind with (λ _, True); [done|]. intros [[e|] obj] _.
  - destruct (IgnoreNotFound e); [by intros w x w' [=]|]. by apply register_authenticator_keyed.
  - by apply register_authenticator_keyed.
Qed.

Lemma keyed_types m (l : list (string * AnyAuthenticator)) :
  keyed m → l ≡ₚ map_to_list m → NoDup (type_of <$> l.*2).
Proof.
  intros Hm Hl. assert (type_of <$> l.*2 = l.*1) as ->.
  - rewrite <-list_fmap_compose. apply list_fmap_ext. intros i [t a] Hi. simpl.
    symmetry. eapply (Hm t a). apply elem_of_map_to_list. rewrite <-Hl.
    by eapply list_elem_of_lookup_2.
  - rewrite Hl. apply NoDup_fst_map_to_list.
Qed.

Context `{!RangeLaws W}.

Lemma NewAuthentication_distinct client specs :
  returns (NewAuthentication (W:=W) client specs)
    (λ t, NoDup (type_of <$> Authenticators t)).
Proof.
  unfold NewAuthentication. eapply returns_bind with keyed.
  - apply (returns_foldM _ (λ m _, keyed m)); [by apply map_Forall_empty|].
    intros m spec _ Hm. by apply add_authenticator_keyed.
  - intros m Hm. eapply returns_bind; [apply range_returns|].
    intros l Hl. apply returns_ret. by eapply keyed_types.
Qed.

(** What holds of everything that the factory makes of the entries of the list
    holds of the authenticators. *)
Lemma NewAuthentication_Forall client specs (P : AnyAuthenticator → Prop) :
  (∀ spec provider ty a, spec ∈ specs →
     AuthenticatorFectory (AuthSpec_Oidc spec) provider = Val (ty, Some a) → P a) →
  returns (NewAuthentication (W:=W) client specs) (λ t, Forall P (Authenticators t)).
Proof.
  intros HP. unfold NewAuthentication.
  assert (Hreg : ∀ m spec obj, spec ∈ specs → map_Forall (λ _ a, P a) m →
    returns (W:=W) (register_authenticator m spec obj) (map_Forall (λ _ a, P a))).
  { intros m spec obj Hin Hm. unfold register_authenticator.
    eapply returns_bind with (λ ta, ∀ a, ta.2 = Some a → P a).
    - apply returns_lift. intros [t o] Hf a Ho. simpl in *. subst. by eapply HP.
    - intros [t [a|]] Ht; [|by apply returns_ret].
      destruct (m !! t); [by intros w x w' [=]|].
      apply returns_ret. apply map_Forall_insert_2; [by apply Ht|done]. }
  eapply returns_bind with (map_Forall (λ _ a, P a)).
  - apply returns_mono with (λ m, [] ⊆ specs ∧ map_Forall (λ _ a, P a) m); [|by intros m [_ Hm]].
    apply (returns_foldM _ (λ m rest, rest ⊆ specs ∧ map_Forall (λ _ a, P a) m));
      [by split; [|apply map_Forall_empty]|].
    intros m spec rest [Hsub Hm]. apply returns_and; [intros ????; set_solver|].
    unfold add_authenticator.
    eapply returns_bind with (λ _, True); [done|]. intros [[e|] obj] _;
      [destruct (IgnoreNotFound e); [by intros w x w' [=]|]|];
      (apply Hreg; [set_solver|done]).
  - intros m Hm. eapply returns_bind; [apply range_returns|]. intros l Hl. apply returns_ret.
    apply Forall_forall. intros a ([t a'] & -> & Hin)%list_elem_of_fmap. rewrite Hl in Hin.
    apply elem_of_map_to_list in Hin. by apply (Hm t a').
Qed.

(** C14: whatever the API server answers and however maps are iterated, the
    authenticators that [NewAuthentication] returns have pairwise different
    types: at most one OIDC, one LDAP and one static authenticator. *)
Theorem NewAuthentication_types_distinct client specs :
  returns (NewAuthentication (W:=W) client specs)
    (λ t, NoDup (type_of <$> Authenticators t)).
Proof. apply NewAuthentication_distinct. Qed.
End building.

(** ** The reference semantics of the loop

    When the API server's answers do not change while the list is processed,
    the loop is the pure function [resolve_all] of the list, up to the order
    in which the result is listed. *)

Section snapshot.
Context `{!ExtTypes, !Constants, !PropertiesApi, !QuantityApi, !UtilApi, !ClientApi} `{!World W}.
Context (client : Client).
(** The answer to reading the class of a given name. *)
Context (answer : string → option go_error * AuthenticationClass).
Implicit Types (spec : AuthenticationSpec) (a : AnyAuthenticator).

Definition snapshot : Prop :=
  ∀ name (w : W), ∃ w',
    get_AuthenticationClass (mkObjectKey (GetOwnerNamespace client) name)
      zero_AuthenticationClass w = (answer name, w').

(** The authenticator of one entry, [None] when its class has none. *)
Definition resolve spec : outcome (option AnyAuthenticator) :=
  let '(err, obj) := answer (AuthSpec_Class spec) in
  let found := snd <$> AuthenticatorFectory (AuthSpec_Oidc spec) (Class_Provider obj) in
  match err with
  | Some e => if IgnoreNotFound e is Some _ then Err e else found
  | None => found
  end.

Fixpoint resolve_all (seen : list string) (specs : list AuthenticationSpec)
    : outcome (list AnyAuthenticator) :=
  match specs with
  | [] => Val []
  | spec :: specs =>
      oa ← resolve spec;
      match oa with
      | None => resolve_all seen specs
      | Some a =>
          if decide (type_of a ∈ seen) then Err (duplicate_error (type_of a) (AuthSpec_Class spec))
          else cons a <$> resolve_all (type_of a :: seen) specs
      end
  end.

(** What one entry does to the authenticators found so far. *)
Definition extend (m : gmap string AnyAuthenticator) spec (oa : option AnyAuthenticator)
    : outcome (gmap string AnyAuthenticator) :=
  match oa with
  | None => Val m
  | Some a =>
      match m !! type_of a with
      | Some _ => Err (duplicate_error (type_of a) (AuthSpec_Class spec))
      | None => Val (<[type_of a := a]> m)
      end
  end.

Lemma add_authenticator_resolve (Hsnap : snapshot) m spec w :
  keyed m →
  (add_authenticator client m spec w).1 = (oa ← resolve spec; extend m spec oa).
Proof.
  intros Hm. unfold add_authenticator. destruct (Hsnap (AuthSpec_Class spec) w) as [w' Hget].
  rewrite (M_bind_step _ _ _ _ _ (reading_run _ _ _ _ Hget)). unfold resolve.
  assert (Hreg : ∀ obj (w1 : W), (register_authenticator m spec obj w1).1 =
    oa ← snd <$> AuthenticatorFectory (AuthSpec_Oidc spec) (Class_Provider obj);
    extend m spec oa).
  { intros obj w1. unfold register_authenticator, mbind, M_bind, lift.
    destruct (AuthenticatorFectory _ _) as [[t [a|]]| |] eqn:Hf; [|done..].
    apply AuthenticatorFectory_type in Hf as ->. simpl.
    by destruct (m !! type_of a). }
  destruct (answer _) as [[e|] obj]; [|by apply Hreg].
  by destruct (IgnoreNotFound e); [|apply Hreg].
Qed.

Lemma foldM_resolve (Hsnap : snapshot) specs m seen w :
  keyed m → (∀ t, t ∈ seen ↔ is_Some (m !! t)) →
  match resolve_all seen specs with
  | Val l => ∃ m' w', foldM (add_authenticator client) m specs w = (Val m', w') ∧
      (map_to_list m').*2 ≡ₚ (map_to_list m).*2 ++ l
  | Err e => ∃ w', foldM (add_authenticator client) m specs w = (Err e, w')
  | Panic p => ∃ w', foldM (add_authenticator client) m specs w = (Panic p, w')
  end.
Proof.
  revert m seen w. induction specs as [|spec specs IH]; intros m seen w Hm Hseen.
  { simpl. exists m, w. split; [done|]. by rewrite app_nil_r. }
  cbn [resolve_all foldM]. pose proof (add_authenticator_resolve Hsnap m spec w Hm) as Hstep.
  destruct (add_authenticator client m spec w) as [o w1] eqn:Hrun. simpl in Hstep. subst o.
  destruct (resolve spec) as [oa|e|p]; cbn [mbind outcome_bind] in *;
    [|by eexists; apply M_bind_err|by eexists; apply M_bind_panic].
  destruct oa as [a|]; simpl in Hrun.
  2: { rewrite (M_bind_step _ _ _ _ _ Hrun). by apply IH. }
  destruct (m !! type_of a) eqn:Hlook.
  { rewrite decide_True by (by apply Hseen). by eexists; apply M_bind_err. }
  rewrite (M_bind_step _ _ _ _ _ Hrun).
  rewrite decide_False by (rewrite Hseen, Hlook; by intros [??]).
  assert (Hm' : keyed (<[type_of a:=a]> m)) by (by apply map_Forall_insert_2).
  specialize (IH (<[type_of a:=a]> m) (type_of a :: seen) w1 Hm').
  destruct (resolve_all (type_of a :: seen) specs) as [l| |]; cbn [fmap outcome_fmap].
  all: destruct IH as (x & IH);
    [intros t; rewrite elem_of_cons, Hseen, lookup_insert; case_decide; naive_solver|].
  - destruct IH as (w' & -> & Hp). exists x, w'. split; [done|].
    rewrite Hp, map_to_list_insert by done. simpl. by rewrite Permutation_middle.
  - by exists x.
  - by exists x.
Qed.

Context `{!RangeLaws W}.

(** The loop and the listing of its result compute [resolve_all]. *)
Lemma NewAuthentication_computes (Hsnap : snapshot) specs w :
  match resolve_all [] specs with
  | Val l => ∃ l' w', NewAuthentication client specs w = (Val (mkTrinoAuthentication l'), w') ∧
      l' ≡ₚ l
  | Err e => ∃ w', NewAuthentication client specs w = (Err e, w')
  | Panic p => ∃ w', NewAuthentication client specs w = (Panic p, w')
  end.
Proof.
  pose proof (foldM_resolve Hsnap specs ∅ [] w) as Hf.
  specialize (Hf (map_Forall_empty _)).
  assert (∀ t, t ∈ [] ↔ is_Some ((∅ : gmap string AnyAuthenticator) !! t)) as Hs.
  { intros t. rewrite elem_of_nil, lookup_empty. split; [done|by intros [??]]. }
  specialize (Hf Hs). unfold NewAuthentication.
  destruct (resolve_all [] specs) as [l|e|p].
  - destruct Hf as (m' & w1 & Hrun & Hp). rewrite (M_bind_step _ _ _ _ _ Hrun).
    destruct (range_yields m' w1) as (lr & w2 & Hr & Hlr).
    rewrite (M_bind_step _ _ _ _ _ Hr). exists lr.*2, w2. split; [done|].
    rewrite Hlr, Hp, map_to_list_empty. done.
  - destruct Hf as (w1 & Hrun). exists w1. by apply M_bind_err.
  - destruct Hf as (w1 & Hrun). exists w1. by apply M_bind_panic.
Qed.

(** C3: on a server whose answers do not change, [NewAuthentication] computes
    [resolve_all]: it returns the authenticators of the entries whose class
    has a provider, each once, in some order; it fails with the first error
    of the list (an API error other than NotFound, or the second
    authenticator of a type) and panics where an entry does. *)
Theorem NewAuthentication_refines (Hsnap : snapshot) specs w :
  match resolve_all [] specs with
  | Val l => ∃ l' w', NewAuthentication client specs w = (Val (mkTrinoAuthentication l'), w') ∧
      l' ≡ₚ l
  | Err e => ∃ w', NewAuthentication client specs w = (Err e, w')
  | Panic p => ∃ w', NewAuthentication client specs w = (Panic p, w')
  end.
Proof. apply (NewAuthentication_computes Hsnap). Qed.
End snapshot.

(** ** Failures of one entry *)

Section failures.
Context `{!ExtTypes, !Constants, !PropertiesApi, !QuantityApi, !UtilApi, !ClientApi} `{!World W}.
Context (client : Client) (pre post : list AuthenticationSpec) (spec : AuthenticationSpec).
(** The entries [pre] have been processed, leaving the world [w]. *)
Context (w0 w w1 : W) (m : gmap string AnyAuthenticator).
Hypothesis processed : foldM (add_authenticator client) ∅ pre w0 = (Val m, w).

Let key : ObjectKey := mkObjectKey (GetOwnerNamespace client) (AuthSpec_Class spec).

Lemma NewAuthentication_stops_at (o : outcome (gmap string AnyAuthenticator)) :
  add_authenticator client m spec w = (o, w1) →
  match o with
  | Val _ => True
  | Err e => NewAuthentication client (pre ++ spec :: post) w0 = (Err e, w1)
  | Panic p => NewAuthentication client (pre ++ spec :: post) w0 = (Panic p, w1)
  end.
Proof.
  intros Hadd. destruct o as [?|e|p]; [done|..]; unfold NewAuthentication.
  - apply M_bind_err. rewrite foldM_app, (M_bind_step _ _ _ _ _ processed).
    by apply M_bind_err.
  - apply M_bind_panic. rewrite foldM_app, (M_bind_step _ _ _ _ _ processed).
    by apply M_bind_panic.
Qed.

(** C32: an entry that names an [AuthenticationClass] which does not exist
    makes the reconciler panic on a nil pointer: the NotFound error is
    ignored, and the provider of the empty object is then dereferenced. *)
Theorem missing_class_panics e :
  get_AuthenticationClass key zero_AuthenticationClass w
    = ((Some e, zero_AuthenticationClass), w1) →
  IgnoreNotFound e = None →
  NewAuthentication client (pre ++ spec :: post) w0 = (Panic NilDereference, w1).
Proof.
  intros Hget Hnf. apply (NewAuthentication_stops_at (Panic NilDereference)).
  unfold add_authenticator. rewrite (M_bind_step _ _ _ _ _ (reading_run _ _ _ _ Hget)).
  by rewrite Hnf.
Qed.

(** Any other API error ends the construction with that error, and no
    later entry is read. *)
Lemma api_error_propagates e e' obj :
  get_AuthenticationClass key zero_AuthenticationClass w = ((Some e, obj), w1) →
  IgnoreNotFound e = Some e' →
  NewAuthentication client (pre ++ spec :: post) w0 = (Err e, w1).
Proof.
  intros Hget Hnf. apply (NewAuthentication_stops_at (Err e)).
  unfold add_authenticator. rewrite (M_bind_step _ _ _ _ _ (reading_run _ _ _ _ Hget)).
  by rewrite Hnf.
Qed.
End failures.

(** ** Volumes *)

Section volumes.
Context `{!ExtTypes, !Constants, !PropertiesApi, !QuantityApi, !UtilApi}.
Implicit Types (a : AnyAuthenticator) (t : TrinoAuthentication).

Lemma authenticator_mounts_its_volumes a vs ms :
  GetVolumes a = Val vs → GetVolumeMounts a = Val ms →
  Volume_Name <$> vs = Mount_Name <$> ms.
Proof.
  destruct a as [o|s|l]; simpl.
  - by intros [= <-] [= <-].
  - unfold Static_GetVolumes. intros Hv [= <-]. inv_steps Hv. by injection Hv as <-.
  - unfold Ldap_GetVolumes, Ldap_GetVolumeMounts. intros Hv Hm.
    inv_steps Hv. inv_steps Hm. injection Hv as <-. by injection Hm as <-.
Qed.

(** The volumes an authentication adds to a pod and the volume mounts it
    adds to the container name the same volumes, in the same order. *)
Lemma TrinoAuthentication_mounts_its_volumes t vs ms :
  TrinoAuthentication_GetVolumes t = Val vs →
  TrinoAuthentication_GetVolumeMounts t = Val ms →
  Volume_Name <$> vs = Mount_Name <$> ms.
Proof.
  intros (vss & Hvs & ->)%append_each_Val_inv (mss & Hms & ->)%append_each_Val_inv.
  revert mss Hms. induction Hvs as [|a v l vss Hv _ IH]; intros mss Hms.
  - by inversion Hms.
  - inversion Hms as [|? ? ? ? Hm ?]; subst. simpl. rewrite !fmap_app. f_equal.
    + by eapply authenticator_mounts_its_volumes.
    + by apply IH.
Qed.

(** The names of the volumes that an authenticator built by the factory adds. *)
Definition volume_names (type : string) : list string :=
  if decide (type = AuthenticationTypeLDAP) then ["ldap-bind-credentials"]
  else if decide (type = AuthenticationTypeStatic) then ["auth-secrets-"]
  else [].

Lemma factory_volume_names config provider ty a vs :
  AuthenticatorFectory config provider = Val (ty, Some a) → GetVolumes a = Val vs →
  Volume_Name <$> vs = volume_names ty.
Proof.
  intros Hf Hv. pose proof (AuthenticatorFectory_type _ _ _ _ Hf) as ->.
  unfold AuthenticatorFectory in Hf. inv_step Hf. destruct a as [o|s|l]; simpl in Hv.
  - by injection Hv as <-.
  - assert (Static_AuthenticationClassName s = "") as Hn
      by (repeat case_match; try discriminate; by injection Hf as <-).
    unfold Static_GetVolumes in Hv. inv_steps Hv. injection Hv as <-. simpl.
    unfold Static_getVolumeName. by rewrite Hn.
  - unfold Ldap_GetVolumes in Hv. inv_steps Hv. by injection Hv as <-.
Qed.

Lemma factory_mount_names config provider ty a ms :
  AuthenticatorFectory config provider = Val (ty, Some a) → GetVolumeMounts a = Val ms →
  Mount_Name <$> ms = volume_names ty.
Proof.
  intros Hf Hm. pose proof (AuthenticatorFectory_type _ _ _ _ Hf) as ->.
  unfold AuthenticatorFectory in Hf. inv_step Hf. destruct a as [o|s|l]; simpl in Hm.
  - by injection Hm as <-.
  - assert (Static_AuthenticationClassName s = "") as Hn
      by (repeat case_match; try discriminate; by injection Hf as <-).
    injection Hm as <-. simpl. unfold Static_getVolumeName. by rewrite Hn.
  - unfold Ldap_GetVolumeMounts in Hm. inv_steps Hm. by injection Hm as <-.
Qed.
End volumes.

(** ** The volumes of an authentication *)

Section authentication_volumes.
Context `{!ExtTypes, !Constants, !PropertiesApi, !QuantityApi, !UtilApi, !ClientApi} `{!World W}.
Context `{!RangeLaws W}.
Implicit Types (client : Client) (a : AnyAuthenticator) (t : TrinoAuthentication).

(** The volumes and mounts of [a] have the names of its type. *)
Definition standard_volumes a : Prop :=
  (∀ vs, GetVolumes a = Val vs → Volume_Name <$> vs = volume_names (type_of a)) ∧
  (∀ ms, GetVolumeMounts a = Val ms → Mount_Name <$> ms = volume_names (type_of a)).

Lemma NewAuthentication_standard client specs :
  returns (NewAuthentication (W:=W) client specs) (λ t,
    NoDup (type_of <$> Authenticators t) ∧ Forall standard_volumes (Authenticators t)).
Proof.
  apply returns_and; [apply NewAuthentication_distinct|apply NewAuthentication_Forall].
  intros spec provider ty a _ Hf. pose proof (AuthenticatorFectory_type _ _ _ _ Hf) as ->.
  split; intros; [by eapply factory_volume_names|by eapply factory_mount_names].
Qed.

Lemma volume_names_disjoint ty1 ty2 n :
  n ∈ volume_names ty1 → n ∈ volume_names ty2 → ty1 = ty2.
Proof. unfold volume_names. repeat case_decide; set_solver. Qed.

Lemma volume_names_NoDup tys : NoDup tys → NoDup (mjoin (volume_names <$> tys)).
Proof.
  induction 1 as [|ty tys Hty Hnd IH]; [constructor|]. simpl. apply NoDup_app. split_and!.
  - unfold volume_names. repeat case_decide; repeat constructor; set_solver.
  - intros n Hn. rewrite list_elem_of_join. intros (ns & Hn' & Hns).
    apply list_elem_of_fmap in Hns as (ty' & -> & Hty').
    by rewrite (volume_names_disjoint ty ty' n Hn Hn') in Hty.
  - done.
Qed.

Lemma standard_volume_names t vs :
  Forall standard_volumes (Authenticators t) → GetVolumes t = Val vs →
  Volume_Name <$> vs = mjoin (volume_names <$> (type_of <$> Authenticators t)).
Proof.
  intros Hs (vss & Hvss & ->)%append_each_Val_inv. revert Hs.
  induction Hvss as [|a v l vss Hv _ IH]; [done|]. intros [[Ha _] Hs]%Forall_cons.
  simpl. rewrite fmap_app, (Ha v Hv). f_equal. by apply IH.
Qed.

Lemma standard_mount_names t ms :
  Forall standard_volumes (Authenticators t) → GetVolumeMounts t = Val ms →
  Mount_Name <$> ms = mjoin (volume_names <$> (type_of <$> Authenticators t)).
Proof.
  intros Hs (mss & Hmss & ->)%append_each_Val_inv. revert Hs.
  induction Hmss as [|a m l mss Hm _ IH]; [done|]. intros [[_ Ha] Hs]%Forall_cons.
  simpl. rewrite fmap_app, (Ha m Hm). f_equal. by apply IH.
Qed.

(** The names of the volumes of an authentication: distinct, and each one of
    two. *)
Lemma NewAuthentication_volume_names client specs :
  returns (NewAuthentication (W:=W) client specs) (λ t, ∀ vs, GetVolumes t = Val vs →
    NoDup (Volume_Name <$> vs) ∧
    ∀ n, n ∈ Volume_Name <$> vs → n ∈ ["ldap-bind-credentials"; "auth-secrets-"]).
Proof.
  eapply returns_mono; [apply NewAuthentication_standard|]. intros t [Hnd Hs] vs Hvs.
  rewrite (standard_volume_names t vs Hs Hvs). split; [by apply volume_names_NoDup|].
  intros n. rewrite list_elem_of_join. intros (ns & Hn & Hns).
  apply list_elem_of_fmap in Hns as (ty & -> & _). revert Hn.
  unfold volume_names. repeat case_decide; set_solver.
Qed.
End authentication_volumes.

(** ** The environment of an authentication *)

Section authentication_environment.
Context `{!ExtTypes, !Constants, !PropertiesApi, !QuantityApi, !UtilApi, !ClientApi} `{!World W}.
Context `{!RangeLaws W}.

(** The variables that an OIDC configuration asks for. *)
Definition oidc_variables (config : OidcSpec) : list EnvVar :=
  [mkEnvVar "OIDC_CLIENT_ID" (ClientCredentialsSecret config) "CLIENT_ID";
   mkEnvVar "OIDC_CLIENT_SECRET" (ClientCredentialsSecret config) "CLIENT_SECRET"].

(** The environment variables of [a] come from one of the configurations. *)
Definition asks_for (configs : list OidcSpec) (a : AnyAuthenticator) : Prop :=
  ∀ vars v, GetEnvVars a = Val vars → v ∈ vars →
    ∃ config, config ∈ configs ∧ v ∈ oidc_variables config.

Lemma NewAuthentication_env_vars client specs :
  returns (NewAuthentication (W:=W) client specs) (λ t, ∀ vars, GetEnvVars t = Val vars →
    ∀ v, v ∈ vars → ∃ config, config ∈ omap AuthSpec_Oidc specs ∧ v ∈ oidc_variables config).
Proof.
  eapply returns_mono.
  { apply (NewAuthentication_Forall client specs (asks_for (omap AuthSpec_Oidc specs))).
    intros spec provider ty a Hspec Hf vars v Hvars Hv. unfold AuthenticatorFectory in Hf.
    inv_step Hf. repeat case_match; try discriminate; injection Hf as <- <-; cbn in Hvars;
      [|by injection Hvars as <-; apply elem_of_nil in Hv..].
    unfold Oidc_GetEnvVars in Hvars.
    apply outcome_bind_Val in Hvars as (config & Hconfig%deref_Val & [= <-]). cbn in Hconfig.
    exists config. split; [|done].
    apply list_elem_of_omap. by exists spec. }
  intros t Hall vars (varss & Hvars & ->)%append_each_Val_inv v
    (l & Hv & Hl)%list_elem_of_join.
  apply list_elem_of_lookup in Hl as [i Hi].
  destruct (Forall2_lookup_r _ _ _ _ _ Hvars Hi) as (a & Ha & Henv).
  rewrite Forall_forall in Hall. eapply Hall; [by eapply list_elem_of_lookup_2|done|done].
Qed.
End authentication_environment.

Section static_volumes.
Context `{!ExtTypes, !Constants, !PropertiesApi, !QuantityApi, !UtilApi}.

(** The factory leaves the class name of an authenticator empty, so the
    volume of a static authenticator is always called [auth-secrets-],
    which Kubernetes refuses as the name of a volume. *)
Lemma static_volume_name_refused config provider ty s vs :
  AuthenticatorFectory config provider = Val (ty, Some (AStatic s)) →
  GetVolumes (AStatic s) = Val vs →
  vs ≠ [] ∧ Forall (λ v, dns1123_label (Volume_Name v) = false) vs.
Proof.
  intros Hf Hv. pose proof (factory_volume_names _ _ _ _ _ Hf Hv) as Hn.
  rewrite (AuthenticatorFectory_type _ _ _ _ Hf) in Hn.
  change (volume_names (type_of (AStatic s))) with ["auth-secrets-"] in Hn.
  destruct vs as [|v [|? ?]]; try discriminate. injection Hn as Hn.
  split; [done|]. constructor; [by rewrite Hn|done].
Qed.
End static_volumes.

(** ** Merged properties *)

Section properties.
Context `{!ExtTypes, !Constants, !PropertiesApi, !QuantityApi, !UtilApi, !PropertiesLaws}.
Implicit Types (p q : Properties) (a : AnyAuthenticator).

(** Two property values are the same when every key reads the same. *)
#[export] Instance Properties_equiv : Equiv Properties := λ p q,
  ∀ k, Properties_Get p k = Properties_Get q k.
#[export] Instance Properties_equivalence : Equivalence (≡@{Properties}).
Proof.
  split; [by intros p k|by intros p q Hpq k|].
  intros p q r Hpq Hqr k. by rewrite (Hpq k).
Qed.
#[export] Instance Properties_Add_proper :
  Proper ((≡) ==> (=) ==> (=) ==> (≡)) Properties_Add.
Proof. intros p q Hpq k ? <- v ? <- k'. rewrite !Get_Add. by case_decide. Qed.

(** Writing all entries of [q] over [p]. *)
Definition over (p q : Properties) (k : string) : option string :=
  match Properties_Get q k with Some v => Some v | None => Properties_Get p k end.

Lemma copy_keys q keys p :
  (∀ k, k ∈ keys → is_Some (Properties_Get q k)) →
  ∃ p', fold_outcome (λ p key, value ← Get_of (Some q) key;
                               mret (Properties_Add p key value)) p keys = Val p' ∧
    ∀ k, Properties_Get p' k = if decide (k ∈ keys) then Properties_Get q k
                               else Properties_Get p k.
Proof.
  revert p. induction keys as [|key keys IH]; intros p Hk.
  { exists p. split; [done|]. intros k. by rewrite decide_False by set_solver. }
  cbn [fold_outcome mbind outcome_bind Get_of mret outcome_ret].
  destruct (IH (Properties_Add p key (default "" (Properties_Get q key)))) as (p' & Hp' & Hget);
    [set_solver|].
  exists p'. split; [done|]. intros k. rewrite Hget, Get_Add.
  destruct (Hk key) as [v Hv]; [set_solver|].
  repeat case_decide; subst; try set_solver; by rewrite ?Hv.
Qed.

(** Copying the properties of an authenticator overrides what was there. *)
Lemma copy_properties_over `{!Authenticator T} (a : T) p q :
  GetConfigProperties a = Val (Some q) →
  ∃ p', copy_properties p a = Val p' ∧ ∀ k, Properties_Get p' k = over p q k.
Proof.
  intros Ha. unfold copy_properties. rewrite Ha. cbn [mbind outcome_bind Keys_of mret outcome_ret].
  destruct (copy_keys q (Properties_Keys q) p) as (p' & Hp' & Hget).
  { intros k. by rewrite Keys_Get. }
  exists p'. split; [done|]. intros k. rewrite Hget. unfold over.
  case_decide as Hk; rewrite Keys_Get in Hk.
  - destruct Hk as [v ->]. done.
  - destruct (Properties_Get q k); [destruct Hk; eauto|done].
Qed.

(** The value of [k] in the last of [qs] that has it. *)
Definition last_binding (qs : list Properties) (k : string) : option string :=
  foldl (λ acc q, match Properties_Get q k with Some v => Some v | None => acc end) None qs.

Lemma fold_copy_properties (as_ : list AnyAuthenticator) qs p :
  Forall2 (λ a q, GetConfigProperties a = Val (Some q)) as_ qs →
  ∃ p', fold_outcome copy_properties p as_ = Val p' ∧
    ∀ k, Properties_Get p' k =
      foldl (λ acc q, match Properties_Get q k with Some v => Some v | None => acc end)
        (Properties_Get p k) qs.
Proof.
  intros Hall. revert p. induction Hall as [|a q as_ qs Ha _ IH]; intros p; simpl.
  { by exists p. }
  destruct (copy_properties_over a p q Ha) as (p1 & -> & Hp1). simpl.
  destruct (IH p1) as (p' & -> & Hp'). exists p'. split; [done|].
  intros k. rewrite Hp', Hp1. done.
Qed.

(** C18: the merged properties bind a key to the value of the last
    authenticator of the list that sets it, and to nothing when none does. *)
Theorem GetConfigProperties_last_binding t qs :
  Forall2 (λ a q, GetConfigProperties a = Val (Some q)) (Authenticators t) qs →
  ∃ p, GetConfigProperties t = Val (Some p) ∧
    ∀ k, Properties_Get p k = last_binding qs k.
Proof.
  intros Hall. destruct (fold_copy_properties _ _ NewProperties Hall) as (p & Hp & Hget).
  exists p. split; [|by intros k; rewrite Hget, Get_New].
  simpl. unfold TrinoAuthentication_GetConfigProperties. by rewrite Hp.
Qed.
End properties.

Section conflicts.
Context `{!ExtTypes, !Constants, !PropertiesApi, !QuantityApi, !UtilApi, !PropertiesLaws}.
Implicit Types (o : Oidc) (l : Ldap) (t : TrinoAuthentication).

Definition auth_type_key : string := "http-server.authentication.type".

(** C33: a static authenticator has no properties of its own: its
    [GetConfigProperties] is the nil pointer, and the merge asks that pointer
    for its keys.  A cluster that adds one to authenticators whose properties
    merge gets the same properties if a nil [Properties] answers, and otherwise
    fails as it does: what Go makes of a method call on nil decides whether the
    coordinator can be configured. *)
Theorem static_properties_follow_nil `{!PropertiesNilLaws} pre s post p :
  GetConfigProperties (mkTrinoAuthentication (pre ++ post)) = Val (Some p) →
  GetConfigProperties (mkTrinoAuthentication (pre ++ AStatic s :: post)) =
    match Properties_nil_Keys with
    | Val _ => Val (Some p)
    | Err e => Err e
    | Panic r => Panic r
    end.
Proof.
  simpl. unfold TrinoAuthentication_GetConfigProperties. cbn [Authenticators].
  rewrite !fold_outcome_app. intros (p1 & Hp1 & Hp)%outcome_bind_Val.
  injection Hp as <-. apply outcome_bind_Val in Hp1 as (p0 & Hpre & Hpost).
  assert (copy_properties p0 (AStatic s) =
    keys ← Properties_nil_Keys;
    fold_outcome (λ p key, value ← Get_of None key; mret (Properties_Add p key value)) p0 keys)
    as Hstatic by done.
  rewrite Hpre. cbn [mbind outcome_bind fold_outcome] in *. rewrite Hstatic.
  destruct Properties_nil_Keys as [ks|e|r] eqn:Hnil; [|done..].
  apply nil_Keys_empty in Hnil as ->. cbn [mbind outcome_bind fold_outcome mret outcome_ret]. by rewrite Hpost.
Qed.

Definition oidc_keys : list string :=
  [auth_type_key; "http-server.authentication.oauth2.scopes";
   "http-server.authentication.oauth2.client-id";
   "http-server.authentication.oauth2.client-secret";
   "http-server.authentication.oauth2.issuer";
   "http-server.authentication.oauth2.principal-field"].

Lemma oidc_properties_None o p k :
  GetConfigProperties o = Val (Some p) → k ∉ oidc_keys → Properties_Get p k = None.
Proof.
  simpl. unfold Oidc_GetConfigProperties. intros Hp Hk. inv_steps Hp. injection Hp as <-.
  unfold oidc_keys, auth_type_key in Hk. rewrite !not_elem_of_cons in Hk.
  destruct_and!. rewrite !Get_Add, Get_New. by rewrite !decide_False by congruence.
Qed.

Lemma ldap_properties_None l p k :
  GetConfigProperties l = Val (Some p) → k ∈ oidc_keys → k ≠ auth_type_key →
  Properties_Get p k = None.
Proof.
  simpl. unfold Ldap_GetConfigProperties, auth_type_key. intros Hp Hk Hne. inv_steps Hp.
  injection Hp as <-. unfold oidc_keys in Hk. rewrite !elem_of_cons, elem_of_nil in Hk.
  rewrite !Get_Add, Get_New. by destruct_or!; subst.
Qed.

Lemma oidc_auth_type o p :
  GetConfigProperties o = Val (Some p) → Properties_Get p auth_type_key = Some "OAUTH2".
Proof.
  simpl. unfold Oidc_GetConfigProperties. intros Hp. inv_steps Hp. injection Hp as <-.
  by rewrite !Get_Add.
Qed.

Lemma ldap_auth_type l p :
  GetConfigProperties l = Val (Some p) → Properties_Get p auth_type_key = Some "PASSWORD".
Proof.
  simpl. unfold Ldap_GetConfigProperties. intros Hp. inv_steps Hp. injection Hp as <-.
  by rewrite !Get_Add.
Qed.

(** C31: an OIDC and an LDAP authenticator agree on the properties they
    merge to, in either order, for every key but one: the authentication
    type, which is the type of whichever comes last in the list. *)
Theorem order_decides_auth_type o l p1 p2 :
  GetConfigProperties o = Val (Some p1) → GetConfigProperties l = Val (Some p2) →
  ∃ p q,
    GetConfigProperties (mkTrinoAuthentication [AnOidc o; AnLdap l]) = Val (Some p) ∧
    GetConfigProperties (mkTrinoAuthentication [AnLdap l; AnOidc o]) = Val (Some q) ∧
    Properties_Get p auth_type_key = Some "PASSWORD" ∧
    Properties_Get q auth_type_key = Some "OAUTH2" ∧
    ∀ k, Properties_Get p k = Properties_Get q k ↔ k ≠ auth_type_key.
Proof.
  intros Ho Hl.
  destruct (GetConfigProperties_last_binding
    (mkTrinoAuthentication [AnOidc o; AnLdap l]) [p1; p2]) as (p & Hp & Hgp);
    [by repeat constructor|].
  destruct (GetConfigProperties_last_binding
    (mkTrinoAuthentication [AnLdap l; AnOidc o]) [p2; p1]) as (q & Hq & Hgq);
    [by repeat constructor|].
  exists p, q. pose proof (oidc_auth_type o p1 Ho) as Hto.
  pose proof (ldap_auth_type l p2 Hl) as Htl.
  assert (Properties_Get p auth_type_key = Some "PASSWORD") as Hpt
    by (rewrite Hgp; unfold last_binding; simpl; by rewrite Htl).
  assert (Properties_Get q auth_type_key = Some "OAUTH2") as Hqt
    by (rewrite Hgq; unfold last_binding; simpl; by rewrite Hto).
  split_and!; [done..|]. intros k. split.
  - intros Heq ->. congruence.
  - intros Hne. rewrite Hgp, Hgq. unfold last_binding. simpl.
    destruct (decide (k ∈ oidc_keys)).
    + by rewrite (ldap_properties_None l p2 k).
    + rewrite (oidc_properties_None o p1 k) by done. by destruct (Properties_Get p2 k).
Qed.
End conflicts.

(** ** OIDC and LDAP settings *)

Section settings.
Context `{!ExtTypes, !Constants, !PropertiesApi, !QuantityApi, !UtilApi, !PropertiesLaws}.
Implicit Types (o : Oidc) (l : Ldap).

(** The host of the issuer: the port is left out when it is 80. *)
Definition issuer_host (provider : OIDCProvider) : string :=
  if decide (OIDC_Port provider = 80%Z) then OIDC_Hostname provider
  else OIDC_Hostname provider +:+ ":" +:+ Itoa (OIDC_Port provider).

Lemma oidc_issuer_url provider :
  oidc_issuer provider = mkURL "http" (issuer_host provider) (OIDC_RootPath provider).
Proof.
  unfold oidc_issuer, issuer_host. cbn [URL_Scheme URL_Host URL_Path].
  rewrite (bool_decide_eq_true_2 ("http" = "http")) by done.
  rewrite (bool_decide_eq_false_2 ("http" = "https")) by done.
  case_decide as Hp.
  - by rewrite Hp.
  - by rewrite (proj2 (Z.eqb_neq _ _) Hp).
Qed.

Lemma starts_with_slash_escape s :
  starts_with_slash s = true → starts_with_slash (escape s encodePath) = true.
Proof.
  destruct s as [|c s]; [done|]. simpl. rewrite bool_decide_eq_true. by intros ->.
Qed.

(** C22: for a host and a root path that is empty or absolute, the issuer is
    [http://host/path] with both parts percent-encoded, and decoding them
    gives the host (with its port unless that is 80) and the root path. *)
Theorem oidc_issuer_decodes provider :
  OIDC_Hostname provider ≠ "" →
  OIDC_RootPath provider = "" ∨ starts_with_slash (OIDC_RootPath provider) = true →
  let host := escape (issuer_host provider) encodeHost in
  let path := escape (OIDC_RootPath provider) encodePath in
  URL_String (oidc_issuer provider) = "http://" +:+ host +:+ path ∧
  unescape host = Some (issuer_host provider) ∧
  unescape path = Some (OIDC_RootPath provider).
Proof.
  intros Hhost Hpath host path. split; [|split; apply unescape_escape].
  assert (issuer_host provider ≠ "") as Hne.
  { unfold issuer_host. case_decide; [done|]. by destruct (OIDC_Hostname provider). }
  rewrite oidc_issuer_url. unfold URL_String. cbn [URL_Scheme URL_Host URL_Path].
  rewrite (bool_decide_eq_false_2 (issuer_host provider = "" ∧ _)) by naive_solver.
  unfold EscapedPath. cbn [URL_Path].
  rewrite decide_False by (intros Heq; rewrite Heq in Hpath; by destruct Hpath).
  fold path host. assert (bool_decide (path ≠ "") && negb (starts_with_slash path) = false) as ->.
  { destruct Hpath as [He|Hs].
    - unfold path. by rewrite He.
    - unfold path. rewrite starts_with_slash_escape by done. by rewrite andb_false_r. }
  simpl. by rewrite ?str_app_assoc.
Qed.

(** C23: the scopes property is the space-separated list of the three
    standard scopes and the extra ones, and splitting it at the spaces gives
    that list back when the extra scopes contain none. *)
Theorem oidc_scopes_split o config p :
  Oidc_Config o = Some config → Forall (byte_free " ") (ExtraScopes config) →
  GetConfigProperties o = Val (Some p) →
  ∃ v, Properties_Get p "http-server.authentication.oauth2.scopes" = Some v ∧
    split_on " " v = ["openid"; "email"; "profile"] ++ ExtraScopes config.
Proof.
  intros Hc Hfree Hp. simpl in Hp. unfold Oidc_GetConfigProperties in Hp.
  rewrite Hc in Hp. simpl in Hp. inv_steps Hp. injection Hp as <-.
  exists (strings_Join (oidc_scopes config) " "). split; [by rewrite !Get_Add|].
  apply (split_on_Join " "); [done|]. unfold oidc_scopes.
  do 3 (apply Forall_cons; split; [apply (bool_decide_unpack _); by vm_compute|]). done.
Qed.

(** The client id and secret that the OIDC properties refer to are
    environment variables that the authenticator defines, read from the keys
    [CLIENT_ID] and [CLIENT_SECRET] of the configured secret. *)
Lemma oidc_env_vars_defined o config p :
  Oidc_Config o = Some config → GetConfigProperties o = Val (Some p) →
  ∃ id secret,
    GetEnvVars o = Val [mkEnvVar id (ClientCredentialsSecret config) "CLIENT_ID";
                        mkEnvVar secret (ClientCredentialsSecret config) "CLIENT_SECRET"] ∧
    Properties_Get p "http-server.authentication.oauth2.client-id"
      = Some ("${ENV:" +:+ id +:+ "}") ∧
    Properties_Get p "http-server.authentication.oauth2.client-secret"
      = Some ("${ENV:" +:+ secret +:+ "}").
Proof.
  intros Hc Hp. exists "OIDC_CLIENT_ID", "OIDC_CLIENT_SECRET". simpl in Hp |- *.
  unfold Oidc_GetEnvVars. unfold Oidc_GetConfigProperties in Hp. rewrite Hc in Hp |- *.
  simpl in Hp |- *. inv_steps Hp. injection Hp as <-. rewrite !Get_Add. done.
Qed.

(** The LDAP server is [ldaps://] exactly when TLS is configured, and
    names the port exactly when it is not zero. *)
Lemma ldap_endpoint_cases l provider :
  Ldap_Provider l = Some provider →
  Ldap_getEndpoint l = Val
    (match LDAP_TLS provider, decide (LDAP_Port provider = 0%Z) with
     | None, left _ => "ldap://" +:+ LDAP_Hostname provider
     | None, right _ => "ldap://" +:+ LDAP_Hostname provider +:+ ":" +:+ Itoa (LDAP_Port provider)
     | Some _, left _ => "ldaps://" +:+ LDAP_Hostname provider
     | Some _, right _ => "ldaps://" +:+ LDAP_Hostname provider +:+ ":" +:+ Itoa (LDAP_Port provider)
     end).
Proof.
  intros Hp. unfold Ldap_getEndpoint. rewrite Hp. simpl.
  destruct (decide (LDAP_Port provider = 0%Z)) as [Hz|Hz].
  - rewrite Hz. by destruct (LDAP_TLS provider).
  - rewrite (proj2 (Z.eqb_neq _ _) Hz). by destruct (LDAP_TLS provider).
Qed.
End settings.

(** ** Witnesses *)

Module AuthzWitnesses.
Import Concrete.

Definition both : list AuthenticationSpec := [oidc_spec; ldap_spec].
Definition the_oidc : Oidc := mkOidc "" (Some oidc_config) (Some oidc_provider).
Definition the_ldap : Ldap := mkLdap "" (Some ldap_provider).
Definition the_static : Static := mkStatic "" (Some static_provider).

Lemma NewAuthentication_types_distinct_witness :
  ∃ t w', NewAuthentication client both auth_world = (Val t, w') ∧
    length (Authenticators t) = 2 ∧ NoDup (type_of <$> Authenticators t).
Proof.
  destruct (NewAuthentication client both auth_world) as [[t| |] w'] eqn:Hrun;
    [|by vm_compute in Hrun..].
  exists t, w'. split; [done|]. split.
  - vm_compute in Hrun. injection Hrun as <- _. reflexivity.
  - exact (NewAuthentication_types_distinct client both auth_world t w' Hrun).
Defined.

Lemma NewAuthentication_refines_witness :
  ∃ l' w', NewAuthentication client both Frozen = (Val (mkTrinoAuthentication l'), w') ∧
    l' ≡ₚ [AnOidc the_oidc; AnLdap the_ldap].
Proof.
  assert (Hsnap : snapshot (W:=frozen) client answer) by (intros name w; by exists w).
  exact (NewAuthentication_refines client answer Hsnap both Frozen).
Defined.

Lemma missing_class_panics_witness :
  NewAuthentication client ([oidc_spec] ++ mkAuthenticationSpec "absent" None :: [ldap_spec])
    auth_world = (Panic NilDereference, auth_world).
Proof.
  apply (missing_class_panics client [oidc_spec] [ldap_spec]
           (mkAuthenticationSpec "absent" None) auth_world auth_world auth_world
           {["oidc" := AnOidc the_oidc]}) with (e := not_found); vm_compute; reflexivity.
Defined.

(** A world in which the client may not read authentication classes. *)
Inductive locked := Locked.
Instance locked_world : World locked := {|
  world_range A m w := (map_to_list m, w);
  get_AuthenticationClass key obj w := ((Some forbidden, obj), w);
  get_Secret key w := (Some forbidden, w);
  get_TrinoCluster key w := ((Some forbidden, zero_cluster), w);
  rand_Read n w := (None, [], w);
  MakeVectorYaml ns cluster role group cm w := (Err forbidden, w);
|}.

Lemma api_error_propagates_witness :
  NewAuthentication client ([] ++ oidc_spec :: [ldap_spec]) Locked = (Err forbidden, Locked).
Proof.
  apply (api_error_propagates client [] [ldap_spec] oidc_spec Locked Locked Locked ∅)
    with (e' := forbidden) (obj := zero_AuthenticationClass); vm_compute; reflexivity.
Defined.

Definition two : TrinoAuthentication :=
  mkTrinoAuthentication [AStatic the_static; AnLdap the_ldap].

Lemma TrinoAuthentication_mounts_its_volumes_witness :
  ∃ vs ms, GetVolumes two = Val vs ∧ GetVolumeMounts two = Val ms ∧ length vs = 2 ∧
    Volume_Name <$> vs = Mount_Name <$> ms.
Proof.
  destruct (GetVolumes two) as [vs| |] eqn:Hv; [|by vm_compute in Hv..].
  destruct (GetVolumeMounts two) as [ms| |] eqn:Hm; [|by vm_compute in Hm..].
  exists vs, ms. split_and!; [done..| |].
  - vm_compute in Hv. injection Hv as <-. reflexivity.
  - exact (TrinoAuthentication_mounts_its_volumes two vs ms Hv Hm).
Defined.

Lemma static_volume_name_refused_witness :
  ∃ vs, GetVolumes (AStatic the_static) = Val vs ∧
    vs ≠ [] ∧ Forall (λ v, dns1123_label (Volume_Name v) = false) vs.
Proof.
  eexists. split; [reflexivity|].
  exact (static_volume_name_refused None (Class_Provider static_class) "static" the_static _
           eq_refl eq_refl).
Defined.

Definition oidc_properties : Properties :=
  match Oidc_GetConfigProperties the_oidc with Val (Some p) => p | _ => NewProperties end.
Definition ldap_properties : Properties :=
  match Ldap_GetConfigProperties the_ldap with Val (Some p) => p | _ => NewProperties end.

Lemma GetConfigProperties_last_binding_witness :
  ∃ p : Properties,
    GetConfigProperties (mkTrinoAuthentication [AnOidc the_oidc; AnLdap the_ldap])
      = Val (Some p) ∧
    ∀ k, Properties_Get p k = last_binding [oidc_properties; ldap_properties] k.
Proof.
  apply (GetConfigProperties_last_binding
    (mkTrinoAuthentication [AnOidc the_oidc; AnLdap the_ldap])
    [oidc_properties; ldap_properties]).
  constructor; [reflexivity|constructor; [reflexivity|constructor]].
Defined.

Lemma static_properties_follow_nil_witness :
  GetConfigProperties (mkTrinoAuthentication [AnOidc the_oidc; AStatic the_static])
    = Panic NilDereference.
Proof.
  exact (static_properties_follow_nil [AnOidc the_oidc] the_static [] oidc_properties eq_refl).
Defined.

Lemma order_decides_auth_type_witness :
  ∃ p q : Properties,
    GetConfigProperties (mkTrinoAuthentication [AnOidc the_oidc; AnLdap the_ldap])
      = Val (Some p) ∧
    GetConfigProperties (mkTrinoAuthentication [AnLdap the_ldap; AnOidc the_oidc])
      = Val (Some q) ∧
    Properties_Get p auth_type_key = Some "PASSWORD" ∧
    Properties_Get q auth_type_key = Some "OAUTH2" ∧
    ∀ k, Properties_Get p k = Properties_Get q k ↔ k ≠ auth_type_key.
Proof.
  exact (order_decides_auth_type the_oidc the_ldap oidc_properties ldap_properties
           eq_refl eq_refl).
Defined.

Lemma oidc_issuer_decodes_witness :
  URL_String (oidc_issuer oidc_provider) = "http://keycloak:8080/realms/kubedoop" ∧
  unescape (escape (OIDC_RootPath oidc_provider) encodePath) = Some "/realms/kubedoop".
Proof.
  destruct (oidc_issuer_decodes oidc_provider) as (Hu & _ & Hp);
    [discriminate|right; reflexivity|].
  split; [rewrite Hu; reflexivity|exact Hp].
Defined.

Lemma oidc_scopes_split_witness :
  ∃ v, Properties_Get oidc_properties "http-server.authentication.oauth2.scopes" = Some v ∧
    split_on " " v = ["openid"; "email"; "profile"] ++ ["groups"].
Proof.
  apply (oidc_scopes_split the_oidc oidc_config oidc_properties); [reflexivity| |reflexivity].
  constructor; [apply (bool_decide_unpack _); vm_compute; exact I|constructor].
Defined.

Lemma oidc_env_vars_defined_witness :
  ∃ id secret,
    GetEnvVars the_oidc = Val [mkEnvVar id "oidc-secret" "CLIENT_ID";
                               mkEnvVar secret "oidc-secret" "CLIENT_SECRET"] ∧
    Properties_Get oidc_properties "http-server.authentication.oauth2.client-id"
      = Some ("${ENV:" +:+ id +:+ "}") ∧
    Properties_Get oidc_properties "http-server.authentication.oauth2.client-secret"
      = Some ("${ENV:" +:+ secret +:+ "}").
Proof.
  exact (oidc_env_vars_defined the_oidc oidc_config oidc_properties eq_refl eq_refl).
Defined.

Lemma ldap_endpoint_cases_witness :
  Ldap_getEndpoint the_ldap = Val "ldap://ldap.default:1389".
Proof. rewrite (ldap_endpoint_cases the_ldap ldap_provider eq_refl). reflexivity. Defined.
End AuthzWitnesses.
