(* ===== verification/Secret.v ===== *)
(** * The internal shared secret ([internal/controller/common/secret.go])

    A secret of 512 random bytes for the communication between Trino nodes.
    It is created when it does not exist and never written again. *)

From S2P Require Import Prelude GoRuntime Base64 Externals Api Framework Concrete.

Definition InternalSharedSecretEnvName : string := "INTERNAL_SHARED_SECRET".

Definition getInternalSharedSecretName (clusterName : string) : string :=
  clusterName +:+ "-internal-shared-secret".

(** [rand.Read(make([]byte, 512))] *)
Definition random_length : nat := N.to_nat 512.

Section secret.
Context `{!ExtTypes, !InfoApi, !ClientApi, !SecretApi, !ReconcilerApi} `{!World W}.

Record InternalSharedSecretBuilder := mkInternalSharedSecretBuilder {
  ISS_Base : BaseSecretBuilder;
}.

Definition InternalSharedSecretBuilder_Build (b : InternalSharedSecretBuilder)
    : M W SecretObject :=
  '(err, randomData) ← reading (rand_Read random_length);
  match err with
  | Some e => throw e
  | None =>
      let encodedData := EncodeToString randomData in
      mret (Secret_GetObject (SB_AddItem (ISS_Base b) InternalSharedSecretEnvName encodedData))
  end.

Record InternalSharedSecretReconciler := mkInternalSharedSecretReconciler {
  ISSR_Client : Client;
  ISSR_Builder : InternalSharedSecretBuilder;
}.

Definition NewInternalsharedSecretReconciler (client : Client) (info : ClusterInfo)
    : InternalSharedSecretReconciler :=
  let name := getInternalSharedSecretName (ClusterInfo_GetClusterName info) in
  let option_fn : Option_fn := λ o,
    mkOptions (ClusterInfo_GetClusterName info) (Opt_RoleName o) (Opt_RoleGroupName o)
      (ClusterInfo_GetLabels info) (ClusterInfo_GetAnnotations info) in
  mkInternalSharedSecretReconciler client
    (mkInternalSharedSecretBuilder (mkBaseSecret client name [option_fn] [])).

(** [GenericResourceReconciler.Reconcile] of operator-go: builds the
    resource with the given [Build] and writes it to the API server. *)
Context (GenericResourceReconciler_Reconcile : M W SecretObject → M W Result).

Definition InternalSharedSecretReconciler_Reconcile (r : InternalSharedSecretReconciler)
    : M W Result :=
  err ← reading (get_Secret (mkObjectKey (GetOwnerNamespace (ISSR_Client r))
                   (Secret_GetName (ISS_Base (ISSR_Builder r)))));
  match err with
  | Some e =>
      match IgnoreNotFound e with
      | Some _ => throw e
      | None =>
          GenericResourceReconciler_Reconcile
            (InternalSharedSecretBuilder_Build (ISSR_Builder r))
      end
  | None => mret zero_Result
  end.
End secret.

(** ** What is created *)

Section build.
Context `{!ExtTypes, !SecretApi, !SecretLaws} `{!World W}.
Implicit Types (b : InternalSharedSecretBuilder) (w : W).

(** C24: the secret holds one entry, whose value is the base64 encoding of
    the bytes read from the random source: decoding it gives them back, and
    it has 684 characters when the source fills the buffer. *)
Theorem secret_data_decodes b w w1 data obj w' :
  SB_Items (ISS_Base b) = [] →
  rand_Read random_length w = ((None, data), w1) →
  InternalSharedSecretBuilder_Build b w = (Val obj, w') →
  ∃ v, Secret_Data obj = {[InternalSharedSecretEnvName := v]} ∧
    DecodeString v = Some data ∧
    (length data = random_length → String.length v = 684).
Proof.
  intros Hb Hrand Hrun. unfold InternalSharedSecretBuilder_Build in Hrun.
  rewrite (M_bind_step _ _ _ _ _ (reading_run _ _ _ _ Hrand)) in Hrun.
  injection Hrun as <- <-. exists (EncodeToString data). split_and!.
  - rewrite Secret_Data_items. simpl. rewrite Hb. done.
  - apply Decode_Encode.
  - intros Hl. rewrite Encode_length, Hl. by vm_compute.
Qed.

(** A secret that is built has its one key. *)
Lemma secret_has_key b :
  SB_Items (ISS_Base b) = [] →
  returns (W:=W) (InternalSharedSecretBuilder_Build b) (λ obj,
    dom (Secret_Data obj) = {[InternalSharedSecretEnvName]}).
Proof.
  intros Hb w obj w' Hrun. unfold InternalSharedSecretBuilder_Build in Hrun.
  destruct (rand_Read random_length w) as [[err data] w1] eqn:Hrand.
  rewrite (M_bind_step _ _ _ _ _ (reading_run _ _ _ _ Hrand)) in Hrun.
  destruct err; [done|]. injection Hrun as <- <-.
  rewrite Secret_Data_items. simpl. rewrite Hb. unfold items_map. simpl.
  by rewrite dom_insert_L, dom_empty_L, (right_id_L ∅ (∪)).
Qed.

(** When the random source fails, its error is returned and no secret
    is built. *)
Lemma secret_rand_error b w w1 e data :
  rand_Read random_length w = ((Some e, data), w1) →
  InternalSharedSecretBuilder_Build b w = (Err e, w1).
Proof.
  intros Hrand. unfold InternalSharedSecretBuilder_Build.
  by rewrite (M_bind_step _ _ _ _ _ (reading_run _ _ _ _ Hrand)).
Qed.
End build.

(** ** When it is created *)

(** The secret as the API server stores it: reading it tells whether it
    exists and changes nothing. *)
Class SecretStore (W : Type) `{!ExtTypes, !ClientApi, !World W} (key : ObjectKey) (V : Type) := {
  stored_secret : W → option V;
  get_Secret_found w w' : get_Secret key w = (None, w') →
    is_Some (stored_secret w) ∧ stored_secret w' = stored_secret w;
  get_Secret_absent w e w' : get_Secret key w = (Some e, w') →
    IgnoreNotFound e = None →
    stored_secret w = None ∧ stored_secret w' = None;
  get_Secret_failed w e e' w' : get_Secret key w = (Some e, w') →
    IgnoreNotFound e = Some e' → stored_secret w' = stored_secret w;
}.

Section reconcile.
Context `{!ExtTypes, !ClientApi, !SecretApi, !ReconcilerApi} `{!World W}.
Context (GenericReconcile : M W SecretObject → M W Result).
Context (r : InternalSharedSecretReconciler).
Implicit Types (w : W).

Let key : ObjectKey :=
  mkObjectKey (GetOwnerNamespace (ISSR_Client r)) (Secret_GetName (ISS_Base (ISSR_Builder r))).

Context {V : Type} `{!SecretStore W key V}.

(** Any number of reconciliations, one after the other, whatever they
    return. *)
Inductive reconciled : W → W → Prop :=
  | reconciled_refl w : reconciled w w
  | reconciled_step w o w1 w2 :
      InternalSharedSecretReconciler_Reconcile GenericReconcile r w = (o, w1) →
      reconciled w1 w2 → reconciled w w2.

Lemma reconcile_existing w v o w' :
  stored_secret w = Some v →
  InternalSharedSecretReconciler_Reconcile GenericReconcile r w = (o, w') →
  stored_secret w' = Some v ∧ (∀ p, o ≠ Panic p).
Proof.
  intros Hv Hrun. unfold InternalSharedSecretReconciler_Reconcile in Hrun. fold key in Hrun.
  destruct (get_Secret key w) as [err w1] eqn:Hget.
  rewrite (M_bind_step _ _ _ _ _ (reading_run _ _ _ _ Hget)) in Hrun.
  destruct err as [e|].
  - destruct (IgnoreNotFound e) as [e'|] eqn:Hnf.
    + injection Hrun as <- <-. by rewrite (get_Secret_failed _ _ _ _ Hget Hnf).
    + destruct (get_Secret_absent _ _ _ Hget Hnf). congruence.
  - injection Hrun as <- <-. destruct (get_Secret_found _ _ Hget) as [_ Hs]. by rewrite Hs.
Qed.

(** C7: a secret that exists keeps its value through any sequence of
    reconciliations, whatever the API server answers to them: it is never
    generated again. *)
Theorem shared_secret_never_replaced w w' v :
  stored_secret w = Some v → reconciled w w' → stored_secret w' = Some v.
Proof.
  intros Hv Hrec. induction Hrec as [|w o w1 w2 Hrun _ IH]; [done|].
  apply IH. by destruct (reconcile_existing _ _ _ _ Hv Hrun).
Qed.

(** A reconciliation reaches the generic reconciler exactly when the
    secret was reported missing; otherwise it does nothing more, and returns
    the error of the read if there was one. *)
Lemma reconcile_by_read w err w1 :
  get_Secret key w = (err, w1) →
  InternalSharedSecretReconciler_Reconcile GenericReconcile r w =
    match err with
    | None => (Val zero_Result, w1)
    | Some e =>
        if IgnoreNotFound e is Some _ then (Err e, w1)
        else GenericReconcile (InternalSharedSecretBuilder_Build (ISSR_Builder r)) w1
    end.
Proof.
  intros Hget. unfold InternalSharedSecretReconciler_Reconcile. fold key.
  rewrite (M_bind_step _ _ _ _ _ (reading_run _ _ _ _ Hget)).
  destruct err as [e|]; [|done]. by destruct (IgnoreNotFound e).
Qed.
(** What the controller relies on about the generic reconciler: when it
    returns without an error, the object that it was given exists. *)
Class SecretWrites := generic_stores w res w' :
  stored_secret w = None →
  GenericReconcile (InternalSharedSecretBuilder_Build (ISSR_Builder r)) w = (Val res, w') →
  is_Some (stored_secret w').

Lemma reconcile_success `{!SecretWrites} w res w' :
  InternalSharedSecretReconciler_Reconcile GenericReconcile r w = (Val res, w') →
  is_Some (stored_secret w').
Proof.
  intros Hrun. destruct (get_Secret key w) as [err w1] eqn:Hget.
  rewrite (reconcile_by_read _ _ _ Hget) in Hrun. destruct err as [e|].
  - destruct (IgnoreNotFound e) eqn:Hnf; [done|].
    destruct (get_Secret_absent _ _ _ Hget Hnf) as [_ Hnone]. by eapply generic_stores.
  - injection Hrun as <- <-. by destruct (get_Secret_found _ _ Hget) as [? ->].
Qed.

(** C26: the controller is called again and again, with errors or without: if one
    of the calls succeeds, then from that call on the secret exists, and it
    has one and the same value for good. *)
Theorem shared_secret_settles `{!SecretWrites} (world : nat → W) (answer : nat → outcome Result) :
  (∀ n, InternalSharedSecretReconciler_Reconcile GenericReconcile r (world n)
        = (answer n, world (S n))) →
  (∃ n res, answer n = Val res) →
  ∃ n v, (∀ m, m < n → ∀ res, answer m ≠ Val res) ∧ ∀ m, n < m → stored_secret (world m) = Some v.
Proof.
  intros Hstep (n0 & res0 & Hn0).
  assert (∃ n, (∃ res, answer n = Val res) ∧ ∀ m, m < n → ∀ res, answer m ≠ Val res)
    as (n & (res & Hn) & Hfirst).
  { enough (∀ k, (∃ n, (∃ res, answer n = Val res) ∧ ∀ m, m < n → ∀ res, answer m ≠ Val res) ∨
                 ∀ m, m < k → ∀ res, answer m ≠ Val res) as [?|Hno]%(.$ S n0); [done| |].
    - by destruct (Hno n0 (Nat.lt_succ_diag_r _) res0).
    - induction k as [|k [IH|IH]]; [right; lia|by left|].
      destruct (answer k) as [res| |] eqn:Hk; [left; exists k; eauto|right..];
        intros m Hm res; (destruct (decide (m = k)) as [->|]; [by rewrite Hk|apply IH; lia]). }
  pose proof (Hstep n) as Hrun. rewrite Hn in Hrun.
  destruct (reconcile_success _ _ _ Hrun) as [v Hv]. exists n, v. split; [done|].
  intros m Hm. induction Hm as [|m _ IH]; [done|].
  by destruct (reconcile_existing _ _ _ _ IH (Hstep m)).
Qed.
End reconcile.

(** ** Witnesses *)

Module SecretWitnesses.
Import Concrete.

Definition info : ClusterInfo := mkClusterInfo (mkGVK "" "" "") "trino".
Definition reconciler : InternalSharedSecretReconciler :=
  NewInternalsharedSecretReconciler client info.

Lemma secret_data_decodes_witness :
  ∃ v, Secret_Data {[InternalSharedSecretEnvName := v]} = {[InternalSharedSecretEnvName := v]} ∧
    DecodeString v = Some (replicate random_length "T"%char) ∧
    (length (replicate random_length "T"%char) = random_length → String.length v = 684).
Proof.
  destruct (InternalSharedSecretBuilder_Build (ISSR_Builder reconciler) empty_world)
    as [[obj| |] w'] eqn:Hrun; [|by vm_compute in Hrun..].
  destruct (secret_data_decodes (ISSR_Builder reconciler) empty_world empty_world
    (replicate random_length "T"%char) obj w') as (v & Hv & Hd);
    [reflexivity|reflexivity|exact Hrun|].
  exists v. split; [reflexivity|exact Hd].
Defined.

(** A store that holds at most the secret, and a generic reconciler that
    writes what it builds. *)
Inductive store := Store (value : option string).
Instance store_world : World store := {|
  world_range A m w := (map_to_list m, w);
  get_AuthenticationClass key obj w := ((None, obj), w);
  get_Secret key '(Store v) := (if v is Some _ then None else Some not_found, Store v);
  get_TrinoCluster key w := ((None, zero_cluster), w);
  rand_Read n w := (None, replicate n "T"%char, w);
  MakeVectorYaml ns cluster role group cm w := (Val "", w);
|}.
Instance the_store key : SecretStore store key string.
Proof.
  unshelve eapply Build_SecretStore; [intros [v]; exact v|..].
  - intros [[v|]] w'; simpl; [intros [= <-]; eauto|discriminate].
  - intros [[v|]] e w'; simpl; [discriminate|intros [= <- <-]; done].
  - intros [[v|]] e e' w'; simpl; [discriminate|intros [= <- <-]; done].
Defined.

Definition write_it (build : M store SecretObject) : M store Result := λ w,
  match build w with
  | (Val obj, _) => (Val zero_Result, Store (Secret_Data obj !! InternalSharedSecretEnvName))
  | (Err e, w') => (Err e, w')
  | (Panic p, w') => (Panic p, w')
  end.

Definition the_key : ObjectKey :=
  mkObjectKey (GetOwnerNamespace client) (getInternalSharedSecretName "trino").

(** The first reconciliation creates the secret, the second keeps it. *)
Lemma shared_secret_never_replaced_witness :
  ∃ v w w', InternalSharedSecretReconciler_Reconcile write_it reconciler (Store None)
      = (Val zero_Result, w) ∧
    stored_secret (key:=the_key) w = Some v ∧ reconciled write_it reconciler w w' ∧
    stored_secret (key:=the_key) w' = Some v.
Proof.
  eexists _, _, _. split; [vm_compute; reflexivity|]. split; [reflexivity|].
  assert (Hrec : ∀ v, reconciled write_it reconciler (Store (Some v)) (Store (Some v))).
  { intros v. eapply (reconciled_step _ _ _ (Val zero_Result)); [reflexivity|].
    apply reconciled_refl. }
  split; [apply Hrec|].
  match goal with |- _ = Some ?v =>
    exact (shared_secret_never_replaced write_it reconciler (Store (Some v)) (Store (Some v)) v
             eq_refl (Hrec v))
  end.
Defined.

Instance write_it_stores : SecretWrites (SecretStore0 := the_store the_key) write_it reconciler.
Proof.
  intros [v] res w' _ Hrun.
  assert (∃ s, w' = Store (Some s)) as [s ->]; [|by exists s].
  eexists. symmetry. vm_compute in Hrun. injection Hrun as _ <-. reflexivity.
Qed.

(** Called for ever, first on a server without the secret. *)
Lemma shared_secret_settles_witness :
  ∃ s n v, (∀ m, n < m → stored_secret (SecretStore := the_store the_key)
              (match m with 0 => Store None | S _ => Store (Some s) end) = Some v).
Proof.
  assert (∃ s, InternalSharedSecretReconciler_Reconcile write_it reconciler (Store None)
               = (Val zero_Result, Store (Some s))) as [s Hs].
  { eexists. vm_compute. reflexivity. }
  exists s.
  destruct (shared_secret_settles (SecretStore0 := the_store the_key) write_it reconciler
    (λ m, match m with 0 => Store None | S _ => Store (Some s) end) (λ _, Val zero_Result))
    as (n & v & _ & Hv).
  - intros [|n]; [exact Hs|reflexivity].
  - by exists 0, zero_Result.
  - exists n, v. exact Hv.
Defined.
End SecretWitnesses.
