(* ===== verification/ConfigMap.v ===== *)
(** * The ConfigMap of a role group ([internal/controller/common/configmap.go])

    [ConfigMapBuilder_Build] renders the configuration files of Trino:
    [config.properties], [node.properties], [secret.properties],
    [jvm.config], [log.properties], the vector agent's file when log
    aggregation is configured, and one file per catalog. *)

From Stdlib Require Import ZArith.
From S2P Require Import Prelude GoRuntime GoStrings GoFloat Externals Api Framework Authz Secret.

(** [constant.go] *)
Definition RoleCoordinator : string := "coordinator".
Definition RoleWorker : string := "worker".
Definition HttpScheme : string := "http".
Definition HttpsScheme : string := "https".

Definition JvmHeapFactor : float64 := f64_0_8.
Definition DefaultJvmMem : string := "2G".
Definition DefaultTlsPassphrase : string := "changeit".

Section paths.
Context `{!Constants}.
Definition ServerTlsMountPath : string := path_Join [KubedoopTlsDir; "server"].
Definition InternalTlsMountPath : string := path_Join [KubedoopTlsDir; "internal"].
Definition ClientTlsPath : string := path_Join [KubedoopTlsDir; "client"].
End paths.

Section configmap.
Context `{!ExtTypes, !Constants, !PropertiesApi, !QuantityApi, !UtilApi, !InfoApi,
          !ClientApi, !ConfigMapApi}.

(** The field [TrinoConig] of the struct is never set nor read. *)
Record ConfigMapBuilder := mkConfigMapBuilder {
  CM_Base : BaseConfigMapBuilder;
  CM_TrinoConfig : option ConfigSpec;
  CM_ClusterConfig : option ClusterConfigSpec;
  CM_CoordiantorSvcFqdn : string;
  CM_ClusterName : string;
  CM_RoleName : string;
  CM_RoleGroupName : string;
}.

Definition NewConfigMapBuilder (client : Client) (name coordinatorSvcFqdn : string)
    (clusterConfig : option ClusterConfigSpec) (trinoConfig : option ConfigSpec)
    (options : list Option_fn) : ConfigMapBuilder :=
  let opts := apply_options options in
  mkConfigMapBuilder (NewBaseConfigMapBuilder client name options)
    trinoConfig clusterConfig coordinatorSvcFqdn
    (Opt_ClusterName opts) (Opt_RoleName opts) (Opt_RoleGroupName opts).

(** The builder that [NewConfigReconciler] hands to the generic reconciler. *)
Definition NewConfigReconciler (client : Client) (coordiantorSvcFqdn : string)
    (clusterConfig : option ClusterConfigSpec) (trinoConfig : option ConfigSpec)
    (info : RoleGroupInfo) : ConfigMapBuilder :=
  NewConfigMapBuilder client (RoleGroupInfo_GetFullName info) coordiantorSvcFqdn
    clusterConfig trinoConfig
    [λ _, mkOptions (Info_ClusterName (Info_Cluster (Info_Role info)))
            (Info_RoleName (Info_Role info)) (Info_RoleGroupName info)
            (RoleGroupInfo_GetLabels info) (RoleGroupInfo_GetAnnotations info)].

Implicit Types (b : ConfigMapBuilder).

Definition CM_enabledTls b : bool :=
  match CM_ClusterConfig b with
  | Some c => if Tls c is Some _ then true else false
  | None => false
  end.

Definition getDiscoveryUri b : string :=
  let schema := if CM_enabledTls b then HttpsScheme else HttpScheme in
  let port := if CM_enabledTls b then HttpsPort else HttpPort in
  schema +:+ "://" +:+ CM_CoordiantorSvcFqdn b +:+ ":" +:+ Itoa port.

(** *** config.properties *)

Definition add_all (p : Properties) (entries : list (string * string)) : Properties :=
  foldl (λ p kv, Properties_Add p kv.1 kv.2) p entries.

Definition memory_entries b : list (string * string) :=
  match CM_TrinoConfig b with
  | Some c => [("query.max-memory", QueryMaxMemory c);
               ("query.max-memory-per-node", QueryMaxMemoryPerNode c)]
  | None => [("query.max-memory", DefaultQueryMaxMemory)]
  end.

Definition http_entries b : list (string * string) :=
  if CM_enabledTls b then
    [("internal-communication.https.required", "true");
     ("internal-communication.shared-secret", "${ENV:" +:+ InternalSharedSecretEnvName +:+ "}");
     ("http-server.https.enabled", "true");
     ("http-server.https.port", Itoa HttpsPort);
     ("http-server.https.keystore.path", path_Join [ServerTlsMountPath; "keystore.p12"]);
     ("http-server.https.keystore.key", DefaultTlsPassphrase);
     ("http-server.https.truststore.path", path_Join [ServerTlsMountPath; "truststore.p12"]);
     ("http-server.https.truststore.key", DefaultTlsPassphrase);
     ("internal-communication.https.keystore.path", path_Join [ServerTlsMountPath; "keystore.p12"]);
     ("internal-communication.https.keystore.key", DefaultTlsPassphrase);
     ("internal-communication.https.truststore.path",
        path_Join [ServerTlsMountPath; "truststore.p12"]);
     ("internal-communication.https.truststore.key", DefaultTlsPassphrase)]
  else [("http-server.http.port", Itoa HttpPort)].

(** The [p.Add] calls of [getConfigProperties] before authentication. *)
Definition config_entries b : list (string * string) :=
  [("coordinator", if decide (CM_RoleName b = "coordinator") then "true" else "false");
   ("node-scheduler.include-coordinator", "false")]
  ++ memory_entries b
  ++ [("node.internal-address-source", "FQDN");
      ("http-server.log.enabled", "false");
      ("discovery.uri", getDiscoveryUri b)]
  ++ http_entries b
  ++ [("log.compression", "none");
      ("log.format", "json");
      ("log.max-size", "5MB");
      ("log.max-total-size", "10MB");
      ("log.path", path_Join [KubedoopLogDir; "trino"; CM_RoleName b +:+ ".airlift.json"])].

Context `{!World W}.

Definition getConfigProperties b : M W Properties :=
  let p := add_all NewProperties (config_entries b) in
  match CM_ClusterConfig b with
  | Some c =>
      match Authentication c with
      | Some authentication =>
          if decide (CM_RoleName b = "coordinator") then
            authentication ← NewAuthentication (CMB_Client (CM_Base b)) authentication;
            lift (copy_properties p authentication)
          else mret p
      | None => mret p
      end
  | None => mret p
  end.

(** *** node.properties and secret.properties *)

Definition getNodeProperties b : Properties :=
  Properties_Add NewProperties "node.environment" (ReplaceByte (CM_ClusterName b) "-" "_").

Definition getSecurityProperties b : Properties :=
  let p := NewProperties in
  let p := Properties_Add p "networkaddress.cache.negative.ttl" "0" in
  let p := Properties_Add p "networkaddress.cache.ttl" "30" in
  p.

(** *** jvm.config *)

(** The memory limit of the configuration, or the default. *)
Definition heap_memory b : outcome Quantity :=
  memory ← MustParse DefaultJvmMem;
  match CM_TrinoConfig b with
  | None => mret memory
  | Some c =>
      rgc ← deref (Config_RoleGroupConfig c);
      match Resources rgc with
      | None => mret memory
      | Some resources =>
          match Memory resources with
          | None => mret memory
          | Some m => mret (Memory_Limit m)
          end
      end
  end.

Definition getHeapSize b (factor : float64) : outcome string :=
  memory ← heap_memory b;
  let value := Quantity_Value memory in
  let memory := Quantity_ToDec memory in
  let heapSize := AsApproximateFloat64 memory in
  '(unit, heapSize) ←
    (if (2 ^ 40 <=? value)%Z then mret ("G", f64_div heapSize (f64_of_Z (2 ^ 30)))
     else if (2 ^ 30 <=? value)%Z then mret ("M", f64_div heapSize (f64_of_Z (2 ^ 20)))
     else if (2 ^ 20 <=? value)%Z then mret ("K", f64_div heapSize (f64_of_Z (2 ^ 10)))
     else Panic (PanicMessage
            ("invalid memory size, must be greater than 1K. current value: "
               +:+ Quantity_String memory)));
  mret (Itoa (f64_to_int (f64_mul heapSize factor)) +:+ unit).

Definition getJvmProperties b : outcome string :=
  let javaagentPath := path_Join [KubedoopJmxDir; "jmx_prometheus_javaagent.jar"] in
  let jmxConfigPath := path_Join [KubedoopJmxDir; "config.yaml"] in
  xmx ← getHeapSize b JvmHeapFactor;
  xms ← getHeapSize b JvmHeapFactor;
  let jvm := "-server
-Xmx" +:+ xmx +:+ "
-Xms" +:+ xms +:+ "
-XX:InitialRAMPercentage=80
-XX:MaxRAMPercentage=80
-XX:G1HeapRegionSize=32M
-XX:+ExplicitGCInvokesConcurrent
-XX:+ExitOnOutOfMemoryError
-XX:+HeapDumpOnOutOfMemoryError
-XX:-OmitStackTraceInFastThrow
-XX:ReservedCodeCacheSize=512M
-XX:PerMethodRecompilationCutoff=10000
-XX:PerBytecodeRecompilationCutoff=10000
-Djdk.attach.allowAttachSelf=true
-Djdk.nio.maxCachedBufferSize=2000000
-Dfile.encoding=UTF-8
# Allow loading dynamic agent used by JOL
-XX:+EnableDynamicAgentLoading
-XX:+UnlockDiagnosticVMOptions
-XX:G1NumCollectionsKeepPinned=10000000
-Djava.net.ssl.trustStore=" +:+ path_Join [KubedoopTlsDir; "client"; "truststore.p12"] +:+ "
-Djava.net.ssl.trustStorePassword=" +:+ DefaultTlsPassphrase +:+ "
-Djava.net.ssl.trustStoreType=PKCS12
-Djava.secret.properties=" +:+ path_Join [KubedoopConfigDir; "secret.properties"] +:+ "
-javaagent:" +:+ javaagentPath +:+ "=" +:+ Itoa MetricsPort +:+ ":" +:+ jmxConfigPath +:+ "
" in
  mret (IndentTab4Spaces jvm).

(** *** Catalogs *)

Definition catalog_file (catalogType : string) : string :=
  "catalog-" +:+ catalogType +:+ ".properties".

(** One iteration of the loop over the catalogs: a catalog whose properties
    cannot be marshalled is skipped. *)
Definition add_catalog (catalogData : gmap string string)
    (entry : string * gomap string) : M W (gmap string string) :=
  let '(catalogType, catalogProperties) := entry in
  entries ← range (contents catalogProperties);
  let p := add_all NewProperties entries in
  match Properties_Marshal p with
  | Val s => mret (<[catalog_file catalogType := s]> catalogData)
  | Err _ => mret catalogData
  | Panic r => panic r
  end.

Definition getCatalogProperties b : M W (gmap string string) :=
  match CM_ClusterConfig b with
  | Some c =>
      entries ← range (contents (CatalogProperties c));
      foldM add_catalog ∅ entries
  | None => mret ∅
  end.

(** *** The whole ConfigMap *)

Definition CM_AddItem b (k v : string) : ConfigMapBuilder :=
  mkConfigMapBuilder (CMB_AddItem (CM_Base b) k v) (CM_TrinoConfig b) (CM_ClusterConfig b)
    (CM_CoordiantorSvcFqdn b) (CM_ClusterName b) (CM_RoleName b) (CM_RoleGroupName b).

(** The file of the vector agent, when log aggregation is configured. *)
Definition add_vector b : M W ConfigMapBuilder :=
  match CM_ClusterConfig b with
  | Some c =>
      if decide (VectorAggregatorConfigMapName c = "") then mret b
      else
        s ← (λ w, MakeVectorYaml (GetOwnerNamespace (CMB_Client (CM_Base b)))
               (CM_ClusterName b) (CM_RoleName b) (CM_RoleGroupName b)
               (VectorAggregatorConfigMapName c) w);
        mret (CM_AddItem b VectorConfigFileName s)
  | None => mret b
  end.

Definition ConfigMapBuilder_Build b : M W ConfigMapObject :=
  configProperties ← getConfigProperties b;
  s ← lift (Properties_Marshal configProperties);
  let b := CM_AddItem b "config.properties" s in
  s ← lift (Properties_Marshal (getNodeProperties b));
  let b := CM_AddItem b "node.properties" s in
  s ← lift (Properties_Marshal (getSecurityProperties b));
  let b := CM_AddItem b "secret.properties" s in
  jvm ← lift (getJvmProperties b);
  let b := CM_AddItem b "jvm.config" jvm in
  let b := CM_AddItem b "log.properties" "=info
" in
  b ← add_vector b;
  catalogProperties ← getCatalogProperties b;
  items ← range catalogProperties;
  let b := foldl (λ b kv, CM_AddItem b kv.1 kv.2) b items in
  mret (ConfigMap_GetObject (CM_Base b)).
End configmap.
