(* ===== verification/ConfigMapFacts.v ===== *)
(** * What the ConfigMap guarantees

    The settings of [config.properties] and how authentication extends them,
    the JVM heap, the catalogs and the set of files of the ConfigMap. *)

From Stdlib Require Import ZArith.
From S2P Require Import Prelude GoRuntime GoStrings GoFloat Externals Api Framework Concrete.
From S2P Require Import Authz AuthzFacts Secret ConfigMap.

(** ** Adding entries *)

Section add_all.
Context `{!ExtTypes, !PropertiesApi, !PropertiesLaws}.

Lemma add_all_lookup_ne p entries k :
  k ∉ entries.*1 → Properties_Get (add_all p entries) k = Properties_Get p k.
Proof.
  unfold add_all. revert p. induction entries as [|[k' v] entries IH]; intros p; simpl; [done|].
  rewrite not_elem_of_cons. intros [Hne ?]. rewrite IH by done.
  rewrite Get_Add. by rewrite decide_False by done.
Qed.

Lemma add_all_lookup p entries k v :
  NoDup entries.*1 → (k, v) ∈ entries → Properties_Get (add_all p entries) k = Some v.
Proof.
  unfold add_all. revert p. induction entries as [|[k' v'] entries IH]; intros p; simpl;
    [by rewrite elem_of_nil|].
  intros [Hk' Hnd]%NoDup_cons [[= -> ->]|Hin]%elem_of_cons; [|by apply IH].
  change (foldl _ _ entries) with (add_all (Properties_Add p k' v') entries).
  rewrite add_all_lookup_ne, Get_Add by done. by rewrite decide_True.
Qed.

(** The entries of a map, added in any order to no properties. *)
Lemma add_all_map (m : gmap string string) l k :
  l ≡ₚ map_to_list m → Properties_Get (add_all NewProperties l) k = m !! k.
Proof.
  intros Hl. assert (Hnd : NoDup l.*1) by (rewrite Hl; apply NoDup_fst_map_to_list).
  destruct (m !! k) as [v|] eqn:Hk.
  - apply add_all_lookup; [done|]. rewrite Hl. by apply elem_of_map_to_list.
  - rewrite add_all_lookup_ne, Get_New; [done|].
    intros ([k' v] & -> & Hin)%list_elem_of_fmap. rewrite Hl in Hin.
    apply elem_of_map_to_list in Hin. simpl in Hk. congruence.
Qed.
End add_all.

(** ** config.properties *)

Section config_properties.
Context `{!ExtTypes, !Constants, !PropertiesApi, !QuantityApi, !UtilApi, !InfoApi, !ClientApi}.
Context `{!PropertiesLaws, !PropertiesNilLaws} `{!World W}.
Implicit Types (b : ConfigMapBuilder) (p q : Properties).

Lemma config_entries_NoDup b : NoDup (config_entries b).*1.
Proof.
  unfold config_entries, memory_entries, http_entries.
  rewrite !fmap_app. simpl.
  destruct (CM_TrinoConfig b), (CM_enabledTls b); simpl;
    apply (bool_decide_unpack _); by vm_compute.
Qed.

(** The keys that authenticators set. *)
Definition auth_keys : list string :=
  oidc_keys ++
  ["http-server.authentication.ldap.server"; "password-authenticator.name";
   "ldap.user-base-dn"; "ldap.group-auth-pattern"; "ldap.bind-dn"; "ldap.bind-password"].

Lemma config_entries_not_auth b k : k ∈ (config_entries b).*1 → k ∉ auth_keys.
Proof.
  assert (Forall (λ k, k ∉ auth_keys) (config_entries b).*1) as Hall.
  { unfold config_entries, memory_entries, http_entries. rewrite !fmap_app. simpl.
    destruct (CM_TrinoConfig b), (CM_enabledTls b); simpl;
      apply (bool_decide_unpack _); by vm_compute. }
  rewrite Forall_forall in Hall. apply Hall.
Qed.

Lemma authenticator_keys (a : AnyAuthenticator) q k :
  GetConfigProperties a = Val (Some q) → k ∉ auth_keys → Properties_Get q k = None.
Proof.
  intros Hq Hk. unfold auth_keys, oidc_keys, auth_type_key in Hk.
  rewrite not_elem_of_app, !not_elem_of_cons in Hk. destruct_and!.
  destruct a as [o|s|l]; simpl in Hq.
  - unfold Oidc_GetConfigProperties in Hq. inv_steps Hq. injection Hq as <-.
    rewrite !Get_Add, Get_New. by rewrite !decide_False by congruence.
  - done.
  - unfold Ldap_GetConfigProperties in Hq. inv_steps Hq. injection Hq as <-.
    rewrite !Get_Add, Get_New. by rewrite !decide_False by congruence.
Qed.

Lemma copy_properties_Val `{!Authenticator T} (a : T) p p' :
  copy_properties p a = Val p' →
  (∃ q, GetConfigProperties a = Val (Some q) ∧ ∀ k, Properties_Get p' k = over p q k) ∨
  (GetConfigProperties a = Val None ∧ p' = p).
Proof.
  intros Hcopy. destruct (GetConfigProperties a) as [[q|]|e|r] eqn:Ha.
  - left. destruct (copy_properties_over a p q Ha) as (p1 & Hp1 & Hget).
    exists q. split; [done|]. congruence.
  - right. split; [done|]. unfold copy_properties in Hcopy. rewrite Ha in Hcopy.
    simpl in Hcopy. destruct Properties_nil_Keys as [ks|e|r] eqn:Hk; [|done..].
    apply nil_Keys_empty in Hk as ->. by injection Hcopy as <-.
  - unfold copy_properties in Hcopy. by rewrite Ha in Hcopy.
  - unfold copy_properties in Hcopy. by rewrite Ha in Hcopy.
Qed.

Lemma merged_keys (t : TrinoAuthentication) q k :
  GetConfigProperties t = Val (Some q) → k ∉ auth_keys → Properties_Get q k = None.
Proof.
  simpl. unfold TrinoAuthentication_GetConfigProperties. intros Hq Hk.
  apply outcome_bind_Val in Hq as (p' & Hfold & [= <-]).
  rewrite <-(Get_New k). revert Hfold. generalize NewProperties as p.
  induction (Authenticators t) as [|a as_ IH]; intros p; cbn [fold_outcome].
  { by intros [= <-]. }
  intros (p1 & Hcopy & Hfold)%outcome_bind_Val. rewrite (IH _ Hfold).
  destruct (copy_properties_Val a p p1 Hcopy) as [(q & Ha & Hget)|[_ ->]]; [|done].
  rewrite Hget. unfold over. by rewrite (authenticator_keys a q k).
Qed.

(** The bindings of [config.properties]: the settings, and besides them only
    keys of authenticators. *)
Definition config_bindings b p : Prop :=
  (∀ k v, (k, v) ∈ config_entries b → Properties_Get p k = Some v) ∧
  ∀ k, k ∉ (config_entries b).*1 → k ∉ auth_keys → Properties_Get p k = None.

Lemma add_all_config_bindings b : config_bindings b (add_all NewProperties (config_entries b)).
Proof.
  split; [intros k v; apply add_all_lookup, config_entries_NoDup|].
  intros k Hk _. by rewrite add_all_lookup_ne, Get_New.
Qed.

Lemma getConfigProperties_bindings b :
  returns (W:=W) (getConfigProperties b) (config_bindings b).
Proof.
  pose proof (add_all_config_bindings b) as Hbase. unfold getConfigProperties.
  destruct (CM_ClusterConfig b) as [c|]; [|by apply returns_ret].
  destruct (Authentication c) as [specs|]; [|by apply returns_ret].
  case_decide; [|by apply returns_ret].
  eapply returns_bind with (λ _, True); [done|]. intros t _. apply returns_lift.
  intros p Hcopy. destruct Hbase as [Hin Hout].
  destruct (copy_properties_Val t _ _ Hcopy) as [(q & Ht & Hget)|[Ht _]].
  - split; [intros k v Hkv|intros k Hk Hauth]; rewrite Hget; unfold over.
    + rewrite (merged_keys t q k); [by apply Hin|done|].
      apply (config_entries_not_auth b). apply list_elem_of_fmap. by exists (k, v).
    + rewrite (merged_keys t q k) by done. by apply Hout.
  - simpl in Ht. unfold TrinoAuthentication_GetConfigProperties in Ht.
    by inv_steps Ht.
Qed.

(** C17: whatever authentication is configured, the settings that do not
    concern it are in [config.properties] with their own values, and every
    other key is one of an authenticator: merging the authenticators'
    properties neither overrides nor adds anything else. *)
Theorem config_properties_keep_settings b :
  returns (W:=W) (getConfigProperties b) (λ p,
    (∀ k v, (k, v) ∈ config_entries b → Properties_Get p k = Some v) ∧
    ∀ k, k ∉ (config_entries b).*1 → k ∉ auth_keys → Properties_Get p k = None).
Proof. apply getConfigProperties_bindings. Qed.

(** With TLS the shared secret is read from the environment. *)
Lemma shared_secret_setting b :
  returns (W:=W) (getConfigProperties b) (λ p,
    Properties_Get p "internal-communication.shared-secret" =
      if CM_enabledTls b then Some ("${ENV:" +:+ InternalSharedSecretEnvName +:+ "}") else None).
Proof.
  eapply returns_mono; [apply getConfigProperties_bindings|]. intros p [Hin Hout].
  destruct (CM_enabledTls b) eqn:Htls.
  - apply Hin. unfold config_entries, http_entries. rewrite Htls, !elem_of_app. set_solver.
  - apply Hout; [|apply (bool_decide_unpack _); by vm_compute].
    unfold config_entries, memory_entries, http_entries. rewrite Htls, !fmap_app.
    destruct (CM_TrinoConfig b); apply (bool_decide_unpack _); by vm_compute.
Qed.

(** C11: the discovery URI names the scheme and port the server is
    configured to listen on; that is HTTPS exactly when TLS is enabled, and
    then the plain port is not configured and the shared secret for internal
    communication is read from the environment variable of the secret. *)
Theorem config_serves_discovery b :
  returns (W:=W) (getConfigProperties b) (λ p,
    let scheme := if CM_enabledTls b then "https" else "http" in
    let other := if CM_enabledTls b then "http" else "https" in
    ∃ port,
      Properties_Get p "discovery.uri"
        = Some (scheme +:+ "://" +:+ CM_CoordiantorSvcFqdn b +:+ ":" +:+ port) ∧
      Properties_Get p ("http-server." +:+ scheme +:+ ".port") = Some port ∧
      Properties_Get p ("http-server." +:+ other +:+ ".port") = None ∧
      Properties_Get p "internal-communication.shared-secret" =
        (if CM_enabledTls b then Some ("${ENV:" +:+ InternalSharedSecretEnvName +:+ "}")
         else None)).
Proof.
  eapply returns_mono; [apply getConfigProperties_bindings|].
  intros p [Hin Hout].
  assert (Hdisc : Properties_Get p "discovery.uri" = Some (getDiscoveryUri b)).
  { apply Hin. unfold config_entries. rewrite !elem_of_app. right. right. left.
    rewrite !elem_of_cons. auto. }
  assert (Hhttp : ∀ k v, (k, v) ∈ http_entries b → Properties_Get p k = Some v).
  { intros k v Hkv. apply Hin. unfold config_entries. rewrite !elem_of_app. auto. }
  unfold http_entries, getDiscoveryUri in *.
  destruct (CM_enabledTls b) eqn:Htls; simpl.
  - exists (Itoa HttpsPort). split_and!; [done| | |].
    + apply Hhttp. set_solver.
    + apply Hout; [|apply (bool_decide_unpack _); by vm_compute].
      unfold config_entries, memory_entries, http_entries. rewrite Htls, !fmap_app.
      destruct (CM_TrinoConfig b); apply (bool_decide_unpack _); by vm_compute.
    + apply Hhttp. set_solver.
  - exists (Itoa HttpPort). split_and!; [done| | |].
    + apply Hhttp. set_solver.
    + apply Hout; [|apply (bool_decide_unpack _); by vm_compute].
      unfold config_entries, memory_entries, http_entries. rewrite Htls, !fmap_app.
      destruct (CM_TrinoConfig b); apply (bool_decide_unpack _); by vm_compute.
    + apply Hout; [|apply (bool_decide_unpack _); by vm_compute].
      unfold config_entries, memory_entries, http_entries. rewrite Htls, !fmap_app.
      destruct (CM_TrinoConfig b); apply (bool_decide_unpack _); by vm_compute.
Qed.

(** The configuration of a role other than the coordinator does not
    depend on authentication: no [AuthenticationClass] is read, and nothing
    fails. *)
Lemma worker_config_ignores_authentication b w :
  CM_RoleName b ≠ "coordinator" →
  ∃ p, getConfigProperties b w = (Val p, w) ∧
    (∀ k v, (k, v) ∈ config_entries b → Properties_Get p k = Some v) ∧
    ∀ k, k ∉ (config_entries b).*1 → Properties_Get p k = None.
Proof.
  intros Hrole. exists (add_all NewProperties (config_entries b)).
  split_and!.
  - unfold getConfigProperties. destruct (CM_ClusterConfig b) as [c|]; [|done].
    destruct (Authentication c); [|done]. by rewrite decide_False.
  - intros k v. apply add_all_lookup, config_entries_NoDup.
  - intros k Hk. by rewrite add_all_lookup_ne, Get_New.
Qed.
End config_properties.

(** ** node.properties *)

Section node_properties.
Context `{!ExtTypes, !PropertiesApi, !PropertiesLaws}.
Implicit Types (b : ConfigMapBuilder).

(** The rule of Trino for the name of an environment:
    [[a-z0-9][_a-z0-9]*]. *)
#[local] Arguments is_lower_alnum : simpl never.
Definition environment_char (c : ascii) : bool := is_lower_alnum c || bool_decide (c = "_"%char).
Definition trino_environment (s : string) : bool :=
  match bytes_of s with
  | c :: l => is_lower_alnum c && forallb environment_char l
  | [] => false
  end.

Lemma ReplaceByte_environment s :
  forallb (λ c, is_lower_alnum c || bool_decide (c = "-"%char)) (bytes_of s) = true →
  forallb environment_char (bytes_of (ReplaceByte s "-" "_")) = true.
Proof.
  induction s as [|c s IH]; [done|]. simpl. rewrite !andb_true_iff. intros [Hc Hs].
  split; [|by apply IH]. destruct (decide (c = "-"%char)) as [_|Hd]; [done|].
  rewrite (bool_decide_eq_false_2 _ Hd), orb_false_r in Hc.
  unfold environment_char. by rewrite Hc.
Qed.

(** C37: a cluster whose name is a DNS-1123 label gets an environment that
    Trino accepts: the dashes, which Trino refuses, become underscores, and
    nothing else changes the length or the first character. *)
Theorem node_environment_valid b :
  dns1123_label (CM_ClusterName b) = true →
  ∃ v, Properties_Get (getNodeProperties b) "node.environment" = Some v ∧
    trino_environment v = true ∧
    String.length v = String.length (CM_ClusterName b) ∧
    head (bytes_of v) = head (bytes_of (CM_ClusterName b)).
Proof.
  unfold dns1123_label. rewrite !andb_true_iff. intros [[[_ Hall] Hfirst] _].
  exists (ReplaceByte (CM_ClusterName b) "-" "_").
  split; [unfold getNodeProperties; by rewrite Get_Add|].
  apply ReplaceByte_environment in Hall. split; [|split; [apply ReplaceByte_length|]].
  - destruct (CM_ClusterName b) as [|c s]; [done|]. unfold trino_environment. simpl in *.
    apply andb_true_iff in Hall as [_ Hs]. rewrite Hs, andb_true_r.
    case_decide as Hd; [|done]. by subst.
  - destruct (CM_ClusterName b) as [|c s]; [done|]. simpl in *.
    case_decide as Hd; [by subst|done].
Qed.
End node_properties.

(** ** jvm.config *)

Section heap.
Context `{!ExtTypes, !QuantityApi}.
Implicit Types (b : ConfigMapBuilder).
Local Open Scope Z_scope.

(** The units the heap is written in, with their number of bits. *)
Definition heap_unit (v : Z) : string * Z :=
  if 2 ^ 40 <=? v then ("G", 30) else if 2 ^ 30 <=? v then ("M", 20) else ("K", 10).

Lemma getHeapSize_value b q factor :
  heap_memory b = Val q → 2 ^ 20 ≤ Quantity_Value q →
  let '(unit, k) := heap_unit (Quantity_Value q) in
  getHeapSize b factor =
    Val (Itoa (f64_to_int (f64_mul (f64_div (AsApproximateFloat64 (Quantity_ToDec q))
                                    (f64_of_Z (2 ^ k))) factor)) +:+ unit).
Proof.
  intros Hq Hv. unfold getHeapSize, heap_unit. rewrite Hq. cbn [mbind outcome_bind].
  destruct (2 ^ 40 <=? Quantity_Value q); [done|].
  destruct (2 ^ 30 <=? Quantity_Value q); [done|].
  by rewrite (proj2 (Z.leb_le _ _) Hv).
Qed.

(** C10: for a memory limit from 1 MiB up to 2^50 bytes the heap of the JVM
    is the largest whole number of its unit that is at most eighty percent of
    the limit, although it is computed in floating point; it is positive,
    and the unit is at most a thousandth of the limit. *)
Theorem heap_is_eighty_percent b q :
  heap_memory b = Val q → 2 ^ 20 ≤ Quantity_Value q < 2 ^ 50 →
  AsApproximateFloat64 (Quantity_ToDec q) = f64_of_Z (Quantity_Value q) →
  ∃ n unit k,
    getHeapSize b JvmHeapFactor = Val (Itoa n +:+ unit) ∧
    (unit, k) ∈ [("K", 10); ("M", 20); ("G", 30)] ∧
    5 * (n * 2 ^ k) ≤ 4 * Quantity_Value q < 5 * ((n + 1) * 2 ^ k) ∧
    0 < n ∧ 1000 * 2 ^ k ≤ Quantity_Value q.
Proof.
  intros Hq [Hlo Hhi] Hfloat. pose proof (getHeapSize_value b q JvmHeapFactor Hq Hlo) as Hget.
  destruct (heap_unit (Quantity_Value q)) as [unit k] eqn:Hunit.
  assert (Hk : (unit, k) ∈ [("K", 10); ("M", 20); ("G", 30)] ∧
               (k = 10 ∨ k = 20 ∨ k = 30) ∧ 1000 * 2 ^ k ≤ Quantity_Value q).
  { unfold heap_unit in Hunit.
    destruct (Z.leb_spec (2 ^ 40) (Quantity_Value q)); [|destruct (Z.leb_spec (2 ^ 30) (Quantity_Value q))];
      injection Hunit as <- <-; (split; [set_solver|split; [auto|lia]]). }
  destruct Hk as (Hin & Hk & Hsmall). rewrite Hfloat, eighty_percent in Hget by (done || lia).
  set (v := Quantity_Value q) in *. exists (4 * v / (5 * 2 ^ k)), unit, k.
  assert (0 < 2 ^ k) by (apply Z.pow_pos_nonneg; lia).
  pose proof (Z.mul_div_le (4 * v) (5 * 2 ^ k) ltac:(lia)).
  pose proof (Z.mul_succ_div_gt (4 * v) (5 * 2 ^ k) ltac:(lia)).
  split_and!; [done|done|lia|lia| |done]. apply Z.div_str_pos. lia.
Qed.

(** A memory limit below 1 MiB makes the operator panic, although the
    message speaks of 1K. *)
Lemma small_heap_panics b q factor :
  heap_memory b = Val q → Quantity_Value q < 2 ^ 20 →
  getHeapSize b factor = Panic (PanicMessage
    ("invalid memory size, must be greater than 1K. current value: "
       +:+ Quantity_String (Quantity_ToDec q))).
Proof.
  intros Hq Hv. unfold getHeapSize. rewrite Hq. cbn [mbind outcome_bind].
  by rewrite !(proj2 (Z.leb_gt _ _)) by lia.
Qed.
End heap.

(** ** Catalogs *)

Section catalogs.
Context `{!ExtTypes, !PropertiesApi, !PropertiesLaws, !MarshalLaws} `{!World W, !RangeLaws W}.
Implicit Types (b : ConfigMapBuilder).

Definition catalogs b : gmap string (gomap string) :=
  match CM_ClusterConfig b with Some c => contents (CatalogProperties c) | None => ∅ end.

(** [s] is a rendering of the properties of a catalog. *)
Definition renders (props : gomap string) (s : string) : Prop :=
  ∃ p, Properties_Marshal p = Val s ∧ ∀ k, Properties_Get p k = contents props !! k.

(** What [data] holds once the catalogs of [entries] have been added. *)
Definition catalogs_added (data : gmap string string)
    (entries : list (string * gomap string)) : Prop :=
  (∀ f, is_Some (data !! f) ↔ ∃ t, t ∈ entries.*1 ∧ f = catalog_file t) ∧
  ∀ t props, (t, props) ∈ entries → ∃ s, data !! catalog_file t = Some s ∧ renders props s.

#[global] Instance catalog_file_inj : Inj (=) (=) catalog_file.
Proof. intros t1 t2 Heq. by apply str_app_inj_l, str_app_inj_r in Heq. Qed.

Lemma add_catalog_yields data entries entry :
  entry.1 ∉ entries.*1 → catalogs_added data entries →
  yields (W:=W) (add_catalog data entry) (λ data', catalogs_added data' (entries ++ [entry])).
Proof.
  destruct entry as [t props]. simpl. intros Hnew [Hdom Hin].
  eapply yields_bind; [apply range_yields|]. intros l Hl.
  destruct (Marshal_total (add_all NewProperties l)) as [s Hs]. rewrite Hs.
  apply yields_ret. split.
  - intros f. rewrite lookup_insert_is_Some', Hdom, fmap_app. setoid_rewrite elem_of_app. simpl.
    setoid_rewrite list_elem_of_singleton. split.
    + intros [<-|(t' & ? & ->)]; eauto.
    + intros (t' & [?| ->] & ->); eauto.
  - intros t' props' [Hold|[= -> ->]%list_elem_of_singleton]%elem_of_app.
    + destruct (Hin _ _ Hold) as (s' & Hs' & Hr). exists s'. split; [|done].
      rewrite lookup_insert_ne; [done|]. intros [= ->]%catalog_file_inj.
      apply Hnew. apply list_elem_of_fmap. by exists (t', props').
    + exists s. rewrite lookup_insert_eq. split; [done|].
      exists (add_all NewProperties l). split; [done|]. intros k. by apply add_all_map.
Qed.

Lemma getCatalogProperties_yields b :
  yields (W:=W) (getCatalogProperties b) (λ data, catalogs_added data (map_to_list (catalogs b))).
Proof.
  unfold getCatalogProperties, catalogs. destruct (CM_ClusterConfig b) as [c|].
  2: { apply yields_ret. rewrite map_to_list_empty. split; [|by intros ?? ?%elem_of_nil].
       intros f. rewrite lookup_empty. setoid_rewrite elem_of_nil. split; [by intros [??]|naive_solver]. }
  eapply yields_bind; [apply range_yields|]. intros l Hl.
  eapply yields_mono.
  - apply (yields_foldM _ (λ data rest, ∃ pre, l = pre ++ rest ∧ catalogs_added data pre)).
    + exists []. split; [done|]. split; [|by intros ?? ?%elem_of_nil].
      intros f. rewrite lookup_empty. setoid_rewrite elem_of_nil. split; [by intros [??]|naive_solver].
    + intros data entry rest (pre & -> & Hpre). eapply yields_mono.
      * apply add_catalog_yields; [|done].
        assert (Hnd : NoDup (pre ++ entry :: rest).*1)
          by (rewrite Hl; apply NoDup_fst_map_to_list).
        rewrite fmap_app, fmap_cons, NoDup_app in Hnd. destruct Hnd as (_ & Hnd & _).
        intros Hin. apply (Hnd _ Hin). set_solver.
      * intros data' Hdata'. exists (pre ++ [entry]). by rewrite <-(assoc_L (++)).
  - intros data (pre & -> & Hdom & Hin). rewrite app_nil_r in Hl. split.
    + intros f. rewrite Hdom. by setoid_rewrite Hl.
    + intros t props. rewrite <-Hl. apply Hin.
Qed.

(** C16: whatever the order in which maps are iterated, every catalog has one
    file, named after it, whose properties are those of the catalog; and
    there are no other files. *)
Theorem catalogs_have_files b :
  yields (W:=W) (getCatalogProperties b) (λ data,
    (∀ f, is_Some (data !! f) ↔ ∃ t, is_Some (catalogs b !! t) ∧ f = catalog_file t) ∧
    ∀ t props, catalogs b !! t = Some props →
      ∃ s p, data !! catalog_file t = Some s ∧ Properties_Marshal p = Val s ∧
        ∀ k, Properties_Get p k = contents props !! k).
Proof.
  eapply yields_mono; [apply getCatalogProperties_yields|]. intros data [Hdom Hin]. split.
  - intros f. rewrite Hdom. setoid_rewrite list_elem_of_fmap. split.
    + intros (t & ([t' props] & -> & Ht%elem_of_map_to_list) & ->). simpl. eauto.
    + intros (t & [props Ht] & ->). exists t. split; [|done].
      exists (t, props). by rewrite elem_of_map_to_list.
  - intros t props Ht%elem_of_map_to_list. destruct (Hin t props Ht) as (s & Hs & p & ? & ?).
    eauto.
Qed.
End catalogs.

(** ** The whole ConfigMap *)

Section configmap.
Context `{!ExtTypes, !Constants, !PropertiesApi, !QuantityApi, !UtilApi, !InfoApi, !ClientApi,
          !ConfigMapApi}.
Context `{!ConstantsLaws, !PropertiesLaws, !PropertiesNilLaws, !MarshalLaws, !ConfigMapLaws}.
Context `{!World W, !RangeLaws W}.
Implicit Types (b : ConfigMapBuilder).

Definition vector_file b : list string :=
  match CM_ClusterConfig b with
  | Some c => if decide (VectorAggregatorConfigMapName c = "") then [] else [VectorConfigFileName]
  | None => []
  end.

Definition trino_files : list string :=
  ["config.properties"; "node.properties"; "secret.properties"; "jvm.config"; "log.properties"].

Lemma AddItem_items l b :
  CMB_Items (CM_Base (foldl (λ b kv, CM_AddItem b kv.1 kv.2) b l)) = CMB_Items (CM_Base b) ++ l.
Proof.
  revert b. induction l as [|[k v] l IH]; intros b; simpl; [by rewrite app_nil_r|].
  rewrite IH. simpl. by rewrite <-(assoc_L (++)).
Qed.

(** The vector agent's file is the only item that [add_vector] adds. *)
Lemma add_vector_returns b :
  returns (W:=W) (add_vector b) (λ b', catalogs b' = catalogs b ∧
    CM_ClusterConfig b' = CM_ClusterConfig b ∧
    ∃ l, CMB_Items (CM_Base b') = CMB_Items (CM_Base b) ++ l ∧ l.*1 = vector_file b).
Proof.
  unfold add_vector, vector_file. destruct (CM_ClusterConfig b) as [c|] eqn:Hc.
  2: { apply returns_ret. split_and!; [done..|]. exists []. by rewrite app_nil_r. }
  case_decide.
  - apply returns_ret. split_and!; [done..|]. exists []. by rewrite app_nil_r.
  - eapply returns_bind with (λ _, True); [done|]. intros s _. apply returns_ret.
    split_and!; [done..|]. by exists [(VectorConfigFileName, s)].
Qed.

Lemma trino_file_no_catalog f t : f ∈ trino_files → f ≠ catalog_file t.
Proof. unfold trino_files, catalog_file. rewrite !elem_of_cons, elem_of_nil. naive_solver. Qed.

Lemma vector_file_fresh b f :
  f ∈ vector_file b → (f ∉ trino_files) ∧ ∀ t, f ≠ catalog_file t.
Proof.
  unfold vector_file. destruct (CM_ClusterConfig b); [|by intros ?%elem_of_nil].
  case_decide; [by intros ?%elem_of_nil|]. intros ->%list_elem_of_singleton.
  split; [apply VectorConfigFileName_fresh|intros t; apply VectorConfigFileName_no_catalog].
Qed.

(** The [data] made of the fixed items, the vector agent's and the catalogs'. *)
Lemma data_lookup b (fixed vec items : list (string * string)) (cats : gmap string string) :
  fixed.*1 = trino_files → vec.*1 = vector_file b → items ≡ₚ map_to_list cats →
  catalogs_added cats (map_to_list (catalogs b)) →
  let data := items_map ((fixed ++ vec) ++ items) in
  (∀ f v, (f, v) ∈ fixed → data !! f = Some v) ∧
  (∀ f, is_Some (data !! f) ↔
     f ∈ trino_files ++ vector_file b ∨ ∃ t, is_Some (catalogs b !! t) ∧ f = catalog_file t).
Proof.
  intros Hfixed Hvec Hitems [Hdom _] data.
  assert (Hdata : data = cats ∪ items_map (fixed ++ vec))
    by (unfold data; rewrite items_map_app; by apply foldl_insert_union).
  assert (Hnd : NoDup (fixed ++ vec).*1).
  { rewrite fmap_app, Hfixed, Hvec. apply NoDup_app. split_and!.
    - apply (bool_decide_unpack _); by vm_compute.
    - intros f Hf Hv. by destruct (vector_file_fresh b f Hv).
    - unfold vector_file. destruct (CM_ClusterConfig b); [|constructor].
      case_decide; [constructor|apply NoDup_singleton]. }
  assert (Hcat : ∀ f, is_Some (cats !! f) ↔ ∃ t, is_Some (catalogs b !! t) ∧ f = catalog_file t).
  { intros f. rewrite Hdom. setoid_rewrite list_elem_of_fmap. split.
    - intros (t & ([t' props] & -> & Ht%elem_of_map_to_list) & ->). simpl. eauto.
    - intros (t & [props Ht] & ->). exists t. split; [|done].
      exists (t, props). by rewrite elem_of_map_to_list. }
  split.
  - intros f v Hin. rewrite Hdata, lookup_union_r.
    + apply items_map_lookup; [done|]. apply elem_of_app. by left.
    + apply eq_None_not_Some. rewrite Hcat. intros (t & _ & Hf).
      apply (trino_file_no_catalog f t); [|done]. rewrite <-Hfixed.
      apply list_elem_of_fmap. by exists (f, v).
  - intros f. rewrite Hdata, lookup_union_is_Some, Hcat, <-Hfixed, <-Hvec, <-fmap_app.
    rewrite (or_comm (∃ t, _)). apply or_iff_compat_r. split.
    + intros [v Hv%items_map_lookup]; [|done]. apply list_elem_of_fmap. by exists (f, v).
    + intros ([f' v] & -> & Hin)%list_elem_of_fmap. exists v. by apply items_map_lookup.
Qed.

(** C9: a ConfigMap that is built holds exactly the five files of Trino, the
    vector agent's when log aggregation is configured, and one per catalog.
    No file overwrites another: each of the five has the text its renderer
    produced. *)
Theorem ConfigMap_holds_files b :
  CMB_Items (CM_Base b) = [] →
  returns (W:=W) (ConfigMapBuilder_Build b) (λ obj,
    let data := ConfigMap_Data obj in
    (∃ p s, data !! "config.properties" = Some s ∧ Properties_Marshal p = Val s ∧
       ∀ k v, (k, v) ∈ config_entries b → Properties_Get p k = Some v) ∧
    (∃ s, data !! "node.properties" = Some s ∧ Properties_Marshal (getNodeProperties b) = Val s) ∧
    (∃ s, data !! "secret.properties" = Some s ∧ Properties_Marshal (getSecurityProperties b) = Val s) ∧
    (∃ s, data !! "jvm.config" = Some s ∧ getJvmProperties b = Val s) ∧
    data !! "log.properties" = Some "=info
" ∧
    ∀ f, is_Some (data !! f) ↔ f ∈ trino_files ++ vector_file b ∨
           ∃ t, is_Some (catalogs b !! t) ∧ f = catalog_file t).
Proof.
  intros Hb. unfold ConfigMapBuilder_Build.
  eapply returns_bind; [apply getConfigProperties_bindings|]. intros p Hp.
  eapply returns_bind with (λ s, Properties_Marshal p = Val s); [by apply returns_lift|].
  intros s1 Hs1.
  eapply returns_bind with (λ s, Properties_Marshal (getNodeProperties b) = Val s);
    [by apply returns_lift|]. intros s2 Hs2.
  eapply returns_bind with (λ s, Properties_Marshal (getSecurityProperties b) = Val s);
    [by apply returns_lift|]. intros s3 Hs3.
  eapply returns_bind with (λ s, getJvmProperties b = Val s); [by apply returns_lift|].
  intros s4 Hs4.
  eapply returns_bind; [apply add_vector_returns|].
  intros b' (Hcats & Hconfig & vec & Hitems & Hvec).
  eapply returns_bind; [apply yields_returns, getCatalogProperties_yields|]. intros cats Hadded.
  eapply returns_bind; [apply range_returns|]. intros items Hl. apply returns_ret.
  cbv zeta. rewrite ConfigMap_Data_items, AddItem_items, Hitems. cbn [CM_AddItem CM_Base CMB_AddItem CMB_Items].
  rewrite Hb. rewrite Hcats in Hadded.
  destruct (data_lookup b [("config.properties", s1); ("node.properties", s2);
    ("secret.properties", s3); ("jvm.config", s4); ("log.properties", "=info
")] vec items cats eq_refl Hvec Hl Hadded) as [Hfixed Hdom].
  split_and!; [exists p, s1|exists s2|exists s3|exists s4| |exact Hdom];
    (split_and! || idtac); try (apply Hfixed; set_solver); try done. apply Hp.
Qed.

Lemma getJvmProperties_Val b q :
  heap_memory b = Val q → (2 ^ 20 ≤ Quantity_Value q)%Z → ∃ s, getJvmProperties b = Val s.
Proof.
  intros Hq Hv. pose proof (getHeapSize_value b q JvmHeapFactor Hq Hv) as Hsize.
  destruct (heap_unit _) as [unit k]. unfold getJvmProperties. rewrite Hsize. by eexists.
Qed.

(** Only a coordinator with authentication asks the API server. *)
Definition reads_authentication b : Prop :=
  CM_RoleName b = "coordinator" ∧ ∃ c, CM_ClusterConfig b = Some c ∧ is_Some (Authentication c).

Lemma getConfigProperties_plain b :
  ¬ reads_authentication b → ∃ p, ∀ w : W, getConfigProperties b w = (Val p, w).
Proof.
  intros Hplain. exists (add_all NewProperties (config_entries b)). intros w.
  unfold getConfigProperties.
  destruct (CM_ClusterConfig b) as [c|] eqn:Hc; [|done].
  destruct (Authentication c) as [auth|] eqn:Ha; [|done].
  rewrite decide_False; [done|]. intros Hrole. apply Hplain.
  split; [done|]. exists c. by rewrite Ha.
Qed.

(** The call that renders the vector agent's file, when there is one. *)
Definition vector_text b : M W string :=
  match CM_ClusterConfig b with
  | Some c =>
      if decide (VectorAggregatorConfigMapName c = "") then mret ""
      else MakeVectorYaml (GetOwnerNamespace (CMB_Client (CM_Base b))) (CM_ClusterName b)
             (CM_RoleName b) (CM_RoleGroupName b) (VectorAggregatorConfigMapName c)
  | None => mret ""
  end.

Lemma add_vector_ends b w : ends_as (add_vector b) w (vector_text b w).
Proof.
  unfold add_vector, vector_text. destruct (CM_ClusterConfig b) as [c|]; [|by exists b, w].
  case_decide; [by exists b, w|]. unfold mbind, M_bind.
  destruct (MakeVectorYaml _ _ _ _ _ w) as [[s|e|p] w1] eqn:Hrun; cbn; rewrite Hrun; try done.
  by exists (CM_AddItem b VectorConfigFileName s), w1.
Qed.

(** Without authentication to read, and with enough memory, only the rendering
    of the vector agent's file can keep the ConfigMap from being built. *)
Lemma ConfigMap_ends b q w :
  ¬ reads_authentication b →
  heap_memory b = Val q → (2 ^ 20 ≤ Quantity_Value q)%Z →
  ends_as (ConfigMapBuilder_Build b) w (vector_text b w).
Proof.
  intros Hplain Hq Hv. destruct (getJvmProperties_Val b q Hq Hv) as [jvm Hjvm].
  destruct (getConfigProperties_plain b Hplain) as [p Hp].
  destruct (Marshal_total p) as [s1 Hs1].
  destruct (Marshal_total (getNodeProperties b)) as [s2 Hs2].
  destruct (Marshal_total (getSecurityProperties b)) as [s3 Hs3].
  unfold ConfigMapBuilder_Build.
  eapply ends_as_step; [apply Hp|].
  eapply ends_as_step; [by unfold lift; rewrite Hs1|].
  eapply ends_as_step; [by unfold lift; change (getNodeProperties _) with (getNodeProperties b); rewrite Hs2|].
  eapply ends_as_step; [by unfold lift; change (getSecurityProperties _) with (getSecurityProperties b); rewrite Hs3|].
  eapply ends_as_step; [by unfold lift; change (getJvmProperties _) with (getJvmProperties b); rewrite Hjvm|].
  eapply ends_as_bind with (Q := λ _, True); [done| |exact (add_vector_ends _ w)].
  intros b' _. eapply yields_bind; [apply getCatalogProperties_yields|]. intros cats _.
  eapply yields_bind; [apply range_yields|]. intros l _. by apply yields_ret.
Qed.

(** C21: building the ConfigMap of a role other than the coordinator, with a
    memory limit of at least 1 MiB (the default one is; a configuration without
    its embedded resources has none), reads no authentication, although one
    may be configured: without log aggregation it succeeds in every state of the
    world; with log aggregation it ends as rendering the vector agent's file
    does, the one step that may ask the API server: it succeeds if that
    succeeds, and otherwise fails with the same error and does nothing more. *)
Theorem worker_ConfigMap_built b q w :
  CM_RoleName b ≠ "coordinator" →
  heap_memory b = Val q → (2 ^ 20 ≤ Quantity_Value q)%Z →
  (vector_file b = [] → ∃ obj w', ConfigMapBuilder_Build b w = (Val obj, w')) ∧
  (∀ c, CM_ClusterConfig b = Some c → VectorAggregatorConfigMapName c ≠ "" →
     ends_as (ConfigMapBuilder_Build b) w
       (MakeVectorYaml (GetOwnerNamespace (CMB_Client (CM_Base b))) (CM_ClusterName b)
          (CM_RoleName b) (CM_RoleGroupName b) (VectorAggregatorConfigMapName c) w)).
Proof.
  intros Hrole Hq Hv. pose proof (ConfigMap_ends b q w) as Hends.
  unfold vector_text, vector_file in *. split.
  - intros Hnone. destruct (CM_ClusterConfig b) as [c|]; [case_decide; [|done]|];
      by apply Hends; [intros [? _]|..].
  - intros c Hc Hname. rewrite Hc, decide_False in Hends by done.
    by apply Hends; [intros [? _]|..].
Qed.

(** C38: a role whose configuration is present but has no embedded
    [RoleGroupConfigSpec], which is a pointer, makes the operator panic: the
    ConfigMap is not built although the memory has a default. *)
Theorem config_without_resources_panics b c p q w w1 :
  CM_TrinoConfig b = Some c → Config_RoleGroupConfig c = None →
  MustParse DefaultJvmMem = Val q →
  getConfigProperties b w = (Val p, w1) →
  ConfigMapBuilder_Build b w = (Panic NilDereference, w1).
Proof.
  intros Hc Hnil Hq Hp. unfold ConfigMapBuilder_Build.
  rewrite (M_bind_step _ _ _ _ _ Hp).
  destruct (Marshal_total p) as [s1 Hs1]. rewrite Hs1.
  erewrite M_bind_step by done.
  destruct (Marshal_total (getNodeProperties b)) as [s2 Hs2].
  erewrite M_bind_step by (by unfold lift; change (getNodeProperties _) with (getNodeProperties b); rewrite Hs2).
  destruct (Marshal_total (getSecurityProperties b)) as [s3 Hs3].
  erewrite M_bind_step by (by unfold lift; change (getSecurityProperties _) with (getSecurityProperties b); rewrite Hs3).
  apply M_bind_panic. unfold lift, getJvmProperties, getHeapSize, heap_memory. simpl.
  by rewrite Hq, Hc, Hnil.
Qed.
End configmap.

(** ** Witnesses *)

Module ConfigMapWitnesses.
Import Concrete.

Definition builder_of (role : string) (config : option ConfigSpec) : ConfigMapBuilder :=
  NewConfigReconciler client "my-trino-coordinator-default" (Some cluster_config) config
    (group role).
Definition coordinator : ConfigMapBuilder := builder_of "coordinator" (Some (limits (2 ^ 31))).
Definition worker : ConfigMapBuilder := builder_of "worker" None.

Definition coordinator_run : outcome Properties * world :=
  getConfigProperties coordinator auth_world.
Definition coordinator_properties : Properties := value_of coordinator_run.1 ∅.

Lemma coordinator_properties_run :
  getConfigProperties coordinator auth_world = (Val coordinator_properties, coordinator_run.2).
Proof. apply run_value. vm_compute. reflexivity. Qed.

Lemma config_properties_keep_settings_witness :
  is_Some (Properties_Get coordinator_properties "http-server.authentication.type") ∧
  (∀ k v, (k, v) ∈ config_entries coordinator →
     Properties_Get coordinator_properties k = Some v) ∧
  ∀ k, k ∉ (config_entries coordinator).*1 → k ∉ auth_keys →
    Properties_Get coordinator_properties k = None.
Proof.
  split; [by eexists; vm_compute|].
  exact (config_properties_keep_settings coordinator auth_world coordinator_properties _
           coordinator_properties_run).
Defined.

Lemma config_serves_discovery_witness :
  ∃ port, Properties_Get coordinator_properties "discovery.uri"
      = Some ("https://my-trino-coordinator-default:" +:+ port) ∧
    Properties_Get coordinator_properties "http-server.https.port" = Some port.
Proof.
  destruct (config_serves_discovery coordinator auth_world coordinator_properties _
              coordinator_properties_run) as (port & Hd & Hp & _).
  exists port. split; [exact Hd|exact Hp].
Defined.

Lemma worker_config_ignores_authentication_witness :
  ∃ p, getConfigProperties worker empty_world = (Val p, empty_world) ∧
    Properties_Get p "coordinator" = Some "false".
Proof.
  destruct (worker_config_ignores_authentication worker empty_world) as (p & Hrun & Hin & _);
    [discriminate|].
  exists p. split; [exact Hrun|]. apply Hin. apply elem_of_cons. left. reflexivity.
Defined.

Lemma node_environment_valid_witness :
  ∃ v, Properties_Get (getNodeProperties worker) "node.environment" = Some v ∧
    trino_environment v = true ∧ v = "my_trino".
Proof.
  destruct (node_environment_valid worker) as (v & Hv & Ht & _); [reflexivity|].
  exists v. split_and!; [exact Hv|exact Ht|]. vm_compute in Hv. by injection Hv.
Defined.

Lemma heap_is_eighty_percent_witness :
  ∃ n unit k, getHeapSize coordinator JvmHeapFactor = Val (Itoa n +:+ unit) ∧
    (unit, k) ∈ [("K", 10%Z); ("M", 20%Z); ("G", 30%Z)] ∧
    (5 * (n * 2 ^ k) ≤ 4 * 2 ^ 31 < 5 * ((n + 1) * 2 ^ k) ∧ 0 < n ∧ 1000 * 2 ^ k ≤ 2 ^ 31)%Z.
Proof.
  exact (heap_is_eighty_percent coordinator (2 ^ 31)%Z eq_refl
           ltac:(split; [vm_compute; discriminate|reflexivity]) eq_refl).
Defined.

Lemma small_heap_panics_witness :
  ∃ msg, getHeapSize (builder_of "worker" (Some (limits 1000000))) JvmHeapFactor
           = Panic (PanicMessage msg).
Proof.
  eexists. exact (small_heap_panics (builder_of "worker" (Some (limits 1000000))) 1000000%Z
    JvmHeapFactor eq_refl eq_refl).
Defined.

Lemma catalogs_have_files_witness :
  ∃ data w', getCatalogProperties worker empty_world = (Val data, w') ∧
    is_Some (data !! "catalog-tpch.properties") ∧ ¬ is_Some (data !! "tpch").
Proof.
  destruct (catalogs_have_files worker empty_world) as (data & w' & Hrun & Hdom & _).
  exists data, w'. split; [exact Hrun|]. split.
  - apply Hdom. exists "tpch". split; [by eexists|reflexivity].
  - rewrite Hdom. intros (t & _ & Heq). discriminate.
Defined.

Lemma coordinator_built :
  ConfigMapBuilder_Build coordinator auth_world =
    (Val (value_of (ConfigMapBuilder_Build coordinator auth_world).1 ∅),
     (ConfigMapBuilder_Build coordinator auth_world).2).
Proof. apply run_value. vm_compute. reflexivity. Qed.

Lemma ConfigMap_holds_files_witness :
  ∃ obj w', ConfigMapBuilder_Build coordinator auth_world = (Val obj, w') ∧
    is_Some (ConfigMap_Data obj !! "jvm.config") ∧
    is_Some (ConfigMap_Data obj !! "catalog-bare.properties").
Proof.
  pose proof (ConfigMap_holds_files coordinator eq_refl auth_world _ _ coordinator_built)
    as (_ & _ & _ & (s & Hs & _) & _ & Hdom).
  do 2 eexists. split; [exact coordinator_built|]. split; [by exists s|].
  apply Hdom. right. exists "bare". split; [by eexists|reflexivity].
Defined.

(** A worker with log aggregation, in a world whose API server refuses
    everything: the error is the one of rendering the agent's file. *)
Definition logging_worker : ConfigMapBuilder :=
  NewConfigReconciler client "my-trino-coordinator-default"
    (Some (mkClusterConfigSpec (Some [oidc_spec]) None None "" None "vector-aggregator-discovery"))
    None (group "worker").
#[local] Existing Instance AuthzWitnesses.locked_world | 20.
#[local] Instance locked_laws : RangeLaws AuthzWitnesses.locked | 20.
Proof. by intros A m w. Qed.

Lemma worker_ConfigMap_built_witness :
  (∃ obj w', ConfigMapBuilder_Build worker empty_world = (Val obj, w')) ∧
  ConfigMapBuilder_Build logging_worker AuthzWitnesses.Locked
    = (Err forbidden, AuthzWitnesses.Locked).
Proof.
  split.
  - apply (worker_ConfigMap_built worker 2000000000%Z empty_world);
      [discriminate|reflexivity|vm_compute; discriminate|reflexivity].
  - refine (proj2 (worker_ConfigMap_built logging_worker 2000000000%Z AuthzWitnesses.Locked
              _ eq_refl _) _ eq_refl _); [discriminate|vm_compute; discriminate|discriminate].
Defined.

Lemma config_without_resources_panics_witness :
  ConfigMapBuilder_Build (builder_of "worker" (Some (mkConfigSpec None "5GB" "1GB"))) empty_world
    = (Panic NilDereference, empty_world).
Proof.
  exact (config_without_resources_panics
    (builder_of "worker" (Some (mkConfigSpec None "5GB" "1GB"))) _
    (add_all NewProperties (config_entries (builder_of "worker" (Some (mkConfigSpec None "5GB" "1GB")))))
    2000000000%Z _ _ eq_refl eq_refl eq_refl eq_refl).
Defined.
End ConfigMapWitnesses.
