(* ===== verification/StatefulSet.v ===== *)
(** * The StatefulSet of a role group ([internal/controller/common/statefulset.go])

    [StatefulSetBuilder_Build] fills the builder with the claim of the data
    volume, the volumes, and the main container: its command line, volume
    mounts, environment, ports and probes.  Each part builds the
    authenticators anew, with reads of its own. *)

From Stdlib Require Import ZArith.
From S2P Require Import Prelude GoRuntime GoStrings Externals Api Framework Authz Secret ConfigMap.

Section names.
Context `{!Constants}.
Definition TrinoConfigDir : string := KubedoopConfigDir.
Definition TrinoConfigMountDir : string := KubedoopConfigDirMount.
Definition TrinoDataDir : string := KubedoopDataDir.
Definition TrinoLogDir : string := KubedoopLogDir.
End names.

Definition TrinoConfigVolumeName : string := "config".
Definition TrinoDataVolumeName : string := "data".
Definition TrinoLogVolumeName : string := "log".
Definition TrinoServerTlsVolumeName : string := "server-tls".
Definition TrinoInternalTlsVolumeName : string := "internal-tls".
Definition TrinoClientTlsVolumeName : string := "client-tls".

Section statefulset.
Context `{!ExtTypes, !Constants, !PropertiesApi, !QuantityApi, !UtilApi, !InfoApi,
          !ClientApi, !StatefulSetApi, !ReconcilerApi}.

Record StatefulSetBuilder := mkStatefulSetBuilder {
  SS_Base : BaseStatefulSetBuilder;
  SS_ClusterConfig : option ClusterConfigSpec;
  SS_Resource : option ResourcesSpec;
  SS_Image : Image;
  SS_ClusterName : string;
  SS_RoleName : string;
  SS_ports : list ContainerPort;
}.

(** The constructor does not set [Resource]. *)
Definition NewStatefulSetBuilder (client : Client) (name : string) (replicas : option Z)
    (image : Image) (clusterConfig : option ClusterConfigSpec) (ports : list ContainerPort)
    (overrides : option OverridesSpec) (roleGroupConfig : option RoleGroupConfigSpec)
    (options : list Option_fn) : StatefulSetBuilder :=
  let opts := apply_options options in
  mkStatefulSetBuilder
    (NewBaseStatefulSetBuilder client name replicas image overrides roleGroupConfig options)
    clusterConfig None image (Opt_ClusterName opts) (Opt_RoleName opts) ports.

(** [reconciler.StatefulSet]: the builder and whether the cluster is stopped. *)
Record StatefulSetReconciler := mkStatefulSetReconciler {
  SSR_Client : Client;
  SSR_Builder : StatefulSetBuilder;
  SSR_Stopped : bool;
}.

(** The error result is always nil. *)
Definition NewStatefulSetReconciler (client : Client) (clusterConfig : option ClusterConfigSpec)
    (roleGroupInfo : RoleGroupInfo) (image : Image) (stopped : bool) (replicas : option Z)
    (ports : list ContainerPort) (overrides : option OverridesSpec)
    (roleGroupConfig : option ConfigSpec) (options : list Option_fn)
    : outcome StatefulSetReconciler :=
  let commonsRoleGroupConfig := roleGroupConfig ≫= Config_RoleGroupConfig in
  let builder := NewStatefulSetBuilder client (RoleGroupInfo_GetFullName roleGroupInfo)
    replicas image clusterConfig ports overrides commonsRoleGroupConfig options in
  mret (mkStatefulSetReconciler client builder stopped).

Implicit Types (b : StatefulSetBuilder).

Definition SS_enabledTls b : bool :=
  match SS_ClusterConfig b with
  | Some c => if Tls c is Some _ then true else false
  | None => false
  end.

Definition getDataStorageSize b : outcome Quantity :=
  match SS_Resource b with
  | Some r =>
      match Storage r with
      | Some s => if Quantity_IsZero (Capacity s) then MustParse "1Gi" else mret (Capacity s)
      | None => MustParse "1Gi"
      end
  | None => MustParse "1Gi"
  end.

Definition getPvcTemplates b : outcome (list PersistentVolumeClaimTemplate) :=
  size ← getDataStorageSize b;
  mret [mkPVCTemplate TrinoDataVolumeName ∅
          (mkPVCSpec ["ReadWriteOnce"] None (Some "Filesystem") size)].

Definition buildTlsVolume (name secretClassName : string) : outcome Volume :=
  size ← MustParse "1Mi";
  let annotations : gmap string string := foldl (λ m kv, <[kv.1 := kv.2]> m) ∅
    [(AnnotationSecretsClass, secretClassName);
     (AnnotationSecretsScope, strings_Join [PodScope; NodeScope] ",");
     (AnnotationSecretsFormat, TLSP12);
     (AnnotationSecretsPKCS12Password, DefaultTlsPassphrase)] in
  mret (mkVolume name (EphemeralSource (mkPVCTemplate "" annotations
          (mkPVCSpec ["ReadWriteOnce"] SecretStorageClassPtr None size)))).

(** The volumes of every pod, and those of TLS. *)
Definition base_volumes b : outcome (list Volume) :=
  log ← MustParse "1Gi";
  client ← MustParse "1Mi";
  mret [mkVolume TrinoConfigVolumeName (ConfigMapSource (STB_GetName (SS_Base b)));
        mkVolume TrinoLogVolumeName (EmptyDirSource log);
        mkVolume TrinoClientTlsVolumeName (EmptyDirSource client)].

Definition tls_volumes b : outcome (list Volume) :=
  match SS_ClusterConfig b with
  | Some c =>
      match Tls c with
      | Some tls =>
          let secretClassName :=
            if decide (ServerSecretClass tls = "") then "tls" else ServerSecretClass tls in
          server ← buildTlsVolume TrinoServerTlsVolumeName secretClassName;
          internal ← buildTlsVolume TrinoInternalTlsVolumeName secretClassName;
          mret [server; internal]
      | None => mret []
      end
  | None => mret []
  end.

Definition base_mounts b : list VolumeMount :=
  [mkVolumeMount TrinoConfigVolumeName TrinoConfigMountDir;
   mkVolumeMount TrinoDataVolumeName TrinoDataDir;
   mkVolumeMount TrinoLogVolumeName TrinoLogDir;
   mkVolumeMount TrinoClientTlsVolumeName ClientTlsPath]
  ++ (if SS_enabledTls b then
        [mkVolumeMount TrinoServerTlsVolumeName ServerTlsMountPath;
         mkVolumeMount TrinoInternalTlsVolumeName InternalTlsMountPath]
      else []).

(** The script that the main container runs. *)
Definition main_script (authCommands : string) : string :=
  "
set -ex
mkdir -p " +:+ TrinoConfigDir +:+ "
cp " +:+ path_Join [TrinoConfigMountDir; "*"] +:+ " " +:+ TrinoConfigDir +:+ "

# TODO: remove this in futrue ,Move catalog files to catalog directory
mkdir -p " +:+ TrinoConfigDir +:+ "catalog" +:+ "
for f in " +:+ path_Join [TrinoConfigDir; "catalog-*"] +:+ "; do
  if [ -f " +:+ dquote +:+ "$f" +:+ dquote +:+ " ]; then
	echo " +:+ dquote +:+ "Moving $f to catalog directory" +:+ dquote +:+ "
    filename=$(basename " +:+ dquote +:+ "$f" +:+ dquote +:+ ")
    newname=$(echo " +:+ dquote +:+ "$filename" +:+ dquote +:+ " | sed 's/^catalog-//')
    mv " +:+ dquote +:+ "$f" +:+ dquote +:+ " " +:+ path_Join [TrinoConfigDir; "catalog"; "$newname"] +:+ "
  fi
done

prepare_signal_handlers()
{
    unset term_child_pid
    unset term_kill_needed
    trap 'handle_term_signal' TERM
}

handle_term_signal()
{
    if [ " +:+ dquote +:+ "${term_child_pid}" +:+ dquote +:+ " ]; then
        kill -TERM " +:+ dquote +:+ "${term_child_pid}" +:+ dquote +:+ " 2>/dev/null
    else
        term_kill_needed=" +:+ dquote +:+ "yes" +:+ dquote +:+ "
    fi
}

wait_for_termination()
{
    set +e
    term_child_pid=$1
    if [[ -v term_kill_needed ]]; then
        kill -TERM " +:+ dquote +:+ "${term_child_pid}" +:+ dquote +:+ " 2>/dev/null
    fi
    wait ${term_child_pid} 2>/dev/null
    trap - TERM
    wait ${term_child_pid} 2>/dev/null
    set -e
}

rm -f /kubedoop/log/_vector/shutdown
prepare_signal_handlers

keytool \
	-importkeystore \
	-srckeystore /etc/pki/java/cacerts \
	-srcstoretype JKS \
	-srcstorepass " +:+ DefaultTlsPassphrase +:+ "\
	-destkeystore " +:+ path_Join [ClientTlsPath; "truststore.p12"] +:+ "\
	-deststoretype PKCS12 \
	-deststorepass " +:+ DefaultTlsPassphrase +:+ "\
	-noprompt

" +:+ authCommands +:+ "

bin/launcher run --etc-dir " +:+ TrinoConfigDir +:+ " --data-dir " +:+ TrinoDataDir +:+ "
wait_for_termination $!
mkdir -p /kubedoop/log/_vector && touch /kubedoop/log/_vector/shutdown
".

Definition main_probe b : Probe :=
  let portName := if SS_enabledTls b then "https" else "http" in
  let schema := if SS_enabledTls b then "HTTPS" else "HTTP" in
  mkProbe "/v1/info" portName schema 30 5 10 6 1.

Context `{!World W}.

(** [if b.ClusterConfig != nil && b.ClusterConfig.Authentication != nil]:
    what [f] takes from the authenticators, [none] without authentication. *)
Definition with_authentication {A} b (none : A) (f : TrinoAuthentication → outcome A) : M W A :=
  match SS_ClusterConfig b with
  | Some c =>
      match Authentication c with
      | Some authentication =>
          auth ← NewAuthentication (STB_Client (SS_Base b)) authentication;
          lift (f auth)
      | None => mret none
      end
  | None => mret none
  end.

Definition getMainContainerEnvVars b : M W (list EnvVar) :=
  with_authentication b [] GetEnvVars.

Definition getMainContainerArgs b : M W (list string) :=
  authCommands ← with_authentication b "" (λ auth,
    commands ← GetCommands auth;
    mret (strings_Join commands "
"));
  mret [IndentTab4Spaces (main_script authCommands)].

Definition getMainContainerVolumeMounts b : M W (list VolumeMount) :=
  with_authentication b (base_mounts b) (λ auth,
    mounts ← GetVolumeMounts auth;
    mret (base_mounts b ++ mounts)).

Definition getVolumes b : M W (list Volume) :=
  base ← lift (base_volumes b);
  tls ← lift (tls_volumes b);
  with_authentication b (base ++ tls) (λ auth,
    volumes ← GetVolumes auth;
    mret ((base ++ tls) ++ volumes)).

Definition getMainContainer b : M W Container :=
  args ← getMainContainerArgs b;
  volumeMounts ← getMainContainerVolumeMounts b;
  envVars ← getMainContainerEnvVars b;
  mret (BuiltContainer (SS_RoleName b) (SS_Image b)
    ([SetCommand ["sh"; "-c"]; SetArgs args; AddVolumeMounts volumeMounts]
     ++ (if SS_enabledTls b
         then [AddEnvFromSecret (getInternalSharedSecretName (SS_ClusterName b))] else [])
     ++ [AddEnvVars envVars; AddPorts (SS_ports b);
         SetLivenessProbe (main_probe b); SetReadinessProbe (main_probe b)])).

Definition vector_enabled b : bool :=
  match SS_ClusterConfig b with
  | Some c => negb (bool_decide (VectorAggregatorConfigMapName c = ""))
  | None => false
  end.

(** The StatefulSet: the volumes and containers of its pods, and the rest. *)
Definition StatefulSetBuilder_Build b : M W (list Volume * list Container * StatefulSetRest) :=
  claims ← lift (getPvcTemplates b);
  let base := AddVolumeClaimTemplates (SS_Base b) claims in
  volumes ← getVolumes b;
  let base := AddVolumes base volumes in
  container ← getMainContainer b;
  let base := AddContainer base container in
  '(volumes, containers, rest) ← lift (StatefulSet_GetObject base);
  if vector_enabled b then
    mret (volumes ++ Vector_GetVolumes TrinoConfigVolumeName TrinoLogVolumeName (STB_GetImage base),
          containers ++ [VectorContainer TrinoConfigVolumeName TrinoLogVolumeName (STB_GetImage base)],
          rest)
  else mret (volumes, containers, rest).
End statefulset.
