(* ===== verification/StatefulSetFacts.v ===== *)
(** * What the StatefulSet guarantees

    The volumes of the pods and what mounts them, the TLS volumes, the size of
    the data volume, and how authentication failures surface. *)

From Stdlib Require Import ZArith.
From S2P Require Import Prelude GoRuntime GoStrings Externals Api Framework Concrete.
From S2P Require Import Authz AuthzFacts Secret ConfigMap StatefulSet.

(** ** Volumes and mounts *)

Section volumes.
Context `{!ExtTypes, !Constants, !PropertiesApi, !QuantityApi, !UtilApi, !InfoApi, !ClientApi,
          !StatefulSetApi}.
Context `{!World W}.
Implicit Types (b : StatefulSetBuilder).

Lemma base_volumes_names b vs :
  base_volumes b = Val vs → Volume_Name <$> vs = ["config"; "log"; "client-tls"].
Proof. unfold base_volumes. intros Hv. inv_steps Hv. by injection Hv as <-. Qed.

Lemma buildTlsVolume_name name class v : buildTlsVolume name class = Val v → Volume_Name v = name.
Proof. unfold buildTlsVolume. intros Hv. inv_steps Hv. by injection Hv as <-. Qed.

Lemma tls_volumes_names b vs :
  tls_volumes b = Val vs →
  Volume_Name <$> vs = if SS_enabledTls b then ["server-tls"; "internal-tls"] else [].
Proof.
  unfold tls_volumes, SS_enabledTls. destruct (SS_ClusterConfig b) as [c|]; [|by intros [= <-]].
  destruct (Tls c) as [tls|]; [|by intros [= <-]].
  intros Hv. inv_step Hv. inv_step Hv. injection Hv as <-. simpl.
  apply buildTlsVolume_name in Ha as ->. by apply buildTlsVolume_name in Ha0 as ->.
Qed.

(** The names of the volumes that do not come from authentication. *)
Definition own_volume_names b : list string :=
  ["config"; "log"; "client-tls"]
  ++ (if SS_enabledTls b then ["server-tls"; "internal-tls"] else []).

Lemma own_volumes b base tls :
  base_volumes b = Val base → tls_volumes b = Val tls →
  Volume_Name <$> base ++ tls = own_volume_names b.
Proof.
  intros Hb Ht. by rewrite fmap_app, (base_volumes_names b base Hb), (tls_volumes_names b tls Ht).
Qed.

Lemma base_mounts_names b : Mount_Name <$> base_mounts b ≡ₚ "data" :: own_volume_names b.
Proof.
  unfold base_mounts, own_volume_names.
  destruct (SS_enabledTls b); apply (bool_decide_unpack _); by vm_compute.
Qed.

Lemma getPvcTemplates_names b l : getPvcTemplates b = Val l → PVC_Name <$> l = ["data"].
Proof. unfold getPvcTemplates. intros Hl. inv_step Hl. by injection Hl as <-. Qed.

(** What authentication adds to a list, in a successful run. *)
Lemma with_authentication_returns {A} b (none : A) (f : TrinoAuthentication → outcome A)
    (Q : A → Prop) :
  Q none →
  (∀ c specs, SS_ClusterConfig b = Some c → Authentication c = Some specs →
     returns (W:=W) (NewAuthentication (STB_Client (SS_Base b)) specs)
       (λ t, ∀ a, f t = Val a → Q a)) →
  returns (W:=W) (with_authentication b none f) Q.
Proof.
  intros Hnone Hf. unfold with_authentication.
  destruct (SS_ClusterConfig b) as [c|]; [|by apply returns_ret].
  destruct (Authentication c) as [specs|] eqn:Hspecs; [|by apply returns_ret].
  eapply returns_bind; [by eapply Hf|]. intros t Ht. by apply returns_lift.
Qed.

Context `{!RangeLaws W}.

Lemma getVolumes_names b :
  returns (W:=W) (getVolumes b) (λ vs, ∃ names,
    Volume_Name <$> vs = own_volume_names b ++ names ∧ NoDup names ∧
    ∀ n, n ∈ names → n ∈ ["ldap-bind-credentials"; "auth-secrets-"]).
Proof.
  unfold getVolumes.
  eapply returns_bind with (λ base, base_volumes b = Val base); [by apply returns_lift|].
  intros base Hbase.
  eapply returns_bind with (λ tls, tls_volumes b = Val tls); [by apply returns_lift|].
  intros tls Htls. apply with_authentication_returns.
  - exists []. rewrite (own_volumes b base tls), app_nil_r by done.
    split_and!; [done|constructor|by intros n ?%elem_of_nil].
  - intros c specs _ _. eapply returns_mono; [apply NewAuthentication_volume_names|].
    intros t Ht vs Hvs. inv_step Hvs. injection Hvs as <-.
    destruct (Ht _ Ha) as [Hnd Hin]. exists (Volume_Name <$> a).
    by rewrite fmap_app, (own_volumes b base tls).
Qed.

(** The OIDC configurations of a cluster. *)
Definition oidc_configs (c : option ClusterConfigSpec) : list OidcSpec :=
  match c with
  | Some c => omap AuthSpec_Oidc (default [] (Authentication c))
  | None => []
  end.

(** Where the environment of the main container comes from. *)
Lemma getMainContainer_environment b :
  returns (W:=W) (getMainContainer b) (λ c,
    container_env_from c =
      (if SS_enabledTls b then [getInternalSharedSecretName (SS_ClusterName b)] else []) ∧
    ∀ v, v ∈ container_env_vars c →
      ∃ config, config ∈ oidc_configs (SS_ClusterConfig b) ∧ v ∈ oidc_variables config).
Proof.
  unfold getMainContainer.
  eapply returns_bind with (λ _, True); [done|]. intros args _.
  eapply returns_bind with (λ _, True); [done|]. intros ms _.
  eapply returns_bind.
  { apply (with_authentication_returns b [] GetEnvVars (λ vars, ∀ v, v ∈ vars →
      ∃ config, config ∈ oidc_configs (SS_ClusterConfig b) ∧ v ∈ oidc_variables config)).
    - by intros v ?%elem_of_nil.
    - intros c specs Hc Hspecs. eapply returns_mono; [apply NewAuthentication_env_vars|].
      intros t Ht vars Hvars v Hv. unfold oidc_configs. rewrite Hc, Hspecs. by eapply Ht. }
  intros vars Hvars. apply returns_ret.
  unfold container_env_from, container_env_vars.
  destruct (SS_enabledTls b); cbn; (split; [done|]); intros v; rewrite app_nil_r; apply Hvars.
Qed.

(** What [Build] appends for log aggregation. *)
Definition vector_volumes b : list Volume :=
  if vector_enabled b
  then Vector_GetVolumes TrinoConfigVolumeName TrinoLogVolumeName (STB_Image (SS_Base b)) else [].
Definition vector_containers b : list Container :=
  if vector_enabled b
  then [VectorContainer TrinoConfigVolumeName TrinoLogVolumeName (STB_Image (SS_Base b))] else [].

(** A builder to which nothing has been added, without overrides. *)
Definition fresh_builder (base : BaseStatefulSetBuilder) : Prop :=
  STB_Volumes base = [] ∧ STB_Claims base = [] ∧ STB_Containers base = [] ∧
  STB_Overrides base = None.

Context `{!StatefulSetLaws}.

(** The parts of a StatefulSet that is built, from what is known of the
    volumes and of the main container. *)
Lemma StatefulSetBuilder_Build_returns b (P : list Volume → Prop) (Q : Container → Prop) :
  fresh_builder (SS_Base b) →
  returns (W:=W) (getVolumes b) P → returns (W:=W) (getMainContainer b) Q →
  returns (W:=W) (StatefulSetBuilder_Build b) (λ '(volumes, containers, rest),
    ∃ own c container,
      volumes = own ++ vector_volumes b ∧ P own ∧
      containers = c :: vector_containers b ∧
      container_mounts c = container_mounts container ∧ Q container ∧
      PVC_Name <$> StatefulSet_Claims rest = ["data"]).
Proof.
  intros (Hv & Hc & Hcs & Ho) HP HQ. unfold StatefulSetBuilder_Build.
  eapply returns_bind with (λ l, PVC_Name <$> l = ["data"]).
  { apply returns_lift, getPvcTemplates_names. }
  intros claims Hclaims. eapply returns_bind; [exact HP|]. intros own Hown.
  eapply returns_bind; [exact HQ|]. intros container Hcontainer.
  eapply returns_bind; [apply returns_lift; intros o Hobj; exact Hobj|].
  intros [[volumes containers] rest] Hobj.
  apply GetObject_pod in Hobj as (Hvs & Hms & Hcl); [|done].
  cbn in Hvs, Hms, Hcl. rewrite Hv in Hvs. rewrite Hcs in Hms. rewrite Hc in Hcl.
  destruct containers as [|c [|? ?]]; [done| |done]. injection Hms as Hms.
  unfold vector_volumes, vector_containers. rewrite STB_GetImage_image.
  destruct (vector_enabled b); apply returns_ret; exists own, c, container;
    rewrite Hcl, Hvs, ?app_nil_r; by split_and!.
Qed.

(** The names of the volumes and claims that the operator itself can add. *)
Definition trino_volume_names : list string :=
  ["config"; "data"; "log"; "client-tls"; "server-tls"; "internal-tls";
   "ldap-bind-credentials"; "auth-secrets-"].

Lemma own_names_NoDup b names :
  NoDup names → (∀ n, n ∈ names → n ∈ ["ldap-bind-credentials"; "auth-secrets-"]) →
  NoDup ((own_volume_names b ++ names) ++ ["data"]) ∧
  ∀ n, n ∈ (own_volume_names b ++ names) ++ ["data"] → n ∈ trino_volume_names.
Proof.
  intros Hnd Hin.
  assert (Hfixed : ∀ n, n ∈ names → n ∉ own_volume_names b ++ ["data"]).
  { intros n [->|[->|[]%elem_of_nil]%elem_of_cons]%Hin%elem_of_cons;
      unfold own_volume_names; destruct (SS_enabledTls b);
      apply (bool_decide_unpack _); by vm_compute. }
  split.
  - rewrite <-(assoc_L (++)), (Permutation_app_comm names), (assoc_L (++)).
    apply NoDup_app. split_and!; [|naive_solver|done].
    unfold own_volume_names. destruct (SS_enabledTls b); apply (bool_decide_unpack _); by vm_compute.
  - intros n. rewrite !elem_of_app. intros [[Hn|Hn%Hin]|Hn]; revert n Hn; apply Forall_forall;
      unfold own_volume_names; destruct (SS_enabledTls b); apply (bool_decide_unpack _); by vm_compute.
Qed.

(** C15: without overrides of the user, the volumes of a pod and its claim
    templates have pairwise different names, whatever authentication is configured and whatever the API server
    answers, except for those of the vector agent: with log aggregation the
    names are distinct exactly when the agent's volumes have distinct names
    and take none of those that the operator uses for its own. *)
Theorem pod_volumes_distinct b :
  fresh_builder (SS_Base b) →
  returns (W:=W) (StatefulSetBuilder_Build b) (λ '(volumes, _, rest),
    ∃ own, volumes = own ++ vector_volumes b ∧
      let names := (Volume_Name <$> own) ++ (PVC_Name <$> StatefulSet_Claims rest) in
      NoDup names ∧ (∀ n, n ∈ names → n ∈ trino_volume_names) ∧
      (NoDup ((Volume_Name <$> volumes) ++ (PVC_Name <$> StatefulSet_Claims rest)) ↔
       NoDup (Volume_Name <$> vector_volumes b) ∧
       ∀ n, n ∈ Volume_Name <$> vector_volumes b → n ∉ names)).
Proof.
  intros Hfresh. eapply returns_mono.
  { eapply StatefulSetBuilder_Build_returns with (Q := λ _, True);
      [done|apply getVolumes_names|done]. }
  intros [[volumes containers] rest]
    (own & c & container & -> & (names & Hown & Hnd & Hin) & _ & _ & _ & Hclaims).
  exists own. split; [done|]. cbv zeta. rewrite fmap_app, Hclaims, Hown.
  destruct (own_names_NoDup b names Hnd Hin) as [Hd Hsub]. split_and!; [done..|].
  rewrite <-(assoc_L (++)), (Permutation_app_comm (Volume_Name <$> _)), (assoc_L (++)).
  rewrite NoDup_app. naive_solver.
Qed.
End volumes.

(** ** Without authentication *)

Section plain.
Context `{!ExtTypes, !Constants, !PropertiesApi, !QuantityApi, !UtilApi, !InfoApi, !ClientApi,
          !StatefulSetApi, !QuantityLaws}.
Implicit Types (b : StatefulSetBuilder).

Lemma getPvcTemplates_total b : ∃ l, getPvcTemplates b = Val l.
Proof.
  unfold getPvcTemplates, getDataStorageSize. destruct MustParse_1Gi as [q Hq].
  destruct (SS_Resource b) as [r|]; [destruct (Storage r) as [s|]|];
    try destruct (Quantity_IsZero _); rewrite ?Hq; by eexists.
Qed.

Lemma base_volumes_total b : ∃ l, base_volumes b = Val l.
Proof.
  unfold base_volumes. destruct MustParse_1Gi as [q Hq], MustParse_1Mi as [q' Hq'].
  rewrite Hq, Hq'. by eexists.
Qed.

Lemma tls_volumes_total b : ∃ l, tls_volumes b = Val l.
Proof.
  unfold tls_volumes, buildTlsVolume. destruct MustParse_1Mi as [q Hq]. rewrite Hq.
  destruct (SS_ClusterConfig b) as [c|]; [destruct (Tls c)|]; by eexists.
Qed.

Definition no_authentication (c : option ClusterConfigSpec) : Prop :=
  ∀ c', c = Some c' → Authentication c' = None.

Context `{!World W}.

Lemma with_authentication_plain {A} b (none : A) (f : TrinoAuthentication → outcome A) (w : W) :
  no_authentication (SS_ClusterConfig b) → with_authentication b none f w = (Val none, w).
Proof.
  intros Hno. unfold with_authentication. destruct (SS_ClusterConfig b) as [c|]; [|done].
  by rewrite (Hno c eq_refl).
Qed.

(** The pods are described without asking the API server. *)
Lemma getVolumes_plain b :
  no_authentication (SS_ClusterConfig b) →
  ∃ volumes, ∀ w : W, getVolumes b w = (Val volumes, w).
Proof.
  intros Hno. destruct (base_volumes_total b) as [base Hbase], (tls_volumes_total b) as [tls Htls].
  exists (base ++ tls). intros w. unfold getVolumes. rewrite Hbase, Htls.
  by apply with_authentication_plain.
Qed.

Lemma getMainContainer_plain b :
  no_authentication (SS_ClusterConfig b) →
  ∃ container, ∀ w : W, getMainContainer b w = (Val container, w).
Proof.
  intros Hno. eexists. intros w.
  unfold getMainContainer, getMainContainerArgs, getMainContainerVolumeMounts, getMainContainerEnvVars.
  erewrite M_bind_step.
  2: { erewrite M_bind_step by (by apply with_authentication_plain). done. }
  do 2 (erewrite M_bind_step by (by apply with_authentication_plain)). done.
Qed.

(** What [Build] hands to [GetObject]. *)
Definition filled_builder (base : BaseStatefulSetBuilder) claims volumes container :=
  AddContainer (AddVolumes (AddVolumeClaimTemplates base claims) volumes) container.

(** Without authentication, [Build] asks nothing and ends as [GetObject] of
    operator-go does on the filled builder. *)
Definition built_by_GetObject b : Prop :=
  ∃ claims volumes container,
    getPvcTemplates b = Val claims ∧
    (∀ w : W, getVolumes b w = (Val volumes, w)) ∧
    (∀ w : W, getMainContainer b w = (Val container, w)) ∧
    ∀ w : W, ends_as (StatefulSetBuilder_Build b) w
               (StatefulSet_GetObject (filled_builder (SS_Base b) claims volumes container), w).

Lemma StatefulSet_ends b :
  no_authentication (SS_ClusterConfig b) → built_by_GetObject b.
Proof.
  intros Hno. destruct (getPvcTemplates_total b) as [claims Hclaims].
  destruct (getVolumes_plain b Hno) as [volumes Hvolumes].
  destruct (getMainContainer_plain b Hno) as [container Hcontainer].
  exists claims, volumes, container. split_and!; [done..|]. intros w.
  unfold StatefulSetBuilder_Build. rewrite Hclaims.
  eapply ends_as_step; [done|]. eapply ends_as_step; [apply Hvolumes|].
  eapply ends_as_step; [apply Hcontainer|].
  eapply ends_as_bind with (Q := λ _, True); [done| |].
  - intros [[vs cs] rest] _. destruct (vector_enabled b); by apply yields_ret.
  - unfold lift, filled_builder. destruct (StatefulSet_GetObject _); simpl; eauto.
Qed.
End plain.

(** ** Against an API server whose answers do not change *)

Section snapshot.
Context `{!ExtTypes, !Constants, !PropertiesApi, !QuantityApi, !UtilApi, !InfoApi, !ClientApi,
          !StatefulSetApi}.
Context `{!World W, !RangeLaws W}.
Context (answer : string → option go_error * AuthenticationClass).
Implicit Types (b : StatefulSetBuilder) (t : TrinoAuthentication).

(** The authenticators that the configuration of [b] resolves to. *)
Definition resolved b : outcome (list AnyAuthenticator) :=
  match SS_ClusterConfig b with
  | Some c =>
      match Authentication c with
      | Some specs => resolve_all answer [] specs
      | None => Val []
      end
  | None => Val []
  end.

Definition auth_volume_names (l : list AnyAuthenticator) : list string :=
  mjoin (volume_names <$> (type_of <$> l)).

Lemma auth_volume_names_perm l1 l2 :
  l1 ≡ₚ l2 → auth_volume_names l1 ≡ₚ auth_volume_names l2.
Proof. unfold auth_volume_names. by intros ->. Qed.

Context (b : StatefulSetBuilder) (Hsnap : snapshot (W:=W) (STB_Client (SS_Base b)) answer).

Lemma NewAuthentication_resolved specs :
  returns (W:=W) (NewAuthentication (STB_Client (SS_Base b)) specs) (λ t, ∃ l,
    resolve_all answer [] specs = Val l ∧ Authenticators t ≡ₚ l ∧
    Forall standard_volumes (Authenticators t)).
Proof.
  intros w t w' Hrun. destruct (NewAuthentication_standard _ _ _ _ _ Hrun) as [_ Hs].
  pose proof (NewAuthentication_computes _ _ Hsnap specs w) as Hc.
  destruct (resolve_all answer [] specs) as [l|e|p].
  - destruct Hc as (l' & w1 & Hrun' & Hl). rewrite Hrun in Hrun'. simplify_eq. eauto.
  - destruct Hc as [w1 Hrun']. congruence.
  - destruct Hc as [w1 Hrun']. congruence.
Qed.

Lemma with_authentication_snapshot {A} (none : A) (f : TrinoAuthentication → outcome A)
    (Q : A → Prop) :
  (resolved b = Val [] → Q none) →
  (∀ t l a, resolved b = Val l → Authenticators t ≡ₚ l →
     Forall standard_volumes (Authenticators t) → f t = Val a → Q a) →
  returns (W:=W) (with_authentication b none f) Q.
Proof.
  intros Hnone Hf. unfold with_authentication, resolved in *.
  destruct (SS_ClusterConfig b) as [c|]; [|apply returns_ret; auto].
  destruct (Authentication c) as [specs|]; [|apply returns_ret; auto].
  eapply returns_bind; [apply NewAuthentication_resolved|].
  intros t (l & Hl & Hp & Hs). apply returns_lift. intros a Ha. by eapply Hf.
Qed.

Lemma getVolumes_snapshot :
  returns (W:=W) (getVolumes b) (λ vs, ∃ l, resolved b = Val l ∧
    Volume_Name <$> vs ≡ₚ own_volume_names b ++ auth_volume_names l).
Proof.
  unfold getVolumes.
  eapply returns_bind with (λ base, base_volumes b = Val base); [by apply returns_lift|].
  intros base Hbase.
  eapply returns_bind with (λ tls, tls_volumes b = Val tls); [by apply returns_lift|].
  intros tls Htls. apply with_authentication_snapshot.
  - intros Hl. exists []. split; [done|]. by rewrite (own_volumes b base tls), app_nil_r.
  - intros t l vs Hl Hp Hs Hvs. inv_step Hvs. injection Hvs as <-. exists l. split; [done|].
    rewrite fmap_app, (own_volumes b base tls) by done. apply Permutation_app_head.
    rewrite (standard_volume_names t a) by done. by apply auth_volume_names_perm.
Qed.

Lemma getMainContainerVolumeMounts_snapshot :
  returns (W:=W) (getMainContainerVolumeMounts b) (λ ms, ∃ l, resolved b = Val l ∧
    Mount_Name <$> ms ≡ₚ ("data" :: own_volume_names b) ++ auth_volume_names l).
Proof.
  unfold getMainContainerVolumeMounts. apply with_authentication_snapshot.
  - intros Hl. exists []. split; [done|]. by rewrite base_mounts_names, app_nil_r.
  - intros t l ms Hl Hp Hs Hms. inv_step Hms.
    assert (ms = base_mounts b ++ a) as -> by (by injection Hms). exists l. split; [done|].
    rewrite fmap_app, base_mounts_names. apply Permutation_app_head.
    rewrite (standard_mount_names t a) by done. by apply auth_volume_names_perm.
Qed.

(** The container that [getMainContainer] builds. *)
Lemma getMainContainer_returns :
  returns (W:=W) (getMainContainer b) (λ c, ∃ l, resolved b = Val l ∧
    Mount_Name <$> container_mounts c ≡ₚ ("data" :: own_volume_names b) ++ auth_volume_names l).
Proof.
  unfold getMainContainer.
  eapply returns_bind with (λ _, True); [done|]. intros args _.
  eapply returns_bind; [apply getMainContainerVolumeMounts_snapshot|].
  intros ms (l & Hl & Hms). eapply returns_bind with (λ _, True); [done|]. intros vars _.
  apply returns_ret. exists l. split; [done|]. rewrite <-Hms. unfold container_mounts. simpl.
  by destruct (SS_enabledTls b); simpl; rewrite app_nil_r.
Qed.

Context `{!StatefulSetLaws}.

(** C8: without overrides of the user, while the API server's answers do not
    change, and although
    authentication is resolved again for each of them, the volume mounts of
    the main container of a StatefulSet that is built name exactly the volumes
    and claims that the operator gives to the pod, each of them once: no mount
    lacks its volume, and no such volume is left unmounted.  The main container
    comes first; with log aggregation the vector agent's container and volumes
    follow, which are operator-go's and which the main container does not
    mount. *)
Theorem pod_volumes_mounted :
  fresh_builder (SS_Base b) →
  returns (W:=W) (StatefulSetBuilder_Build b) (λ '(volumes, containers, rest), ∃ own c,
    volumes = own ++ vector_volumes b ∧ containers = c :: vector_containers b ∧
    Mount_Name <$> container_mounts c ≡ₚ
      (Volume_Name <$> own) ++ (PVC_Name <$> StatefulSet_Claims rest)).
Proof.
  intros Hfresh. eapply returns_mono.
  { eapply StatefulSetBuilder_Build_returns;
      [done|apply getVolumes_snapshot|apply getMainContainer_returns]. }
  intros [[volumes containers] rest]
    (own & c & container & Hvs & (l & Hl & Hown) & Hcs & Hms & (l' & Hl' & Hmounts) & Hclaims).
  rewrite Hl in Hl'. injection Hl' as <-. exists own, c. split_and!; [done..|].
  rewrite Hms, Hmounts, Hclaims, Hown. by rewrite (Permutation_app_comm _ ["data"]).
Qed.

Context `{!QuantityLaws}.

(** C20: when authentication cannot be resolved, the StatefulSet is not
    built: the error, or the panic, of the authentication is the one of
    [Build]. *)
Theorem build_fails_with_authentication w :
  match resolved b with
  | Val _ => True
  | Err e => ∃ w', StatefulSetBuilder_Build b w = (Err e, w')
  | Panic p => ∃ w', StatefulSetBuilder_Build b w = (Panic p, w')
  end.
Proof.
  destruct (getPvcTemplates_total b) as [claims Hclaims].
  destruct (base_volumes_total b) as [base Hbase].
  destruct (tls_volumes_total b) as [tls Htls].
  assert (Hauth : match resolved b with
    | Val _ => True
    | Err e => ∃ w', getVolumes b w = (Err e, w')
    | Panic p => ∃ w', getVolumes b w = (Panic p, w')
    end).
  { unfold getVolumes, resolved, with_authentication. rewrite Hbase, Htls.
    destruct (SS_ClusterConfig b) as [c|]; [|done].
    destruct (Authentication c) as [specs|]; [|done].
    pose proof (NewAuthentication_computes _ _ Hsnap specs w) as Hc.
    destruct (resolve_all answer [] specs) as [l|e|p]; [done|..];
      destruct Hc as [w' Hc]; exists w'; unfold mbind, M_bind, lift; by rewrite Hc. }
  unfold StatefulSetBuilder_Build. rewrite Hclaims.
  destruct (resolved b) as [l|e|p]; [done|..]; destruct Hauth as [w' Hauth]; exists w';
    unfold mbind, M_bind, lift; by rewrite Hauth.
Qed.
End snapshot.

(** ** TLS *)

Section tls.
Context `{!ExtTypes, !Constants, !PropertiesApi, !QuantityApi, !UtilApi, !InfoApi, !ClientApi,
          !StatefulSetApi, !ConstantsLaws}.
Implicit Types (b : StatefulSetBuilder).

(** The secret class that the TLS volumes request. *)
Definition tls_secret_class (tls : TlsSpec) : string :=
  if decide (ServerSecretClass tls = "") then "tls" else ServerSecretClass tls.

(** [v] is provisioned by the secret operator from [class], as a PKCS12
    keystore protected by [password] for the pod and its node. *)
Definition keystore_volume (class password : string) (v : Volume) : Prop :=
  ∃ template, Volume_Source v = EphemeralSource template ∧
    PVC_Annotations template !! AnnotationSecretsClass = Some class ∧
    PVC_Annotations template !! AnnotationSecretsScope = Some (PodScope +:+ "," +:+ NodeScope) ∧
    PVC_Annotations template !! AnnotationSecretsFormat = Some TLSP12 ∧
    PVC_Annotations template !! AnnotationSecretsPKCS12Password = Some password.

Lemma buildTlsVolume_keystore name class v :
  buildTlsVolume name class = Val v → keystore_volume class DefaultTlsPassphrase v.
Proof.
  unfold buildTlsVolume. intros Hv. inv_steps Hv. injection Hv as <-. simpl.
  eexists. split; [done|]. simpl.
  pose proof Annotations_NoDup as Hnd. rewrite !NoDup_cons, !not_elem_of_cons in Hnd.
  destruct_and!. rewrite !lookup_insert.
  repeat (case_decide; [congruence|]) || (rewrite decide_True by done).
  by rewrite ?decide_False by congruence.
Qed.

(** C36: with TLS, the pod has the two TLS volumes, and both request the
    class of the server certificate ([tls] when it is empty): the class
    configured for internal communication is never used. *)
Theorem tls_volumes_use_server_class b c tls vs :
  SS_ClusterConfig b = Some c → Tls c = Some tls → tls_volumes b = Val vs →
  Volume_Name <$> vs = [TrinoServerTlsVolumeName; TrinoInternalTlsVolumeName] ∧
  Forall (keystore_volume (tls_secret_class tls) DefaultTlsPassphrase) vs.
Proof.
  intros Hc Htls Hvs. unfold tls_volumes in Hvs. rewrite Hc, Htls in Hvs.
  fold (tls_secret_class tls) in Hvs. inv_step Hvs. inv_step Hvs. injection Hvs as <-.
  pose proof (buildTlsVolume_name _ _ _ Ha) as Hn1.
  pose proof (buildTlsVolume_name _ _ _ Ha0) as Hn2. simpl. rewrite Hn1, Hn2.
  split; [done|]. repeat constructor; by eapply buildTlsVolume_keystore.
Qed.

Context `{!ConfigMapApi}.

(** C19: every keystore and truststore that [config.properties] names lies
    below the mount of a TLS volume of the pod, whose password is the one
    that the configuration gives for it. *)
Theorem keystores_are_mounted b (cm : ConfigMapBuilder) c tls vs store prefix :
  SS_ClusterConfig b = Some c → CM_ClusterConfig cm = Some c → Tls c = Some tls →
  tls_volumes b = Val vs →
  store ∈ ["keystore"; "truststore"] →
  prefix ∈ ["http-server.https."; "internal-communication.https."] →
  ∃ m v class password,
    m ∈ base_mounts b ∧ v ∈ vs ∧ Volume_Name v = Mount_Name m ∧
    keystore_volume class password v ∧
    (prefix +:+ store +:+ ".path", path_Join [MountPath m; store +:+ ".p12"])
      ∈ config_entries cm ∧
    (prefix +:+ store +:+ ".key", password) ∈ config_entries cm.
Proof.
  intros Hc Hcm Htls Hvs Hstore Hprefix. unfold tls_volumes in Hvs. rewrite Hc, Htls in Hvs.
  inv_step Hvs. inv_step Hvs. injection Hvs as <-.
  exists (mkVolumeMount TrinoServerTlsVolumeName ServerTlsMountPath), a,
    (tls_secret_class tls), DefaultTlsPassphrase.
  assert (Hon : SS_enabledTls b = true) by (unfold SS_enabledTls; by rewrite Hc, Htls).
  assert (Hon' : CM_enabledTls cm = true) by (unfold CM_enabledTls; by rewrite Hcm, Htls).
  split_and!.
  - unfold base_mounts. rewrite Hon. apply elem_of_app. right. apply elem_of_cons. by left.
  - apply elem_of_cons. by left.
  - by apply buildTlsVolume_name in Ha as ->.
  - by eapply buildTlsVolume_keystore.
  - unfold config_entries, http_entries. rewrite Hon', !elem_of_app. do 3 right. left.
    apply elem_of_cons in Hstore as [->| ->%list_elem_of_singleton];
      apply elem_of_cons in Hprefix as [->| ->%list_elem_of_singleton]; simpl;
      rewrite !elem_of_cons; tauto.
  - unfold config_entries, http_entries. rewrite Hon', !elem_of_app. do 3 right. left.
    apply elem_of_cons in Hstore as [->| ->%list_elem_of_singleton];
      apply elem_of_cons in Hprefix as [->| ->%list_elem_of_singleton]; simpl;
      rewrite !elem_of_cons; tauto.
Qed.

(** C35: the bind credentials of LDAP are mounted over a TLS volume exactly
    when the secret class of the credentials has the name of its directory:
    [client], or, with TLS, [server] or [internal]. *)
Theorem ldap_mount_collides b l credentials :
  getBindCredentials l = Val credentials → simple (Credentials_SecretClass credentials) →
  ∃ m, Ldap_GetVolumeMounts l = Val [m] ∧
    ((∃ m', m' ∈ base_mounts b ∧
        Mount_Name m' ∈ [TrinoClientTlsVolumeName; TrinoServerTlsVolumeName;
                         TrinoInternalTlsVolumeName] ∧
        MountPath m' = MountPath m) ↔
     Credentials_SecretClass credentials = "client" ∨
     SS_enabledTls b = true ∧
       (Credentials_SecretClass credentials = "server" ∨
        Credentials_SecretClass credentials = "internal")).
Proof.
  intros Hcred Hsimple. unfold Ldap_GetVolumeMounts, Ldap_getBindCredentialsMountPath.
  rewrite Hcred. eexists. split; [done|]. cbn [MountPath].
  assert (Hinj : ∀ d, simple d →
    path_Join [KubedoopTlsDir; d]
      = path_Join [KubedoopTlsDir; Credentials_SecretClass credentials] →
    Credentials_SecretClass credentials = d).
  { intros d Hd Heq. symmetry. by apply (path_Join_inj KubedoopTlsDir);
      [apply KubedoopTlsDir_nonempty|..]. }
  assert (Hdirs : Forall simple ["client"; "server"; "internal"])
    by (apply (bool_decide_unpack _); by vm_compute).
  rewrite !Forall_cons in Hdirs. destruct Hdirs as (Hd1 & Hd2 & Hd3 & _). split.
  - intros (m' & Hin & Hname & Hpath). unfold base_mounts in Hin.
    apply elem_of_app in Hin as [Hin|Hin].
    + rewrite !elem_of_cons, elem_of_nil in Hin.
      destruct Hin as [->|[->|[->|[->|[ ] ] ] ] ]; cbn in Hname;
        rewrite !elem_of_cons, elem_of_nil in Hname; [naive_solver..|]. left. by apply Hinj.
    + destruct (SS_enabledTls b); [|by apply elem_of_nil in Hin].
      rewrite !elem_of_cons, elem_of_nil in Hin. right. split; [done|].
      destruct Hin as [->|[->|[ ] ] ]; [left|right]; by apply Hinj.
  - intros [Hcl|[Hon Hcl]]; unfold base_mounts; rewrite ?Hon.
    + exists (mkVolumeMount TrinoClientTlsVolumeName ClientTlsPath). rewrite Hcl.
      split_and!; [|apply elem_of_cons; by left|done].
      rewrite elem_of_app, !elem_of_cons. tauto.
    + destruct Hcl as [Hcl|Hcl]; rewrite Hcl.
      * exists (mkVolumeMount TrinoServerTlsVolumeName ServerTlsMountPath).
        split_and!; [|rewrite !elem_of_cons; auto|done]. rewrite elem_of_app, !elem_of_cons. tauto.
      * exists (mkVolumeMount TrinoInternalTlsVolumeName InternalTlsMountPath).
        split_and!; [|rewrite !elem_of_cons; auto|done]. rewrite elem_of_app, !elem_of_cons. tauto.
Qed.
End tls.

(** ** Storage *)

Section storage.
Context `{!ExtTypes, !QuantityApi, !InfoApi}.

(** The data volume of every role group is claimed with 1Gi: the
    capacity that the configuration requests never reaches the builder. *)
Lemma storage_request_ignored client clusterConfig info image stopped replicas ports overrides
    config options r :
  NewStatefulSetReconciler client clusterConfig info image stopped replicas ports overrides
    config options = Val r →
  getPvcTemplates (SSR_Builder r) =
    (size ← MustParse "1Gi";
     mret [mkPVCTemplate "data" ∅ (mkPVCSpec ["ReadWriteOnce"] None (Some "Filesystem") size)]).
Proof. by intros [= <-]. Qed.
End storage.

(** ** Witnesses *)

Module StatefulSetWitnesses.
Import Concrete.

Definition https_port : ContainerPort := mkContainerPort "https" HttpsPort "".
Definition reconciler : outcome StatefulSetReconciler :=
  NewStatefulSetReconciler client (Some cluster_config) (group "coordinator") "trino:451" false
    (Some 1%Z) [https_port] None (Some (limits (2 ^ 31)))
    [λ _, mkOptions "my-trino" "coordinator" "default" ∅ ∅].
Definition default_builder : StatefulSetBuilder :=
  NewStatefulSetBuilder client "" None "" None [] None None [].
Definition builder : StatefulSetBuilder :=
  match reconciler with Val r => SSR_Builder r | _ => default_builder end.

(** The same role group in a cluster with log aggregation. *)
Definition logging_config : ClusterConfigSpec :=
  mkClusterConfigSpec (Some [oidc_spec; ldap_spec]) None (Some catalog_properties)
    "cluster-internal" (Some (mkTlsSpec "tls" "tls")) "vector-aggregator-discovery".
Definition logging : StatefulSetBuilder :=
  NewStatefulSetBuilder client "my-trino-coordinator-default" (Some 1%Z) "trino:451"
    (Some logging_config) [https_port] None None
    [λ _, mkOptions "my-trino" "coordinator" "default" ∅ ∅].

Lemma logging_fresh : fresh_builder (SS_Base logging).
Proof. by split_and!. Qed.

Definition logging_set : list Volume * list Container * StatefulSetRest :=
  value_of (StatefulSetBuilder_Build logging auth_world).1 ([], [], []).
Lemma logging_run :
  StatefulSetBuilder_Build logging auth_world =
    (Val logging_set, (StatefulSetBuilder_Build logging auth_world).2).
Proof. apply run_value. vm_compute. reflexivity. Qed.

Lemma pod_volumes_distinct_witness :
  ∃ own, logging_set.1.1 = own ++ vector_volumes logging ∧ length (vector_volumes logging) = 1 ∧
    NoDup ((Volume_Name <$> own) ++ (PVC_Name <$> StatefulSet_Claims logging_set.2)).
Proof.
  pose proof (pod_volumes_distinct logging logging_fresh auth_world logging_set _ logging_run)
    as Hset.
  destruct logging_set as [[volumes containers] rest].
  destruct Hset as (own & Hvs & Hnd & _). exists own.
  split; [exact Hvs|]. split; [reflexivity|exact Hnd].
Defined.

Lemma frozen_snapshot c : snapshot (W:=frozen) c answer.
Proof. intros name w. by exists w. Qed.

Definition frozen_set : list Volume * list Container * StatefulSetRest :=
  value_of (StatefulSetBuilder_Build logging Frozen).1 ([], [], []).
Lemma frozen_run :
  StatefulSetBuilder_Build logging Frozen =
    (Val frozen_set, (StatefulSetBuilder_Build logging Frozen).2).
Proof. apply run_value. vm_compute. reflexivity. Qed.

Lemma pod_volumes_mounted_witness :
  ∃ own c, frozen_set.1.1 = own ++ vector_volumes logging ∧
    frozen_set.1.2 = c :: vector_containers logging ∧ length (vector_containers logging) = 1 ∧
    Mount_Name <$> container_mounts c ≡ₚ
      (Volume_Name <$> own) ++ (PVC_Name <$> StatefulSet_Claims frozen_set.2).
Proof.
  pose proof (pod_volumes_mounted answer logging (frozen_snapshot _) logging_fresh
                Frozen frozen_set _ frozen_run) as Hset.
  destruct frozen_set as [[volumes containers] rest].
  destruct Hset as (own & c & Hvs & Hcs & Hms). exists own, c.
  split; [exact Hvs|]. split; [exact Hcs|]. split; [reflexivity|exact Hms].
Defined.

(** A cluster with two OIDC providers. *)
Definition two_oidc : StatefulSetBuilder :=
  NewStatefulSetBuilder client "" None ""
    (Some (mkClusterConfigSpec
             (Some [oidc_spec; mkAuthenticationSpec "oidc2" (Some oidc_config)])
             None None "" None ""))
    [] None None [].

Lemma build_fails_with_authentication_witness :
  ∃ w', StatefulSetBuilder_Build two_oidc Frozen = (Err (duplicate_error "oidc" "oidc2"), w').
Proof.
  exact (build_fails_with_authentication answer two_oidc (frozen_snapshot _) Frozen).
Defined.

Definition tls_spec : TlsSpec := mkTlsSpec "tls" "tls".
Definition the_tls_volumes : list Volume := value_of (tls_volumes builder) [].

Lemma tls_volumes_use_server_class_witness :
  length the_tls_volumes = 2 ∧
  Volume_Name <$> the_tls_volumes = [TrinoServerTlsVolumeName; TrinoInternalTlsVolumeName] ∧
  Forall (keystore_volume (tls_secret_class tls_spec) DefaultTlsPassphrase) the_tls_volumes.
Proof.
  split; [reflexivity|].
  exact (tls_volumes_use_server_class builder cluster_config tls_spec the_tls_volumes
           eq_refl eq_refl eq_refl).
Defined.

Definition config_map : ConfigMapBuilder :=
  NewConfigReconciler client "trino" (Some cluster_config) None (group "coordinator").

Lemma keystores_are_mounted_witness :
  ∃ m v class password,
    m ∈ base_mounts builder ∧ v ∈ the_tls_volumes ∧ Volume_Name v = Mount_Name m ∧
    keystore_volume class password v ∧
    ("http-server.https.keystore.path", path_Join [MountPath m; "keystore.p12"])
      ∈ config_entries config_map ∧
    ("http-server.https.keystore.key", password) ∈ config_entries config_map.
Proof.
  refine (keystores_are_mounted builder config_map cluster_config tls_spec the_tls_volumes
           "keystore" "http-server.https." eq_refl eq_refl eq_refl eq_refl _ _);
    apply elem_of_cons; left; reflexivity.
Defined.

Definition colliding : LDAPProvider :=
  mkLDAPProvider "ldap" 389 "" None (Some (mkCredentials "server" None)) None.

Lemma ldap_mount_collides_witness :
  ∃ m m', Ldap_GetVolumeMounts (mkLdap "" (Some colliding)) = Val [m] ∧
    m' ∈ base_mounts builder ∧ MountPath m' = MountPath m.
Proof.
  destruct (ldap_mount_collides builder (mkLdap "" (Some colliding))
              (mkCredentials "server" None) eq_refl) as (m & Hm & Hiff).
  - apply (bool_decide_unpack _). vm_compute. exact I.
  - destruct (proj2 Hiff) as (m' & Hin & _ & Hpath); [right; split; [reflexivity|left; reflexivity]|].
    exists m, m'. split; [exact Hm|]. split; [exact Hin|exact Hpath].
Defined.

Lemma storage_request_ignored_witness :
  getPvcTemplates builder =
    Val [mkPVCTemplate "data" ∅ (mkPVCSpec ["ReadWriteOnce"] None (Some "Filesystem") 1073741824%Z)].
Proof.
  assert (Hr : reconciler = Val (mkStatefulSetReconciler client builder false)) by reflexivity.
  exact (storage_request_ignored _ _ _ _ _ _ _ _ _ _ _ Hr).
Defined.
End StatefulSetWitnesses.
