(* ===== verification/Role.v ===== *)
(** * The roles of a cluster

    [internal/controller/coordinator/role.go] and
    [internal/controller/worker/role.go] are the same code over two types of
    role specification; here they are one definition over the class
    [RoleSpec], with an instance and named definitions for each role.
    [internal/controller/common/service.go] builds the metrics service of a
    role group. *)

From Stdlib Require Import ZArith.
From S2P Require Import Prelude GoRuntime GoStrings Externals Api Framework.
From S2P Require Import Authz Secret ConfigMap StatefulSet.

(** ** The metrics service *)

Section service.
Context `{!ExtTypes, !Constants, !InfoApi}.
Implicit Types (info : RoleGroupInfo).

Definition CreateServiceMetricsName info : string :=
  RoleGroupInfo_GetFullName info +:+ "-metrics".

(** The copies are made entry by entry; [items_map_copy] shows that the
    order of the iteration does not matter. *)
Definition metrics_labels info : gmap string string :=
  <["prometheus.io/scrape" := "true"]> (items_map (map_to_list (RoleGroupInfo_GetLabels info))).

Definition metrics_annotations info : gmap string string :=
  <["prometheus.io/scheme" := HttpScheme]>
    (<["prometheus.io/port" := Itoa MetricsPort]>
      (<["prometheus.io/scrape" := "true"]>
        (items_map (map_to_list (RoleGroupInfo_GetAnnotations info))))).

(** The builder of the generic reconciler that [NewRoleGroupMetricsService]
    returns. *)
Definition NewRoleGroupMetricsService (client : Client) info : BaseServiceBuilder :=
  mkBaseService client (CreateServiceMetricsName info)
    [mkContainerPort MetricsPortName MetricsPort "TCP"]
    [λ o, mkServiceOptions true ClusterInternal (SBO_ClusterName o) (SBO_RoleName o)
            (SBO_RoleGroupName o) (metrics_labels info) (RoleGroupInfo_GetLabels info)
            (metrics_annotations info)].
End service.

(** ** Role specifications *)

Class RoleSpec `{!ExtTypes} (T : Type) := {
  RoleGroups : T → gomap (option RoleGroupSpec);
  Role_Base : T → BaseRoleSpec;
}.

#[export] Instance Coordinators_RoleSpec `{!ExtTypes} : RoleSpec CoordinatorsSpec := {|
  RoleGroups := Coordinators_RoleGroups;
  Role_Base := Coordinators_Base;
|}.
#[export] Instance Workers_RoleSpec `{!ExtTypes} : RoleSpec WorkersSpec := {|
  RoleGroups := Workers_RoleGroups;
  Role_Base := Workers_Base;
|}.

(** ** Role reconcilers *)

Section role.
Context `{!ExtTypes, !Constants, !InfoApi, !MergeApi}.

(** The resources that a role registers. *)
Inductive RoleResource :=
  | ConfigMapResource (client : Client) (b : ConfigMapBuilder)
  | ServiceResource (b : BaseServiceBuilder)
  | MetricsServiceResource (b : BaseServiceBuilder)
  | StatefulSetResource (r : StatefulSetReconciler).

Context {T : Type} `{!RoleSpec T}.

(** [Reconciler] with the fields of the embedded [BaseRoleReconciler]; the
    specification is a pointer. *)
Record RoleReconciler := mkRoleReconciler {
  RR_Client : Client;
  RR_ClusterStopped : bool;
  RR_RoleInfo : RoleInfo;
  RR_Spec : option T;
  RR_ClusterConfig : option ClusterConfigSpec;
  RR_Image : Image;
  RR_CoordiantorSvcFqdn : string;
  RR_Resources : list RoleResource;
}.

Definition NewRoleReconciler (client : Client) (clusterStopped : bool)
    (clusterConfig : option ClusterConfigSpec) (roleInfo : RoleInfo) (image : Image)
    (coordiantorSvcFqdn : string) (spec : option T) : RoleReconciler :=
  mkRoleReconciler client clusterStopped roleInfo spec clusterConfig image coordiantorSvcFqdn [].

Definition RR_AddResource (r : RoleReconciler) (x : RoleResource) : RoleReconciler :=
  mkRoleReconciler (RR_Client r) (RR_ClusterStopped r) (RR_RoleInfo r) (RR_Spec r)
    (RR_ClusterConfig r) (RR_Image r) (RR_CoordiantorSvcFqdn r) (RR_Resources r ++ [x]).

Definition role_ports (clusterConfig : option ClusterConfigSpec) : list ContainerPort :=
  match clusterConfig with
  | Some c =>
      if Tls c is Some _ then [mkContainerPort "https" HttpsPort ""]
      else [mkContainerPort "http" HttpPort ""]
  | None => [mkContainerPort "http" HttpPort ""]
  end.

Definition registerResourceWithRoleGroup (r : RoleReconciler) (info : RoleGroupInfo)
    (roleGroupConfig : option ConfigSpec) (overrideSpec : option OverridesSpec)
    (replicas : option Z) : outcome (list RoleResource) :=
  let ports := role_ports (RR_ClusterConfig r) in
  let configMapReconciler := NewConfigReconciler (RR_Client r) (RR_CoordiantorSvcFqdn r)
    (RR_ClusterConfig r) roleGroupConfig info in
  let serviceReconciler := mkBaseService (RR_Client r) (RoleGroupInfo_GetFullName info) ports
    [λ o, mkServiceOptions (SBO_Headless o) (SBO_ListenerClass o)
            (RoleGroupInfo_GetClusterName info) (RoleGroupInfo_GetRoleName info)
            (RoleGroupInfo_GetGroupName info) (RoleGroupInfo_GetLabels info)
            (SBO_MatchingLabels o) (RoleGroupInfo_GetAnnotations info)] in
  let metricsServiceReconciler := NewRoleGroupMetricsService (RR_Client r) info in
  statefulSetReconciler ← NewStatefulSetReconciler (RR_Client r) (RR_ClusterConfig r) info
    (RR_Image r) (RR_ClusterStopped r) replicas ports overrideSpec roleGroupConfig
    [λ _, mkOptions (RoleGroupInfo_GetClusterName info) (RoleGroupInfo_GetRoleName info)
            (RoleGroupInfo_GetGroupName info) (RoleGroupInfo_GetLabels info)
            (RoleGroupInfo_GetAnnotations info)];
  mret [ConfigMapResource (RR_Client r) configMapReconciler;
        ServiceResource serviceReconciler;
        MetricsServiceResource metricsServiceReconciler;
        StatefulSetResource statefulSetReconciler].

(** One iteration of the loop of [RegisterResources]. *)
Definition register_group (spec : T) (r : RoleReconciler)
    (entry : string * option RoleGroupSpec) : outcome RoleReconciler :=
  let '(name, roleGroup) := entry in
  roleGroup ← deref roleGroup;
  mergedConfig ← MergeObject (BaseRole_Config (Role_Base spec)) (RoleGroup_Config roleGroup);
  mergedOverrides ← MergeObject (BaseRole_Overrides (Role_Base spec))
                      (RoleGroup_Overrides roleGroup);
  let info := mkRoleGroupInfo (RR_RoleInfo r) name in
  reconcilers ← registerResourceWithRoleGroup r info mergedConfig mergedOverrides
                  (RoleGroup_Replicas roleGroup);
  mret (foldl RR_AddResource r reconcilers).

Context `{!World W}.

Definition RoleReconciler_RegisterResources (r : RoleReconciler) : M W RoleReconciler :=
  spec ← lift (deref (RR_Spec r));
  groups ← range (contents (RoleGroups spec));
  lift (fold_outcome (register_group spec) r groups).
End role.
Arguments RoleReconciler {_} T.

(** ** The two roles *)

Section roles.
Context `{!ExtTypes, !Constants, !InfoApi, !MergeApi} `{!World W}.

(** [coordinator.NewWorkerReconciler] *)
Definition NewCoordinatorReconciler := NewRoleReconciler (T:=CoordinatorsSpec).
Definition CoordinatorReconciler_RegisterResources :
  RoleReconciler CoordinatorsSpec → M W (RoleReconciler CoordinatorsSpec) :=
  RoleReconciler_RegisterResources.
Definition Coordinator_registerResourceWithRoleGroup :=
  registerResourceWithRoleGroup (T:=CoordinatorsSpec).

(** [worker.NewReconciler] *)
Definition NewWorkerReconciler := NewRoleReconciler (T:=WorkersSpec).
Definition WorkerReconciler_RegisterResources :
  RoleReconciler WorkersSpec → M W (RoleReconciler WorkersSpec) :=
  RoleReconciler_RegisterResources.
Definition Worker_registerResourceWithRoleGroup :=
  registerResourceWithRoleGroup (T:=WorkersSpec).
End roles.
