(* ===== verification/RoleFacts.v ===== *)
(** * What the roles guarantee

    Which resources a role registers and when it fails; how the resources of a
    role group fit together: names, ports, probes, and the metrics service. *)

From Stdlib Require Import ZArith.
From S2P Require Import Prelude GoRuntime GoStrings Externals Api Framework Concrete.
From S2P Require Import Authz AuthzFacts Secret ConfigMap ConfigMapFacts.
From S2P Require Import StatefulSet StatefulSetFacts Role.

(** ** The loop over the role groups *)

Section register.
Context `{!ExtTypes, !Constants, !InfoApi, !MergeApi} {T : Type} `{!RoleSpec T}.
Implicit Types (r : RoleReconciler T) (spec : T).

(** Registering only adds resources. *)
Definition same_role r r' : Prop :=
  RR_Client r' = RR_Client r ∧ RR_ClusterStopped r' = RR_ClusterStopped r ∧
  RR_RoleInfo r' = RR_RoleInfo r ∧ RR_Spec r' = RR_Spec r ∧
  RR_ClusterConfig r' = RR_ClusterConfig r ∧ RR_Image r' = RR_Image r ∧
  RR_CoordiantorSvcFqdn r' = RR_CoordiantorSvcFqdn r.

#[export] Instance same_role_preorder : PreOrder same_role.
Proof.
  split; [by intros r|]. intros r1 r2 r3. unfold same_role. naive_solver congruence.
Qed.

Lemma add_resources r l :
  same_role r (foldl RR_AddResource r l) ∧
  RR_Resources (foldl RR_AddResource r l) = RR_Resources r ++ l.
Proof.
  revert r. induction l as [|x l IH]; intros r; simpl; [by rewrite app_nil_r|].
  destruct (IH (RR_AddResource r x)) as [Hsame ->]. split; [by rewrite <-Hsame|].
  simpl. by rewrite <-(assoc_L (++)).
Qed.

Lemma register_same r r' info config overrides replicas :
  same_role r r' →
  registerResourceWithRoleGroup r' info config overrides replicas =
  registerResourceWithRoleGroup r info config overrides replicas.
Proof.
  intros (Hc & Hs & Hi & Hsp & Hcc & Him & Hf). unfold registerResourceWithRoleGroup.
  by rewrite Hc, Hs, Hcc, Him, Hf.
Qed.

(** What a role group contributes: the resources of its merged configuration. *)
Definition group_resources r spec (entry : string * option RoleGroupSpec)
    (l : list RoleResource) : Prop :=
  ∃ group config overrides,
    entry.2 = Some group ∧
    MergeObject (BaseRole_Config (Role_Base spec)) (RoleGroup_Config group) = Val config ∧
    MergeObject (BaseRole_Overrides (Role_Base spec)) (RoleGroup_Overrides group)
      = Val overrides ∧
    registerResourceWithRoleGroup r (mkRoleGroupInfo (RR_RoleInfo r) entry.1) config overrides
      (RoleGroup_Replicas group) = Val l.

Lemma register_group_adds r r0 spec entry r' :
  same_role r0 r → register_group spec r entry = Val r' →
  ∃ l, group_resources r0 spec entry l ∧ same_role r0 r' ∧
    RR_Resources r' = RR_Resources r ++ l.
Proof.
  destruct entry as [name o]. intros Hsame Hreg. unfold register_group in Hreg.
  inv_step Hreg. inv_step Hreg. inv_step Hreg. inv_step Hreg. injection Hreg as <-.
  apply deref_Val in Ha as ->. rewrite (register_same r0) in Ha2 by done.
  destruct (add_resources r a2) as [Hsame' Hres].
  exists a2. split_and!; [|by rewrite <-Hsame'|done].
  exists a, a0, a1. split_and!; [done..|]. simpl.
  destruct Hsame as (_ & _ & Hinfo & _). by rewrite <-Hinfo.
Qed.

Lemma register_groups_add r r0 spec entries r' :
  same_role r0 r → fold_outcome (register_group spec) r entries = Val r' →
  ∃ ls, Forall2 (group_resources r0 spec) entries ls ∧ same_role r0 r' ∧
    RR_Resources r' = RR_Resources r ++ mjoin ls.
Proof.
  revert r. induction entries as [|entry entries IH]; intros r Hsame; simpl.
  { intros [= <-]. exists []. simpl. by rewrite app_nil_r. }
  intros (r1 & Hreg & Hrest)%outcome_bind_Val.
  destruct (register_group_adds r r0 spec entry r1 Hsame Hreg) as (l & Hl & Hsame1 & Hres1).
  destruct (IH r1 Hsame1 Hrest) as (ls & Hls & Hsame' & Hres').
  exists (l :: ls). split_and!; [by constructor|done|].
  rewrite Hres', Hres1. simpl. by rewrite (assoc_L (++)).
Qed.

(** A group that can be registered: it is there, and it merges. *)
Definition mergeable spec (o : option RoleGroupSpec) : Prop :=
  ∃ group config overrides, o = Some group ∧
    MergeObject (BaseRole_Config (Role_Base spec)) (RoleGroup_Config group) = Val config ∧
    MergeObject (BaseRole_Overrides (Role_Base spec)) (RoleGroup_Overrides group)
      = Val overrides.

Lemma register_group_Val spec r name o :
  mergeable spec o → ∃ r', register_group spec r (name, o) = Val r'.
Proof.
  intros (group & config & overrides & -> & Hc & Ho). unfold register_group. simpl.
  rewrite Hc. simpl. rewrite Ho. by eexists.
Qed.

Lemma register_groups_Val spec r entries :
  (∀ entry, entry ∈ entries → mergeable spec entry.2) →
  ∃ r', fold_outcome (register_group spec) r entries = Val r'.
Proof.
  revert r. induction entries as [|[name o] entries IH]; intros r Hall; [by exists r|].
  cbn [fold_outcome]. destruct (register_group_Val spec r name o) as [r1 ->].
  - apply (Hall (name, o)). apply elem_of_cons. by left.
  - apply IH. intros entry Hin. apply Hall. apply elem_of_cons. by right.
Qed.

Context `{!World W, !RangeLaws W}.

(** The loop, when no group fails. *)
Lemma RegisterResources_yields r spec :
  RR_Spec r = Some spec →
  (∀ name o, contents (RoleGroups spec) !! name = Some o → mergeable spec o) →
  yields (W:=W) (RoleReconciler_RegisterResources r) (λ r', ∃ entries ls,
    entries ≡ₚ map_to_list (contents (RoleGroups spec)) ∧
    Forall2 (group_resources r spec) entries ls ∧ same_role r r' ∧
    RR_Resources r' = RR_Resources r ++ mjoin ls).
Proof.
  intros Hspec Hall. unfold RoleReconciler_RegisterResources. rewrite Hspec.
  eapply yields_bind with (eq spec); [by eapply yields_lift|]. intros ? <-.
  eapply yields_bind; [apply range_yields|]. intros entries Hentries.
  destruct (register_groups_Val spec r entries) as [r' Hr'].
  { intros [name o] Hin. rewrite Hentries in Hin.
    apply elem_of_map_to_list in Hin. by apply (Hall name). }
  eapply yields_lift; [done|].
  destruct (register_groups_add r r spec entries r') as (ls & Hls & Hsame & Hres); [done..|].
  by exists entries, ls.
Qed.

(** C13: when every role group is present and its configuration merges with
    that of the role, the role registers its groups, each exactly once, in
    some order: a group contributes the resources of its own name, merged
    configuration and replicas, and nothing else changes. *)
Theorem role_registers_groups r spec :
  RR_Spec r = Some spec →
  (∀ name o, contents (RoleGroups spec) !! name = Some o → mergeable spec o) →
  yields (W:=W) (RoleReconciler_RegisterResources r) (λ r', ∃ entries ls,
    entries ≡ₚ map_to_list (contents (RoleGroups spec)) ∧
    Forall2 (group_resources r spec) entries ls ∧ same_role r r' ∧
    RR_Resources r' = RR_Resources r ++ mjoin ls).
Proof. apply RegisterResources_yields. Qed.

(** The resources of a role whose registration succeeded. *)
Lemma RegisterResources_returns r :
  returns (W:=W) (RoleReconciler_RegisterResources r) (λ r', ∃ spec entries ls,
    RR_Spec r = Some spec ∧
    entries ≡ₚ map_to_list (contents (RoleGroups spec)) ∧
    Forall2 (group_resources r spec) entries ls ∧ same_role r r' ∧
    RR_Resources r' = RR_Resources r ++ mjoin ls).
Proof.
  unfold RoleReconciler_RegisterResources.
  eapply returns_bind with (λ spec, RR_Spec r = Some spec).
  { apply returns_lift. intros spec. apply deref_Val. }
  intros spec Hspec. eapply returns_bind; [apply range_returns|]. intros entries Hentries.
  apply returns_lift. intros r' Hr'.
  destruct (register_groups_add r r spec entries r') as (ls & Hls & Hsame & Hres); [done..|].
  by exists spec, entries, ls.
Qed.

(** A role group that is null in the specification makes the operator
    panic, in whatever order the groups are visited, when the others
    merge. *)
Lemma null_role_group_panics r spec name w :
  RR_Spec r = Some spec →
  contents (RoleGroups spec) !! name = Some None →
  (∀ name o, contents (RoleGroups spec) !! name = Some o → o = None ∨ mergeable spec o) →
  ∃ w', RoleReconciler_RegisterResources r w = (Panic NilDereference, w').
Proof.
  intros Hspec Hname Hall. unfold RoleReconciler_RegisterResources. rewrite Hspec.
  erewrite M_bind_step by done.
  destruct (range_yields (contents (RoleGroups spec)) w) as (entries & w' & Hrange & Hentries).
  rewrite (M_bind_step _ _ _ _ _ Hrange). exists w'. unfold lift. f_equal.
  assert (Hin : (name, None) ∈ entries) by (rewrite Hentries; by apply elem_of_map_to_list).
  assert (Hok : ∀ entry, entry ∈ entries → entry.2 = None ∨ mergeable spec entry.2).
  { intros [n o] Hn. rewrite Hentries in Hn. apply elem_of_map_to_list in Hn. by apply (Hall n). }
  clear Hrange Hentries Hspec. revert r Hin Hok.
  induction entries as [|[n o] entries IH]; intros r Hin Hok; [by apply elem_of_nil in Hin|].
  cbn [fold_outcome]. destruct (Hok (n, o)) as [Hnone|Hmerge]; [apply elem_of_cons; by left|..].
  - simpl in Hnone. by subst.
  - destruct (register_group_Val spec r n o Hmerge) as [r1 ->]. apply IH.
    + apply elem_of_cons in Hin as [[= <- <-]|Hin]; [|done].
      destruct Hmerge as (? & ? & ? & ? & _). done.
    + intros entry Hentry. apply Hok. apply elem_of_cons. by right.
Qed.
End register.

(** ** The resources of one role group *)

Section group.
Context `{!ExtTypes, !Constants, !PropertiesApi, !QuantityApi, !UtilApi, !InfoApi, !ClientApi,
          !MergeApi, !StatefulSetApi} {T : Type} `{!RoleSpec T}.
Implicit Types (r : RoleReconciler T) (info : RoleGroupInfo).

Definition configmap_of (l : list RoleResource) : list ConfigMapBuilder :=
  mjoin ((λ x, if x is ConfigMapResource _ b then [b] else []) <$> l).
Definition services_of (l : list RoleResource) : list BaseServiceBuilder :=
  mjoin ((λ x, match x with
               | ServiceResource b | MetricsServiceResource b => [b]
               | _ => []
               end) <$> l).
Definition statefulset_of (l : list RoleResource) : list StatefulSetReconciler :=
  mjoin ((λ x, if x is StatefulSetResource s then [s] else []) <$> l).

Context `{!StatefulSetLaws}.

(** A role group has a ConfigMap, a service, a metrics service and a
    StatefulSet, in this order; the first two and the last share the full
    name of the group, and the pods mount the configuration from that
    ConfigMap. *)
Lemma group_shares_its_name r info config overrides replicas l :
  registerResourceWithRoleGroup r info config overrides replicas = Val l →
  ∃ cm service metrics ss,
    l = [ConfigMapResource (RR_Client r) cm; ServiceResource service;
         MetricsServiceResource metrics; StatefulSetResource ss] ∧
    CMB_Name (CM_Base cm) = RoleGroupInfo_GetFullName info ∧
    SVB_Name service = RoleGroupInfo_GetFullName info ∧
    SVB_Name metrics = RoleGroupInfo_GetFullName info +:+ "-metrics" ∧
    STB_Name (SS_Base (SSR_Builder ss)) = RoleGroupInfo_GetFullName info ∧
    SSR_Stopped ss = RR_ClusterStopped r ∧
    STB_Replicas (SS_Base (SSR_Builder ss)) = replicas ∧
    ∀ vs, base_volumes (SSR_Builder ss) = Val vs →
      mkVolume TrinoConfigVolumeName (ConfigMapSource (CMB_Name (CM_Base cm))) ∈ vs ∧
      mkVolumeMount TrinoConfigVolumeName TrinoConfigMountDir ∈ base_mounts (SSR_Builder ss).
Proof.
  unfold registerResourceWithRoleGroup. intros Hl. inv_step Hl. injection Hl as <-.
  injection Ha as <-. do 4 eexists. split_and!; [done..|].
  intros vs Hvs. unfold base_volumes in Hvs. inv_steps Hvs. injection Hvs as <-.
  rewrite STB_GetName_name. split; apply elem_of_cons; by left.
Qed.

Context `{!World W}.

(** The container's ports and probes do not depend on what is read. *)
Lemma getMainContainer_ports (b : StatefulSetBuilder) :
  returns (W:=W) (getMainContainer b) (λ c,
    container_ports c = SS_ports b ∧ container_probes c = [main_probe b; main_probe b]).
Proof.
  unfold getMainContainer.
  eapply returns_bind with (λ _, True); [done|]. intros args _.
  eapply returns_bind with (λ _, True); [done|]. intros ms _.
  eapply returns_bind with (λ _, True); [done|]. intros vars _. apply returns_ret.
  unfold container_ports, container_probes.
  destruct (SS_enabledTls b); simpl; by rewrite app_nil_r.
Qed.

(** C12: the service, the container and the configuration of a role group
    agree on one port: it is the only one of the service and of the
    container, the probes of the container address it by its name, with the
    matching scheme, and [config.properties] makes the server listen on its
    number, over TLS exactly when the cluster has TLS. *)
Theorem group_agrees_on_port r info config overrides replicas l :
  registerResourceWithRoleGroup r info config overrides replicas = Val l →
  ∃ cm service metrics ss p,
    configmap_of l = [cm] ∧ services_of l = [service; metrics] ∧ statefulset_of l = [ss] ∧
    SVB_Ports service = [p] ∧
    ("http-server." +:+ Port_Name p +:+ ".port", Itoa (Port_Number p)) ∈ config_entries cm ∧
    Port_Name p = (if CM_enabledTls cm then "https" else "http") ∧
    returns (W:=W) (getMainContainer (SSR_Builder ss)) (λ c,
      container_ports c = [p] ∧
      ∃ probe, container_probes c = [probe; probe] ∧ Probe_Port probe = Port_Name p ∧
        Probe_Scheme probe = (if CM_enabledTls cm then "HTTPS" else "HTTP")).
Proof.
  unfold registerResourceWithRoleGroup. intros Hl. inv_step Hl. injection Hl as <-.
  injection Ha as <-.
  exists (NewConfigReconciler (RR_Client r) (RR_CoordiantorSvcFqdn r) (RR_ClusterConfig r)
            config info).
  do 3 eexists.
  set (tls := match RR_ClusterConfig r with
              | Some c => if Tls c is Some _ then true else false
              | None => false
              end).
  exists (if tls then mkContainerPort "https" HttpsPort "" else mkContainerPort "http" HttpPort "").
  assert (Hports : role_ports (RR_ClusterConfig r) =
    [if tls then mkContainerPort "https" HttpsPort "" else mkContainerPort "http" HttpPort ""]).
  { unfold role_ports, tls. destruct (RR_ClusterConfig r) as [c|]; [by destruct (Tls c)|done]. }
  split_and!; [done..|exact Hports| | |].
  - unfold config_entries, http_entries. rewrite !elem_of_app. do 3 right. left.
    change (CM_enabledTls _) with tls. destruct tls; simpl; rewrite !elem_of_cons; tauto.
  - change (CM_enabledTls _) with tls. by destruct tls.
  - eapply returns_mono; [apply getMainContainer_ports|]. intros c (Hp & Hprobes).
    split; [by rewrite Hp, <-Hports|]. eexists. split; [exact Hprobes|].
    unfold main_probe. change (SS_enabledTls _) with tls. change (CM_enabledTls _) with tls.
    by destruct tls.
Qed.

Context `{!FullNameLaws}.

(** Within a role, the metrics service of a group takes the name of the
    service of another group exactly when that group is called like the
    first one followed by [-metrics]: the two then overwrite each other. *)
Lemma metrics_service_name_collides role g1 g2 :
  CreateServiceMetricsName (mkRoleGroupInfo role g1)
    = RoleGroupInfo_GetFullName (mkRoleGroupInfo role g2) ↔
  g2 = g1 +:+ "-metrics".
Proof.
  unfold CreateServiceMetricsName. rewrite !GetFullName_group. simpl.
  rewrite !str_app_assoc. split.
  - intros Heq%str_app_inj_l. simpl in Heq. by injection Heq as ->.
  - by intros ->.
Qed.
End group.

(** ** Witnesses *)

Module RoleWitnesses.
Import Concrete.

Definition spec_of (groups : gmap string (option RoleGroupSpec)) : WorkersSpec :=
  mkWorkersSpec (Some groups) base_role.
Definition good : WorkersSpec := spec_of {["a" := Some role_group; "b" := Some role_group]}.
Definition bad : WorkersSpec := spec_of {["a" := Some role_group; "z" := None]}.
Definition worker_of (spec : WorkersSpec) : RoleReconciler WorkersSpec :=
  NewRoleReconciler client false (Some cluster_config) (Info_Role (group "worker")) "trino:451"
    "fqdn" (Some spec).

Lemma good_mergeable g : g = role_group → mergeable good (Some g).
Proof. intros ->. do 3 eexists. split_and!; reflexivity. Qed.

Lemma role_registers_groups_witness :
  ∃ r' w' entries ls,
    RoleReconciler_RegisterResources (worker_of good) empty_world = (Val r', w') ∧
    entries ≡ₚ map_to_list (contents (RoleGroups good)) ∧
    Forall2 (group_resources (worker_of good) good) entries ls ∧
    RR_Resources r' = [] ++ mjoin ls.
Proof.
  destruct (role_registers_groups (W:=world) (worker_of good) good eq_refl)
    with (w := empty_world) as (r' & w' & Hrun & entries & ls & He & Hls & _ & Hres).
  - intros name o Ho. simpl in Ho. apply lookup_insert_Some in Ho as [[_ <-]|[_ Ho]];
      [by apply good_mergeable|].
    apply lookup_singleton_Some in Ho as [_ <-]. by apply good_mergeable.
  - exists r', w', entries, ls. split_and!; [exact Hrun|exact He|exact Hls|exact Hres].
Defined.

Lemma null_role_group_panics_witness :
  ∃ w', RoleReconciler_RegisterResources (worker_of bad) empty_world
          = (Panic NilDereference, w').
Proof.
  apply (null_role_group_panics (worker_of bad) bad "z" empty_world);
    [reflexivity|vm_compute; reflexivity|].
  intros name o Ho. simpl in Ho. apply lookup_insert_Some in Ho as [[_ <-]|[_ Ho]].
  - right. do 3 eexists. split_and!; reflexivity.
  - apply lookup_singleton_Some in Ho as [_ <-]. by left.
Defined.

Definition resources : list RoleResource :=
  value_of (registerResourceWithRoleGroup (worker_of good) (group "worker")
    (Some (limits (2 ^ 31))) None (Some 2%Z)) [].

Lemma group_shares_its_name_witness :
  ∃ cm service metrics ss,
    resources = [ConfigMapResource client cm; ServiceResource service;
                 MetricsServiceResource metrics; StatefulSetResource ss] ∧
    CMB_Name (CM_Base cm) = "my-trino-worker-default" ∧
    STB_Name (SS_Base (SSR_Builder ss)) = "my-trino-worker-default".
Proof.
  destruct (group_shares_its_name (worker_of good) (group "worker") (Some (limits (2 ^ 31))) None
              (Some 2%Z) resources eq_refl)
    as (cm & service & metrics & ss & Hl & Hcm & _ & _ & Hss & _).
  exists cm, service, metrics, ss. split_and!; [exact Hl|exact Hcm|exact Hss].
Defined.

Lemma group_agrees_on_port_witness :
  ∃ cm service p, configmap_of resources = [cm] ∧ SVB_Ports service = [p] ∧
    ("http-server." +:+ Port_Name p +:+ ".port", Itoa (Port_Number p)) ∈ config_entries cm.
Proof.
  destruct (group_agrees_on_port (W:=world) (worker_of good) (group "worker")
              (Some (limits (2 ^ 31))) None (Some 2%Z) resources eq_refl)
    as (cm & service & metrics & ss & p & Hcm & _ & _ & Hp & Hin & _).
  exists cm, service, p. split_and!; [exact Hcm|exact Hp|exact Hin].
Defined.

Lemma metrics_service_name_collides_witness :
  CreateServiceMetricsName (mkRoleGroupInfo (Info_Role (group "worker")) "a")
    = RoleGroupInfo_GetFullName (mkRoleGroupInfo (Info_Role (group "worker")) "a-metrics").
Proof.
  exact (proj2 (metrics_service_name_collides (Info_Role (group "worker")) "a" "a-metrics") eq_refl).
Defined.
End RoleWitnesses.
