(* ===== verification/Cluster.v ===== *)
(** * The cluster and the controller

    [internal/controller/cluster/cluster.go] registers the two roles, the
    shared secret when TLS is enabled, and the service of the cluster;
    [internal/controller/trino_controller.go] is the entry point that reads
    the [TrinoCluster], registers its resources and runs them. *)

From Stdlib Require Import ZArith.
From S2P Require Import Prelude GoRuntime GoStrings Version Externals Api Framework.
From S2P Require Import Secret ConfigMap Role.

Section cluster.
Context `{!ExtTypes, !Constants, !InfoApi, !ClientApi, !MergeApi, !ReconcilerApi, !ImageApi, !BuildVars}.

(** The resources that a cluster registers. *)
Inductive ClusterResource :=
  | CoordinatorResource (r : RoleReconciler CoordinatorsSpec)
  | WorkerResource (r : RoleReconciler WorkersSpec)
  | SharedSecretResource (r : InternalSharedSecretReconciler)
  | ClusterServiceResource (b : BaseServiceBuilder).

(** [Reconciler] with the fields of the embedded [BaseCluster]. *)
Record ClusterReconciler := mkClusterReconciler {
  CR_Client : Client;
  CR_ClusterInfo : ClusterInfo;
  CR_ClusterOperation : option ClusterOperationSpec;
  CR_Spec : TrinoClusterSpec;
  CR_ClusterConfig : option ClusterConfigSpec;
  CR_Resources : list ClusterResource;
}.

Definition NewClusterReconciler (client : Client) (clusterInfo : ClusterInfo)
    (spec : TrinoClusterSpec) : ClusterReconciler :=
  mkClusterReconciler client clusterInfo (Spec_ClusterOperation spec) spec
    (Spec_ClusterConfig spec) [].

Implicit Types (r : ClusterReconciler).

Definition CR_AddResource r (x : ClusterResource) : ClusterReconciler :=
  mkClusterReconciler (CR_Client r) (CR_ClusterInfo r) (CR_ClusterOperation r) (CR_Spec r)
    (CR_ClusterConfig r) (CR_Resources r ++ [x]).

Definition GetImage r : outcome Image :=
  image ← deref (Spec_Image (CR_Spec r));
  let productVersion :=
    if decide (Image_ProductVersion image = "") then DefaultProductVersion
    else Image_ProductVersion image in
  mret (NewImage DefaultProductName BuildVersion productVersion
          (λ _, mkImageOptions (Image_Custom image) (Image_Repo image) (Image_PullPolicy image))).

(** The info of a coordinator role group, and the DNS name of its service. *)
Definition coordinator_group_info r (name : string) : RoleGroupInfo :=
  mkRoleGroupInfo (mkRoleInfo (CR_ClusterInfo r) RoleCoordinator) name.
Definition coordinator_fqdn r (name : string) : string :=
  strings_Join [RoleGroupInfo_GetFullName (coordinator_group_info r name);
                GetOwnerNamespace (CR_Client r); "svc.cluster.local"] ".".

Context `{!World W}.

Definition getCoordinatorSvcFqdn r : M W string :=
  coordinator ← lift (deref (Spec_Coordinators (CR_Spec r)));
  fqdns ← match Coordinators_RoleGroups coordinator with
          | Some groups =>
              entries ← range groups;
              mret ((λ e, coordinator_fqdn r e.1) <$> entries)
          | None => mret []
          end;
  mret (match fqdns with fqdn :: _ => fqdn | [] => "" end).

Definition cluster_listener_class r : string :=
  match CR_ClusterConfig r with Some c => ListenerClass c | None => DefaultListenerClass end.
Definition cluster_tls r : bool :=
  match CR_ClusterConfig r with
  | Some c => if Tls c is Some _ then true else false
  | None => false
  end.

(** The service of the cluster, in front of the coordinators. *)
Definition cluster_service r (containerPort : ContainerPort) : BaseServiceBuilder :=
  let coordinatorRoleInfo := mkRoleInfo (CR_ClusterInfo r) RoleCoordinator in
  mkBaseService (CR_Client r) (RoleInfo_GetFullName coordinatorRoleInfo) [containerPort]
    [λ o, mkServiceOptions (SBO_Headless o) (cluster_listener_class r)
            (ClusterInfo_GetClusterName (CR_ClusterInfo r)) (Info_RoleName coordinatorRoleInfo)
            (SBO_RoleGroupName o) (RoleInfo_GetLabels coordinatorRoleInfo)
            (RoleInfo_GetLabels coordinatorRoleInfo)
            (RoleInfo_GetAnnotations coordinatorRoleInfo)].

Definition ClusterReconciler_RegisterResources r : M W ClusterReconciler :=
  coordinatorSvcFqdn ← getCoordinatorSvcFqdn r;
  let coordinatorRoleInfo := mkRoleInfo (CR_ClusterInfo r) RoleCoordinator in
  image ← lift (GetImage r);
  let coordinatorReconciler :=
    NewCoordinatorReconciler (CR_Client r) (IsStopped (CR_ClusterOperation r))
      (CR_ClusterConfig r) coordinatorRoleInfo image coordinatorSvcFqdn
      (Spec_Coordinators (CR_Spec r)) in
  coordinatorReconciler ← CoordinatorReconciler_RegisterResources coordinatorReconciler;
  let r := CR_AddResource r (CoordinatorResource coordinatorReconciler) in
  image ← lift (GetImage r);
  let workerReconciler :=
    NewWorkerReconciler (CR_Client r) (IsStopped (CR_ClusterOperation r))
      (CR_ClusterConfig r) (mkRoleInfo (CR_ClusterInfo r) RoleWorker) image coordinatorSvcFqdn
      (Spec_Workers (CR_Spec r)) in
  workerReconciler ← WorkerReconciler_RegisterResources workerReconciler;
  let r := CR_AddResource r (WorkerResource workerReconciler) in
  let '(r, containerPort) :=
    if cluster_tls r then
      (CR_AddResource r (SharedSecretResource
         (NewInternalsharedSecretReconciler (CR_Client r) (CR_ClusterInfo r))),
       mkContainerPort "https" HttpsPort "")
    else (r, mkContainerPort "http" HttpPort "") in
  mret (CR_AddResource r (ClusterServiceResource (cluster_service r containerPort))).

(** ** The controller *)

(** [BaseCluster.Run]: reconciles the registered resources. *)
Context (Run : ClusterReconciler → M W Result).

Definition TrinoReconciler_Reconcile (key : ObjectKey) : M W Result :=
  '(err, instance) ← reading (get_TrinoCluster key);
  match err with
  | Some e =>
      match IgnoreNotFound e with
      | Some _ => throw e
      | None => mret zero_Result
      end
  | None =>
      let resourceClient := mkClient _ instance in
      let clusterReconcoler := NewClusterReconciler resourceClient
        (mkClusterInfo (Cluster_GVK instance) (Cluster_Name instance)) (Cluster_Spec instance) in
      clusterReconcoler ← ClusterReconciler_RegisterResources clusterReconcoler;
      Run clusterReconcoler
  end.

(** controller-runtime's builder of controllers. *)
Class ControllerBuilder (Manager : Type) := {
  Builder : Type;
  NewControllerManagedBy : Manager → Builder;
  For : string → Builder → Builder;
  Complete : (ObjectKey → M W Result) → Builder → M W unit;
}.

(** The controller is run for the objects of one type, [TrinoCluster]; it
    watches none of the objects that it creates. *)
Definition TrinoReconciler_SetupWithManager `{!ControllerBuilder Manager} (mgr : Manager) : M W unit :=
  Complete TrinoReconciler_Reconcile (For "TrinoCluster" (NewControllerManagedBy mgr)).
End cluster.
