(* ===== verification/ClusterFacts.v ===== *)
(** * What the cluster and the controller guarantee

    The resources of a cluster, in order; how they fit together: the shared
    secret and the pods that read it, the discovery address and the services
    of the coordinators; and the outcomes of a reconciliation. *)

From Stdlib Require Import ZArith.
From S2P Require Import Prelude GoRuntime GoStrings Version Externals Api Framework Concrete.
From S2P Require Import Authz AuthzFacts Secret ConfigMap ConfigMapFacts.
From S2P Require Import StatefulSet StatefulSetFacts Role RoleFacts Cluster.

Section cluster.
Context `{!ExtTypes, !Constants, !InfoApi, !ClientApi, !MergeApi, !ReconcilerApi, !ImageApi, !BuildVars}.
Context `{!World W, !RangeLaws W}.
Implicit Types (r : ClusterReconciler).

(** The role reconcilers as [RegisterResources] creates them. *)
Definition new_coordinator r fqdn image : RoleReconciler CoordinatorsSpec :=
  NewCoordinatorReconciler (CR_Client r) (IsStopped (CR_ClusterOperation r))
    (CR_ClusterConfig r) (mkRoleInfo (CR_ClusterInfo r) RoleCoordinator) image fqdn
    (Spec_Coordinators (CR_Spec r)).
Definition new_worker r fqdn image : RoleReconciler WorkersSpec :=
  NewWorkerReconciler (CR_Client r) (IsStopped (CR_ClusterOperation r))
    (CR_ClusterConfig r) (mkRoleInfo (CR_ClusterInfo r) RoleWorker) image fqdn
    (Spec_Workers (CR_Spec r)).

Definition cluster_port r : ContainerPort :=
  if cluster_tls r then mkContainerPort "https" HttpsPort ""
  else mkContainerPort "http" HttpPort "".

(** The secret and the service that follow the roles. *)
Definition shared_secrets r : list ClusterResource :=
  if cluster_tls r then
    [SharedSecretResource (NewInternalsharedSecretReconciler (CR_Client r) (CR_ClusterInfo r))]
  else [].

Definition registered r (fqdn : string) (image : Image) (r' : ClusterReconciler) : Prop :=
  ∃ coordinator worker (w1 w1' w2 w2' : W) service,
    RoleReconciler_RegisterResources (new_coordinator r fqdn image) w1 = (Val coordinator, w1') ∧
    RoleReconciler_RegisterResources (new_worker r fqdn image) w2 = (Val worker, w2') ∧
    CR_Resources r' = CR_Resources r
      ++ [CoordinatorResource coordinator; WorkerResource worker]
      ++ shared_secrets r ++ [ClusterServiceResource service] ∧
    SVB_Name service = RoleInfo_GetFullName (mkRoleInfo (CR_ClusterInfo r) RoleCoordinator) ∧
    SVB_Ports service = [cluster_port r] ∧ SVB_Client service = CR_Client r.

Lemma ClusterReconciler_RegisterResources_returns r :
  returns (W:=W) (ClusterReconciler_RegisterResources r) (λ r', ∃ fqdn image (w w' : W),
    getCoordinatorSvcFqdn r w = (Val fqdn, w') ∧ GetImage r = Val image ∧
    registered r fqdn image r').
Proof.
  intros w r' w' Hrun. unfold ClusterReconciler_RegisterResources in Hrun.
  apply M_bind_Val in Hrun as (fqdn & w1 & Hfqdn & Hrun).
  apply M_bind_Val in Hrun as (image & w2 & Himage & Hrun). injection Himage as Himage <-.
  apply M_bind_Val in Hrun as (coordinator & w3 & Hcoordinator & Hrun).
  apply M_bind_Val in Hrun as (image' & w4 & Himage' & Hrun). injection Himage' as Himage' <-.
  apply M_bind_Val in Hrun as (worker & w5 & Hworker & Hrun).
  change (GetImage (CR_AddResource r (CoordinatorResource coordinator)))
    with (GetImage r) in Himage'. rewrite Himage in Himage'. injection Himage' as <-.
  exists fqdn, image, w, w1. split_and!; [done..|].
  change (cluster_tls _) with (cluster_tls r) in Hrun.
  exists coordinator, worker, w1, w3, w3, w5.
  unfold shared_secrets, cluster_port.
  destruct (cluster_tls r); injection Hrun as <- <-;
    [exists (cluster_service r (mkContainerPort "https" HttpsPort ""))
    |exists (cluster_service r (mkContainerPort "http" HttpPort ""))];
    split_and!; try done; simpl; by rewrite <-!(assoc_L (++)).
Qed.

Lemma getCoordinatorSvcFqdn_yields r coordinators :
  Spec_Coordinators (CR_Spec r) = Some coordinators →
  yields (W:=W) (getCoordinatorSvcFqdn r) (λ fqdn,
    let groups := contents (Coordinators_RoleGroups coordinators) in
    groups = ∅ ∧ fqdn = "" ∨
    ∃ name, is_Some (groups !! name) ∧ fqdn = coordinator_fqdn r name).
Proof.
  intros Hco. unfold getCoordinatorSvcFqdn. rewrite Hco.
  eapply yields_bind with (eq coordinators); [by eapply yields_lift|]. intros ? <-.
  destruct (Coordinators_RoleGroups coordinators) as [groups|]; simpl.
  - eapply yields_bind with (λ fqdns, ∃ entries,
      entries ≡ₚ map_to_list groups ∧ fqdns = (λ e, coordinator_fqdn r e.1) <$> entries).
    { eapply yields_bind; [apply range_yields|]. intros entries Hentries.
      apply yields_ret. by exists entries. }
    intros fqdns (entries & Hentries & ->). apply yields_ret.
    destruct entries as [|[name o] entries]; simpl.
    + left. split; [|done]. by apply map_to_list_empty_iff, Permutation_nil_r.
    + right. exists name. split; [|done]. exists o. apply elem_of_map_to_list.
      rewrite <-Hentries. apply elem_of_cons. by left.
  - eapply yields_bind with (eq []); [by apply yields_ret|]. intros ? <-.
    apply yields_ret. by left.
Qed.

(** The groups of a role that can all be registered. *)
Definition all_mergeable {T} `{!RoleSpec T} (spec : T) : Prop :=
  ∀ name o, contents (RoleGroups spec) !! name = Some o → mergeable spec o.

Lemma ClusterReconciler_RegisterResources_yields r image coordinators workers :
  Spec_Image (CR_Spec r) = Some image →
  Spec_Coordinators (CR_Spec r) = Some coordinators →
  Spec_Workers (CR_Spec r) = Some workers →
  all_mergeable coordinators → all_mergeable workers →
  yields (W:=W) (ClusterReconciler_RegisterResources r) (λ _, True).
Proof.
  intros Himage Hco Hwo Hmco Hmwo.
  unfold ClusterReconciler_RegisterResources, GetImage.
  eapply yields_bind; [by apply (getCoordinatorSvcFqdn_yields r coordinators)|]. intros fqdn _.
  rewrite Himage. eapply yields_bind with (λ _, True); [by eapply yields_lift|]. intros im _.
  eapply yields_bind; [by apply (RegisterResources_yields _ coordinators)|]. intros c _.
  cbn [CR_AddResource CR_Spec]. rewrite Himage.
  eapply yields_bind with (λ _, True); [by eapply yields_lift|]. intros im' _.
  eapply yields_bind; [by apply (RegisterResources_yields _ workers)|]. intros wo _.
  destruct (cluster_tls _); by apply yields_ret.
Qed.

(** C4: a cluster whose specification has its image and both roles, with
    mergeable role groups, registers its resources: the coordinators, the
    workers, the shared secret exactly when TLS is configured, and the
    service of the cluster on the port that TLS decides, in this order. The
    two roles get the same image and the same discovery address. *)
Theorem cluster_registers_resources r image coordinators workers :
  Spec_Image (CR_Spec r) = Some image →
  Spec_Coordinators (CR_Spec r) = Some coordinators →
  Spec_Workers (CR_Spec r) = Some workers →
  all_mergeable coordinators → all_mergeable workers →
  yields (W:=W) (ClusterReconciler_RegisterResources r) (λ r',
    ∃ coordinator worker service,
      CR_Resources r' = CR_Resources r
        ++ [CoordinatorResource coordinator; WorkerResource worker]
        ++ (if cluster_tls r then
              [SharedSecretResource
                 (NewInternalsharedSecretReconciler (CR_Client r) (CR_ClusterInfo r))]
            else [])
        ++ [ClusterServiceResource service] ∧
      RR_Image coordinator = RR_Image worker ∧
      RR_CoordiantorSvcFqdn coordinator = RR_CoordiantorSvcFqdn worker ∧
      SVB_Name service = RoleInfo_GetFullName (mkRoleInfo (CR_ClusterInfo r) RoleCoordinator) ∧
      SVB_Ports service = [if cluster_tls r then mkContainerPort "https" HttpsPort ""
                           else mkContainerPort "http" HttpPort ""]).
Proof.
  intros Himage Hco Hwo Hmco Hmwo w.
  destruct (ClusterReconciler_RegisterResources_yields r image coordinators workers
              Himage Hco Hwo Hmco Hmwo w) as (r' & w' & Hr' & _).
  exists r', w'. split; [done|].
  destruct (ClusterReconciler_RegisterResources_returns r w r' w' Hr')
    as (fqdn & im & _ & _ & _ & _ & c & wo & w1 & w1' & w2 & w2' & service & Hc & Hw & Hres
        & Hname & Hports & _).
  exists c, wo, service. split; [exact Hres|].
  destruct (RegisterResources_returns _ _ _ _ Hc) as (? & ? & ? & _ & _ & _ & Hsame & _).
  destruct (RegisterResources_returns _ _ _ _ Hw) as (? & ? & ? & _ & _ & _ & Hsame' & _).
  destruct Hsame as (_ & _ & _ & _ & _ & Him1 & Hf1).
  destruct Hsame' as (_ & _ & _ & _ & _ & Him2 & Hf2).
  rewrite Him1, Him2, Hf1, Hf2. by split_and!.
Qed.
End cluster.

(** ** The resources of a whole cluster *)

Section resources.
Context `{!ExtTypes, !Constants, !InfoApi, !ClientApi, !MergeApi, !ReconcilerApi, !ImageApi, !BuildVars}.
Implicit Types (r : ClusterReconciler).

Definition role_resources (x : ClusterResource) : list RoleResource :=
  match x with
  | CoordinatorResource c => RR_Resources c
  | WorkerResource c => RR_Resources c
  | _ => []
  end.
Definition all_role_resources r : list RoleResource := mjoin (role_resources <$> CR_Resources r).
Definition coordinator_resources r : list RoleResource :=
  mjoin ((λ x, if x is CoordinatorResource c then RR_Resources c else []) <$> CR_Resources r).
Definition secret_names r : list string :=
  mjoin ((λ x, if x is SharedSecretResource s then [SB_Name (ISS_Base (ISSR_Builder s))] else [])
           <$> CR_Resources r).

Lemma registered_role_resources `{!World W} r fqdn image r' :
  CR_Resources r = [] → registered (W:=W) r fqdn image r' →
  ∃ c w (w1 w1' w2 w2' : W),
    RoleReconciler_RegisterResources (new_coordinator r fqdn image) w1 = (Val c, w1') ∧
    RoleReconciler_RegisterResources (new_worker r fqdn image) w2 = (Val w, w2') ∧
    all_role_resources r' = RR_Resources c ++ RR_Resources w ∧
    coordinator_resources r' = RR_Resources c ∧
    secret_names r' =
      if cluster_tls r
      then [getInternalSharedSecretName (ClusterInfo_GetClusterName (CR_ClusterInfo r))]
      else [].
Proof.
  intros Hnil (c & w & w1 & w1' & w2 & w2' & service & Hc & Hw & Hres & _ & _ & _).
  exists c, w, w1, w1', w2, w2'.
  unfold all_role_resources, coordinator_resources, secret_names. rewrite Hres, Hnil.
  unfold shared_secrets. destruct (cluster_tls r); simpl; rewrite ?app_nil_r; by split_and!.
Qed.

(** The registered secrets: the builder of each starts empty, and each has the
    only name there is. *)
Lemma registered_secrets `{!World W} r fqdn image r' s :
  CR_Resources r = [] → registered (W:=W) r fqdn image r' →
  SharedSecretResource s ∈ CR_Resources r' →
  SB_Items (ISS_Base (ISSR_Builder s)) = [] ∧ cluster_tls r = true ∧
  secret_names r' = [SB_Name (ISS_Base (ISSR_Builder s))].
Proof.
  intros Hnil (c & w & w1 & w1' & w2 & w2' & service & _ & _ & Hres & _) Hs.
  unfold secret_names. rewrite Hres, Hnil in Hs |- *. unfold shared_secrets in *.
  destruct (cluster_tls r); set_unfold in Hs; [|naive_solver].
  assert (s = NewInternalsharedSecretReconciler (CR_Client r) (CR_ClusterInfo r)) as ->
    by naive_solver.
  done.
Qed.

(** Where a resource of a role comes from. *)
Lemma role_resource_group {T} `{!RoleSpec T} `{!World W, !RangeLaws W}
    (r0 rr : RoleReconciler T) (w w' : W) x :
  RR_Resources r0 = [] → RoleReconciler_RegisterResources r0 w = (Val rr, w') →
  x ∈ RR_Resources rr →
  ∃ name config overrides replicas l,
    registerResourceWithRoleGroup r0 (mkRoleGroupInfo (RR_RoleInfo r0) name) config overrides
      replicas = Val l ∧ x ∈ l.
Proof.
  intros Hnil Hrun Hx.
  destruct (RegisterResources_returns r0 w rr w' Hrun)
    as (spec & entries & ls & _ & _ & Hls & _ & Hres).
  rewrite Hres, Hnil in Hx. apply list_elem_of_join in Hx as (l & Hx & Hl).
  apply list_elem_of_lookup in Hl as [i Hi].
  destruct (Forall2_lookup_r _ _ _ _ _ Hls Hi) as ([name o] & _ & g & config & overrides & H').
  destruct H' as (_ & _ & _ & Hreg). by exists name, config, overrides, (RoleGroup_Replicas g), l.
Qed.

(** Every group of the specification is registered. *)
Lemma role_group_registered {T} `{!RoleSpec T} `{!World W, !RangeLaws W}
    (r0 rr : RoleReconciler T) (w w' : W) spec name :
  RR_Resources r0 = [] → RoleReconciler_RegisterResources r0 w = (Val rr, w') →
  RR_Spec r0 = Some spec → is_Some (contents (RoleGroups spec) !! name) →
  ∃ config overrides replicas l,
    registerResourceWithRoleGroup r0 (mkRoleGroupInfo (RR_RoleInfo r0) name) config overrides
      replicas = Val l ∧ ∀ x, x ∈ l → x ∈ RR_Resources rr.
Proof.
  intros Hnil Hrun Hspec [o Ho].
  destruct (RegisterResources_returns r0 w rr w' Hrun)
    as (spec' & entries & ls & Hspec' & Hentries & Hls & _ & Hres).
  rewrite Hspec in Hspec'. injection Hspec' as <-.
  assert (Hin : (name, o) ∈ entries) by (rewrite Hentries; by apply elem_of_map_to_list).
  apply list_elem_of_lookup in Hin as [i Hi].
  destruct (Forall2_lookup_l _ _ _ _ _ Hls Hi)
    as (l & Hl & g & config & overrides & _ & _ & _ & Hreg).
  exists config, overrides, (RoleGroup_Replicas g), l. split; [done|]. intros x Hx.
  rewrite Hres, Hnil. apply list_elem_of_join. exists l. split; [done|].
  by eapply list_elem_of_lookup_2.
Qed.

Lemma registered_statefulset {T} `{!RoleSpec T} `{!World W, !RangeLaws W, !InfoLaws}
    (r0 rr : RoleReconciler T) (w w' : W) ss :
  RR_Resources r0 = [] → RoleReconciler_RegisterResources r0 w = (Val rr, w') →
  StatefulSetResource ss ∈ RR_Resources rr →
  SS_ClusterConfig (SSR_Builder ss) = RR_ClusterConfig r0 ∧
  SS_ClusterName (SSR_Builder ss) = Info_ClusterName (Info_Cluster (RR_RoleInfo r0)).
Proof.
  intros Hnil Hrun Hss.
  destruct (role_resource_group r0 rr w w' _ Hnil Hrun Hss)
    as (name & config & overrides & replicas & l & Hl & Hin).
  unfold registerResourceWithRoleGroup in Hl. inv_step Hl. injection Hl as <-.
  injection Ha as <-. rewrite !elem_of_cons, elem_of_nil in Hin.
  destruct Hin as [?|[?|[?|[[= ->]|[ ] ] ] ] ]; [done..|]. simpl.
  split; [done|]. apply GetClusterName_group.
Qed.

Lemma registered_configmap {T} `{!RoleSpec T} `{!World W, !RangeLaws W}
    (r0 rr : RoleReconciler T) (w w' : W) client cm :
  RR_Resources r0 = [] → RoleReconciler_RegisterResources r0 w = (Val rr, w') →
  ConfigMapResource client cm ∈ RR_Resources rr →
  CM_ClusterConfig cm = RR_ClusterConfig r0 ∧
  CM_CoordiantorSvcFqdn cm = RR_CoordiantorSvcFqdn r0.
Proof.
  intros Hnil Hrun Hcm.
  destruct (role_resource_group r0 rr w w' _ Hnil Hrun Hcm)
    as (name & config & overrides & replicas & l & Hl & Hin).
  unfold registerResourceWithRoleGroup in Hl. inv_step Hl. injection Hl as <-.
  rewrite !elem_of_cons, elem_of_nil in Hin.
  destruct Hin as [[= -> ->]|[?|[?|[?|[ ] ] ] ] ]; done.
Qed.
End resources.

(** ** How the resources fit together *)

Section wiring.
Context `{!ExtTypes, !Constants, !PropertiesApi, !QuantityApi, !UtilApi, !InfoApi, !ClientApi,
          !MergeApi, !SecretApi, !StatefulSetApi, !ReconcilerApi, !ImageApi, !BuildVars}.
Context `{!PropertiesLaws, !PropertiesNilLaws, !SecretLaws}.
Context `{!World W, !RangeLaws W}.
Implicit Types (r : ClusterReconciler).

Lemma enabledTls_cluster (b : StatefulSetBuilder) r :
  SS_ClusterConfig b = CR_ClusterConfig r → SS_enabledTls b = cluster_tls r.
Proof. unfold SS_enabledTls, cluster_tls. by intros ->. Qed.

Lemma registered_config `{!InfoLaws} r fqdn image r' ss :
  CR_Resources r = [] → registered (W:=W) r fqdn image r' →
  StatefulSetResource ss ∈ all_role_resources r' →
  SS_ClusterConfig (SSR_Builder ss) = CR_ClusterConfig r ∧
  SS_ClusterName (SSR_Builder ss) = Info_ClusterName (CR_ClusterInfo r).
Proof.
  intros Hnil Hreg Hss.
  destruct (registered_role_resources r fqdn image r' Hnil Hreg)
    as (c & w & w1 & w1' & w2 & w2' & Hc & Hw & Hall & _).
  rewrite Hall in Hss. apply elem_of_app in Hss as [Hss|Hss].
  - apply (registered_statefulset (new_coordinator r fqdn image) _ _ _ _ eq_refl Hc Hss).
  - apply (registered_statefulset (new_worker r fqdn image) _ _ _ _ eq_refl Hw Hss).
Qed.

Lemma registered_tls r fqdn image r' client cm :
  CR_Resources r = [] → registered (W:=W) r fqdn image r' →
  ConfigMapResource client cm ∈ all_role_resources r' →
  CM_ClusterConfig cm = CR_ClusterConfig r ∧ CM_CoordiantorSvcFqdn cm = fqdn ∧
  CM_enabledTls cm = cluster_tls r.
Proof.
  intros Hnil Hreg Hcm.
  destruct (registered_role_resources r fqdn image r' Hnil Hreg)
    as (c & w & w1 & w1' & w2 & w2' & Hc & Hw & Hall & _).
  assert (CM_ClusterConfig cm = CR_ClusterConfig r ∧ CM_CoordiantorSvcFqdn cm = fqdn)
    as [Hcc Hcf].
  { rewrite Hall in Hcm. apply elem_of_app in Hcm as [Hcm|Hcm].
    - apply (registered_configmap (new_coordinator r fqdn image) _ _ _ _ _ eq_refl Hc Hcm).
    - apply (registered_configmap (new_worker r fqdn image) _ _ _ _ _ eq_refl Hw Hcm). }
  split_and!; [done..|]. unfold CM_enabledTls, cluster_tls. by rewrite Hcc.
Qed.

Lemma oidc_variables_own config v :
  v ∈ oidc_variables config →
  EnvVar_SecretName v = ClientCredentialsSecret config ∧
  EnvVar_Name v ≠ InternalSharedSecretEnvName.
Proof. unfold oidc_variables. rewrite !elem_of_cons, elem_of_nil. by intros [->|[->|[]]]. Qed.

(** C1: the secrets that the main container of a StatefulSet of a cluster takes
    its environment from are the one that the cluster registers, which it does
    exactly with TLS, and besides it only those that the OIDC entries of the
    authentication name.  The registered secret, once built, defines one
    variable; in the process that variable has the value of the secret, since
    the OIDC variables have other names, whatever their secrets hold; and it is
    the variable from which the configuration of every pod takes the secret of
    internal communication. *)
Theorem pods_read_registered_secret `{!InfoLaws} r :
  CR_Resources r = [] →
  returns (W:=W) (ClusterReconciler_RegisterResources r) (λ r',
    length (secret_names r') = (if cluster_tls r then 1 else 0) ∧
    (∀ ss, StatefulSetResource ss ∈ all_role_resources r' →
      returns (W:=W) (getMainContainer (SSR_Builder ss)) (λ c,
        container_env_from c = secret_names r' ∧
        ∀ v, v ∈ container_env_vars c →
          EnvVar_SecretName v ∈ ClientCredentialsSecret <$> oidc_configs (CR_ClusterConfig r))) ∧
    ∃ variable,
      (∀ s, SharedSecretResource s ∈ CR_Resources r' →
        returns (W:=W) (InternalSharedSecretBuilder_Build (ISSR_Builder s)) (λ obj,
          dom (Secret_Data obj) = {[variable]} ∧
          ∀ ss contents, StatefulSetResource ss ∈ all_role_resources r' →
            contents (SB_Name (ISS_Base (ISSR_Builder s))) = Secret_Data obj →
            returns (W:=W) (getMainContainer (SSR_Builder ss)) (λ c,
              container_environment contents c !! variable = Secret_Data obj !! variable))) ∧
      (∀ client cm, ConfigMapResource client cm ∈ all_role_resources r' →
        returns (W:=W) (getConfigProperties cm) (λ p,
          Properties_Get p "internal-communication.shared-secret" =
            if cluster_tls r then Some ("${ENV:" +:+ variable +:+ "}") else None))).
Proof.
  intros Hnil. eapply returns_mono; [apply ClusterReconciler_RegisterResources_returns|].
  intros r' (fqdn & image & _ & _ & _ & _ & Hreg).
  destruct (registered_role_resources r fqdn image r' Hnil Hreg)
    as (_ & _ & _ & _ & _ & _ & _ & _ & _ & _ & Hsecrets).
  assert (Henv : ∀ ss, StatefulSetResource ss ∈ all_role_resources r' →
    returns (W:=W) (getMainContainer (SSR_Builder ss)) (λ c,
      container_env_from c = secret_names r' ∧
      ∀ v, v ∈ container_env_vars c →
        ∃ config, config ∈ oidc_configs (CR_ClusterConfig r) ∧ v ∈ oidc_variables config)).
  { intros ss Hss. destruct (registered_config r fqdn image r' ss Hnil Hreg Hss) as [Hcc Hn].
    eapply returns_mono; [apply getMainContainer_environment|]. intros c [-> Hvars].
    by rewrite Hcc, (enabledTls_cluster _ r Hcc), Hn, Hsecrets, GetClusterName_cluster in *. }
  split; [rewrite Hsecrets; by destruct (cluster_tls r)|]. split.
  { intros ss Hss. eapply returns_mono; [by apply Henv|]. intros c [Hfrom Hvars].
    split; [done|]. intros v Hv. destruct (Hvars v Hv) as (config & Hc & Hin).
    destruct (oidc_variables_own config v Hin) as [-> _]. by apply list_elem_of_fmap_2. }
  exists InternalSharedSecretEnvName. split.
  - intros s Hs. destruct (registered_secrets r fqdn image r' s Hnil Hreg Hs) as (Hitems & _ & Hname).
    eapply returns_mono; [by apply secret_has_key|]. intros obj Hdom. split; [done|].
    intros ss contents Hss Hcontents. eapply returns_mono; [by apply Henv|].
    intros c [Hfrom Hvars]. rewrite container_environment_from.
    + rewrite Hfrom, Hname. simpl. by rewrite Hcontents, (right_id_L ∅ (∪)).
    + intros (v & Heq & Hv)%list_elem_of_fmap. destruct (Hvars v Hv) as (config & _ & Hin).
      by destruct (oidc_variables_own config v Hin) as [_ []].
  - intros client cm Hcm. eapply returns_mono; [apply shared_secret_setting|]. intros p ->.
    by destruct (registered_tls r fqdn image r' client cm Hnil Hreg Hcm) as (_ & _ & ->).
Qed.

(** C2: the discovery address in the configuration of every pod is the DNS
    name of the service of a registered coordinator group, with the scheme
    and the port of that service. *)
Theorem discovery_reaches_a_coordinator r coordinators :
  CR_Resources r = [] → Spec_Coordinators (CR_Spec r) = Some coordinators →
  contents (Coordinators_RoleGroups coordinators) ≠ ∅ →
  returns (W:=W) (ClusterReconciler_RegisterResources r) (λ r',
    ∃ service port,
      ServiceResource service ∈ coordinator_resources r' ∧ SVB_Ports service = [port] ∧
      ∀ client cm, ConfigMapResource client cm ∈ all_role_resources r' →
        getDiscoveryUri cm =
          Port_Name port +:+ "://"
            +:+ strings_Join [SVB_Name service; GetOwnerNamespace (CR_Client r);
                              "svc.cluster.local"] "."
            +:+ ":" +:+ Itoa (Port_Number port)).
Proof.
  intros Hnil Hco Hne. eapply returns_mono; [apply ClusterReconciler_RegisterResources_returns|].
  intros r' (fqdn & image & wf & wf' & Hfqdn & _ & Hreg).
  destruct (registered_role_resources r fqdn image r' Hnil Hreg)
    as (c & w & w1 & w1' & w2 & w2' & Hc & Hw & Hall & Hcoordinators & _).
  destruct (yields_returns _ _ (getCoordinatorSvcFqdn_yields r coordinators Hco) _ _ _ Hfqdn)
    as [[? _]|(name & Hname & Hf)]; [done|].
  destruct (role_group_registered (new_coordinator r fqdn image) c w1 w1' coordinators name
              eq_refl Hc Hco Hname) as (config & overrides & replicas & l & Hl & Hsub).
  unfold registerResourceWithRoleGroup in Hl. inv_step Hl. injection Hl as <-.
  exists (mkBaseService (CR_Client r)
            (RoleGroupInfo_GetFullName (coordinator_group_info r name))
            (role_ports (CR_ClusterConfig r))
            [λ o, mkServiceOptions (SBO_Headless o) (SBO_ListenerClass o)
               (RoleGroupInfo_GetClusterName (coordinator_group_info r name))
               (RoleGroupInfo_GetRoleName (coordinator_group_info r name))
               (RoleGroupInfo_GetGroupName (coordinator_group_info r name))
               (RoleGroupInfo_GetLabels (coordinator_group_info r name))
               (SBO_MatchingLabels o)
               (RoleGroupInfo_GetAnnotations (coordinator_group_info r name))]),
    (cluster_port r).
  split_and!.
  - rewrite Hcoordinators. apply Hsub. apply elem_of_cons. right. apply elem_of_cons. by left.
  - simpl. unfold role_ports, cluster_port, cluster_tls.
    destruct (CR_ClusterConfig r) as [cc|]; [by destruct (Tls cc)|done].
  - intros client cm Hcm. simpl.
    destruct (registered_tls r fqdn image r' client cm Hnil Hreg Hcm) as (_ & Hcf & Htls).
    unfold getDiscoveryUri. rewrite Hcf, Hf, Htls.
    unfold cluster_port. by destruct (cluster_tls r).
Qed.

(** C34: with more than one coordinator group the discovery address is the
    one of whichever group the iteration visits first: two iterations that
    start with different groups give different addresses. *)
Theorem discovery_depends_on_order `{!FullNameLaws} r coordinators groups
    (w1 w2 w1' w2' : W) n1 o1 l1 n2 o2 l2 :
  Spec_Coordinators (CR_Spec r) = Some coordinators →
  Coordinators_RoleGroups coordinators = Some groups →
  range_order groups w1 = ((n1, o1) :: l1, w1') →
  range_order groups w2 = ((n2, o2) :: l2, w2') →
  n1 ≠ n2 →
  ∃ f1 f2, getCoordinatorSvcFqdn r w1 = (Val f1, w1') ∧
           getCoordinatorSvcFqdn r w2 = (Val f2, w2') ∧ f1 ≠ f2.
Proof.
  intros Hco Hgroups Hw1 Hw2 Hne. exists (coordinator_fqdn r n1), (coordinator_fqdn r n2).
  unfold getCoordinatorSvcFqdn. rewrite Hco. split_and!.
  - unfold mbind, M_bind, lift. simpl. rewrite Hgroups. unfold range. by rewrite Hw1.
  - unfold mbind, M_bind, lift. simpl. rewrite Hgroups. unfold range. by rewrite Hw2.
  - unfold coordinator_fqdn. cbn [strings_Join]. intros Heq%str_app_inj_r.
    unfold coordinator_group_info in Heq. rewrite !GetFullName_group in Heq.
    apply str_app_inj_l in Heq. simpl in Heq. by injection Heq.
Qed.
End wiring.

(** ** A cluster without authentication *)

Section building.
Context `{!ExtTypes, !Constants, !PropertiesApi, !QuantityApi, !UtilApi, !InfoApi, !ClientApi,
          !MergeApi, !ConfigMapApi, !StatefulSetApi, !ReconcilerApi, !ImageApi, !BuildVars}.
Context `{!PropertiesLaws, !MarshalLaws, !QuantityLaws, !InfoLaws}.
Context `{!World W, !RangeLaws W}.
Implicit Types (r : ClusterReconciler).

(** C25: a complete specification without authentication is registered, in any
    state of the world and with any order of iteration; and then the ConfigMap
    of every role group whose memory limit is at least 1 MiB, and the
    StatefulSet of every role group, are built in any state of the world, as
    far as the operator is concerned: a ConfigMap ends as rendering the vector
    agent's file does, which is only rendered with log aggregation, and a
    StatefulSet as operator-go's [GetObject] does on the filled builder. *)
Theorem plain_cluster_builds r image coordinators workers :
  CR_Resources r = [] →
  Spec_Image (CR_Spec r) = Some image →
  Spec_Coordinators (CR_Spec r) = Some coordinators →
  Spec_Workers (CR_Spec r) = Some workers →
  all_mergeable coordinators → all_mergeable workers →
  no_authentication (CR_ClusterConfig r) →
  yields (W:=W) (ClusterReconciler_RegisterResources r) (λ r',
    (∀ client cm q w, ConfigMapResource client cm ∈ all_role_resources r' →
       heap_memory cm = Val q → (2 ^ 20 ≤ Quantity_Value q)%Z →
       ends_as (ConfigMapBuilder_Build cm) w (vector_text (W:=W) cm w)) ∧
    (∀ ss, StatefulSetResource ss ∈ all_role_resources r' →
       built_by_GetObject (W:=W) (SSR_Builder ss))).
Proof.
  intros Hnil Himage Hco Hwo Hmco Hmwo Hauth w.
  destruct (ClusterReconciler_RegisterResources_yields r image coordinators workers
              Himage Hco Hwo Hmco Hmwo w) as (r' & w' & Hrun & _).
  exists r', w'. split; [done|].
  destruct (ClusterReconciler_RegisterResources_returns r w r' w' Hrun)
    as (fqdn & im & _ & _ & _ & _ & Hreg). split.
  - intros client cm q w1 Hcm Hq Hv. apply (ConfigMap_ends cm q); [|done..].
    destruct (registered_tls r fqdn im r' client cm Hnil Hreg Hcm) as (Hcc & _).
    intros (_ & cc & Hcc' & [a Ha]). rewrite Hcc in Hcc'.
    by rewrite (Hauth cc Hcc') in Ha.
  - intros ss Hss. apply StatefulSet_ends.
    by destruct (registered_config r fqdn im r' ss Hnil Hreg Hss) as [-> _].
Qed.
End building.

(** ** The controller *)

Section controller.
Context `{!ExtTypes, !Constants, !InfoApi, !ClientApi, !MergeApi, !ReconcilerApi, !ImageApi, !BuildVars}.
Context `{!World W}.
Context (Run : ClusterReconciler → M W Result).

(** The reconciler of the cluster that was read. *)
Definition reconciler_of (instance : TrinoCluster) : ClusterReconciler :=
  NewClusterReconciler (mkClient _ instance)
    (mkClusterInfo (Cluster_GVK instance) (Cluster_Name instance)) (Cluster_Spec instance).

(** A reconciliation of a cluster that is gone succeeds and does nothing;
    another read error is returned, and nothing is registered; otherwise the
    resources run exactly when registering them succeeds, on what was
    registered, and its failure is the failure of the reconciliation. *)
Lemma Reconcile_outcomes key w err instance w1 :
  get_TrinoCluster key w = ((err, instance), w1) →
  TrinoReconciler_Reconcile Run key w =
    match err with
    | Some e => (if IgnoreNotFound e is Some _ then Err e else Val zero_Result, w1)
    | None =>
        match ClusterReconciler_RegisterResources (reconciler_of instance) w1 with
        | (Val r, w2) => Run r w2
        | (Err e, w2) => (Err e, w2)
        | (Panic p, w2) => (Panic p, w2)
        end
    end.
Proof.
  intros Hget. unfold TrinoReconciler_Reconcile.
  rewrite (M_bind_step _ _ _ _ _ (reading_run _ _ _ _ Hget)).
  destruct err as [e|]; [by destruct (IgnoreNotFound e)|done].
Qed.

(** The object that will own what a resource creates. *)
Definition resource_owner (x : ClusterResource) : TrinoCluster :=
  OwnerReference match x with
                 | CoordinatorResource c => RR_Client c
                 | WorkerResource c => RR_Client c
                 | SharedSecretResource c => ISSR_Client c
                 | ClusterServiceResource b => SVB_Client b
                 end.

Inductive resource_kind := Coordinators | Workers | SharedSecret | ClusterService.
Definition kind_of (x : ClusterResource) : resource_kind :=
  match x with
  | CoordinatorResource _ => Coordinators
  | WorkerResource _ => Workers
  | SharedSecretResource _ => SharedSecret
  | ClusterServiceResource _ => ClusterService
  end.

(** C30: the reconciliation of a cluster with a complete specification runs
    the resources of the cluster, and returns what they return: both roles,
    the secret exactly with TLS, and the service, in this order, all owned by
    the object that was read. *)
Theorem complete_cluster_runs `{!RangeLaws W} key w instance w1 image coordinators workers :
  get_TrinoCluster key w = ((None, instance), w1) →
  Spec_Image (Cluster_Spec instance) = Some image →
  Spec_Coordinators (Cluster_Spec instance) = Some coordinators →
  Spec_Workers (Cluster_Spec instance) = Some workers →
  all_mergeable coordinators → all_mergeable workers →
  ∃ r w2, TrinoReconciler_Reconcile Run key w = Run r w2 ∧
    kind_of <$> CR_Resources r =
      [Coordinators; Workers]
      ++ (if cluster_tls (reconciler_of instance) then [SharedSecret] else [])
      ++ [ClusterService] ∧
    Forall (λ x, resource_owner x = instance) (CR_Resources r).
Proof.
  intros Hget Himage Hco Hwo Hmco Hmwo. set (r0 := reconciler_of instance).
  destruct (ClusterReconciler_RegisterResources_yields r0 image coordinators workers
              Himage Hco Hwo Hmco Hmwo w1) as (r & w2 & Hrun & _).
  exists r, w2. rewrite (Reconcile_outcomes _ _ _ _ _ Hget). fold r0. rewrite Hrun. split; [done|].
  destruct (ClusterReconciler_RegisterResources_returns r0 w1 r w2 Hrun)
    as (fqdn & im & _ & _ & _ & _ & c & wo & wc & wc' & ww & ww' & service & Hc & Hw & Hres
        & _ & _ & Hclient).
  destruct (RegisterResources_returns _ _ _ _ Hc) as (? & ? & ? & _ & _ & _ & [Hcc _] & _).
  destruct (RegisterResources_returns _ _ _ _ Hw) as (? & ? & ? & _ & _ & _ & [Hwc _] & _).
  rewrite Hres. unfold shared_secrets.
  destruct (cluster_tls r0); (split; [done|]); repeat constructor;
    unfold resource_owner; by rewrite ?Hcc, ?Hwc, ?Hclient.
Qed.

(** A cluster without an image, which the API type allows, makes the
    reconciliation panic. *)
Lemma missing_image_panics key w instance coordinators w1 :
  get_TrinoCluster key w = ((None, instance), w1) →
  Spec_Image (Cluster_Spec instance) = None →
  Spec_Coordinators (Cluster_Spec instance) = Some coordinators →
  ∃ w', TrinoReconciler_Reconcile Run key w = (Panic NilDereference, w').
Proof.
  intros Hget Himage Hco. unfold TrinoReconciler_Reconcile.
  rewrite (M_bind_step _ _ _ _ _ (reading_run _ _ _ _ Hget)).
  unfold ClusterReconciler_RegisterResources, getCoordinatorSvcFqdn, GetImage.
  unfold mbind, M_bind, lift, range. cbn [CR_Spec NewClusterReconciler].
  rewrite Himage, Hco. cbn [deref].
  destruct (Coordinators_RoleGroups coordinators) as [groups|]; [|by eexists].
  destruct (range_order groups w1) as [l w']. by eexists.
Qed.
End controller.

(** ** Witnesses *)

Module ClusterWitnesses.
Import Concrete.

Definition two_groups : gmap string (option RoleGroupSpec) :=
  {["a" := Some role_group; "b" := Some role_group]}.
Definition coordinators : CoordinatorsSpec := mkCoordinatorsSpec (Some two_groups) base_role.
Definition workers : WorkersSpec := mkWorkersSpec (Some two_groups) base_role.
Definition image : ImageSpec := mkImageSpec "" "quay.io/zncdatadev" "0.0.0" "" "IfNotPresent" "".
Definition instance : TrinoCluster :=
  cluster_named "my-trino" (mkTrinoClusterSpec (Some cluster_config) None (Some image)
    (Some coordinators) (Some workers)).
Definition reconciler : ClusterReconciler := reconciler_of instance.

Lemma groups_mergeable {T} `{!RoleSpec T} (spec : T) :
  RoleGroups spec = Some two_groups → Role_Base spec = base_role → all_mergeable spec.
Proof.
  intros Hg Hb name o Ho. rewrite Hg in Ho. simpl in Ho.
  assert (o = Some role_group) as ->.
  { unfold two_groups in Ho. apply lookup_insert_Some in Ho as [[_ <-]|[_ Ho]]; [done|].
    by apply lookup_singleton_Some in Ho as [_ <-]. }
  do 3 eexists. rewrite Hb. split_and!; reflexivity.
Qed.

Lemma coordinators_mergeable : all_mergeable coordinators.
Proof. by apply groups_mergeable. Qed.
Lemma workers_mergeable : all_mergeable workers.
Proof. by apply groups_mergeable. Qed.

Lemma cluster_registers_resources_witness :
  ∃ r' w' coordinator worker secret service,
    ClusterReconciler_RegisterResources reconciler empty_world = (Val r', w') ∧
    CR_Resources r' = [CoordinatorResource coordinator; WorkerResource worker;
      SharedSecretResource secret; ClusterServiceResource service] ∧
    SVB_Ports service = [mkContainerPort "https" 8443 ""].
Proof.
  destruct (cluster_registers_resources (W:=world) reconciler image coordinators workers
              eq_refl eq_refl eq_refl coordinators_mergeable
              workers_mergeable empty_world)
    as (r' & w' & Hrun & c & wo & service & Hres & _ & _ & _ & Hports).
  exists r', w', c, wo. eexists _, service.
  split; [exact Hrun|]. split; [exact Hres|exact Hports].
Defined.

Definition run : outcome ClusterReconciler * world :=
  ClusterReconciler_RegisterResources reconciler empty_world.
Definition registered_cluster : ClusterReconciler := value_of run.1 reconciler.
Lemma registered_run :
  ClusterReconciler_RegisterResources reconciler empty_world = (Val registered_cluster, run.2).
Proof. apply run_value. vm_compute. reflexivity. Qed.

Definition shared_secret_reconciler : InternalSharedSecretReconciler :=
  NewInternalsharedSecretReconciler (CR_Client reconciler) (CR_ClusterInfo reconciler).
Definition shared_secret_built : SecretObject :=
  value_of (InternalSharedSecretBuilder_Build (ISSR_Builder shared_secret_reconciler)
              empty_world).1 ∅.

(** What the secrets hold once the shared one is written. *)
Definition stored_secrets (n : string) : gmap string string :=
  if decide (n = SB_Name (ISS_Base (ISSR_Builder shared_secret_reconciler)))
  then shared_secret_built else {["CLIENT_ID" := "trino"; "CLIENT_SECRET" := "s3cret"]}.

Lemma pods_read_registered_secret_witness :
  length (secret_names registered_cluster) = 1 ∧
  (∀ ss, StatefulSetResource ss ∈ all_role_resources registered_cluster →
    returns (W:=world) (getMainContainer (SSR_Builder ss)) (λ c,
      container_env_from c = secret_names registered_cluster ∧
      ∀ v, v ∈ container_env_vars c → EnvVar_SecretName v ∈ ["oidc-secret"])) ∧
  ∃ variable,
    is_Some (shared_secret_built !! variable) ∧
    (∀ ss, StatefulSetResource ss ∈ all_role_resources registered_cluster →
      returns (W:=world) (getMainContainer (SSR_Builder ss)) (λ c,
        container_environment stored_secrets c !! variable = shared_secret_built !! variable)) ∧
    ∀ c cm, ConfigMapResource c cm ∈ all_role_resources registered_cluster →
      returns (W:=world) (getConfigProperties cm) (λ p,
        Properties_Get p "internal-communication.shared-secret"
          = Some ("${ENV:" +:+ variable +:+ "}")).
Proof.
  destruct (pods_read_registered_secret reconciler eq_refl empty_world registered_cluster _
           registered_run) as (Hlen & Hss & variable & Hsecret & Hcm).
  split; [exact Hlen|]. split; [exact Hss|]. exists variable.
  destruct (Hsecret shared_secret_reconciler) with empty_world shared_secret_built
    (InternalSharedSecretBuilder_Build (ISSR_Builder shared_secret_reconciler) empty_world).2
    as [Hdom Henv].
  - apply list_elem_of_lookup. exists 2. reflexivity.
  - apply run_value. vm_compute. reflexivity.
  - split; [|split; [|exact Hcm]].
    + apply (elem_of_dom (D:=gset string) (Secret_Data shared_secret_built) variable).
      rewrite Hdom. by apply elem_of_singleton.
    + intros ss Hin. apply Henv; [exact Hin|reflexivity].
Defined.

Lemma discovery_reaches_a_coordinator_witness :
  ∃ service port,
    ServiceResource service ∈ coordinator_resources registered_cluster ∧
    SVB_Ports service = [port] ∧
    ∀ c cm, ConfigMapResource c cm ∈ all_role_resources registered_cluster →
      getDiscoveryUri cm =
        Port_Name port +:+ "://" +:+ strings_Join [SVB_Name service; "default"; "svc.cluster.local"] "."
          +:+ ":" +:+ Itoa (Port_Number port).
Proof.
  refine (discovery_reaches_a_coordinator reconciler coordinators eq_refl eq_refl _
           empty_world registered_cluster _ registered_run).
  intros Hempty. apply (f_equal (λ m : gmap string _, m !! "a")) in Hempty.
  vm_compute in Hempty. discriminate.
Defined.

Definition backwards_world : world := mkWorld true ∅ ∅ ∅ None.

Lemma discovery_depends_on_order_witness :
  ∃ f1 f2, getCoordinatorSvcFqdn reconciler empty_world = (Val f1, empty_world) ∧
    getCoordinatorSvcFqdn reconciler backwards_world = (Val f2, backwards_world) ∧ f1 ≠ f2.
Proof.
  exact (discovery_depends_on_order reconciler coordinators two_groups empty_world
    backwards_world empty_world backwards_world "a" (Some role_group) [("b", Some role_group)]
    "b" (Some role_group) [("a", Some role_group)] eq_refl eq_refl eq_refl eq_refl
    ltac:(discriminate)).
Defined.

Definition api_world : world := mkWorld false ∅ ∅ {["my-trino" := instance]} None.
Definition run_ok (r : ClusterReconciler) : M world Result := mret zero_Result.

Lemma complete_cluster_runs_witness :
  ∃ r w2, TrinoReconciler_Reconcile run_ok (mkObjectKey "default" "my-trino") api_world
      = run_ok r w2 ∧
    kind_of <$> CR_Resources r = [Coordinators; Workers; SharedSecret; ClusterService] ∧
    Forall (λ x, resource_owner x = instance) (CR_Resources r).
Proof.
  assert (Hget : get_TrinoCluster (mkObjectKey "default" "my-trino") api_world
    = ((None, instance), api_world)) by reflexivity.
  exact (complete_cluster_runs run_ok _ _ _ _ image coordinators workers Hget eq_refl eq_refl
           eq_refl coordinators_mergeable workers_mergeable).
Defined.

Lemma Val_inj {A W : Type} (a b : A) (w w' : W) : (Val a, w) = (Val b, w') → a = b.
Proof. congruence. Qed.

(** The same cluster without authentication. *)
Definition plain_config : ClusterConfigSpec :=
  mkClusterConfigSpec None None (Some catalog_properties) "cluster-internal"
    (Some (mkTlsSpec "tls" "tls")) "".
Definition plain_reconciler : ClusterReconciler :=
  reconciler_of (cluster_named "my-trino" (mkTrinoClusterSpec (Some plain_config) None (Some image)
    (Some coordinators) (Some workers))).
Definition plain_cluster : ClusterReconciler :=
  value_of (ClusterReconciler_RegisterResources plain_reconciler empty_world).1 plain_reconciler.

(** The memory of the first ConfigMap is large enough. *)
Definition first_memory : bool :=
  match all_role_resources plain_cluster with
  | ConfigMapResource _ cm :: _ =>
      match heap_memory cm with Val q => (2 ^ 20 <=? Quantity_Value q)%Z | _ => false end
  | _ => false
  end.
Lemma first_memory_enough : first_memory = true.
Proof. vm_compute. reflexivity. Qed.

Lemma plain_cluster_builds_witness :
  ∃ w' c cm, ClusterReconciler_RegisterResources plain_reconciler empty_world
      = (Val plain_cluster, w') ∧
    ConfigMapResource c cm ∈ all_role_resources plain_cluster ∧
    (∃ obj w'', ConfigMapBuilder_Build cm empty_world = (Val obj, w'')) ∧
    ∀ ss, StatefulSetResource ss ∈ all_role_resources plain_cluster →
      ∃ obj w'', StatefulSetBuilder_Build (SSR_Builder ss) empty_world = (Val obj, w'').
Proof.
  assert (Hrun : ClusterReconciler_RegisterResources plain_reconciler empty_world
    = (Val plain_cluster, (ClusterReconciler_RegisterResources plain_reconciler empty_world).2))
    by (apply run_value; vm_compute; reflexivity).
  destruct (plain_cluster_builds (W:=world) plain_reconciler image coordinators workers
    eq_refl eq_refl eq_refl eq_refl coordinators_mergeable workers_mergeable) with empty_world
    as (r' & w' & Hrun' & Hcms & Hsss).
  - intros c' [= <-]. reflexivity.
  - rewrite Hrun in Hrun'. assert (plain_cluster = r') as <- by exact (Val_inj _ _ _ _ Hrun').
    pose proof first_memory_enough as Hm. unfold first_memory in Hm.
    destruct (all_role_resources plain_cluster) as [|[c cm| | |] l]; [done| |done..].
    destruct (heap_memory cm) as [q| |] eqn:Hq; [|done..]. apply Z.leb_le in Hm.
    exists (ClusterReconciler_RegisterResources plain_reconciler empty_world).2, c, cm.
    split; [exact Hrun|]. split; [by constructor|]. split.
    + pose proof (Hcms c cm q empty_world ltac:(by constructor) Hq Hm) as Hends.
      unfold vector_text in Hends. destruct (CM_ClusterConfig cm) as [cc|]; [|exact Hends].
      destruct (decide (VectorAggregatorConfigMapName cc = "")); exact Hends.
    + intros ss Hin. destruct (Hsss ss Hin) as (claims & volumes & container & _ & _ & _ & Hends).
      exact (Hends empty_world).
Defined.
End ClusterWitnesses.
