(* ===== verification/Main.v ===== *)
(** * The program ([cmd/main.go])

    [init] registers the API types with the scheme; [main] parses the command
    line, turns its flags into the options of the controller manager and starts
    it.  The manager, and the flags that controller-runtime adds to the command
    line, are parameters. *)

From Stdlib Require Import ZArith.
From S2P Require Import Prelude GoRuntime GoJson Version GoFlag.

(** ** Flags *)

Record Flags := mkFlags {
  metricsAddr : string;
  probeAddr : string;
  enableLeaderElection : bool;
  secureMetrics : bool;
  webhookCertPath : string;
  webhookCertName : string;
  webhookCertKey : string;
  metricsCertPath : string;
  metricsCertName : string;
  metricsCertKey : string;
  enableHTTP2 : bool;
  showVersion : bool;
}.

Definition default_flags : Flags :=
  mkFlags "0" ":8081" false true "" "tls.crt" "tls.key" "" "tls.crt" "tls.key" false false.

Definition set_metricsAddr v f := mkFlags v (probeAddr f) (enableLeaderElection f)
  (secureMetrics f) (webhookCertPath f) (webhookCertName f) (webhookCertKey f) (metricsCertPath f)
  (metricsCertName f) (metricsCertKey f) (enableHTTP2 f) (showVersion f).
Definition set_probeAddr v f := mkFlags (metricsAddr f) v (enableLeaderElection f)
  (secureMetrics f) (webhookCertPath f) (webhookCertName f) (webhookCertKey f) (metricsCertPath f)
  (metricsCertName f) (metricsCertKey f) (enableHTTP2 f) (showVersion f).
Definition set_enableLeaderElection v f := mkFlags (metricsAddr f) (probeAddr f) v
  (secureMetrics f) (webhookCertPath f) (webhookCertName f) (webhookCertKey f) (metricsCertPath f)
  (metricsCertName f) (metricsCertKey f) (enableHTTP2 f) (showVersion f).
Definition set_secureMetrics v f := mkFlags (metricsAddr f) (probeAddr f)
  (enableLeaderElection f) v (webhookCertPath f) (webhookCertName f) (webhookCertKey f)
  (metricsCertPath f) (metricsCertName f) (metricsCertKey f) (enableHTTP2 f) (showVersion f).
Definition set_webhookCertPath v f := mkFlags (metricsAddr f) (probeAddr f)
  (enableLeaderElection f) (secureMetrics f) v (webhookCertName f) (webhookCertKey f)
  (metricsCertPath f) (metricsCertName f) (metricsCertKey f) (enableHTTP2 f) (showVersion f).
Definition set_webhookCertName v f := mkFlags (metricsAddr f) (probeAddr f)
  (enableLeaderElection f) (secureMetrics f) (webhookCertPath f) v (webhookCertKey f)
  (metricsCertPath f) (metricsCertName f) (metricsCertKey f) (enableHTTP2 f) (showVersion f).
Definition set_webhookCertKey v f := mkFlags (metricsAddr f) (probeAddr f)
  (enableLeaderElection f) (secureMetrics f) (webhookCertPath f) (webhookCertName f) v
  (metricsCertPath f) (metricsCertName f) (metricsCertKey f) (enableHTTP2 f) (showVersion f).
Definition set_metricsCertPath v f := mkFlags (metricsAddr f) (probeAddr f)
  (enableLeaderElection f) (secureMetrics f) (webhookCertPath f) (webhookCertName f)
  (webhookCertKey f) v (metricsCertName f) (metricsCertKey f) (enableHTTP2 f) (showVersion f).
Definition set_metricsCertName v f := mkFlags (metricsAddr f) (probeAddr f)
  (enableLeaderElection f) (secureMetrics f) (webhookCertPath f) (webhookCertName f)
  (webhookCertKey f) (metricsCertPath f) v (metricsCertKey f) (enableHTTP2 f) (showVersion f).
Definition set_metricsCertKey v f := mkFlags (metricsAddr f) (probeAddr f)
  (enableLeaderElection f) (secureMetrics f) (webhookCertPath f) (webhookCertName f)
  (webhookCertKey f) (metricsCertPath f) (metricsCertName f) v (enableHTTP2 f) (showVersion f).
Definition set_enableHTTP2 v f := mkFlags (metricsAddr f) (probeAddr f)
  (enableLeaderElection f) (secureMetrics f) (webhookCertPath f) (webhookCertName f)
  (webhookCertKey f) (metricsCertPath f) (metricsCertName f) (metricsCertKey f) v (showVersion f).
Definition set_showVersion v f := mkFlags (metricsAddr f) (probeAddr f)
  (enableLeaderElection f) (secureMetrics f) (webhookCertPath f) (webhookCertName f)
  (webhookCertKey f) (metricsCertPath f) (metricsCertName f) (metricsCertKey f) (enableHTTP2 f) v.

(** The calls of [flag.StringVar] and [flag.BoolVar], in order. *)
Definition own_flags : list (Flag Flags) := [
  StringVar "metrics-bind-address" set_metricsAddr;
  StringVar "health-probe-bind-address" set_probeAddr;
  BoolVar "leader-elect" set_enableLeaderElection;
  BoolVar "metrics-secure" set_secureMetrics;
  StringVar "webhook-cert-path" set_webhookCertPath;
  StringVar "webhook-cert-name" set_webhookCertName;
  StringVar "webhook-cert-key" set_webhookCertKey;
  StringVar "metrics-cert-path" set_metricsCertPath;
  StringVar "metrics-cert-name" set_metricsCertName;
  StringVar "metrics-cert-key" set_metricsCertKey;
  BoolVar "enable-http2" set_enableHTTP2;
  BoolVar "version" set_showVersion].

(** The other flags of the command line: those of [zap.Options.BindFlags] and
    [--kubeconfig] of controller-runtime.  They have options of their own. *)
Class OtherFlags := {
  OtherOptions : Type;
  other_defaults : OtherOptions;
  other_flags : list (Flag OtherOptions);
}.

Definition on_own {T} (f : Flag Flags) : Flag (Flags * T) :=
  mkFlag (Flag_Name f) (Flag_IsBool f) (λ v s, o ← Flag_Set f v s.1; Some (o, s.2)).
Definition on_other {T} (f : Flag T) : Flag (Flags * T) :=
  mkFlag (Flag_Name f) (Flag_IsBool f) (λ v s, o ← Flag_Set f v s.2; Some (s.1, o)).

Definition command_line `{!OtherFlags} : list (Flag (Flags * OtherOptions)) :=
  (on_own <$> own_flags) ++ (on_other <$> other_flags).

(** [flag.Parse()] *)
Definition parse_flags `{!OtherFlags} (args : list string) : parse_result (Flags * OtherOptions) :=
  parse command_line (default_flags, other_defaults) args.

(** ** Options of the manager *)

Section options.
(** [tls.Config]: the protocols offered to clients, and the rest. *)
Context {TlsRest : Type}.

Record TlsConfig := mkTlsConfig {
  NextProtos : list string;
  Tls_rest : TlsRest;
}.

(** A function that updates the configuration it is given. *)
Definition TlsOption : Type := TlsConfig → TlsConfig.

Record WebhookOptions := mkWebhookOptions {
  Webhook_TLSOpts : list TlsOption;
  Webhook_CertDir : string;
  Webhook_CertName : string;
  Webhook_KeyName : string;
}.

Record MetricsOptions := mkMetricsOptions {
  Metrics_BindAddress : string;
  Metrics_SecureServing : bool;
  Metrics_TLSOpts : list TlsOption;
  (** Whether [FilterProvider] is [filters.WithAuthenticationAndAuthorization]. *)
  Metrics_Authenticated : bool;
  Metrics_CertDir : string;
  Metrics_CertName : string;
  Metrics_KeyName : string;
}.

Record ManagerOptions := mkManagerOptions {
  Manager_Metrics : MetricsOptions;
  Manager_HealthProbeBindAddress : string;
  Manager_LeaderElection : bool;
  Manager_WebhookServer : WebhookOptions;
  Manager_LeaderElectionID : string;
}.

Definition disableHTTP2 : TlsOption := λ c, mkTlsConfig ["http/1.1"] (Tls_rest c).

Definition tlsOpts (f : Flags) : list TlsOption :=
  if enableHTTP2 f then [] else [disableHTTP2].

Definition webhookServerOptions (f : Flags) : WebhookOptions :=
  let o := mkWebhookOptions (tlsOpts f) "" "" "" in
  if 0 <? String.length (webhookCertPath f) then
    mkWebhookOptions (Webhook_TLSOpts o) (webhookCertPath f) (webhookCertName f) (webhookCertKey f)
  else o.

Definition metricsServerOptions (f : Flags) : MetricsOptions :=
  let o := mkMetricsOptions (metricsAddr f) (secureMetrics f) (tlsOpts f) false "" "" "" in
  let o := if secureMetrics f then
             mkMetricsOptions (Metrics_BindAddress o) (Metrics_SecureServing o) (Metrics_TLSOpts o)
               true (Metrics_CertDir o) (Metrics_CertName o) (Metrics_KeyName o)
           else o in
  if 0 <? String.length (metricsCertPath f) then
    mkMetricsOptions (Metrics_BindAddress o) (Metrics_SecureServing o) (Metrics_TLSOpts o)
      (Metrics_Authenticated o) (metricsCertPath f) (metricsCertName f) (metricsCertKey f)
  else o.

Definition managerOptions (f : Flags) : ManagerOptions :=
  mkManagerOptions (metricsServerOptions f) (probeAddr f) (enableLeaderElection f)
    (webhookServerOptions f) "284d6bfa.kubedoop.dev".

(** ** The run *)

(** controller-runtime: the configuration of the client (the process exits
    with status 1 without one: [None]), and the manager's methods. *)
Class ManagerApi (W : Type) := {
  RestConfig : Type;
  Manager : Type;
  GetConfigOrDie : W → option RestConfig * W;
  NewManager : RestConfig → ManagerOptions → W → outcome Manager * W;
  SetupWithManager : Manager → W → outcome unit * W;
  AddHealthzCheck : Manager → string → W → outcome unit * W;
  AddReadyzCheck : Manager → string → W → outcome unit * W;
  Manager_Start : Manager → W → outcome unit * W;
  (** [fmt.Println] *)
  Println : string → W → W;
  (** [utilruntime.Must] of [AddToScheme] of the package of that name, on the
      scheme of the program: it may panic. *)
  Must_AddToScheme : string → W → option panic_reason * W;
}.

Inductive ending := Returned | Exited (status : Z) | Crashed (p : panic_reason).

Context `{!ManagerApi W, !BuildVars, !RuntimeInfo, !OtherFlags}.

(** [if err != nil { os.Exit(1) }] after a call. *)
Definition or_exit {A} (call : W → outcome A * W) (next : A → W → ending * W) (w : W)
    : ending * W :=
  match call w with
  | (Val a, w') => next a w'
  | (Err _, w') => (Exited 1, w')
  | (Panic p, w') => (Crashed p, w')
  end.

(** A call that returns nothing or panics, and what follows it. *)
Definition or_crash (call : W → option panic_reason * W) (next : W → ending * W) (w : W)
    : ending * W :=
  match call w with
  | (None, w') => next w'
  | (Some p, w') => (Crashed p, w')
  end.

Definition init (next : W → ending * W) : W → ending * W :=
  or_crash (Must_AddToScheme "clientgoscheme") (
  or_crash (Must_AddToScheme "authv1alpha1") (
  or_crash (Must_AddToScheme "trinov1alpha1") next)).

(** [main] once the manager is created: the controller, the checks, the start. *)
Definition serve (mgr : Manager) : W → ending * W :=
  or_exit (SetupWithManager mgr) (λ _,
  or_exit (AddHealthzCheck mgr "healthz") (λ _,
  or_exit (AddReadyzCheck mgr "readyz") (λ _,
  or_exit (Manager_Start mgr) (λ _ w, (Returned, w))))).

(** [main] after [flag.Parse()]. *)
Definition run (f : Flags) (w : W) : ending * W :=
  if showVersion f then
    (Exited 0, Println (AppInfo_String (NewAppInfo "trino-operator")) w)
  else
    match GetConfigOrDie w with
    | (None, w) => (Exited 1, w)
    | (Some config, w) =>
        or_exit (NewManager config (managerOptions f)) serve w
    end.

Definition main (args : list string) (w : W) : ending * W :=
  match parse_flags args with
  | Parsed (f, _) _ => run f w
  | Help => (Exited 0, w)
  | Failed _ => (Exited 2, w)
  end.

(** The process. *)
Definition program (args : list string) : W → ending * W := init (main args).
End options.
Arguments TlsConfig : clear implicits.
Arguments ManagerOptions : clear implicits.
Arguments ManagerApi : clear implicits.

(** ** What the flags guarantee *)

Section facts.
Context {TlsRest : Type}.
Implicit Types (f : Flags) (c : TlsConfig TlsRest).

(** The configuration that a server ends up with. *)
Definition configured (opts : list TlsOption) c : TlsConfig TlsRest := foldl (λ c o, o c) c opts.

(** The flags written out as arguments, one each. *)
Definition format_bool (b : bool) : string := if b then "true" else "false".
Definition render f : list string := [
  set_argument "metrics-bind-address" (metricsAddr f);
  set_argument "health-probe-bind-address" (probeAddr f);
  set_argument "leader-elect" (format_bool (enableLeaderElection f));
  set_argument "metrics-secure" (format_bool (secureMetrics f));
  set_argument "webhook-cert-path" (webhookCertPath f);
  set_argument "webhook-cert-name" (webhookCertName f);
  set_argument "webhook-cert-key" (webhookCertKey f);
  set_argument "metrics-cert-path" (metricsCertPath f);
  set_argument "metrics-cert-name" (metricsCertName f);
  set_argument "metrics-cert-key" (metricsCertKey f);
  set_argument "enable-http2" (format_bool (enableHTTP2 f));
  set_argument "version" (format_bool (showVersion f))].

Section flags.
Context `{!OtherFlags}.

Lemma find_own n (fl : Flag Flags) :
  find_flag own_flags n = Some fl → find_flag command_line n = Some (on_own fl).
Proof.
  unfold find_flag, command_line. intros ([i fl'] & Hfind & Hf)%fmap_Some.
  simpl in Hf. subst fl'. erewrite list_find_app_l; [done|].
  rewrite list_find_fmap.
  erewrite (list_find_ext _ (λ g, Flag_Name g = n)); [by rewrite Hfind|done].
Qed.

Lemma parse_own n v rest (fl : Flag Flags) s s' :
  flag_name n → find_flag own_flags n = Some fl → Flag_Set fl v s.1 = Some s' →
  parse command_line s (set_argument n v :: rest) = parse command_line (s', s.2) rest.
Proof.
  intros Hn Hf Hset. apply (parse_set _ _ _ _ _ (on_own fl)); [done|by apply find_own|].
  simpl. by rewrite Hset.
Qed.

Lemma ParseBool_format b : ParseBool (format_bool b) = Some b.
Proof. by destruct b. Qed.

(** C29: any values of the flags can be given on the command line: written out as
    [--name=value] they are parsed to exactly these values, whatever the
    values are, and the flags of other packages keep their defaults; without
    arguments every flag has its default. *)
Theorem flags_roundtrip f :
  parse_flags (render f) = Parsed (f, other_defaults) [] ∧
  parse_flags [] = Parsed (default_flags, other_defaults) [].
Proof.
  split; [|done]. unfold parse_flags, render.
  repeat (erewrite parse_own;
    [|by vm_compute|reflexivity|simpl; rewrite ?ParseBool_format; reflexivity]).
  by destruct f.
Qed.
End flags.

Context `{!ManagerApi TlsRest W, !BuildVars, !RuntimeInfo, !OtherFlags}.

Lemma or_exit_Returned {A} (call : W → outcome A * W) next w w' :
  or_exit call next w = (Returned, w') →
  ∃ a w1, call w = (Val a, w1) ∧ next a w1 = (Returned, w').
Proof. unfold or_exit. destruct (call w) as [[a| |] w1]; [eauto|done..]. Qed.

Lemma run_endings f w ending w' :
  run (W:=W) f w = (ending, w') →
  match ending with
  | Returned => showVersion f = false ∧
      ∃ config mgr w0 w1 w2 w3 w4,
        GetConfigOrDie w = (Some config, w0) ∧
        NewManager config (managerOptions f) w0 = (Val mgr, w1) ∧
        SetupWithManager mgr w1 = (Val (), w2) ∧
        AddHealthzCheck mgr "healthz" w2 = (Val (), w3) ∧
        AddReadyzCheck mgr "readyz" w3 = (Val (), w4) ∧
        Manager_Start mgr w4 = (Val (), w')
  | Exited status =>
      if showVersion f
      then status = 0%Z ∧ w' = Println (AppInfo_String (NewAppInfo "trino-operator")) w
      else status = 1%Z
  | Crashed _ => showVersion f = false
  end.
Proof.
  intros Hrun. destruct ending as [|status|p].
  - unfold run in Hrun. destruct (showVersion f); [done|]. split; [done|].
    destruct (GetConfigOrDie w) as [[config|] w0]; [|done]. unfold serve in Hrun.
    repeat match goal with
           | H : or_exit _ _ _ = _ |- _ => apply or_exit_Returned in H as (? & ? & ? & H)
           | u : () |- _ => destruct u
           end.
    simplify_eq. by do 7 eexists.
  - unfold run, serve, or_exit in Hrun. by repeat case_match; simplify_eq.
  - unfold run in Hrun. by destruct (showVersion f).
Qed.

(** The certificate that a server is given: directory, and names of the
    certificate and of the key in it. *)
Definition certificate (path name key : string) : string * string * string :=
  if decide (path = "") then ("", "", "") else (path, name, key).

Lemma server_certificates f :
  let webhook := Manager_WebhookServer (managerOptions (TlsRest:=TlsRest) f) in
  let metrics := Manager_Metrics (managerOptions (TlsRest:=TlsRest) f) in
  (Webhook_CertDir webhook, Webhook_CertName webhook, Webhook_KeyName webhook)
    = certificate (webhookCertPath f) (webhookCertName f) (webhookCertKey f) ∧
  (Metrics_CertDir metrics, Metrics_CertName metrics, Metrics_KeyName metrics)
    = certificate (metricsCertPath f) (metricsCertName f) (metricsCertKey f).
Proof.
  unfold managerOptions, webhookServerOptions, metricsServerOptions, certificate. simpl.
  destruct (webhookCertPath f), (metricsCertPath f), (secureMetrics f); by split.
Qed.

Lemma server_protocols f c :
  let webhook := configured (Webhook_TLSOpts (Manager_WebhookServer (managerOptions f))) c in
  let metrics := configured (Metrics_TLSOpts (Manager_Metrics (managerOptions f))) c in
  webhook = (if enableHTTP2 f then c else disableHTTP2 c) ∧ metrics = webhook.
Proof.
  unfold managerOptions, webhookServerOptions, metricsServerOptions, tlsOpts. simpl.
  by destruct (enableHTTP2 f), (secureMetrics f), (webhookCertPath f), (metricsCertPath f).
Qed.

(** C39: the servers of a process whose command line is read as the flags [f]
    are configured by these flags.  After the client configuration, the
    process creates a manager with options [o] and serves, where: unless
    HTTP/2 is enabled, the webhook server and the metrics server both offer
    HTTP/1.1 only, whatever TLS configuration they start from, and nothing
    else of it changes; a server has the directory, the certificate and the
    key of its own three flags when its directory is given, and else none; the
    metrics are behind authentication exactly when they are served over TLS;
    addresses and leader election are those of their flags. *)
Theorem servers_follow_flags args f other rest config w w0 :
  parse_flags args = Parsed (f, other) rest → showVersion f = false →
  GetConfigOrDie w = (Some config, w0) →
  ∃ o, main (W:=W) args w = or_exit (NewManager config o) serve w0 ∧
    (∀ c, let webhook := configured (Webhook_TLSOpts (Manager_WebhookServer o)) c in
          let metrics := configured (Metrics_TLSOpts (Manager_Metrics o)) c in
          (if enableHTTP2 f then webhook = c ∧ metrics = c
           else NextProtos webhook = ["http/1.1"] ∧ NextProtos metrics = ["http/1.1"] ∧
                Tls_rest webhook = Tls_rest c ∧ Tls_rest metrics = Tls_rest c)) ∧
    (Webhook_CertDir (Manager_WebhookServer o), Webhook_CertName (Manager_WebhookServer o),
     Webhook_KeyName (Manager_WebhookServer o))
      = certificate (webhookCertPath f) (webhookCertName f) (webhookCertKey f) ∧
    (Metrics_CertDir (Manager_Metrics o), Metrics_CertName (Manager_Metrics o),
     Metrics_KeyName (Manager_Metrics o))
      = certificate (metricsCertPath f) (metricsCertName f) (metricsCertKey f) ∧
    Metrics_SecureServing (Manager_Metrics o) = secureMetrics f ∧
    Metrics_Authenticated (Manager_Metrics o) = secureMetrics f ∧
    Metrics_BindAddress (Manager_Metrics o) = metricsAddr f ∧
    Manager_HealthProbeBindAddress o = probeAddr f ∧
    Manager_LeaderElection o = enableLeaderElection f.
Proof.
  intros Hparse Hversion Hconfig. exists (managerOptions f).
  split; [unfold main, run; by rewrite Hparse, Hversion, Hconfig|].
  split; [intros c; cbv zeta; destruct (server_protocols f c) as [-> ->]; by destruct (enableHTTP2 f)|].
  destruct (server_certificates f) as [Hwebhook Hmetrics]. split_and!; [done..| | | | |];
    unfold managerOptions, metricsServerOptions; simpl;
    by destruct (secureMetrics f), (metricsCertPath f).
Qed.

(** C40: the program ends normally only after the manager, created with the
    options of the parsed flags, had the controller and both checks registered
    and was started, in this order, without an error.  Every failure on the
    way ends the process with status 1, [--version] with status 0 once its
    line is printed, [--help] with 0 and a wrong command line with 2 before
    anything is done. *)
Theorem main_endings args w ending w' :
  main (W:=W) args w = (ending, w') →
  match parse_flags args with
  | Help => ending = Exited 0 ∧ w' = w
  | Failed _ => ending = Exited 2 ∧ w' = w
  | Parsed (f, _) _ =>
      match ending with
      | Returned => showVersion f = false ∧
          ∃ config mgr w0 w1 w2 w3 w4,
            GetConfigOrDie w = (Some config, w0) ∧
            NewManager config (managerOptions f) w0 = (Val mgr, w1) ∧
            SetupWithManager mgr w1 = (Val (), w2) ∧
            AddHealthzCheck mgr "healthz" w2 = (Val (), w3) ∧
            AddReadyzCheck mgr "readyz" w3 = (Val (), w4) ∧
            Manager_Start mgr w4 = (Val (), w')
      | Exited status =>
          if showVersion f
          then status = 0%Z ∧ w' = Println (AppInfo_String (NewAppInfo "trino-operator")) w
          else status = 1%Z
      | Crashed _ => showVersion f = false
      end
  end.
Proof.
  unfold main. destruct (parse_flags args) as [[f o] rest| |msg].
  - apply run_endings.
  - by intros [= <- <-].
  - by intros [= <- <-].
Qed.

(** A scheme that refuses a type stops the process before [main]. *)
Lemma program_needs_scheme args w :
  (∃ p w', program (W:=W) args w = (Crashed p, w')) ∨
  ∃ w1 w2 w3, Must_AddToScheme "clientgoscheme" w = (None, w1) ∧
    Must_AddToScheme "authv1alpha1" w1 = (None, w2) ∧
    Must_AddToScheme "trinov1alpha1" w2 = (None, w3) ∧ program args w = main args w3.
Proof.
  unfold program, init, or_crash.
  destruct (Must_AddToScheme "clientgoscheme" w) as [[p|] w1]; [eauto|].
  destruct (Must_AddToScheme "authv1alpha1" w1) as [[p|] w2] eqn:H2; [eauto|].
  destruct (Must_AddToScheme "trinov1alpha1" w2) as [[p|] w3] eqn:H3; [eauto|].
  right. by exists w1, w2, w3.
Qed.
End facts.

(** ** Witnesses *)

Module MainWitnesses.

(** A manager that logs what is asked of it. *)
Instance logging_manager : ManagerApi unit (list string) := {|
  RestConfig := unit;
  Manager := bool;
  GetConfigOrDie w := (Some (), w);
  NewManager _ o w := (Val (Manager_LeaderElection o), w ++ ["manager"]);
  SetupWithManager _ w := (Val (), w ++ ["setup"]);
  AddHealthzCheck _ n w := (Val (), w ++ [n]);
  AddReadyzCheck _ n w := (Val (), w ++ [n]);
  Manager_Start _ w := (Val (), w ++ ["start"]);
  Println s w := w ++ [s];
  Must_AddToScheme n w := (None, w ++ [n]);
|}.

Instance no_other_flags : OtherFlags :=
  {| OtherOptions := unit; other_defaults := (); other_flags := [] |}.
Instance linux : RuntimeInfo :=
  {| runtime_Version := "go1.25.8"; runtime_Compiler := "gc"; GOOS := "linux"; GOARCH := "amd64" |}.
#[local] Existing Instance source_BuildVars.

Definition certificate_arguments : list string :=
  ["--metrics-cert-path"; "/certs"; "-metrics-cert-key=metrics.key"; "--webhook-cert-name=x.crt"].

Lemma servers_follow_flags_witness :
  ∃ o : ManagerOptions unit,
    main certificate_arguments [] = or_exit (NewManager () o) serve [] ∧
    NextProtos (configured (Metrics_TLSOpts (Manager_Metrics o)) (mkTlsConfig ["h2"] ()))
      = ["http/1.1"] ∧
    (Metrics_CertDir (Manager_Metrics o), Metrics_CertName (Manager_Metrics o),
     Metrics_KeyName (Manager_Metrics o)) = ("/certs", "tls.crt", "metrics.key") ∧
    Webhook_CertName (Manager_WebhookServer o) = "".
Proof.
  assert (Hparse : ∃ f, parse_flags certificate_arguments = Parsed (f, ()) [] ∧
    showVersion f = false ∧ enableHTTP2 f = false ∧ webhookCertPath f = "" ∧
    certificate (metricsCertPath f) (metricsCertName f) (metricsCertKey f)
      = ("/certs", "tls.crt", "metrics.key")) by (eexists; split_and!; reflexivity).
  destruct Hparse as (f & Hparse & Hversion & Hhttp & Hwebhook & Hmetrics).
  assert (Hconfig : GetConfigOrDie (ManagerApi:=logging_manager) [] = (Some (), []))
    by reflexivity.
  destruct (servers_follow_flags (TlsRest:=unit) (W:=list string) certificate_arguments f _ [] _ [] []
              Hparse Hversion Hconfig) as (o & Hmain & Hprotos & Hw & Hm & _).
  exists o. specialize (Hprotos (mkTlsConfig ["h2"] ())). cbv zeta in Hprotos.
  rewrite Hhttp in Hprotos. unfold certificate in Hw. rewrite Hwebhook in Hw.
  rewrite decide_True in Hw by done. injection Hw as _ Hname _.
  split_and!; [exact Hmain|apply Hprotos|by rewrite Hm|exact Hname].
Defined.

Definition trace : list string := ["manager"; "setup"; "healthz"; "readyz"; "start"].

Lemma main_endings_witness :
  main (TlsRest:=unit) ["--leader-elect"; "-metrics-cert-path"; "/certs"] [] = (Returned, trace) ∧
  ∃ (mgr : bool) w4, Manager_Start mgr w4 = (Val (), trace).
Proof.
  assert (Hrun : main (TlsRest:=unit) ["--leader-elect"; "-metrics-cert-path"; "/certs"] []
                 = (Returned, trace)) by reflexivity.
  split; [exact Hrun|].
  destruct (main_endings _ _ _ _ Hrun)
    as (_ & config & mgr & w0 & w1 & w2 & w3 & w4 & _ & _ & _ & _ & _ & Hstart).
  exists mgr, w4. exact Hstart.
Defined.

(** What [--version] prints in a build without the linker's flags. *)
Example version_printed :
  parse_object <$> (main (TlsRest:=unit) ["--version"] []).2
  = [Some [("AppName", "trino-operator"); ("AppVersion", "N/A"); ("BuildTime", "N/A");
           ("GitCommit", "N/A"); ("GoVersion", "go1.25.8"); ("Compiler", "gc");
           ("Platform", "linux/amd64")]].
Proof. by vm_compute. Qed.

Example unknown_flag_refused : (main (TlsRest:=unit) ["--leader-elect=maybe"] []).1 = Exited 2.
Proof. by vm_compute. Qed.
End MainWitnesses.
